(* ===== verification/_CoqProject ===== *)
-Q . S2P
Prelude.v
GoError.v
Nfs4Const.v
GoIO.v
Xdr.v
XdrSpec.v
XdrCorrect.v
Rpc.v
RpcCorrect.v
RpcClient.v
RpcClientCorrect.v
RpcShared.v
RpcSharedCorrect.v
Attr.v
AttrCorrect.v
Nfs4Types.v
Nfs4Args.v
Nfs4Res.v
Compound.v
Nfs4Spec.v
Nfs4ResSpec.v
CompoundCorrect.v
Session.v
SessionCorrect.v
Caller.v
Conn.v
CallerCorrect.v
ConnSpec.v
Wire.v
WireCorrect.v
ConnCorrect.v
OpenOwner.v
MountCorrect.v
DialCorrect.v
GoPath.v
Fs.v
FsSpec.v
FsCorrect.v
DirCorrect.v
File.v
FileSpec.v
FileCorrect.v
FileOpenCorrect.v
ReadAllCorrect.v
FileShared.v
FileSharedCorrect.v
FileCloseCorrect.v
FileParallelCorrect.v
FsErrors.v
Lease.v
LeaseCorrect.v
LeaseStop.v
LeaseStopCorrect.v
Client.v
ClientSpec.v
WireStore.v
DemoServer.v
ClientCorrect.v
SharedDemo.v
WireStoreCorrect.v
