(* ===== verification/Prelude.v ===== *)
(** * go-nfs-client: a verification development

    The program is an NFSv4 client: package xdr encodes and decodes XDR, package
    rpc frames ONC RPC messages on a TCP connection and matches replies to
    calls, package nfs4 builds COMPOUND requests and runs the protocol (v4.0
    client ids, v4.1 sessions, retries, open state), package client presents a
    mounted export as a file system.

    ** Layers and files

    - This file: bytes and machine integers, lists measured in Z, automation.
      Machine integers are values of Z that every operation wraps ([u32], [u64],
      [i64]); byte strings are lists of bytes.
    - GoError, GoIO: Go's error values with [errors.Is] and [errors.As]; readers
      that deliver a stream in arbitrary pieces and then an error, writers that
      fail after a budget.
    - Xdr (src/xdr): [Encoder] and [Decoder] with their sticky errors.  XdrSpec
      holds the laws everything above composes: [emits enc bs], an encoder that
      appends exactly [bs], and [parses dec bs v], a decoder that takes exactly
      [bs] off its input and yields [v].  XdrCorrect: round trips, truncated
      input, broken writers.
    - Rpc (src/rpc/record.go, message.go, auth.go) and RpcClient
      (src/rpc/client.go); RpcCorrect and RpcClientCorrect: framing in both
      directions, whatever the fragments and segments; headers; a call succeeds
      exactly on a matching successful reply.  RpcShared has the goroutines that
      share a client, their round trips and their contexts as interleaved
      actions; RpcSharedCorrect: every interleaving is a sequence of whole calls,
      and each call gets the reply to its own transaction id.
    - Attr (src/nfs4/attr) and AttrCorrect: bitmaps as sets of numbers, fattr4
      both ways, file modes, statistics.
    - Nfs4Const, Nfs4Types, Nfs4Args, Nfs4Res (src/nfs4/consts.go, types.go,
      ops.go, writeops.go, sessionops.go): the operations as the sum [Arg] and
      their results as the sum [Res]; Go's interfaces [Arg] and [Res] are closed
      in the package, so a sum loses nothing.  Compound (compound.go).
    - Nfs4Spec and Nfs4ResSpec: the wire forms of the protocol, [wire_arg] and
      [wire_resop], written independently of the codecs, with a server that
      reads what the client sends and what a server may answer ([Reply]).
      CompoundCorrect: requests and replies round trip through them.
    - Session (session.go): the slot table; its operations are cut where another
      goroutine can run, and SessionCorrect has the step relation of any number
      of goroutines with its invariant.
    - Caller (retry.go, transport.go, the caller of session.go): the callers a
      connection stacks up, in a monad over the world, the sessions and the
      connection.  The class [World] is everything outside the package.
      CallerCorrect: outcomes and schedule of retries, SEQUENCE in front of
      every attempt.
    - Conn (conn.go, conn_write.go, Dial and DialAuto): one definition per
      method.  ConnSpec has the interface [Transport] that a connection needs of
      its caller, implemented by the v4.0 and the v4.1 stack; ConnCorrect proves
      operations against the interface, MountCorrect proves that [Mount] is the
      handshake of each minor version, DialCorrect that [DialAuto] negotiates
      down.  [Carrier] is [Transport] for the compounds that a stack can carry.
      OpenOwner: the sequence ids of the open-owner against a server that checks
      them.
    - Wire: a world in which the base caller is the RPC client on bytes, with a
      server that reads records, headers and compounds from them; WireCorrect:
      the stack of callers over it answers as the server would directly.
      WireStore: so files and trees, whose contracts are below, are served on
      bytes, for requests of bounded size; WireStoreCorrect has the instances.
    - GoPath: the functions of packages path, strings, unicode/utf8 and io/fs
      that the client calls.  Fs (src/client/fs.go): the read-only file system
      over the class [Protocol]; File (src/client/file.go): open files over
      [RWProtocol]; Client (src/client/client.go): [Mount] and the instances that
      make a connection a protocol.
    - FsSpec and FileSpec: what a protocol must promise, [TreeStore] (names,
      attributes, listings in pages) and [FileStore] (reads and writes of any
      part of what is asked, or errors), each for the requests that can be made:
      all of them over a transport, those of bounded size on bytes.  FsCorrect,
      DirCorrect, FileCorrect, FileOpenCorrect and ReadAllCorrect prove the file
      systems against these classes; FsErrors against no assumption at all.
      FileShared cuts the methods of an open file at their requests and
      interleaves any number of goroutines on one file; FileSharedCorrect: the
      cut methods are those of File, calls that hold the lock are serialised,
      readers share the content; FileCloseCorrect: one CLOSE is sent, and who
      may ask after it; FileParallelCorrect: [ReadAt] and [WriteAt] in parallel,
      each checked against what the others may do.
      ClientSpec discharges the classes: a connection to a server that keeps
      [NfsFiles] or [NfsTree] is a [FileStore] or a [TreeStore], over either
      stack of callers.  DemoServer has two such servers, ClientCorrect mounting
      and the instances, SharedDemo interleavings on one of them.
    - Lease (src/client/lease.go) and LeaseCorrect: the renewal loop along the
      outcomes of its [select], the table of stateids against the history of
      its operations.  LeaseStop and LeaseStopCorrect: [Start], the loop and any
      number of [Stop]s as interleaved actions on their channels.

    ** How state and effects are modelled

    A Decoder or Encoder is passed through; a loop that the code runs until the
    input ends carries fuel, the length of the input, which the theorems show is
    enough.  The retry loop recurses on the attempts left.  [readDirAll] asks for
    pages until the server ends the listing: it carries a bound on the pages, and
    the theorems show that one more than the entries is enough for a server that
    pages properly.  [ReadAt] and [writeAt] go on only when they made progress:
    one step more than the bytes of the buffer is enough, for any server.  A call
    that waits for ever, or panics, is [None].  Pointers passed for results are
    the list of results after the call; a buffer filled by the callee is returned
    as it is afterwards; sessions, which callers share, live in a store.
    Contexts, timers, random bytes, the host name and dialling are operations of
    [World]; the theorems quantify over every world, or take a world with a
    server in it ([served], [wired]).  Package client is written against Go
    interfaces: the state of its computations is that of the protocol behind
    them, an open file is a value its methods return.

    ** What is not modelled

    Sockets and deadlines beyond the points where they end a call
    ([Client.SetDeadline]), the clock and the length of time, logging.  Locks of
    the connection protect single fields, which the monad reads and writes one
    at a time; goroutines are modelled where the code makes them meet, in the RPC
    client, in the session, on an open file and in the lease manager, while those
    that share a connection's fields are taken one call after the other.  On an
    open file they interleave between requests, each of which is one step of the
    server.  Tests and the integration harness. *)

From Stdlib Require Import ZArith Lia Bool.
From Stdlib Require Strings.Byte.
From stdpp Require Import base numbers list option strings.
From Stdlib Require Export ZArith Lia Sorting.Sorted.
From Stdlib Require Export Strings.Byte.
From stdpp Require Export base numbers list option strings gmap pretty.

#[global] Open Scope Z_scope.

(** ** Automation shared by every component *)

Create HintDb nfs.
Create HintDb wf.
Create Rewrite HintDb nfs.
Create Rewrite HintDb blen.

(** Split every pair-returning application that a goal is stuck on. *)
Ltac destruct_pairs :=
  repeat match goal with
         | H : context [ match ?p with (_, _) => _ end ] |- _ => destruct p eqn:?
         | |- context [ match ?p with (_, _) => _ end ] => destruct p eqn:?
         end.

(** Case analysis on the boolean tests of Go conditions, turning each into the
    arithmetic fact [lia] can use. *)
Ltac bool_cases :=
  repeat match goal with
         | |- context [ Z.ltb ?a ?b ] => destruct (Z.ltb_spec a b)
         | |- context [ Z.leb ?a ?b ] => destruct (Z.leb_spec a b)
         | |- context [ Z.eqb ?a ?b ] => destruct (Z.eqb_spec a b)
         | H : context [ Z.ltb ?a ?b ] |- _ => destruct (Z.ltb_spec a b)
         | H : context [ Z.leb ?a ?b ] |- _ => destruct (Z.leb_spec a b)
         | H : context [ Z.eqb ?a ?b ] |- _ => destruct (Z.eqb_spec a b)
         end.

(** Closed well-formedness side conditions, by computation. *)
Ltac decide_wf := repeat split; vm_compute; try discriminate; try reflexivity.

(** ** Machine integers

    A Go [uint32], [uint64] or [int64] is a [Z] in range; every conversion and
    every arithmetic operation that can wrap is written with these. *)

Definition u32 (z : Z) : Z := z mod 2 ^ 32.
Definition u64 (z : Z) : Z := z mod 2 ^ 64.
Definition i32 (z : Z) : Z := (z + 2 ^ 31) mod 2 ^ 32 - 2 ^ 31.
Definition i64 (z : Z) : Z := (z + 2 ^ 63) mod 2 ^ 64 - 2 ^ 63.

Definition is_u32 (z : Z) : Prop := 0 <= z < 2 ^ 32.
Definition is_u64 (z : Z) : Prop := 0 <= z < 2 ^ 64.
Definition is_i32 (z : Z) : Prop := - 2 ^ 31 <= z < 2 ^ 31.
Definition is_i64 (z : Z) : Prop := - 2 ^ 63 <= z < 2 ^ 63.

#[global] Instance is_u32_dec z : Decision (is_u32 z).
Proof. unfold is_u32. apply _. Defined.
#[global] Instance is_u64_dec z : Decision (is_u64 z).
Proof. unfold is_u64. apply _. Defined.
#[global] Instance is_i32_dec z : Decision (is_i32 z).
Proof. unfold is_i32. apply _. Defined.
#[global] Instance is_i64_dec z : Decision (is_i64 z).
Proof. unfold is_i64. apply _. Defined.

Ltac Zify.zify_post_hook ::= Z.to_euclidean_division_equations.

Ltac unfold_ints :=
  unfold is_u32, is_u64, is_i32, is_i64, u32, u64, i32, i64 in *;
  change (2 ^ 31) with 2147483648 in *;
  change (2 ^ 32) with 4294967296 in *;
  change (2 ^ 63) with 9223372036854775808 in *;
  change (2 ^ 64) with 18446744073709551616 in *.

(** Arithmetic modulo a machine width. *)
Ltac int_lia := unfold_ints; lia.

Lemma u32_id z : is_u32 z -> u32 z = z.
Proof. intros; int_lia. Qed.
Lemma u64_id z : is_u64 z -> u64 z = z.
Proof. intros; int_lia. Qed.
Lemma u32_range z : is_u32 (u32 z).
Proof. int_lia. Qed.
Lemma u64_range z : is_u64 (u64 z).
Proof. int_lia. Qed.
Lemma i64_id z : is_i64 z -> i64 z = z.
Proof. intros; int_lia. Qed.
Lemma i64_range z : is_i64 (i64 z).
Proof. int_lia. Qed.
Lemma i32_id z : is_i32 z -> i32 z = z.
Proof. intros; int_lia. Qed.
(** Converting to unsigned and back is the identity on a signed value. *)
Lemma i64_u64 z : is_i64 z -> i64 (u64 z) = z.
Proof. intros; int_lia. Qed.
Lemma i32_u32 z : is_i32 z -> i32 (u32 z) = z.
Proof. intros; int_lia. Qed.
#[export] Hint Resolve u32_range u64_range i64_range : wf.
#[export] Hint Rewrite u32_id u64_id i64_id i32_id i64_u64 i32_u32 using (solve [auto with wf]) : nfs.

(** ** Bytes *)

#[global] Instance byte_eq_dec : EqDecision byte := Byte.byte_eq_dec.
#[global] Instance byte_inhabited : Inhabited byte := populate x00.

Definition Z_of_byte (b : byte) : Z := Z.of_N (Byte.to_N b).
Definition byte_of_Z (z : Z) : byte :=
  match Byte.of_N (Z.to_N (z mod 256)) with Some b => b | None => x00 end.

Lemma Z_of_byte_range b : 0 <= Z_of_byte b < 256.
Proof. unfold Z_of_byte. pose proof (Byte.to_N_bounded b). lia. Qed.

Lemma Z_of_byte_of_Z z : Z_of_byte (byte_of_Z z) = z mod 256.
Proof.
  unfold Z_of_byte, byte_of_Z.
  destruct (Byte.of_N (Z.to_N (z mod 256))) as [b|] eqn:E.
  - apply Byte.to_of_N in E. rewrite E. rewrite Z2N.id; lia.
  - apply Byte.of_N_None_iff in E. lia.
Qed.

Lemma byte_of_Z_mod z : byte_of_Z z = byte_of_Z (z mod 256).
Proof. unfold byte_of_Z. by rewrite Z.mod_mod. Qed.

Lemma byte_of_Z_of_byte b : byte_of_Z (Z_of_byte b) = b.
Proof.
  unfold byte_of_Z. rewrite Z.mod_small by apply Z_of_byte_range.
  unfold Z_of_byte. rewrite N2Z.id, Byte.of_to_N. done.
Qed.

(** Go strings and byte slices are byte lists; literals are written with [b""]. *)
Abbreviation bytes := (list byte).
Definition bstr (s : String.string) : bytes := String.list_byte_of_string s.

(** Lengths and slices of byte lists counted in [Z], as Go's [int] counts them. *)
Definition blen {A} (l : list A) : Z := Z.of_nat (length l).
Definition btake {A} (n : Z) (l : list A) : list A := take (Z.to_nat n) l.
Definition bdrop {A} (n : Z) (l : list A) : list A := drop (Z.to_nat n) l.

Section blen.
Context {A : Type}.
Implicit Types (l : list A) (n : Z).

Lemma blen_nonneg l : 0 <= blen l.
  Proof. unfold blen. lia. Qed.
Lemma blen_nil : blen (@nil A) = 0.
  Proof. done. Qed.
Lemma blen_cons x l : blen (x :: l) = 1 + blen l.
  Proof. unfold blen. cbn [length]. lia. Qed.
Lemma blen_app l1 l2 : blen (l1 ++ l2) = blen l1 + blen l2.
  Proof. unfold blen. rewrite length_app. lia. Qed.
Lemma blen_take n l : 0 <= n -> blen (btake n l) = n `min` blen l.
  Proof. intros. unfold blen, btake. rewrite length_take. lia. Qed.
Lemma blen_drop n l : 0 <= n -> blen (bdrop n l) = 0 `max` (blen l - n).
  Proof. intros. unfold blen, bdrop. rewrite length_drop. lia. Qed.
Lemma blen_replicate k (x : A) : blen (replicate k x) = Z.of_nat k.
  Proof. unfold blen. by rewrite length_replicate. Qed.
Lemma btake_app_le n l1 l2 : 0 <= n <= blen l1 -> btake n (l1 ++ l2) = btake n l1.
  Proof. intros. unfold btake, blen in *. apply take_app_le. lia. Qed.
Lemma bdrop_app_le n l1 l2 : 0 <= n <= blen l1 -> bdrop n (l1 ++ l2) = bdrop n l1 ++ l2.
  Proof. intros. unfold bdrop, blen in *. apply drop_app_le. lia. Qed.
Lemma btake_app_ge n l1 l2 : blen l1 <= n -> btake n (l1 ++ l2) = l1 ++ btake (n - blen l1) l2.
  Proof.
    intros. unfold btake, blen in *. rewrite take_app_ge by lia. do 2 f_equal. lia.
  Qed.
Lemma bdrop_app_ge n l1 l2 : blen l1 <= n -> bdrop n (l1 ++ l2) = bdrop (n - blen l1) l2.
  Proof.
    intros. unfold bdrop, blen in *. rewrite drop_app_ge by lia. f_equal. lia.
  Qed.
Lemma btake_app_exact n l1 l2 : n = blen l1 -> btake n (l1 ++ l2) = l1.
  Proof. intros ->. unfold btake, blen. rewrite Nat2Z.id. apply take_app_length. Qed.
Lemma bdrop_app_exact n l1 l2 : n = blen l1 -> bdrop n (l1 ++ l2) = l2.
  Proof. intros ->. unfold bdrop, blen. rewrite Nat2Z.id. apply drop_app_length. Qed.
Lemma btake_all n l : blen l <= n -> btake n l = l.
  Proof. intros. unfold btake, blen in *. apply take_ge. lia. Qed.
Lemma bdrop_all n l : blen l <= n -> bdrop n l = [].
  Proof. intros. unfold bdrop, blen in *. apply drop_ge. lia. Qed.
Lemma btake_0 l : btake 0 l = [].
  Proof. done. Qed.
Lemma bdrop_0 l : bdrop 0 l = l.
  Proof. done. Qed.
Lemma btake_bdrop n l : btake n l ++ bdrop n l = l.
  Proof. unfold btake, bdrop. apply take_drop. Qed.
Lemma blen_zero l : blen l = 0 -> l = [].
  Proof. unfold blen. destruct l; [done|cbn [length]; lia]. Qed.
End blen.

#[export] Hint Rewrite @blen_nil @blen_cons @blen_app @blen_replicate : blen.
#[export] Hint Rewrite @blen_take @blen_drop using lia : blen.

(** Length arithmetic over concatenations and slices. *)
Ltac blen_lia :=
  autorewrite with blen in *;
  repeat match goal with
         | |- context [ blen ?l ] => lazymatch goal with
                                     | _ : 0 <= blen l |- _ => fail
                                     | _ => pose proof (blen_nonneg l)
                                     end
         end;
  lia.

(** ** Big-endian words (package encoding/binary) *)

Fixpoint be (n : nat) (v : Z) : bytes :=
  match n with
  | O => []
  | S k => be k (v / 256) ++ [byte_of_Z v]
  end.

Definition unbe (bs : bytes) : Z :=
  fold_left (fun acc b => acc * 256 + Z_of_byte b) bs 0.

Lemma length_be n v : length (be n v) = n.
Proof. revert v. induction n; intros; cbn; [done|]. rewrite length_app, IHn. cbn. lia. Qed.

Lemma blen_be n v : blen (be n v) = Z.of_nat n.
Proof. unfold blen. by rewrite length_be. Qed.
#[export] Hint Rewrite blen_be : blen.

Lemma unbe_app bs b : unbe (bs ++ [b]) = unbe bs * 256 + Z_of_byte b.
Proof. unfold unbe. by rewrite fold_left_app. Qed.

Lemma unbe_be n v : unbe (be n v) = v mod 256 ^ Z.of_nat n.
Proof.
  revert v. induction n as [|n IH]; intros v; cbn [be].
  - cbn. by rewrite Z.mod_1_r.
  - rewrite unbe_app, IH, Z_of_byte_of_Z, Nat2Z.inj_succ, Z.pow_succ_r by lia.
    rewrite Z.rem_mul_r by lia. lia.
Qed.

Lemma unbe_range bs : 0 <= unbe bs < 256 ^ blen bs.
Proof.
  induction bs as [|b bs IH] using rev_ind; [done|].
  rewrite unbe_app, blen_app. change (blen [b]) with 1.
  rewrite Z.pow_add_r, Z.pow_1_r by (apply blen_nonneg || lia).
  pose proof (Z_of_byte_range b). nia.
Qed.

Lemma be_unbe bs : be (length bs) (unbe bs) = bs.
Proof.
  induction bs as [|b bs IH] using rev_ind; [done|].
  rewrite length_app, Nat.add_comm. cbn [be length Nat.add].
  rewrite unbe_app. pose proof (Z_of_byte_range b).
  rewrite Z.div_add_l, Z.div_small, Z.add_0_r, IH by lia. f_equal. f_equal.
  rewrite byte_of_Z_mod, Z.add_comm, Z_mod_plus_full, <- byte_of_Z_mod.
  apply byte_of_Z_of_byte.
Qed.

Lemma unbe_be4 v : unbe (be 4 v) = u32 v.
Proof. rewrite unbe_be. done. Qed.
Lemma unbe_be8 v : unbe (be 8 v) = u64 v.
Proof. rewrite unbe_be. done. Qed.
Lemma unbe_u32 bs : blen bs = 4 -> is_u32 (unbe bs).
Proof. intros H. pose proof (unbe_range bs) as R. rewrite H in R. exact R. Qed.
Lemma unbe_u64 bs : blen bs = 8 -> is_u64 (unbe bs).
Proof. intros H. pose proof (unbe_range bs) as R. rewrite H in R. exact R. Qed.

(** ** Bits of a word *)

(** [w & (1 << k) != 0] tests bit [k]. *)
Lemma land_bit w k : 0 <= k -> negb (Z.land w (Z.shiftl 1 k) =? 0) = Z.testbit w k.
Proof.
  intros Hk. rewrite Z.shiftl_1_l. destruct (Z.eqb_spec (Z.land w (2 ^ k)) 0) as [E|E]; cbn.
  - apply (f_equal (fun z => Z.testbit z k)) in E.
    rewrite Z.land_spec, Z.pow2_bits_true, andb_true_r, Z.bits_0 in E by done. done.
  - symmetry. destruct (Z.testbit w k) eqn:B; [done|]. destruct E. apply Z.bits_inj'. intros i Hi.
    rewrite Z.land_spec, Z.bits_0, Z.pow2_bits_eqb by done.
    destruct (Z.eqb_spec k i) as [<-|]; [by rewrite B|by rewrite andb_false_r].
Qed.

(** ** Sorted lists *)

Lemma sorted_ext (l1 l2 : list Z) : StronglySorted Z.lt l1 -> StronglySorted Z.lt l2 ->
  (forall x, x ∈ l1 <-> x ∈ l2) -> l1 = l2.
Proof.
  intros H1. revert l2. induction H1 as [|x l1 Hs1 IH Hx1]; intros l2 H2 Hin.
  - destruct l2 as [|y l2]; [done|].
    by destruct (not_elem_of_nil y (proj2 (Hin y) (list_elem_of_here _ _))).
  - destruct H2 as [|y l2 Hs2 Hx2].
    { by destruct (not_elem_of_nil x (proj1 (Hin x) (list_elem_of_here _ _))). }
    rewrite Forall_forall in Hx1, Hx2. setoid_rewrite elem_of_cons in Hin.
    assert (x = y) as <-.
    { destruct (proj1 (Hin x) (or_introl eq_refl)) as [|A]; [done|].
      destruct (proj2 (Hin y) (or_introl eq_refl)) as [|B]; [done|].
      specialize (Hx1 y B). specialize (Hx2 x A). lia. }
    f_equal. apply IH; [done|]. intros z. specialize (Hin z). split; intros Hz.
    + specialize (Hx1 z Hz). destruct (proj1 Hin (or_intror Hz)) as [->|]; [lia|done].
    + specialize (Hx2 z Hz). destruct (proj2 Hin (or_intror Hz)) as [->|]; [lia|done].
Qed.

Lemma StronglySorted_concat (ls : list (list Z)) (bound : nat -> Z) :
  (forall i l, ls !! i = Some l -> StronglySorted Z.lt l
     /\ Forall (fun x => bound i <= x < bound (S i)) l) ->
  (forall i j, (i <= j)%nat -> bound i <= bound j) ->
  StronglySorted Z.lt (concat ls) /\ Forall (fun x => bound O <= x) (concat ls).
Proof.
  revert bound. induction ls as [|l ls IH]; intros bound Hl Hb; [split; constructor|]. cbn [concat].
  destruct (Hl O l eq_refl) as [Hs Hr].
  destruct (IH (fun i => bound (S i))) as [Hs' Hr'].
  { intros i l' E. by apply (Hl (S i)). }
  { intros i j ?. apply Hb. lia. }
  specialize (Hb O 1%nat ltac:(lia)). split.
  - clear -Hs Hr Hs' Hr'. induction Hs as [|x l Hs IH Hx]; [done|]. apply Forall_cons in Hr as [Hr1 Hr].
    cbn. constructor; [by apply IH|]. apply Forall_app. split; [done|].
    eapply Forall_impl; [exact Hr'|]. cbn. intros; lia.
  - apply Forall_app. split; (eapply Forall_impl; [eassumption|]); cbn; intros; lia.
Qed.

Lemma StronglySorted_omap {A} (R : A -> A -> Prop) (f : A -> option Z) l :
  (forall x y a b, x ∈ l -> y ∈ l -> R x y -> f x = Some a -> f y = Some b -> a < b) ->
  StronglySorted R l -> StronglySorted Z.lt (omap f l).
Proof.
  intros Hf. induction 1 as [|x l Hs IH Hx]; [constructor|]. cbn.
  assert (StronglySorted Z.lt (omap f l)) as Hs'.
  { apply IH. intros y z a b Hy Hz. apply Hf; by right. }
  destruct (f x) as [a|] eqn:E; [|done]. constructor; [done|].
  rewrite Forall_forall in Hx. apply Forall_forall. intros b (y & Hy & Eb)%list_elem_of_omap.
  by apply (Hf x y a b (list_elem_of_here _ _) (list_elem_of_further _ _ _ Hy) (Hx y Hy)).
Qed.

Lemma StronglySorted_seq n m : StronglySorted lt (seq n m).
Proof.
  revert n. induction m as [|m IH]; intros n; constructor; [done|].
  rewrite Forall_forall. intros x [? ?]%elem_of_seq. lia.
Qed.

(** ** Counting the elements that satisfy a test *)

Fixpoint nb {A} (f : A -> bool) (l : list A) : nat :=
  match l with
  | [] => O
  | x :: l => ((if f x then 1 else 0) + nb f l)%nat
  end.

Lemma nb_le_length {A} (f : A -> bool) l : (nb f l <= length l)%nat.
Proof. induction l as [|x l IH]; cbn; [lia|]. destruct (f x); lia. Qed.

Lemma nb_insert {A} (f : A -> bool) l i x y : l !! i = Some x ->
  (nb f (<[i := y]> l) + (if f x then 1 else 0) = nb f l + (if f y then 1 else 0))%nat.
Proof.
  revert i. induction l as [|z l IH]; intros [|i] E; try done.
  - injection E as ->. change (<[0%nat := y]> (x :: l)) with (y :: l). cbn [nb]. lia.
  - change (<[S i := y]> (z :: l)) with (z :: <[i := y]> l). cbn [nb]. specialize (IH i E). lia.
Qed.

Lemma nb_pos {A} (f : A -> bool) l i x : l !! i = Some x -> f x = true -> (0 < nb f l)%nat.
Proof.
  revert i. induction l as [|z l IH]; intros [|i] E Hx; try done.
  - injection E as ->. cbn. rewrite Hx. lia.
  - cbn. specialize (IH i E Hx). lia.
Qed.

Lemma nb_app {A} (f : A -> bool) l1 l2 : nb f (l1 ++ l2) = (nb f l1 + nb f l2)%nat.
Proof. induction l1 as [|x l1 IH]; cbn; [done|]. rewrite IH. lia. Qed.

Lemma nb_replicate {A} (f : A -> bool) n x : f x = false -> nb f (replicate n x) = O.
Proof. intros Hx. induction n as [|n IH]; cbn; [done|]. by rewrite Hx, IH. Qed.

Lemma nb_mono {A} (f g : A -> bool) l : (forall x, f x = true -> g x = true) -> (nb f l <= nb g l)%nat.
Proof.
  intros H. induction l as [|x l IH]; cbn; [lia|]. specialize (H x). destruct (f x), (g x); (lia || naive_solver).
Qed.
