(* ===== verification/GoError.v ===== *)
(** * Go error values

    The errors the client builds and tests: the standard library's sentinels,
    the two typed errors of the repository ([nfs4.StatusError],
    [rpc.AuthError]), [fs.PathError], and the results of [fmt.Errorf] with and
    without a [%w] operand.  [errors.Is] and [errors.As] walk the chain the way
    package errors does. *)

From S2P Require Import Prelude.

(** An argument of [fmt.Errorf] other than the wrapped error. *)
Inductive farg :=
| Fz (z : Z)
| Fs (s : bytes).

(** Identity of the sentinels is by name: each is one [errors.New] variable. *)
Inductive error :=
(* io *)
| EOF | ErrUnexpectedEOF | ErrShortWrite
(* context *)
| Canceled | DeadlineExceeded
(* io/fs *)
| ErrInvalid | ErrPermission | ErrExist | ErrNotExist | ErrClosed
(* net *)
| ErrNetClosed
(* xdr.ErrLimitExceeded, rpc.ErrFragmentTooLarge *)
| ErrLimitExceeded | ErrFragmentTooLarge
(* errors raised by code outside the repository (dialler, sockets, rand) *)
| Foreign (n : Z)
(* errors.New with no variable holding it *)
| NewError (text : string)
(* fmt.Errorf without and with a wrapped error *)
| Errorf (format : string) (args : list farg)
| Wrapf (format : string) (args : list farg) (wrapped : error)
(* *nfs4.StatusError, *rpc.AuthError, *fs.PathError *)
| StatusError (status : Z)
| AuthError (stat : Z)
| PathError (op : string) (path : bytes) (err : error).

#[global] Instance farg_eq_dec : EqDecision farg.
Proof. solve_decision. Defined.
#[global] Instance error_eq_dec : EqDecision error.
Proof. solve_decision. Defined.

(** [errors.Unwrap]: one step down the chain. *)
Definition Unwrap (e : error) : option error :=
  match e with
  | Wrapf _ _ e' | PathError _ _ e' => Some e'
  | _ => None
  end.

(** [errors.As(err, &se)] for [se] a [*nfs4.StatusError]: the status of the
    first such error of the chain. *)
Fixpoint AsStatusError (e : error) : option Z :=
  match e with
  | StatusError s => Some s
  | Wrapf _ _ e' | PathError _ _ e' => AsStatusError e'
  | _ => None
  end.

(** [errors.Is(err, target)] for a sentinel target, given the [Is] method of
    [*nfs4.StatusError]. *)
Section errors_Is.
Context (StatusError_Is : Z -> error -> bool).

Fixpoint errors_Is_with (e target : error) : bool :=
    bool_decide (e = target) ||
    match e with
    | StatusError s => StatusError_Is s target
    | Wrapf _ _ e' | PathError _ _ e' => errors_Is_with e' target
    | _ => false
    end.
End errors_Is.

(** A Go [(value, error)] result in which exactly one side is meaningful. *)
Abbreviation result A := (error + A)%type.

#[global] Instance result_ret : MRet (sum error) := fun A => inr.
#[global] Instance result_bind : MBind (sum error) := fun A B f m =>
  match m with inl e => inl e | inr a => f a end.

#[global] Instance result_fmap : FMap (sum error) := fun A B f m =>
  match m with inl e => inl e | inr a => inr (f a) end.

(** [if err != nil { return ... }] on an [error] result. *)
Definition is_nil (e : option error) : bool :=
  match e with None => true | Some _ => false end.

Lemma is_nil_true e : is_nil e = true <-> e = None.
Proof. destruct e; split; done. Qed.
