(* ===== verification/Nfs4Const.v ===== *)
(** * NFSv4 constants and status codes (src/nfs4/consts.go)

    Operation numbers, [nfsstat4] codes and their mapping onto Go errors. *)

From S2P Require Import Prelude GoError.

(** src/nfs4/consts.go:25-25 *)
Definition Program : Z := 100003.
(** src/nfs4/consts.go:26-26 *)
Definition Version4 : Z := 4.
(** src/nfs4/consts.go:27-27 *)
Definition ProcNull : Z := 0.
(** src/nfs4/consts.go:28-28 *)
Definition ProcCompound : Z := 1.
(** src/nfs4/consts.go:33-33 *)
Definition FHSize : Z := 128.
(** src/nfs4/consts.go:34-34 *)
Definition VerifierSize : Z := 8.
(** src/nfs4/consts.go:35-35 *)
Definition OpaqueLimit : Z := 1024.
(** src/nfs4/consts.go:36-36 *)
Definition SessionIDLen : Z := 16.
(** src/nfs4/consts.go:41-41 *)
Definition MinorV40 : Z := 0.
(** src/nfs4/consts.go:42-42 *)
Definition MinorV41 : Z := 1.
(** src/nfs4/consts.go:50-50 *)
Definition OpAccess : Z := 3.
(** src/nfs4/consts.go:51-51 *)
Definition OpClose : Z := 4.
(** src/nfs4/consts.go:52-52 *)
Definition OpCommit : Z := 5.
(** src/nfs4/consts.go:53-53 *)
Definition OpCreate : Z := 6.
(** src/nfs4/consts.go:54-54 *)
Definition OpDelegpurge : Z := 7.
(** src/nfs4/consts.go:55-55 *)
Definition OpDelegreturn : Z := 8.
(** src/nfs4/consts.go:56-56 *)
Definition OpGetattr : Z := 9.
(** src/nfs4/consts.go:57-57 *)
Definition OpGetfh : Z := 10.
(** src/nfs4/consts.go:58-58 *)
Definition OpLink : Z := 11.
(** src/nfs4/consts.go:59-59 *)
Definition OpLock : Z := 12.
(** src/nfs4/consts.go:60-60 *)
Definition OpLockt : Z := 13.
(** src/nfs4/consts.go:61-61 *)
Definition OpLocku : Z := 14.
(** src/nfs4/consts.go:62-62 *)
Definition OpLookup : Z := 15.
(** src/nfs4/consts.go:63-63 *)
Definition OpLookupp : Z := 16.
(** src/nfs4/consts.go:64-64 *)
Definition OpNverify : Z := 17.
(** src/nfs4/consts.go:65-65 *)
Definition OpOpen : Z := 18.
(** src/nfs4/consts.go:66-66 *)
Definition OpOpenattr : Z := 19.
(** src/nfs4/consts.go:67-67 *)
Definition OpOpenConfirm : Z := 20.
(** src/nfs4/consts.go:68-68 *)
Definition OpOpenDowngrade : Z := 21.
(** src/nfs4/consts.go:69-69 *)
Definition OpPutfh : Z := 22.
(** src/nfs4/consts.go:70-70 *)
Definition OpPutpubfh : Z := 23.
(** src/nfs4/consts.go:71-71 *)
Definition OpPutrootfh : Z := 24.
(** src/nfs4/consts.go:72-72 *)
Definition OpRead : Z := 25.
(** src/nfs4/consts.go:73-73 *)
Definition OpReaddir : Z := 26.
(** src/nfs4/consts.go:74-74 *)
Definition OpReadlink : Z := 27.
(** src/nfs4/consts.go:75-75 *)
Definition OpRemove : Z := 28.
(** src/nfs4/consts.go:76-76 *)
Definition OpRename : Z := 29.
(** src/nfs4/consts.go:77-77 *)
Definition OpRenew : Z := 30.
(** src/nfs4/consts.go:78-78 *)
Definition OpRestorefh : Z := 31.
(** src/nfs4/consts.go:79-79 *)
Definition OpSavefh : Z := 32.
(** src/nfs4/consts.go:80-80 *)
Definition OpSecinfo : Z := 33.
(** src/nfs4/consts.go:81-81 *)
Definition OpSetattr : Z := 34.
(** src/nfs4/consts.go:82-82 *)
Definition OpSetclientid : Z := 35.
(** src/nfs4/consts.go:83-83 *)
Definition OpSetclientidConfirm : Z := 36.
(** src/nfs4/consts.go:84-84 *)
Definition OpVerify : Z := 37.
(** src/nfs4/consts.go:85-85 *)
Definition OpWrite : Z := 38.
(** src/nfs4/consts.go:86-86 *)
Definition OpReleaseLockowner : Z := 39.
(** src/nfs4/consts.go:88-88 *)
Definition OpBindConnToSession : Z := 41.
(** src/nfs4/consts.go:89-89 *)
Definition OpExchangeID : Z := 42.
(** src/nfs4/consts.go:90-90 *)
Definition OpCreateSession : Z := 43.
(** src/nfs4/consts.go:91-91 *)
Definition OpDestroySession : Z := 44.
(** src/nfs4/consts.go:92-92 *)
Definition OpSequence : Z := 53.
(** src/nfs4/consts.go:93-93 *)
Definition OpDestroyClientID : Z := 57.
(** src/nfs4/consts.go:94-94 *)
Definition OpReclaimComplete : Z := 58.
(** src/nfs4/consts.go:95-95 *)
Definition OpIllegal : Z := 10044.
(** src/nfs4/consts.go:103-103 *)
Definition NFS4_OK : Z := 0.
(** src/nfs4/consts.go:104-104 *)
Definition NFS4ERR_PERM : Z := 1.
(** src/nfs4/consts.go:105-105 *)
Definition NFS4ERR_NOENT : Z := 2.
(** src/nfs4/consts.go:106-106 *)
Definition NFS4ERR_IO : Z := 5.
(** src/nfs4/consts.go:107-107 *)
Definition NFS4ERR_NXIO : Z := 6.
(** src/nfs4/consts.go:108-108 *)
Definition NFS4ERR_ACCESS : Z := 13.
(** src/nfs4/consts.go:109-109 *)
Definition NFS4ERR_EXIST : Z := 17.
(** src/nfs4/consts.go:110-110 *)
Definition NFS4ERR_XDEV : Z := 18.
(** src/nfs4/consts.go:111-111 *)
Definition NFS4ERR_NOTDIR : Z := 20.
(** src/nfs4/consts.go:112-112 *)
Definition NFS4ERR_ISDIR : Z := 21.
(** src/nfs4/consts.go:113-113 *)
Definition NFS4ERR_INVAL : Z := 22.
(** src/nfs4/consts.go:114-114 *)
Definition NFS4ERR_FBIG : Z := 27.
(** src/nfs4/consts.go:115-115 *)
Definition NFS4ERR_NOSPC : Z := 28.
(** src/nfs4/consts.go:116-116 *)
Definition NFS4ERR_ROFS : Z := 30.
(** src/nfs4/consts.go:117-117 *)
Definition NFS4ERR_MLINK : Z := 31.
(** src/nfs4/consts.go:118-118 *)
Definition NFS4ERR_NAMETOOLONG : Z := 63.
(** src/nfs4/consts.go:119-119 *)
Definition NFS4ERR_NOTEMPTY : Z := 66.
(** src/nfs4/consts.go:120-120 *)
Definition NFS4ERR_DQUOT : Z := 69.
(** src/nfs4/consts.go:121-121 *)
Definition NFS4ERR_STALE : Z := 70.
(** src/nfs4/consts.go:122-122 *)
Definition NFS4ERR_BADHANDLE : Z := 10001.
(** src/nfs4/consts.go:123-123 *)
Definition NFS4ERR_BAD_COOKIE : Z := 10003.
(** src/nfs4/consts.go:124-124 *)
Definition NFS4ERR_NOTSUPP : Z := 10004.
(** src/nfs4/consts.go:125-125 *)
Definition NFS4ERR_TOOSMALL : Z := 10005.
(** src/nfs4/consts.go:126-126 *)
Definition NFS4ERR_SERVERFAULT : Z := 10006.
(** src/nfs4/consts.go:127-127 *)
Definition NFS4ERR_BADTYPE : Z := 10007.
(** src/nfs4/consts.go:128-128 *)
Definition NFS4ERR_DELAY : Z := 10008.
(** src/nfs4/consts.go:129-129 *)
Definition NFS4ERR_SAME : Z := 10009.
(** src/nfs4/consts.go:130-130 *)
Definition NFS4ERR_DENIED : Z := 10010.
(** src/nfs4/consts.go:131-131 *)
Definition NFS4ERR_EXPIRED : Z := 10011.
(** src/nfs4/consts.go:132-132 *)
Definition NFS4ERR_LOCKED : Z := 10012.
(** src/nfs4/consts.go:133-133 *)
Definition NFS4ERR_GRACE : Z := 10013.
(** src/nfs4/consts.go:134-134 *)
Definition NFS4ERR_FHEXPIRED : Z := 10014.
(** src/nfs4/consts.go:135-135 *)
Definition NFS4ERR_WRONGSEC : Z := 10016.
(** src/nfs4/consts.go:136-136 *)
Definition NFS4ERR_CLID_INUSE : Z := 10017.
(** src/nfs4/consts.go:137-137 *)
Definition NFS4ERR_RESOURCE : Z := 10018.
(** src/nfs4/consts.go:138-138 *)
Definition NFS4ERR_MOVED : Z := 10019.
(** src/nfs4/consts.go:139-139 *)
Definition NFS4ERR_NOFILEHANDLE : Z := 10020.
(** src/nfs4/consts.go:140-140 *)
Definition NFS4ERR_MINOR_VERS_MISMATCH : Z := 10021.
(** src/nfs4/consts.go:141-141 *)
Definition NFS4ERR_STALE_CLIENTID : Z := 10022.
(** src/nfs4/consts.go:142-142 *)
Definition NFS4ERR_STALE_STATEID : Z := 10023.
(** src/nfs4/consts.go:143-143 *)
Definition NFS4ERR_OLD_STATEID : Z := 10024.
(** src/nfs4/consts.go:144-144 *)
Definition NFS4ERR_BAD_STATEID : Z := 10025.
(** src/nfs4/consts.go:145-145 *)
Definition NFS4ERR_BAD_SEQID : Z := 10026.
(** src/nfs4/consts.go:146-146 *)
Definition NFS4ERR_NOT_SAME : Z := 10027.
(** src/nfs4/consts.go:147-147 *)
Definition NFS4ERR_LOCK_RANGE : Z := 10028.
(** src/nfs4/consts.go:148-148 *)
Definition NFS4ERR_SYMLINK : Z := 10029.
(** src/nfs4/consts.go:149-149 *)
Definition NFS4ERR_RESTOREFH : Z := 10030.
(** src/nfs4/consts.go:150-150 *)
Definition NFS4ERR_BADXDR : Z := 10036.
(** src/nfs4/consts.go:151-151 *)
Definition NFS4ERR_OPENMODE : Z := 10038.
(** src/nfs4/consts.go:152-152 *)
Definition NFS4ERR_BADOWNER : Z := 10039.
(** src/nfs4/consts.go:153-153 *)
Definition NFS4ERR_LOCKS_HELD : Z := 10037.
(** src/nfs4/consts.go:154-154 *)
Definition NFS4ERR_RECLAIM_BAD : Z := 10034.
(** src/nfs4/consts.go:156-156 *)
Definition NFS4ERR_BADSESSION : Z := 10052.
(** src/nfs4/consts.go:157-157 *)
Definition NFS4ERR_BADSLOT : Z := 10053.
(** src/nfs4/consts.go:158-158 *)
Definition NFS4ERR_COMPLETE_ALREADY : Z := 10054.
(** src/nfs4/consts.go:159-159 *)
Definition NFS4ERR_SEQ_MISORDERED : Z := 10063.
(** src/nfs4/consts.go:160-160 *)
Definition NFS4ERR_SEQUENCE_POS : Z := 10064.
(** src/nfs4/consts.go:161-161 *)
Definition NFS4ERR_DEADSESSION : Z := 10078.
(** src/nfs4/consts.go:162-162 *)
Definition NFS4ERR_CONN_NOT_BOUND_TO_SESSION : Z := 10080.
(** src/nfs4/consts.go:163-163 *)
Definition NFS4ERR_OP_ILLEGAL : Z := 10044.

(** src/nfs4/consts.go:236-298 (statusNames) *)
Definition statusNames : gmap Z string := list_to_map
  [(NFS4_OK, "NFS4_OK");
   (NFS4ERR_PERM, "NFS4ERR_PERM");
   (NFS4ERR_NOENT, "NFS4ERR_NOENT");
   (NFS4ERR_IO, "NFS4ERR_IO");
   (NFS4ERR_NXIO, "NFS4ERR_NXIO");
   (NFS4ERR_ACCESS, "NFS4ERR_ACCESS");
   (NFS4ERR_EXIST, "NFS4ERR_EXIST");
   (NFS4ERR_XDEV, "NFS4ERR_XDEV");
   (NFS4ERR_NOTDIR, "NFS4ERR_NOTDIR");
   (NFS4ERR_ISDIR, "NFS4ERR_ISDIR");
   (NFS4ERR_INVAL, "NFS4ERR_INVAL");
   (NFS4ERR_FBIG, "NFS4ERR_FBIG");
   (NFS4ERR_NOSPC, "NFS4ERR_NOSPC");
   (NFS4ERR_ROFS, "NFS4ERR_ROFS");
   (NFS4ERR_MLINK, "NFS4ERR_MLINK");
   (NFS4ERR_NAMETOOLONG, "NFS4ERR_NAMETOOLONG");
   (NFS4ERR_NOTEMPTY, "NFS4ERR_NOTEMPTY");
   (NFS4ERR_DQUOT, "NFS4ERR_DQUOT");
   (NFS4ERR_STALE, "NFS4ERR_STALE");
   (NFS4ERR_BADHANDLE, "NFS4ERR_BADHANDLE");
   (NFS4ERR_BAD_COOKIE, "NFS4ERR_BAD_COOKIE");
   (NFS4ERR_NOTSUPP, "NFS4ERR_NOTSUPP");
   (NFS4ERR_TOOSMALL, "NFS4ERR_TOOSMALL");
   (NFS4ERR_SERVERFAULT, "NFS4ERR_SERVERFAULT");
   (NFS4ERR_BADTYPE, "NFS4ERR_BADTYPE");
   (NFS4ERR_DELAY, "NFS4ERR_DELAY");
   (NFS4ERR_SAME, "NFS4ERR_SAME");
   (NFS4ERR_DENIED, "NFS4ERR_DENIED");
   (NFS4ERR_EXPIRED, "NFS4ERR_EXPIRED");
   (NFS4ERR_LOCKED, "NFS4ERR_LOCKED");
   (NFS4ERR_GRACE, "NFS4ERR_GRACE");
   (NFS4ERR_FHEXPIRED, "NFS4ERR_FHEXPIRED");
   (NFS4ERR_WRONGSEC, "NFS4ERR_WRONGSEC");
   (NFS4ERR_CLID_INUSE, "NFS4ERR_CLID_INUSE");
   (NFS4ERR_RESOURCE, "NFS4ERR_RESOURCE");
   (NFS4ERR_MOVED, "NFS4ERR_MOVED");
   (NFS4ERR_NOFILEHANDLE, "NFS4ERR_NOFILEHANDLE");
   (NFS4ERR_MINOR_VERS_MISMATCH, "NFS4ERR_MINOR_VERS_MISMATCH");
   (NFS4ERR_STALE_CLIENTID, "NFS4ERR_STALE_CLIENTID");
   (NFS4ERR_STALE_STATEID, "NFS4ERR_STALE_STATEID");
   (NFS4ERR_OLD_STATEID, "NFS4ERR_OLD_STATEID");
   (NFS4ERR_BAD_STATEID, "NFS4ERR_BAD_STATEID");
   (NFS4ERR_BAD_SEQID, "NFS4ERR_BAD_SEQID");
   (NFS4ERR_NOT_SAME, "NFS4ERR_NOT_SAME");
   (NFS4ERR_LOCK_RANGE, "NFS4ERR_LOCK_RANGE");
   (NFS4ERR_SYMLINK, "NFS4ERR_SYMLINK");
   (NFS4ERR_RESTOREFH, "NFS4ERR_RESTOREFH");
   (NFS4ERR_BADXDR, "NFS4ERR_BADXDR");
   (NFS4ERR_OPENMODE, "NFS4ERR_OPENMODE");
   (NFS4ERR_BADOWNER, "NFS4ERR_BADOWNER");
   (NFS4ERR_LOCKS_HELD, "NFS4ERR_LOCKS_HELD");
   (NFS4ERR_RECLAIM_BAD, "NFS4ERR_RECLAIM_BAD");
   (NFS4ERR_BADSESSION, "NFS4ERR_BADSESSION");
   (NFS4ERR_BADSLOT, "NFS4ERR_BADSLOT");
   (NFS4ERR_COMPLETE_ALREADY, "NFS4ERR_COMPLETE_ALREADY");
   (NFS4ERR_SEQ_MISORDERED, "NFS4ERR_SEQ_MISORDERED");
   (NFS4ERR_SEQUENCE_POS, "NFS4ERR_SEQUENCE_POS");
   (NFS4ERR_DEADSESSION, "NFS4ERR_DEADSESSION");
   (NFS4ERR_CONN_NOT_BOUND_TO_SESSION, "NFS4ERR_CONN_NOT_BOUND_TO_SESSION");
   (NFS4ERR_OP_ILLEGAL, "NFS4ERR_OP_ILLEGAL")].

(** src/nfs4/consts.go:167-172 *)
Definition Status_String (s : Z) : string :=
  match statusNames !! s with
  | Some name => name
  | None => "NFS4ERR(" +:+ pretty s +:+ ")"
  end.

(** src/nfs4/consts.go:175-180 *)
Definition Status_Err (s : Z) : option error :=
  if s =? NFS4_OK then None else Some (StatusError s).

(** src/nfs4/consts.go:189-191 *)
Definition StatusError_Error (s : Z) : string := "nfs4: " +:+ Status_String s.

(** src/nfs4/consts.go:194-200 *)
Definition errorHasStatus (err : error) (s : Z) : bool :=
  match AsStatusError err with
  | Some se => se =? s
  | None => false
  end.

(** src/nfs4/consts.go:210-234 *)
Definition StatusError_Is (s : Z) (target : error) : bool :=
  match target with
  | ErrNotExist =>
      (s =? NFS4ERR_NOENT) || (s =? NFS4ERR_STALE) || (s =? NFS4ERR_FHEXPIRED)
      || (s =? NFS4ERR_NOFILEHANDLE)
  | ErrExist => s =? NFS4ERR_EXIST
  | ErrPermission => (s =? NFS4ERR_PERM) || (s =? NFS4ERR_ACCESS) || (s =? NFS4ERR_ROFS)
  | ErrInvalid =>
      (s =? NFS4ERR_INVAL) || (s =? NFS4ERR_BADXDR) || (s =? NFS4ERR_BADHANDLE)
      || (s =? NFS4ERR_BADTYPE)
  | _ => false
  end.

(** [errors.Is] with the repository's only [Is] method. *)
Definition errors_Is : error -> error -> bool := errors_Is_with StatusError_Is.

Lemma Status_Err_None s : Status_Err s = None <-> s = NFS4_OK.
Proof. unfold Status_Err. destruct (Z.eqb_spec s NFS4_OK); split; done. Qed.

Lemma Status_Err_Some s : s <> NFS4_OK -> Status_Err s = Some (StatusError s).
Proof. unfold Status_Err. destruct (Z.eqb_spec s NFS4_OK); done. Qed.

Lemma errorHasStatus_wrap fmt args e s : errorHasStatus (Wrapf fmt args e) s = errorHasStatus e s.
Proof. done. Qed.

Lemma errorHasStatus_spec e s : errorHasStatus e s = true <-> AsStatusError e = Some s.
Proof.
  unfold errorHasStatus. destruct (AsStatusError e); [|done].
  rewrite Z.eqb_eq. split; congruence.
Qed.

(** ** The sentinels a status stands for *)

(** The only sentinel, if any, a status maps onto. *)
Definition sentinel_of (s : Z) : option error :=
  if StatusError_Is s ErrExist then Some ErrExist
  else if StatusError_Is s ErrNotExist then Some ErrNotExist
  else if StatusError_Is s ErrPermission then Some ErrPermission
  else if StatusError_Is s ErrInvalid then Some ErrInvalid
  else None.

Lemma StatusError_Is_sentinel s t :
  StatusError_Is s t = true <-> sentinel_of s = Some t.
Proof.
  split.
  - unfold sentinel_of, StatusError_Is. destruct t; try discriminate; intros H;
      repeat match goal with
             | H : _ || _ = true |- _ => apply orb_true_iff in H as [H|H]
             | H : (_ =? _) = true |- _ => apply Z.eqb_eq in H; subst s
             end; reflexivity.
  - unfold sentinel_of. repeat match goal with |- context [ if ?b then _ else _ ] => destruct b eqn:? end;
      intros [= <-]; assumption.
Qed.

(** [errors.Is] on a chain that contains a StatusError agrees with its status,
    whatever was wrapped around it. *)
Lemma errors_Is_wrapped fmt args e t : (forall f a e', t <> Wrapf f a e') ->
  errors_Is (Wrapf fmt args e) t = errors_Is e t.
Proof.
  intros H. unfold errors_Is. cbn [errors_Is_with].
  rewrite bool_decide_eq_false_2; [done|]. intros E. by eapply H.
Qed.
