(* ===== verification/GoIO.v ===== *)
(** * io.Reader, io.Writer and io.ReadFull

    A reader is the list of what its successive reads can deliver: a chunk of
    data (a [Read] returns at most the bytes asked for and keeps the rest) or
    an error that every later read repeats; an exhausted list is [io.EOF].
    [bytes.NewReader p] is one chunk, a TCP connection is any split of its byte
    stream into segments.  A writer is what it has accepted and a byte budget:
    [bytes.Buffer] has none, a connection that breaks after [k] bytes has [k].

    The only facts of a reader that the client can observe are the bytes it
    still delivers and the error that ends them: [Reader] carries the coarser
    equivalence, and [ReadFull] is proper for it. *)

From S2P Require Import Prelude GoError.

Inductive chunk :=
| Data (bs : bytes)
| Fault (e : error).

Abbreviation Reader := (list chunk).

(** [bytes.NewReader]. *)
Definition bytes_NewReader (p : bytes) : Reader := [Data p].

(** The loop of [io.ReadAtLeast] for a full buffer of [n] bytes: what was read,
    the first error, the reader afterwards. *)
Fixpoint read_loop (r : Reader) (n : Z) : bytes * option error * Reader :=
  if n <=? 0 then ([], None, r) else
  match r with
  | [] => ([], Some EOF, [])
  | Fault e :: _ => ([], Some e, r)
  | Data bs :: r' =>
      if n <? blen bs then (btake n bs, None, Data (bdrop n bs) :: r')
      else let '(got, err, r'') := read_loop r' (n - blen bs) in (bs ++ got, err, r'')
  end.

(** [io.ReadFull]: an [io.EOF] after some bytes becomes [io.ErrUnexpectedEOF]. *)
Definition ReadFull (r : Reader) (n : Z) : bytes * option error * Reader :=
  let '(got, err, r') := read_loop r n in
  match err with
  | Some EOF => if 0 <? blen got then (got, Some ErrUnexpectedEOF, r') else (got, err, r')
  | _ => (got, err, r')
  end.

(** ** What a reader still delivers *)

Fixpoint rbytes (r : Reader) : bytes :=
  match r with
  | [] => []
  | Fault _ :: _ => []
  | Data bs :: r' => bs ++ rbytes r'
  end.

Fixpoint rfate (r : Reader) : error :=
  match r with
  | [] => EOF
  | Fault e :: _ => e
  | Data _ :: r' => rfate r'
  end.

#[global] Instance reader_equiv : Equiv Reader :=
  fun r1 r2 => rbytes r1 = rbytes r2 /\ rfate r1 = rfate r2.

#[global] Instance reader_equivalence : Equivalence (≡@{Reader}).
Proof.
  split.
  - done.
  - intros ?? [??]; done.
  - intros ??? [??] [??]; split; congruence.
Qed.

(** The error a full read of [n] bytes reports on a reader that has only
    [avail] bytes left before [fate]. *)
Definition short_error (avail : bytes) (fate : error) : error :=
  match fate with
  | EOF => if 0 <? blen avail then ErrUnexpectedEOF else EOF
  | e => e
  end.

Lemma read_loop_enough r n : 0 <= n <= blen (rbytes r) ->
  exists r', read_loop r n = (btake n (rbytes r), None, r')
             /\ rbytes r' = bdrop n (rbytes r) /\ rfate r' = rfate r.
Proof.
  revert n. induction r as [|[bs|e] r IH]; intros n Hn; cbn in *.
  - assert (n = 0) as -> by (unfold blen in Hn; cbn in Hn; lia). by exists [].
  - destruct (Z.leb_spec n 0).
    + assert (n = 0) as -> by lia. by exists (Data bs :: r).
    + rewrite blen_app in Hn. destruct (Z.ltb_spec n (blen bs)).
      * exists (Data (bdrop n bs) :: r). rewrite btake_app_le, bdrop_app_le by lia. done.
      * destruct (IH (n - blen bs)) as (r' & -> & Hb & Hf); [lia|].
        exists r'. rewrite btake_app_ge, bdrop_app_ge by lia. done.
  - assert (n = 0) as -> by (unfold blen in Hn; cbn in Hn; lia). by exists (Fault e :: r).
Qed.

Lemma read_loop_short r n : blen (rbytes r) < n ->
  exists r', read_loop r n = (rbytes r, Some (rfate r), r')
             /\ rbytes r' = [] /\ rfate r' = rfate r.
Proof.
  revert n. induction r as [|[bs|e] r IH]; intros n Hn; cbn in *.
  - destruct (Z.leb_spec n 0); [unfold blen in Hn; cbn in Hn; lia|]. by exists [].
  - rewrite blen_app in Hn. pose proof (blen_nonneg (rbytes r)). pose proof (blen_nonneg bs).
    destruct (Z.leb_spec n 0); [lia|]. destruct (Z.ltb_spec n (blen bs)); [lia|].
    destruct (IH (n - blen bs)) as (r' & -> & Hb & Hf); [lia|]. by exists r'.
  - destruct (Z.leb_spec n 0); [unfold blen in Hn; cbn in Hn; lia|]. by exists (Fault e :: r).
Qed.

Lemma ReadFull_enough r n : 0 <= n <= blen (rbytes r) ->
  exists r', ReadFull r n = (btake n (rbytes r), None, r')
             /\ rbytes r' = bdrop n (rbytes r) /\ rfate r' = rfate r.
Proof.
  intros H. destruct (read_loop_enough r n H) as (r' & E & ?). exists r'.
  unfold ReadFull. by rewrite E.
Qed.

Lemma ReadFull_short r n : blen (rbytes r) < n ->
  exists r', ReadFull r n = (rbytes r, Some (short_error (rbytes r) (rfate r)), r')
             /\ rbytes r' = [] /\ rfate r' = rfate r.
Proof.
  intros H. destruct (read_loop_short r n H) as (r' & E & ?). exists r'.
  unfold ReadFull, short_error. rewrite E. split; [|done].
  destruct (rfate r); try done. by destruct (0 <? blen (rbytes r)).
Qed.

(** Reads of a non-positive length do nothing. *)
Lemma ReadFull_nonpos r n : n <= 0 -> ReadFull r n = ([], None, r).
Proof.
  intros. unfold ReadFull. assert (read_loop r n = ([], None, r)) as ->; [|done].
  destruct r as [|[]]; cbn; by destruct (Z.leb_spec n 0); [|lia].
Qed.

(** [ReadFull] cannot tell equivalent readers apart: the way a byte stream is
    cut into chunks is not observable. *)
Lemma ReadFull_equiv r1 r2 n : r1 ≡ r2 ->
  (ReadFull r1 n).1 = (ReadFull r2 n).1 /\ (ReadFull r1 n).2 ≡ (ReadFull r2 n).2.
Proof.
  intros [Hb Hf]. destruct (Z.le_gt_cases n 0).
  { by rewrite !ReadFull_nonpos by done. }
  destruct (Z.le_gt_cases n (blen (rbytes r1))).
  - destruct (ReadFull_enough r1 n) as (r1' & -> & ? & ?); [lia|].
    destruct (ReadFull_enough r2 n) as (r2' & -> & ? & ?); [rewrite <- Hb; lia|].
    cbn. rewrite Hb. split; [done|split; congruence].
  - destruct (ReadFull_short r1 n) as (r1' & -> & ? & ?); [lia|].
    destruct (ReadFull_short r2 n) as (r2' & -> & ? & ?); [rewrite <- Hb; lia|].
    cbn. rewrite Hb, Hf. split; [done|split; congruence].
Qed.

(** ** Writers *)

Record Writer := mkWriter {
  w_out : bytes;                       (* everything accepted so far *)
  w_budget : option (Z * error)        (* bytes still accepted before failing *)
}.

(** An empty [bytes.Buffer], whose writes never fail. *)
Definition bytes_Buffer : Writer := mkWriter [] None.

(** [w.Write(p)]: the error, the writer afterwards. *)
Definition Write (w : Writer) (p : bytes) : option error * Writer :=
  match w_budget w with
  | None => (None, mkWriter (w_out w ++ p) None)
  | Some (k, e) =>
      if blen p <=? k then (None, mkWriter (w_out w ++ p) (Some (k - blen p, e)))
      else (Some e, mkWriter (w_out w ++ btake k p) (Some (0, e)))
  end.

Lemma Write_buffer w p : w_budget w = None -> Write w p = (None, mkWriter (w_out w ++ p) None).
Proof. unfold Write. by intros ->. Qed.
