(* ===== verification/Xdr.v ===== *)
(** * Package xdr (src/xdr/encoder.go, src/xdr/decoder.go)

    The sticky-error [Encoder] and [Decoder].  An encoder operation is a
    function on the encoder state; a decoder operation is a computation of the
    state monad [Dec].  The scratch array [buf] of both structs is overwritten
    before each use and never read across calls, so it carries no state. *)

From S2P Require Import Prelude GoError GoIO.

(** src/xdr/encoder.go:24-24 *)
Definition Unit : Z := 4.

(** src/xdr/encoder.go:133-139 *)
Definition pad4 (n : Z) : Z :=
  let r := Z.rem n Unit in
  if r =? 0 then 0 else Unit - r.

Module Encoder.

(** src/xdr/encoder.go:31-37 *)
Record t := mk {
  w : Writer;
  err : option error
}.

(** src/xdr/encoder.go:40-42 *)
Definition NewEncoder (w : Writer) : t := mk w None.

(** src/xdr/encoder.go:45-47 *)
Definition Err (e : t) : option error := err e.

(** src/xdr/encoder.go:50-57 *)
Definition write (p : bytes) (e : t) : t :=
  match err e with
  | Some _ => e
  | None =>
      match Write (w e) p with
      | (Some er, w') => mk w' (Some er)
      | (None, w') => mk w' None
      end
  end.

(** src/xdr/encoder.go:60-66 *)
Definition pad (n : Z) (e : t) : t :=
  if n =? 0 then e
  else write (btake n (replicate 4 x00)) e.

(** src/xdr/encoder.go:69-72 *)
Definition Uint32 (v : Z) (e : t) : t := write (be 4 v) e.

(** src/xdr/encoder.go:75-77 *)
Definition Int32 (v : Z) (e : t) : t := Uint32 (u32 v) e.

(** src/xdr/encoder.go:80-83 *)
Definition Uint64 (v : Z) (e : t) : t := write (be 8 v) e.

(** src/xdr/encoder.go:86-88 *)
Definition Int64 (v : Z) (e : t) : t := Uint64 (u64 v) e.

(** src/xdr/encoder.go:91-97 *)
Definition Bool (v : bool) (e : t) : t :=
  if v then Uint32 1 e else Uint32 0 e.

(** src/xdr/encoder.go:101-105 *)
Definition Opaque (p : bytes) (e : t) : t :=
  pad (pad4 (blen p)) (write p (Uint32 (u32 (blen p)) e)).

(** src/xdr/encoder.go:109-112 *)
Definition FixedOpaque (p : bytes) (e : t) : t :=
  pad (pad4 (blen p)) (write p e).

(** src/xdr/encoder.go:116-120 *)
Definition String (s : bytes) (e : t) : t :=
  pad (pad4 (blen s)) (write s (Uint32 (u32 (blen s)) e)).

(** src/xdr/encoder.go:124-129 *)
Definition Union (discriminant : Z) (encodeArm : option (t -> t)) (e : t) : t :=
  let e := Uint32 discriminant e in
  match encodeArm with
  | Some arm => arm e
  | None => e
  end.

End Encoder.

(** Sequencing of encoder statements, in source order. *)
Declare Scope enc_scope.
Delimit Scope enc_scope with enc.
Definition enc_seq (f g : Encoder.t -> Encoder.t) (e : Encoder.t) : Encoder.t := g (f e).
Notation "f ;; g" := (enc_seq f g) (at level 100, right associativity) : enc_scope.

(** A [for _, x := range l { ... }] of encoder statements. *)
Definition each {A} (f : A -> Encoder.t -> Encoder.t) (l : list A) (e : Encoder.t) : Encoder.t :=
  fold_left (fun e x => f x e) l e.

Module Decoder.

(** src/xdr/decoder.go:31-31 *)
Definition defaultMaxLen : Z := Z.shiftl 64 20.

(** src/xdr/decoder.go:38-45 *)
Record t := mk {
  r : Reader;
  MaxLen : Z;
  err : option error
}.

(** src/xdr/decoder.go:48-50 *)
Definition NewDecoder (r : Reader) : t := mk r 0 None.

(** src/xdr/decoder.go:53-55 *)
Definition Err (d : t) : option error := err d.

Definition set_err (e : error) (d : t) : t := mk (r d) (MaxLen d) (Some e).

End Decoder.

(** A statement or expression of decoding code. *)
Definition Dec (A : Type) : Type := Decoder.t -> A * Decoder.t.

#[global] Instance Dec_ret : MRet Dec := fun A a d => (a, d).
#[global] Instance Dec_bind : MBind Dec := fun A B k m d =>
  let '(a, d') := m d in k a d'.

Module D.

(** [d.Err()] as a statement of decoding code. *)
Definition Err : Dec (option error) := fun d => (Decoder.err d, d).

(** src/xdr/decoder.go:57-62 *)
Definition maxLen (d : Decoder.t) : Z :=
  if Decoder.MaxLen d =? 0 then Decoder.defaultMaxLen else Decoder.MaxLen d.

(** src/xdr/decoder.go:66-73 *)
Definition read (n : Z) : Dec bytes := fun d =>
  match Decoder.err d with
  | Some _ => ([], d)
  | None =>
      let '(p, e, r') := ReadFull (Decoder.r d) n in
      (p, Decoder.mk r' (Decoder.MaxLen d) e)
  end.

(** src/xdr/decoder.go:76-82 *)
Definition discard (n : Z) : Dec unit := fun d =>
  if (n =? 0) || negb (is_nil (Decoder.err d)) then (tt, d)
  else let '(_, d') := read n d in (tt, d').

(** src/xdr/decoder.go:85-91 *)
Definition Uint32 : Dec Z := fun d =>
  let '(p, d') := read 4 d in
  match Decoder.err d' with
  | Some _ => (0, d')
  | None => (unbe p, d')
  end.

(** src/xdr/decoder.go:94-96 *)
Definition Int32 : Dec Z := v ← Uint32; mret (i32 v).

(** src/xdr/decoder.go:99-105 *)
Definition Uint64 : Dec Z := fun d =>
  let '(p, d') := read 8 d in
  match Decoder.err d' with
  | Some _ => (0, d')
  | None => (unbe p, d')
  end.

(** src/xdr/decoder.go:108-110 *)
Definition Int64 : Dec Z := v ← Uint64; mret (i64 v).

(** src/xdr/decoder.go:113-115 *)
Definition Bool : Dec bool := v ← Uint32; mret (negb (v =? 0)).

(** src/xdr/decoder.go:128-137, the body shared by Opaque and FixedOpaque *)
Definition body (n : Z) : Dec bytes := fun d =>
  let '(out, d1) := read n d in
  match Decoder.err d1 with
  | Some _ => ([], d1)
  | None =>
      let '(_, d2) := discard (pad4 n) d1 in
      match Decoder.err d2 with
      | Some _ => ([], d2)
      | None => (out, d2)
      end
  end.

(** src/xdr/decoder.go:119-138 *)
Definition Opaque : Dec bytes := fun d =>
  let '(n, d1) := Uint32 d in
  match Decoder.err d1 with
  | Some _ => ([], d1)
  | None =>
      if maxLen d1 <? n then ([], Decoder.set_err ErrLimitExceeded d1)
      else body n d1
  end.

(** src/xdr/decoder.go:142-157 *)
Definition FixedOpaque (n : Z) : Dec bytes := fun d =>
  if n <? 0 then ([], Decoder.set_err ErrLimitExceeded d)
  else body n d.

(** src/xdr/decoder.go:160-162 *)
Definition String : Dec bytes := Opaque.

(** src/xdr/decoder.go:167-176 *)
Definition Union (decodeArm : option (Z -> Dec unit)) : Dec Z := fun d =>
  let '(disc, d1) := Uint32 d in
  match Decoder.err d1 with
  | Some _ => (0, d1)
  | None =>
      match decodeArm with
      | Some arm => let '(_, d2) := arm disc d1 in (disc, d2)
      | None => (disc, d1)
      end
  end.

End D.
