(* ===== verification/XdrSpec.v ===== *)
(** * What the codec promises (specification of package xdr)

    [emits] says which bytes an encoder statement appends; [parses] says that a
    decoder computation consumes exactly given bytes and returns a given value;
    [Sticky] that it keeps the first error; [Stable] that it cannot see how its
    input is cut into chunks.  [Wire] is the interface the other components use:
    a type with its wire form, its encoder and its decoder, and the laws that tie
    them.  Every type of the protocol is proved against it by composing the laws
    of its parts. *)

From S2P Require Import Prelude GoError GoIO Xdr.
From Stdlib Require Import Morphisms.

(** ** Encoders *)

(** The padding of [pad4]. *)
Definition zeros (n : Z) : bytes := replicate (Z.to_nat n) x00.

Lemma pad4_range n : 0 <= n -> 0 <= pad4 n < 4 /\ (n + pad4 n) mod 4 = 0.
Proof. intros. unfold pad4, Unit. bool_cases; lia. Qed.

Lemma zeros_take n : 0 <= n <= 4 -> btake n (replicate 4 x00) = zeros n.
Proof.
  intros. unfold btake, zeros. rewrite take_replicate. f_equal. lia.
Qed.

Lemma blen_zeros n : 0 <= n -> blen (zeros n) = n.
Proof. intros. unfold zeros. autorewrite with blen. lia. Qed.

(** [emits f bs]: a healthy encoder over a buffer appends exactly [bs]; over a
    writer that breaks after [k] bytes it succeeds when [bs] fits and otherwise
    delivers the first [k] bytes and latches the writer's error; an encoder that
    has failed is left alone. *)
Record emits (f : Encoder.t -> Encoder.t) (bs : bytes) : Prop := {
  emits_healthy : forall o, f (Encoder.mk (mkWriter o None) None)
                            = Encoder.mk (mkWriter (o ++ bs) None) None;
  emits_broken : forall o k er, 0 <= k ->
    f (Encoder.mk (mkWriter o (Some (k, er))) None)
    = if blen bs <=? k then Encoder.mk (mkWriter (o ++ bs) (Some (k - blen bs, er))) None
      else Encoder.mk (mkWriter (o ++ btake k bs) (Some (0, er))) (Some er);
  emits_failed : forall e er, Encoder.err e = Some er -> f e = e
}.

Lemma emits_id : emits (fun e => e) [].
Proof.
  split; [intros; by rewrite app_nil_r | | done].
  intros o k er Hk. rewrite blen_nil, Z.sub_0_r, app_nil_r. by destruct (Z.leb_spec 0 k); [|lia].
Qed.

Lemma emits_seq f g b1 b2 : emits f b1 -> emits g b2 -> emits (f ;; g)%enc (b1 ++ b2).
Proof.
  intros [Hf Bf Ff] [Hg Bg Fg]. unfold enc_seq. split.
  - intros o. by rewrite Hf, Hg, <- app_assoc.
  - intros o k er Hk. rewrite Bf, blen_app by done. pose proof (blen_nonneg b2).
    destruct (Z.leb_spec (blen b1) k).
    + rewrite Bg by lia. destruct (Z.leb_spec (blen b2) (k - blen b1)).
      * destruct (Z.leb_spec (blen b1 + blen b2) k); [|lia]. rewrite <- app_assoc. do 4 f_equal. lia.
      * destruct (Z.leb_spec (blen b1 + blen b2) k); [lia|].
        by rewrite <- app_assoc, (btake_app_ge k b1) by lia.
    + destruct (Z.leb_spec (blen b1 + blen b2) k); [lia|].
      rewrite btake_app_le by lia. by apply (Fg _ er).
  - intros e er He. rewrite (Ff e er He). eauto.
Qed.

Lemma emits_write p : emits (Encoder.write p) p.
Proof.
  split.
  - done.
  - intros o k er Hk. unfold Encoder.write, Write. cbn. by destruct (blen p <=? k).
  - intros e er He. unfold Encoder.write. by rewrite He.
Qed.

Lemma emits_pad n : 0 <= n <= 4 -> emits (Encoder.pad n) (zeros n).
Proof.
  intros H. unfold Encoder.pad. destruct (Z.eqb_spec n 0) as [->|].
  - apply emits_id.
  - rewrite zeros_take by done. apply emits_write.
Qed.

Lemma emits_eq f b1 b2 : emits f b1 -> b1 = b2 -> emits f b2.
Proof. by intros ? ->. Qed.

Lemma emits_each {A} (f : A -> Encoder.t -> Encoder.t) (wire : A -> bytes) l :
  (forall x, emits (f x) (wire x)) -> emits (each f l) (concat (map wire l)).
Proof.
  intros H. induction l as [|x l IH]; [apply emits_id|].
  apply (emits_seq _ _ _ _ (H x) IH).
Qed.

(** Wire forms of the primitives. *)
Definition wire_u32 (v : Z) : bytes := be 4 v.
Definition wire_u64 (v : Z) : bytes := be 8 v.
Definition wire_bool (v : bool) : bytes := be 4 (if v then 1 else 0).
Definition wire_fixed (p : bytes) : bytes := p ++ zeros (pad4 (blen p)).
Definition wire_opaque (p : bytes) : bytes := wire_u32 (blen p) ++ wire_fixed p.

#[global] Arguments be : simpl never.
#[global] Arguments wire_u32 : simpl never.
#[global] Arguments wire_u64 : simpl never.
#[global] Arguments wire_bool : simpl never.
#[global] Arguments wire_fixed : simpl never.
#[global] Arguments wire_opaque : simpl never.
#[global] Arguments D.Uint32 : simpl never.
#[global] Arguments D.Uint64 : simpl never.
#[global] Arguments D.Int32 : simpl never.
#[global] Arguments D.Int64 : simpl never.
#[global] Arguments D.Bool : simpl never.
#[global] Arguments D.Opaque : simpl never.
#[global] Arguments D.String : simpl never.
#[global] Arguments D.FixedOpaque : simpl never.
#[global] Arguments D.Err : simpl never.

Lemma be4_u32 v : be 4 (u32 v) = be 4 v.
Proof.
  rewrite <- (be_unbe (be 4 v)). rewrite length_be. f_equal. by rewrite unbe_be4.
Qed.

Lemma be8_u64 v : be 8 (u64 v) = be 8 v.
Proof.
  rewrite <- (be_unbe (be 8 v)). rewrite length_be. f_equal. by rewrite unbe_be8.
Qed.

Lemma emits_Uint32 v : emits (Encoder.Uint32 v) (wire_u32 v).
Proof. apply emits_write. Qed.
Lemma emits_Uint64 v : emits (Encoder.Uint64 v) (wire_u64 v).
Proof. apply emits_write. Qed.
Lemma emits_Bool v : emits (Encoder.Bool v) (wire_bool v).
Proof. destruct v; apply emits_write. Qed.
Lemma emits_FixedOpaque p : emits (Encoder.FixedOpaque p) (wire_fixed p).
Proof.
  apply (emits_seq (Encoder.write p) (Encoder.pad _)); [apply emits_write|].
  apply emits_pad.
  pose proof (pad4_range (blen p) (blen_nonneg p)). lia.
Qed.
Lemma emits_Opaque p : emits (Encoder.Opaque p) (wire_opaque p).
Proof.
  apply (emits_eq _ (wire_u32 (u32 (blen p)) ++ wire_fixed p)).
  - apply (emits_seq (Encoder.Uint32 _) (Encoder.FixedOpaque p));
      [apply emits_Uint32 | apply emits_FixedOpaque].
  - unfold wire_opaque, wire_u32. by rewrite be4_u32.
Qed.
Lemma emits_String p : emits (Encoder.String p) (wire_opaque p).
Proof. apply emits_Opaque. Qed.

#[export] Hint Resolve emits_id emits_Uint32 emits_Uint64 emits_Bool
  emits_FixedOpaque emits_Opaque emits_String : nfs.

(** Solves [emits (f1 ;; ... ;; fn) (b1 ++ ... ++ bn)] from the laws of the parts. *)
Ltac emit :=
  repeat first [ solve [auto with nfs] | apply emits_seq; [solve [auto with nfs]|] ].

(** ** Decoders *)

(** The state a [NewDecoder] over a reader is in, before and after reads. *)
Record healthy (d : Decoder.t) : Prop := {
  healthy_err : Decoder.err d = None;
  healthy_max : Decoder.MaxLen d = 0
}.

Definition rest (d : Decoder.t) : bytes := rbytes (Decoder.r d).
Definition fate (d : Decoder.t) : error := rfate (Decoder.r d).

(** [parses m bs a]: on input starting with [bs], [m] consumes exactly [bs],
    returns [a] and reports no error. *)
Definition parses {A} (m : Dec A) (bs : bytes) (a : A) : Prop :=
  forall d more, healthy d -> rest d = bs ++ more ->
  exists d', m d = (a, d') /\ healthy d' /\ rest d' = more /\ fate d' = fate d.

Lemma parses_ret {A} (a : A) : parses (mret a) [] a.
Proof. intros d more Hd Hr. by exists d. Qed.

Lemma parses_Err : parses D.Err [] None.
Proof. intros d more Hd Hr. exists d. unfold D.Err. by rewrite (healthy_err _ Hd). Qed.

Lemma parses_bind {A B} (m : Dec A) (k : A -> Dec B) b1 b2 a b :
  parses m b1 a -> parses (k a) b2 b -> parses (m ≫= k) (b1 ++ b2) b.
Proof.
  intros Hm Hk d more Hd Hr. rewrite <- app_assoc in Hr.
  destruct (Hm d _ Hd Hr) as (d1 & E1 & Hd1 & Hr1 & Hf1).
  destruct (Hk d1 _ Hd1 Hr1) as (d2 & E2 & Hd2 & Hr2 & Hf2).
  exists d2. unfold mbind, Dec_bind. rewrite E1, E2. split_and!; try done. congruence.
Qed.

Lemma parses_bind_last {A B} (m : Dec A) (k : A -> Dec B) b1 a b :
  parses m b1 a -> parses (k a) [] b -> parses (m ≫= k) b1 b.
Proof. intros. rewrite <- (app_nil_r b1). by eapply parses_bind. Qed.

Lemma parses_bind_nil {A B} (m : Dec A) (k : A -> Dec B) bs a b :
  parses m [] a -> parses (k a) bs b -> parses (m ≫= k) bs b.
Proof. intros Hm Hk. change bs with ([] ++ bs). by eapply parses_bind. Qed.

Lemma parses_eq {A} (m : Dec A) b1 b2 a : parses m b1 a -> b1 = b2 -> parses m b2 a.
Proof. by intros ? ->. Qed.

(** A value parsed from a whole buffer, as [xdr.NewDecoder(bytes.NewReader(p))]
    is used throughout the client. *)
Lemma parses_run {A} (m : Dec A) bs a : parses m bs a ->
  exists d', m (Decoder.NewDecoder (bytes_NewReader bs)) = (a, d')
             /\ Decoder.err d' = None /\ rest d' = [].
Proof.
  intros H. destruct (H (Decoder.NewDecoder (bytes_NewReader bs)) []) as (d' & E & Hd & Hr & _).
  - done.
  - cbn. by rewrite !app_nil_r.
  - exists d'. by destruct Hd.
Qed.

Lemma read_enough d n : Decoder.err d = None -> 0 <= n <= blen (rest d) ->
  exists d', D.read n d = (btake n (rest d), d') /\ Decoder.err d' = None
    /\ Decoder.MaxLen d' = Decoder.MaxLen d /\ rest d' = bdrop n (rest d) /\ fate d' = fate d.
Proof.
  intros He Hn. destruct (ReadFull_enough _ _ Hn) as (r' & E & Hb & Hf).
  exists (Decoder.mk r' (Decoder.MaxLen d) None). unfold D.read. by rewrite He, E.
Qed.

Lemma parses_read bs : parses (D.read (blen bs)) bs bs.
Proof.
  intros d more [He Hm] Hr.
  destruct (read_enough d (blen bs) He) as (d' & E & He' & Hm' & Hr' & Hf').
  { rewrite Hr. blen_lia. }
  exists d'. rewrite E, Hr, btake_app_exact by done. rewrite Hr, bdrop_app_exact in Hr' by done.
  split_and!; [done | split; congruence | done | done].
Qed.

Lemma parses_read_eq n bs : blen bs = n -> parses (D.read n) bs bs.
Proof. intros <-. apply parses_read. Qed.

Lemma parses_Uint32 v : is_u32 v -> parses D.Uint32 (wire_u32 v) v.
Proof.
  intros Hv d more Hd Hr.
  destruct (parses_read_eq 4 (wire_u32 v) ltac:(apply blen_be) d more Hd Hr) as (d' & E & Hd' & ?).
  exists d'. unfold D.Uint32. rewrite E, (healthy_err _ Hd').
  unfold wire_u32. by rewrite unbe_be4, u32_id.
Qed.

Lemma parses_Uint64 v : is_u64 v -> parses D.Uint64 (wire_u64 v) v.
Proof.
  intros Hv d more Hd Hr.
  destruct (parses_read_eq 8 (wire_u64 v) ltac:(apply blen_be) d more Hd Hr) as (d' & E & Hd' & ?).
  exists d'. unfold D.Uint64. rewrite E, (healthy_err _ Hd').
  unfold wire_u64. by rewrite unbe_be8, u64_id.
Qed.

Lemma parses_Bool v : parses D.Bool (wire_bool v) v.
Proof.
  eapply parses_bind_last; [by apply (parses_Uint32 (if v then 1 else 0)); destruct v|].
  by destruct v; apply parses_ret.
Qed.

Lemma parses_Int64 v : is_i64 v -> parses D.Int64 (wire_u64 (u64 v)) v.
Proof.
  intros. eapply parses_bind_last; [apply parses_Uint64; auto with wf|].
  rewrite i64_u64 by done. apply parses_ret.
Qed.

Lemma parses_Int32 v : is_i32 v -> parses D.Int32 (wire_u32 (u32 v)) v.
Proof.
  intros. eapply parses_bind_last; [apply parses_Uint32; auto with wf|].
  rewrite i32_u32 by done. apply parses_ret.
Qed.

Lemma parses_discard n : 0 <= n -> parses (D.discard n) (zeros n) tt.
Proof.
  intros Hn d more Hd Hr. unfold D.discard. rewrite (healthy_err _ Hd). cbn.
  rewrite orb_false_r. destruct (Z.eqb_spec n 0) as [->|].
  - by exists d.
  - destruct (parses_read_eq n (zeros n) (blen_zeros n Hn) d more Hd Hr) as (d' & -> & ?).
    by exists d'.
Qed.

Lemma parses_body p : parses (D.body (blen p)) (wire_fixed p) p.
Proof.
  intros d more Hd Hr. unfold wire_fixed in Hr. rewrite <- app_assoc in Hr.
  destruct (parses_read p d _ Hd Hr) as (d1 & E1 & Hd1 & Hr1 & Hf1).
  pose proof (pad4_range (blen p) (blen_nonneg p)).
  destruct (parses_discard (pad4 (blen p)) ltac:(lia) d1 _ Hd1 Hr1) as (d2 & E2 & Hd2 & Hr2 & Hf2).
  exists d2. unfold D.body.
  rewrite E1, (healthy_err _ Hd1), E2, (healthy_err _ Hd2). split_and!; try done. congruence.
Qed.

Lemma parses_FixedOpaque n p : blen p = n -> parses (D.FixedOpaque n) (wire_fixed p) p.
Proof.
  intros <-. unfold D.FixedOpaque. pose proof (blen_nonneg p).
  destruct (Z.ltb_spec (blen p) 0); [lia|]. apply parses_body.
Qed.

(** Lengths a decoder accepts by default: 64 MiB. *)
Definition fits (p : bytes) : Prop := blen p <= 67108864.

Lemma parses_Opaque p : fits p -> parses D.Opaque (wire_opaque p) p.
Proof.
  unfold fits. intros Hp d more Hd Hr. unfold wire_opaque in Hr. rewrite <- app_assoc in Hr.
  pose proof (blen_nonneg p).
  destruct (parses_Uint32 (blen p) ltac:(int_lia) d _ Hd Hr) as (d1 & E1 & Hd1 & Hr1 & Hf1).
  destruct (parses_body p d1 _ Hd1 Hr1) as (d2 & E2 & Hd2 & Hr2 & Hf2).
  exists d2. unfold D.Opaque, D.maxLen.
  rewrite E1, (healthy_err _ Hd1), (healthy_max _ Hd1). cbn.
  change Decoder.defaultMaxLen with 67108864.
  destruct (Z.ltb_spec 67108864 (blen p)); [lia|].
  rewrite E2. split_and!; try done. congruence.
Qed.

Lemma parses_String p : fits p -> parses D.String (wire_opaque p) p.
Proof. apply parses_Opaque. Qed.

#[export] Hint Resolve parses_ret parses_Err parses_Uint32 parses_Uint64 parses_Bool parses_Int64
  parses_Int32 parses_FixedOpaque parses_Opaque parses_String : nfs.

(** Decide the tests on constants that a decoder or a wire form branches on. *)
Ltac const_ifs :=
  repeat match goal with
         | |- context [ if ?b then _ else _ ] =>
             (let v := eval vm_compute in b in
              lazymatch v with true => change b with true | false => change b with false end);
             cbv iota
         end.

(** Solves [parses (x ← m1; ... mret a) (b1 ++ ... ++ bn) a] from the laws of the parts. *)
Ltac parse :=
  repeat first
    [ solve [eauto with nfs]
    | progress const_ifs
    | eapply parses_bind; [solve [eauto with nfs]|]; cbn beta
    | eapply parses_bind_last; [solve [eauto with nfs]|]; cbn beta ].

(** ** Sticky errors *)

(** Once the decoder has failed, [m] neither reads nor replaces the error. *)
Class Sticky {A} (m : Dec A) : Prop :=
  sticky : forall d e, Decoder.err d = Some e -> (m d).2 = d.

#[global] Instance sticky_ret {A} (a : A) : Sticky (mret a).
Proof. by intros d e He. Qed.

#[global] Instance sticky_bind {A B} (m : Dec A) (k : A -> Dec B) :
  Sticky m -> (forall a, Sticky (k a)) -> Sticky (m ≫= k).
Proof.
  intros Hm Hk d e He. unfold mbind, Dec_bind.
  specialize (Hm d e He). destruct (m d) as [a d1]. cbn in Hm. subst d1. by apply (Hk a d e).
Qed.

#[global] Instance sticky_if {A} (b : bool) (m1 m2 : Dec A) :
  Sticky m1 -> Sticky m2 -> Sticky (if b then m1 else m2).
Proof. by destruct b. Qed.

#[global] Instance sticky_read n : Sticky (D.read n).
Proof. intros d e He. unfold D.read. by rewrite He. Qed.

#[global] Instance sticky_Uint32 : Sticky D.Uint32.
Proof. intros d e He. unfold D.Uint32, D.read. by rewrite He, He. Qed.

#[global] Instance sticky_Uint64 : Sticky D.Uint64.
Proof. intros d e He. unfold D.Uint64, D.read. by rewrite He, He. Qed.

#[global] Instance sticky_body n : Sticky (D.body n).
Proof. intros d e He. unfold D.body, D.read. by rewrite He, He. Qed.

#[global] Instance sticky_Opaque : Sticky D.Opaque.
Proof. intros d e He. unfold D.Opaque, D.Uint32, D.read. by rewrite He, He, He. Qed.

#[global] Instance sticky_String : Sticky D.String := sticky_Opaque.
#[global] Instance sticky_Bool : Sticky D.Bool.
Proof. unfold D.Bool. apply _. Qed.
#[global] Instance sticky_Int64 : Sticky D.Int64.
Proof. unfold D.Int64. apply _. Qed.
#[global] Instance sticky_Int32 : Sticky D.Int32.
Proof. unfold D.Int32. apply _. Qed.
#[global] Instance sticky_Err : Sticky D.Err.
Proof. by intros d e He. Qed.

(** A fixed-length field of a negative length is the exception: it overwrites
    the error, so the instance asks for the length the callers pass. *)
Class NonNeg (n : Z) : Prop := nonneg : (0 <=? n) = true.
#[global] Hint Extern 0 (NonNeg _) => reflexivity : typeclass_instances.

#[global] Instance sticky_FixedOpaque n : NonNeg n -> Sticky (D.FixedOpaque n).
Proof.
  intros H%Z.leb_le. unfold D.FixedOpaque. destruct (Z.ltb_spec n 0); [lia|]. apply _.
Qed.

(** What the primitives return after a failure. *)
Lemma Uint32_failed d e : Decoder.err d = Some e -> D.Uint32 d = (0, d).
Proof. intros He. unfold D.Uint32, D.read. by rewrite He, He. Qed.
Lemma Uint64_failed d e : Decoder.err d = Some e -> D.Uint64 d = (0, d).
Proof. intros He. unfold D.Uint64, D.read. by rewrite He, He. Qed.
Lemma Bool_failed d e : Decoder.err d = Some e -> D.Bool d = (false, d).
Proof. intros He. unfold D.Bool, mbind, Dec_bind. by rewrite (Uint32_failed d e He). Qed.
Lemma Opaque_failed d e : Decoder.err d = Some e -> D.Opaque d = ([], d).
Proof. intros He. unfold D.Opaque. by rewrite (Uint32_failed d e He), He. Qed.

(** ** Chunking cannot be observed *)

#[global] Instance decoder_equiv : Equiv Decoder.t := fun d1 d2 =>
  Decoder.r d1 ≡ Decoder.r d2 /\ Decoder.MaxLen d1 = Decoder.MaxLen d2
  /\ Decoder.err d1 = Decoder.err d2.

#[global] Instance decoder_equivalence : Equivalence (≡@{Decoder.t}).
Proof.
  split.
  - intros d. split; [done|by split].
  - intros d1 d2 (? & ? & ?). split; [done|by split].
  - intros d1 d2 d3 (? & ? & ?) (? & ? & ?). split; [|split]; etrans; eauto.
Qed.

Lemma decoder_equiv_mk r1 r2 m e : r1 ≡ r2 -> Decoder.mk r1 m e ≡ Decoder.mk r2 m e.
Proof. intros. split; [done|by split]. Qed.

(** The relation two runs on equivalent decoders end in. *)
Definition run_equiv {A} : relation (A * Decoder.t) := fun p q => p.1 = q.1 /\ p.2 ≡ q.2.

Class Stable {A} (m : Dec A) : Prop :=
  stable :: Proper ((≡) ==> run_equiv) m.

#[global] Instance stable_ret {A} (a : A) : Stable (mret a).
Proof. by intros d1 d2 Hd. Qed.

#[global] Instance stable_bind {A B} (m : Dec A) (k : A -> Dec B) :
  Stable m -> (forall a, Stable (k a)) -> Stable (m ≫= k).
Proof.
  intros Hm Hk d1 d2 Hd. specialize (Hm d1 d2 Hd). unfold mbind, Dec_bind.
  destruct (m d1) as [a1 e1], (m d2) as [a2 e2], Hm as [Ha He]. cbn in *. subst a2.
  by apply (Hk a1).
Qed.

#[global] Instance stable_if {A} (b : bool) (m1 m2 : Dec A) :
  Stable m1 -> Stable m2 -> Stable (if b then m1 else m2).
Proof. by destruct b. Qed.

#[global] Instance stable_read n : Stable (D.read n).
Proof.
  intros [r1 m1 e1] [r2 m2 e2] (Hr & Hm & He). cbn in *. subst. unfold D.read. cbn.
  destruct e2; [split; [done|by apply decoder_equiv_mk]|].
  destruct (ReadFull_equiv r1 r2 n Hr) as [H1 H2].
  destruct (ReadFull r1 n) as [[p1 x1] r1'], (ReadFull r2 n) as [[p2 x2] r2'].
  cbn in *. injection H1 as -> ->. split; [done|by apply decoder_equiv_mk].
Qed.

(** Case analysis on the (equal) error fields of two equivalent decoders. *)
Ltac stable_err H :=
  let He := fresh in
  pose proof (proj2 (proj2 H)) as He; cbn in He; rewrite He; clear He.

(** The tail shared by [Uint32], [Uint64], [Opaque] and [Union]: look at the
    error the previous operation left. *)
Lemma stable_checked {A B} (m : Dec A) (z : B) (k : A -> Dec B) :
  Stable m -> (forall a, Stable (k a)) ->
  Stable (fun d => let '(a, d1) := m d in
                   match Decoder.err d1 with Some _ => (z, d1) | None => k a d1 end).
Proof.
  intros Hm Hk d1 d2 Hd. specialize (Hm d1 d2 Hd).
  destruct (m d1) as [a1 e1], (m d2) as [a2 e2], Hm as [Ha He]. cbn in *. subst a2.
  stable_err He. destruct (Decoder.err e2); [by split|]. by apply (Hk a1).
Qed.

#[global] Instance stable_Uint32 : Stable D.Uint32.
Proof.
  unfold D.Uint32. apply (stable_checked (D.read 4) 0 (fun p d1 => (unbe p, d1))); [apply _|].
  intros p. apply (stable_ret (unbe p)).
Qed.
#[global] Instance stable_Uint64 : Stable D.Uint64.
Proof.
  unfold D.Uint64. apply (stable_checked (D.read 8) 0 (fun p d1 => (unbe p, d1))); [apply _|].
  intros p. apply (stable_ret (unbe p)).
Qed.

#[global] Instance stable_discard n : Stable (D.discard n).
Proof.
  intros d1 d2 Hd. unfold D.discard. stable_err Hd.
  destruct (_ || _); [by split|]. pose proof (stable_read n d1 d2 Hd) as H.
  destruct (D.read n d1), (D.read n d2), H. by split.
Qed.

#[global] Instance stable_body n : Stable (D.body n).
Proof.
  unfold D.body. apply (stable_checked (D.read n) []
    (fun out d1 => let '(_, d2) := D.discard (pad4 n) d1 in
                   match Decoder.err d2 with Some _ => ([], d2) | None => (out, d2) end)).
  - apply _.
  - intros out. apply (stable_checked (D.discard (pad4 n)) [] (fun _ d2 => (out, d2)));
      [apply _|]. intros _. apply (stable_ret out).
Qed.

#[global] Instance stable_Opaque : Stable D.Opaque.
Proof.
  unfold D.Opaque. apply (stable_checked D.Uint32 []
    (fun n d1 => if D.maxLen d1 <? n then ([], Decoder.set_err ErrLimitExceeded d1)
                 else D.body n d1)); [apply _|].
  intros n d1 d2 Hd. unfold D.maxLen. destruct Hd as (Hr & Hm & He). rewrite Hm.
  destruct (_ <? n); [|apply stable_body; split; [done|by split]].
  split; [done|]. unfold Decoder.set_err. rewrite Hm. by apply decoder_equiv_mk.
Qed.

#[global] Instance stable_String : Stable D.String := stable_Opaque.
#[global] Instance stable_Bool : Stable D.Bool.
Proof. unfold D.Bool. apply _. Qed.
#[global] Instance stable_Int64 : Stable D.Int64.
Proof. unfold D.Int64. apply _. Qed.
#[global] Instance stable_Int32 : Stable D.Int32.
Proof. unfold D.Int32. apply _. Qed.
#[global] Instance stable_Err : Stable D.Err.
Proof. intros d1 d2 Hd. split; [apply Hd|done]. Qed.

#[global] Instance stable_FixedOpaque n : Stable (D.FixedOpaque n).
Proof.
  unfold D.FixedOpaque. destruct (n <? 0); [|apply _].
  intros d1 d2 (? & Hm & ?). split; [done|].
  unfold Decoder.set_err. rewrite Hm. by apply decoder_equiv_mk.
Qed.

(** ** Input is only consumed *)

(** [m] leaves a suffix of the input it found. *)
Class Consuming {A} (m : Dec A) : Prop :=
  consuming : forall d, exists k : nat, rest (m d).2 = drop k (rest d).

#[global] Instance consuming_ret {A} (a : A) : Consuming (mret a).
Proof. intros d. by exists O. Qed.

#[global] Instance consuming_bind {A B} (m : Dec A) (k : A -> Dec B) :
  Consuming m -> (forall a, Consuming (k a)) -> Consuming (m ≫= k).
Proof.
  intros Hm Hk d. unfold mbind, Dec_bind. destruct (Hm d) as [n1 H1].
  destruct (m d) as [a d1]. cbn in H1. destruct (Hk a d1) as [n2 H2].
  exists (n1 + n2)%nat. by rewrite H2, H1, drop_drop.
Qed.

#[global] Instance consuming_if {A} (b : bool) (m1 m2 : Dec A) :
  Consuming m1 -> Consuming m2 -> Consuming (if b then m1 else m2).
Proof. by destruct b. Qed.

Lemma read_short d n : Decoder.err d = None -> blen (rest d) < n ->
  exists d', D.read n d = (rest d, d') /\ Decoder.err d' = Some (short_error (rest d) (fate d))
    /\ Decoder.MaxLen d' = Decoder.MaxLen d /\ rest d' = [] /\ fate d' = fate d.
Proof.
  intros He Hn. destruct (ReadFull_short _ _ Hn) as (r' & E & Hb & Hf).
  exists (Decoder.mk r' (Decoder.MaxLen d) (Some (short_error (rest d) (fate d)))).
  unfold D.read. by rewrite He, E.
Qed.

#[global] Instance consuming_read n : Consuming (D.read n).
Proof.
  intros d. destruct (Decoder.err d) as [e|] eqn:He.
  { exists O. by rewrite (sticky_read n d e He). }
  destruct (Z.le_gt_cases n 0).
  { exists O. unfold D.read. rewrite He, ReadFull_nonpos by done. done. }
  destruct (Z.le_gt_cases n (blen (rest d))).
  - destruct (read_enough d n He) as (d' & -> & _ & _ & Hr & _); [lia|]. by exists (Z.to_nat n).
  - destruct (read_short d n He) as (d' & -> & _ & _ & Hr & _); [lia|].
    exists (length (rest d)). by rewrite drop_all.
Qed.

(** The tail shared by the operations that look at the error. *)
Lemma consuming_checked {A B} (m : Dec A) (z : B) (k : A -> Dec B) :
  Consuming m -> (forall a, Consuming (k a)) ->
  Consuming (fun d => let '(a, d1) := m d in
                      match Decoder.err d1 with Some _ => (z, d1) | None => k a d1 end).
Proof.
  intros Hm Hk d. destruct (Hm d) as [n1 H1]. destruct (m d) as [a d1]. cbn in H1.
  destruct (Decoder.err d1); [by exists n1|].
  destruct (Hk a d1) as [n2 H2]. exists (n1 + n2)%nat. by rewrite H2, H1, drop_drop.
Qed.

#[global] Instance consuming_Uint32 : Consuming D.Uint32.
Proof.
  unfold D.Uint32. apply (consuming_checked (D.read 4) 0 (fun p d1 => (unbe p, d1))); [apply _|].
  intros p. apply (consuming_ret (unbe p)).
Qed.
#[global] Instance consuming_Uint64 : Consuming D.Uint64.
Proof.
  unfold D.Uint64. apply (consuming_checked (D.read 8) 0 (fun p d1 => (unbe p, d1))); [apply _|].
  intros p. apply (consuming_ret (unbe p)).
Qed.

#[global] Instance consuming_discard n : Consuming (D.discard n).
Proof.
  intros d. unfold D.discard. destruct (_ || _); [by exists O|].
  destruct (consuming_read n d) as [k Hk]. destruct (D.read n d). by exists k.
Qed.

#[global] Instance consuming_body n : Consuming (D.body n).
Proof.
  unfold D.body. apply (consuming_checked (D.read n) []
    (fun out d1 => let '(_, d2) := D.discard (pad4 n) d1 in
                   match Decoder.err d2 with Some _ => ([], d2) | None => (out, d2) end));
    [apply _|].
  intros out. apply (consuming_checked (D.discard (pad4 n)) [] (fun _ d2 => (out, d2)));
    [apply _|]. intros _. apply (consuming_ret out).
Qed.

#[global] Instance consuming_Opaque : Consuming D.Opaque.
Proof.
  unfold D.Opaque. apply (consuming_checked D.Uint32 []
    (fun n d1 => if D.maxLen d1 <? n then ([], Decoder.set_err ErrLimitExceeded d1)
                 else D.body n d1)); [apply _|].
  intros n d. destruct (_ <? n); [by exists O|]. apply consuming_body.
Qed.
#[global] Instance consuming_String : Consuming D.String := consuming_Opaque.
#[global] Instance consuming_Bool : Consuming D.Bool.
Proof. unfold D.Bool. apply _. Qed.
#[global] Instance consuming_Int64 : Consuming D.Int64.
Proof. unfold D.Int64. apply _. Qed.
#[global] Instance consuming_Err : Consuming D.Err.
Proof. intros d. by exists O. Qed.
#[global] Instance consuming_FixedOpaque n : Consuming (D.FixedOpaque n).
Proof.
  unfold D.FixedOpaque. destruct (n <? 0); [|apply _]. intros d. by exists O.
Qed.

Lemma consuming_le {A} (m : Dec A) `{!Consuming m} d : (length (rest (m d).2) <= length (rest d))%nat.
Proof. destruct (consuming d) as [k ->]. rewrite length_drop. lia. Qed.

(** A successful [Uint32] takes four bytes off the input. *)
Lemma Uint32_progress d v d' : D.Uint32 d = (v, d') -> Decoder.err d' = None ->
  length (rest d) = (4 + length (rest d'))%nat.
Proof.
  unfold D.Uint32. intros E He. destruct (Decoder.err d) as [e|] eqn:Hd.
  { unfold D.read in E. rewrite Hd, Hd in E. congruence. }
  destruct (Z.le_gt_cases 4 (blen (rest d))) as [H4|H4].
  - destruct (read_enough d 4 Hd) as (d1 & E1 & _ & _ & Hr & _); [lia|]. rewrite E1 in E.
    destruct (Decoder.err d1); injection E as _ <-; rewrite Hr; unfold bdrop, blen in *;
      rewrite length_drop; lia.
  - destruct (read_short d 4 Hd) as (d1 & E1 & He1 & _); [lia|].
    rewrite E1, He1 in E. congruence.
Qed.

(** ** The interface of a wire type *)

Class Wire (A : Type) := {
  valid : A -> Prop;                     (* representable on the wire *)
  wire : A -> bytes;                     (* its XDR form *)
  encode : A -> Encoder.t -> Encoder.t;
  decode : Dec A
}.

Class WireLaws (A : Type) `{Wire A} : Prop := {
  encode_emits : forall a, emits (encode a) (wire a);
  decode_parses : forall a, valid a -> parses decode (wire a) a;
  decode_sticky :: Sticky decode;
  decode_stable :: Stable decode;
  decode_consuming :: Consuming decode
}.

#[export] Hint Resolve encode_emits decode_parses : nfs.

(** A value encoded into a fresh buffer decodes to itself, whole. *)
Lemma wire_roundtrip `{WireLaws A} (a : A) : valid a ->
  let e := encode a (Encoder.NewEncoder bytes_Buffer) in
  Encoder.Err e = None /\
  exists d', decode (Decoder.NewDecoder (bytes_NewReader (w_out (Encoder.w e)))) = (a, d')
             /\ Decoder.err d' = None /\ rest d' = [].
Proof.
  intros Hv e. subst e.
  pose proof (emits_healthy _ _ (encode_emits a) []) as E.
  change (Encoder.NewEncoder bytes_Buffer) with (Encoder.mk (mkWriter [] None) None).
  rewrite E. split; [done|]. cbn [Encoder.w w_out app]. by apply parses_run, decode_parses.
Qed.

(** ** Inversion: what a successful computation read *)

Lemma sticky_inv {A} (m : Dec A) `{!Sticky m} d a d' :
  m d = (a, d') -> Decoder.err d' = None -> Decoder.err d = None.
Proof.
  intros E He. destruct (Decoder.err d) as [e|] eqn:Hd; [|done].
  pose proof (sticky d e Hd) as H. rewrite E in H. cbn in H. congruence.
Qed.

Lemma Dec_bind_inv {A B} (m : Dec A) (k : A -> Dec B) d b d' :
  (m ≫= k) d = (b, d') -> exists a d1, m d = (a, d1) /\ k a d1 = (b, d').
Proof. unfold mbind, Dec_bind. destruct (m d) as [a d1]. eauto. Qed.

Lemma Uint32_inv d v d' : D.Uint32 d = (v, d') -> Decoder.err d' = None ->
  Decoder.err d = None /\ rest d = wire_u32 v ++ rest d' /\ is_u32 v /\ fate d' = fate d
  /\ Decoder.MaxLen d' = Decoder.MaxLen d.
Proof.
  intros E He. pose proof (sticky_inv _ _ _ _ E He) as Hd. unfold D.Uint32 in E.
  destruct (Z.le_gt_cases 4 (blen (rest d))) as [H4|H4].
  - destruct (read_enough d 4 Hd) as (d1 & E1 & He1 & Hm & Hr & Hf); [lia|].
    rewrite E1, He1 in E. injection E as <- <-.
    assert (blen (btake 4 (rest d)) = 4) as Hl by (rewrite blen_take by lia; lia).
    split_and!; try done; [|by apply unbe_u32]. rewrite Hr.
    unfold wire_u32. change 4%nat with (Z.to_nat 4). rewrite <- Hl at 1.
    unfold blen. rewrite Nat2Z.id, be_unbe. by rewrite btake_bdrop.
  - destruct (read_short d 4 Hd) as (d1 & E1 & He1 & _); [lia|].
    rewrite E1, He1 in E. congruence.
Qed.

(** A computation that consumed its input took some prefix of it. *)
Lemma consuming_prefix {A} (m : Dec A) `{!Consuming m} d a d' :
  m d = (a, d') -> exists p, rest d = p ++ rest d'.
Proof.
  intros E. destruct (consuming d) as [k Hk]. rewrite E in Hk. cbn in Hk.
  exists (take k (rest d)). by rewrite Hk, take_drop.
Qed.
