(* ===== verification/XdrCorrect.v ===== *)
(** * Package xdr: theorems

    Any sequence of XDR fields: what the encoder writes, what the decoder gets
    back, what happens on a broken writer and on truncated input. *)

From S2P Require Import Prelude GoError GoIO Xdr XdrSpec.

(** A field of any of the primitive types, and the type a decoder asks for. *)
Inductive xval :=
| XUint32 (v : Z) | XInt32 (v : Z) | XUint64 (v : Z) | XInt64 (v : Z)
| XBool (v : bool) | XOpaque (p : bytes) | XFixed (p : bytes) | XString (s : bytes).

Inductive xtype :=
| TUint32 | TInt32 | TUint64 | TInt64 | TBool | TOpaque | TFixed (n : Z) | TString.

Definition type_of (v : xval) : xtype :=
  match v with
  | XUint32 _ => TUint32 | XInt32 _ => TInt32 | XUint64 _ => TUint64 | XInt64 _ => TInt64
  | XBool _ => TBool | XOpaque _ => TOpaque | XFixed p => TFixed (blen p) | XString _ => TString
  end.

Definition xval_ok (v : xval) : Prop :=
  match v with
  | XUint32 v => is_u32 v | XInt32 v => is_i32 v | XUint64 v => is_u64 v | XInt64 v => is_i64 v
  | XBool _ | XFixed _ => True
  | XOpaque p | XString p => fits p
  end.

Definition encode_xval (v : xval) : Encoder.t -> Encoder.t :=
  match v with
  | XUint32 v => Encoder.Uint32 v | XInt32 v => Encoder.Int32 v
  | XUint64 v => Encoder.Uint64 v | XInt64 v => Encoder.Int64 v
  | XBool v => Encoder.Bool v | XOpaque p => Encoder.Opaque p
  | XFixed p => Encoder.FixedOpaque p | XString s => Encoder.String s
  end.

Definition wire_xval (v : xval) : bytes :=
  match v with
  | XUint32 v => wire_u32 v | XInt32 v => wire_u32 (u32 v)
  | XUint64 v => wire_u64 v | XInt64 v => wire_u64 (u64 v)
  | XBool v => wire_bool v | XOpaque p | XString p => wire_opaque p
  | XFixed p => wire_fixed p
  end.

Definition decode_xval (t : xtype) : Dec xval :=
  match t with
  | TUint32 => v ← D.Uint32; mret (XUint32 v)
  | TInt32 => v ← D.Int32; mret (XInt32 v)
  | TUint64 => v ← D.Uint64; mret (XUint64 v)
  | TInt64 => v ← D.Int64; mret (XInt64 v)
  | TBool => v ← D.Bool; mret (XBool v)
  | TOpaque => v ← D.Opaque; mret (XOpaque v)
  | TFixed n => v ← D.FixedOpaque n; mret (XFixed v)
  | TString => v ← D.String; mret (XString v)
  end.

Fixpoint decode_xvals (ts : list xtype) : Dec (list xval) :=
  match ts with
  | [] => mret []
  | t :: ts => v ← decode_xval t; vs ← decode_xvals ts; mret (v :: vs)
  end.

Definition encode_xvals (vs : list xval) : Encoder.t -> Encoder.t := each encode_xval vs.
Definition wire_xvals (vs : list xval) : bytes := concat (map wire_xval vs).

Lemma emits_xvals vs : emits (encode_xvals vs) (wire_xvals vs).
Proof.
  apply emits_each. intros v; destruct v;
    first [apply emits_Bool|apply emits_Opaque|apply emits_FixedOpaque|apply emits_write].
Qed.

Lemma parses_xval v : xval_ok v -> parses (decode_xval (type_of v)) (wire_xval v) v.
Proof.
  intros Hv. destruct v; cbn [decode_xval type_of wire_xval xval_ok] in *; (eapply parses_bind_last; [eauto with nfs|apply parses_ret]).
Qed.

Lemma parses_xvals vs : Forall xval_ok vs ->
  parses (decode_xvals (map type_of vs)) (wire_xvals vs) vs.
Proof.
  induction 1 as [|v vs Hv Hvs IH]; [apply parses_ret|]. cbn [map decode_xvals].
  eapply parses_bind; [by apply parses_xval|].
  eapply parses_bind_last; [apply IH|apply parses_ret].
Qed.

Lemma aligned_app (b1 b2 : bytes) : blen b1 mod 4 = 0 -> blen b2 mod 4 = 0 -> blen (b1 ++ b2) mod 4 = 0.
Proof. rewrite blen_app. lia. Qed.

Lemma wire_fixed_aligned p : blen (wire_fixed p) mod 4 = 0.
Proof.
  unfold wire_fixed. destruct (pad4_range (blen p) (blen_nonneg p)) as [? E].
  rewrite blen_app, blen_zeros by lia. exact E.
Qed.

Lemma wire_xvals_aligned vs : blen (wire_xvals vs) mod 4 = 0.
Proof.
  induction vs as [|v vs IH]; [done|]. apply aligned_app; [|exact IH].
  destruct v; cbn [wire_xval];
    first [ apply wire_fixed_aligned
          | apply aligned_app; [unfold wire_u32; by rewrite blen_be | apply wire_fixed_aligned]
          | unfold wire_u32, wire_u64, wire_bool; by rewrite blen_be ].
Qed.

(** *** Truncated input *)

(** [m] fails with an end-of-input error on any strict prefix of [bs]. *)
Definition cuts {A} (m : Dec A) (bs : bytes) : Prop :=
  forall d q, healthy d -> fate d = EOF -> bs = rest d ++ q -> q <> [] ->
  exists e, Decoder.err (m d).2 = Some e /\ (e = EOF \/ e = ErrUnexpectedEOF).

(** Splitting a strict prefix of a concatenation. *)
Lemma prefix_split (b1 b2 p q : bytes) : b1 ++ b2 = p ++ q -> q <> [] ->
  (exists q1, q1 <> [] /\ b1 = p ++ q1) \/ (exists p2, p = b1 ++ p2 /\ b2 = p2 ++ q).
Proof.
  intros E Hq. apply app_eq_app in E as [l [[-> ->]|[-> ->]]].
  - destruct l as [|b l]; [right; exists []; by rewrite !app_nil_r|left; by exists (b :: l)].
  - right. by exists l.
Qed.

Lemma cuts_bind {A B} (m : Dec A) (k : A -> Dec B) b1 b2 a :
  cuts m b1 -> parses m b1 a -> cuts (k a) b2 -> (forall a, Sticky (k a)) ->
  cuts (m ≫= k) (b1 ++ b2).
Proof.
  intros Cm Pm Ck Sk d q Hd Hf E Hq. unfold mbind, Dec_bind.
  destruct (prefix_split _ _ _ _ E Hq) as [(q1 & Hq1 & E1)|(p2 & E1 & E2)].
  - destruct (Cm d q1 Hd Hf E1 Hq1) as (e & He & Hc). destruct (m d) as [a' d1]. cbn in He.
    rewrite (Sk a' d1 e He). eauto.
  - destruct (Pm d p2 Hd E1) as (d1 & -> & Hd1 & Hr1 & Hf1).
    apply (Ck d1 q); [done|congruence|by rewrite Hr1|done].
Qed.

Lemma cuts_ret {A} (a : A) : cuts (mret a) [].
Proof.
  intros d q _ _ E Hq. destruct (rest d), q; done.
Qed.

Lemma cuts_map {A B} (m : Dec A) (f : A -> B) bs : cuts m bs -> cuts (v ← m; mret (f v)) bs.
Proof.
  intros Cm d q Hd Hf E Hq. destruct (Cm d q Hd Hf E Hq) as (e & He & Hc).
  unfold mbind, Dec_bind. destruct (m d). eauto.
Qed.

Lemma cuts_checked {A B} (m : Dec A) (z : B) (k : A -> Dec B) b1 b2 a :
  cuts m b1 -> parses m b1 a -> cuts (k a) b2 ->
  cuts (fun d => let '(a, d1) := m d in
                 match Decoder.err d1 with Some _ => (z, d1) | None => k a d1 end) (b1 ++ b2).
Proof.
  intros Cm Pm Ck d q Hd Hf E Hq.
  destruct (prefix_split _ _ _ _ E Hq) as [(q1 & Hq1 & E1)|(p2 & E1 & E2)].
  - destruct (Cm d q1 Hd Hf E1 Hq1) as (e & He & Hc). destruct (m d) as [a' d1]. cbn in He.
    rewrite He. cbn. eauto.
  - destruct (Pm d p2 Hd E1) as (d1 & -> & Hd1 & Hr1 & Hf1).
    rewrite (healthy_err _ Hd1). apply (Ck d1 q); [done|congruence|by rewrite Hr1|done].
Qed.

Lemma cuts_read n bs : blen bs = n -> cuts (D.read n) bs.
Proof.
  intros Hn d q Hd Hf E Hq. rewrite E, blen_app in Hn.
  assert (0 < blen q) by (destruct q; [done|]; rewrite blen_cons; pose proof (blen_nonneg q); lia).
  destruct (read_short d n (healthy_err _ Hd)) as (d' & -> & He & _); [lia|].
  cbn. rewrite He, Hf. unfold short_error. destruct (0 <? _); eauto.
Qed.

Lemma cuts_Uint32 v : cuts D.Uint32 (wire_u32 v).
Proof.
  rewrite <- (app_nil_r (wire_u32 v)). unfold D.Uint32.
  eapply (cuts_checked (D.read 4) 0 (fun p d1 => (unbe p, d1))).
  - apply cuts_read, blen_be.
  - apply parses_read_eq, blen_be.
  - apply (cuts_ret (unbe _)).
Qed.

Lemma cuts_Uint64 v : cuts D.Uint64 (wire_u64 v).
Proof.
  rewrite <- (app_nil_r (wire_u64 v)). unfold D.Uint64.
  eapply (cuts_checked (D.read 8) 0 (fun p d1 => (unbe p, d1))).
  - apply cuts_read, blen_be.
  - apply parses_read_eq, blen_be.
  - apply (cuts_ret (unbe _)).
Qed.

Lemma cuts_discard n : 0 <= n -> cuts (D.discard n) (zeros n).
Proof.
  intros Hn d q Hd Hf E Hq. unfold D.discard. rewrite (healthy_err _ Hd). cbn. rewrite orb_false_r.
  destruct (Z.eqb_spec n 0) as [->|].
  - by destruct (rest d), q.
  - destruct (cuts_read n _ (blen_zeros n Hn) d q Hd Hf E Hq) as (e & He & Hc).
    destruct (D.read n d). eauto.
Qed.

Lemma cuts_body p : cuts (D.body (blen p)) (wire_fixed p).
Proof.
  unfold D.body, wire_fixed. pose proof (pad4_range (blen p) (blen_nonneg p)).
  eapply (cuts_checked (D.read (blen p)) [] (fun out d1 =>
     let '(_, d2) := D.discard (pad4 (blen p)) d1 in
     match Decoder.err d2 with Some _ => ([], d2) | None => (out, d2) end)).
  - by apply cuts_read.
  - apply parses_read.
  - rewrite <- (app_nil_r (zeros _)).
    eapply (cuts_checked (D.discard _) [] (fun _ d2 => (p, d2))).
    + apply cuts_discard. lia.
    + apply parses_discard. lia.
    + apply (cuts_ret p).
Qed.

Lemma cuts_Opaque p : fits p -> cuts D.Opaque (wire_opaque p).
Proof.
  unfold fits. intros Hp. unfold D.Opaque, wire_opaque. pose proof (blen_nonneg p).
  eapply (cuts_checked D.Uint32 [] (fun n d1 =>
     if D.maxLen d1 <? n then ([], Decoder.set_err ErrLimitExceeded d1) else D.body n d1)).
  - apply cuts_Uint32.
  - apply parses_Uint32. int_lia.
  - intros d q Hd. unfold D.maxLen. rewrite (healthy_max _ Hd). cbn.
    change Decoder.defaultMaxLen with 67108864.
    destruct (Z.ltb_spec 67108864 (blen p)); [lia|]. by apply cuts_body.
Qed.

Lemma cuts_FixedOpaque n p : blen p = n -> cuts (D.FixedOpaque n) (wire_fixed p).
Proof.
  intros <-. unfold D.FixedOpaque. pose proof (blen_nonneg p).
  destruct (Z.ltb_spec (blen p) 0); [lia|]. apply cuts_body.
Qed.

Lemma cuts_xval v : xval_ok v -> cuts (decode_xval (type_of v)) (wire_xval v).
Proof.
  intros Hv. destruct v; cbn [decode_xval type_of wire_xval xval_ok] in *; apply cuts_map;
    [ apply cuts_Uint32 | apply (cuts_map D.Uint32), cuts_Uint32
    | apply cuts_Uint64 | apply (cuts_map D.Uint64), cuts_Uint64
    | apply (cuts_map D.Uint32), cuts_Uint32
    | by apply cuts_Opaque | by apply cuts_FixedOpaque | by apply cuts_Opaque ].
Qed.

#[global] Instance sticky_decode_xval v : xval_ok v -> Sticky (decode_xval (type_of v)).
Proof.
  intros Hv. destruct v; cbn [decode_xval type_of]; try apply _.
  apply sticky_bind; [|apply _]. apply sticky_FixedOpaque. apply Z.leb_le, blen_nonneg.
Qed.

#[global] Instance sticky_decode_xvals vs : Forall xval_ok vs -> Sticky (decode_xvals (map type_of vs)).
Proof.
  induction 1 as [|v vs Hv _ IH]; [apply _|]. cbn.
  pose proof (sticky_decode_xval v Hv). apply _.
Qed.

Lemma cuts_xvals vs : Forall xval_ok vs -> cuts (decode_xvals (map type_of vs)) (wire_xvals vs).
Proof.
  induction 1 as [|v vs Hv Hvs IH]; [apply cuts_ret|]. cbn [map decode_xvals].
  pose proof (sticky_decode_xvals vs Hvs).
  eapply cuts_bind; [by apply cuts_xval|by apply parses_xval|by apply cuts_map|apply _].
Qed.

(** ** Theorems *)

(** C40.  Round trip of package xdr.  Any sequence of in-range fields, encoded
    into a buffer, leaves no error and a length that is a multiple of the XDR
    unit; decoding those bytes, from a reader that delivers them in any
    chunks and followed by anything, returns the fields, reports no error and
    stops exactly at their end. *)
Theorem xdr_roundtrip (vs : list xval) (r : Reader) (more : bytes)
    (Hok : Forall xval_ok vs) :
  let e := encode_xvals vs (Encoder.NewEncoder bytes_Buffer) in
  let out := w_out (Encoder.w e) in
  Encoder.Err e = None /\ blen out mod Unit = 0 /\
  (rbytes r = out ++ more ->
   exists d', decode_xvals (map type_of vs) (Decoder.NewDecoder r) = (vs, d')
              /\ Decoder.err d' = None /\ rest d' = more).
Proof.
  intros e out. subst out e.
  change (Encoder.NewEncoder bytes_Buffer) with (Encoder.mk (mkWriter [] None) None).
  rewrite (emits_healthy _ _ (emits_xvals vs)). cbn [Encoder.Err Encoder.err Encoder.w w_out app].
  split_and!; [done|apply wire_xvals_aligned|]. intros Hr.
  destruct (parses_xvals vs Hok (Decoder.NewDecoder r) more) as (d' & ? & [? _] & ? & _);
    [done|exact Hr|eauto].
Qed.

Definition sample : list xval :=
  [XUint32 7; XInt32 (-2); XUint64 (2 ^ 40); XInt64 (-1); XBool true;
   XOpaque [x01; x02; x03]; XFixed [x09; x09]; XString (bstr "hello")].

Lemma xdr_roundtrip_witness :
  exists d', decode_xvals (map type_of sample)
    (Decoder.NewDecoder (map (fun b => Data [b])
       (w_out (Encoder.w (encode_xvals sample (Encoder.NewEncoder bytes_Buffer)))))) = (sample, d')
    /\ Decoder.err d' = None /\ rest d' = [].
Proof.
  refine (proj2 (proj2 (xdr_roundtrip sample _ [] _)) _).
  - repeat constructor; vm_compute; congruence.
  - vm_compute. reflexivity.
Defined.

(** A broken writer.  Encoding any sequence of fields to a writer that
    fails after [k] bytes delivers exactly the first [k] bytes of the correct
    encoding and latches the writer's error, unless everything fits; no
    operation after the failure writes anything or replaces the error. *)
Theorem xdr_broken_writer (vs : list xval) (k : Z) (er : error) (Hk : 0 <= k) :
  let good := w_out (Encoder.w (encode_xvals vs (Encoder.NewEncoder bytes_Buffer))) in
  let e := encode_xvals vs (Encoder.NewEncoder (mkWriter [] (Some (k, er)))) in
  w_out (Encoder.w e) = btake k good /\
  Encoder.Err e = (if blen good <=? k then None else Some er).
Proof.
  intros good e. subst e good.
  change (Encoder.NewEncoder bytes_Buffer) with (Encoder.mk (mkWriter [] None) None).
  change (Encoder.NewEncoder (mkWriter [] (Some (k, er))))
    with (Encoder.mk (mkWriter [] (Some (k, er))) None).
  rewrite (emits_healthy _ _ (emits_xvals vs)), (emits_broken _ _ (emits_xvals vs)) by done.
  cbn [Encoder.w w_out app].
  destruct (Z.leb_spec (blen (wire_xvals vs)) k); [|done].
  by rewrite (btake_all k) by lia.
Qed.

Lemma xdr_broken_writer_witness :
  w_out (Encoder.w (encode_xvals sample (Encoder.NewEncoder (mkWriter [] (Some (10, Foreign 1))))))
  = [x00; x00; x00; x07; xff; xff; xff; xfe; x00; x00].
Proof.
  rewrite (proj1 (xdr_broken_writer sample 10 (Foreign 1) ltac:(lia))). vm_compute. reflexivity.
Defined.

(** Truncated input.  When the input ends before the end of the encoding
    of the fields asked for, wherever the cut is and however the input is cut
    into chunks, the decoder ends with [io.EOF] or [io.ErrUnexpectedEOF]: no
    truncation is accepted. *)
Theorem xdr_truncated (vs : list xval) (r : Reader) (missing : bytes)
    (Hok : Forall xval_ok vs) (Hmissing : missing <> [])
    (Hcut : w_out (Encoder.w (encode_xvals vs (Encoder.NewEncoder bytes_Buffer)))
            = rbytes r ++ missing)
    (Hfate : rfate r = EOF) :
  exists e, Decoder.err (decode_xvals (map type_of vs) (Decoder.NewDecoder r)).2 = Some e
            /\ (e = EOF \/ e = ErrUnexpectedEOF).
Proof.
  change (Encoder.NewEncoder bytes_Buffer) with (Encoder.mk (mkWriter [] None) None) in Hcut.
  rewrite (emits_healthy _ _ (emits_xvals vs)) in Hcut.
  by apply (cuts_xvals vs Hok (Decoder.NewDecoder r) missing).
Qed.

Lemma xdr_truncated_witness :
  exists e, Decoder.err (decode_xvals (map type_of sample)
    (Decoder.NewDecoder [Data [x00; x00]; Data [x00; x07; xff]])).2 = Some e
    /\ (e = EOF \/ e = ErrUnexpectedEOF).
Proof.
  refine (xdr_truncated sample _
    (bdrop 5 (w_out (Encoder.w (encode_xvals sample (Encoder.NewEncoder bytes_Buffer))))) _ _ _ _).
  - repeat constructor; vm_compute; congruence.
  - vm_compute. discriminate.
  - vm_compute. reflexivity.
  - reflexivity.
Defined.
