(* ===== verification/Rpc.v ===== *)
(** * Package rpc: constants, authentication, record marking, messages
    (src/rpc/consts.go, src/rpc/auth.go, src/rpc/record.go, src/rpc/message.go) *)

From S2P Require Import Prelude GoError Nfs4Const GoIO Xdr XdrSpec.

(** ** Constants *)

(** src/rpc/consts.go:18-18 *)
Definition RPCVersion : Z := 2.
(** src/rpc/consts.go:22-22 *)
Definition msgCall : Z := 0.
(** src/rpc/consts.go:23-23 *)
Definition msgReply : Z := 1.
(** src/rpc/consts.go:28-28 *)
Definition MsgAccepted : Z := 0.
(** src/rpc/consts.go:29-29 *)
Definition MsgDenied : Z := 1.
(** src/rpc/consts.go:34-34 *)
Definition AcceptSuccess : Z := 0.
(** src/rpc/consts.go:36-36 *)
Definition AcceptProgMismatch : Z := 2.
(** src/rpc/consts.go:44-44 *)
Definition RejectRPCMismatch : Z := 0.
(** src/rpc/consts.go:45-45 *)
Definition RejectAuthError : Z := 1.
(** src/rpc/consts.go:50-50 *)
Definition AuthFlavorNull : Z := 0.
(** src/rpc/consts.go:51-51 *)
Definition AuthFlavorSys : Z := 1.

(** ** auth.go *)

(** src/rpc/auth.go:25-28 *)
Record OpaqueAuth := mkOpaqueAuth {
  oa_Flavor : Z;
  oa_Body : bytes
}.

(** src/rpc/auth.go:32-35 *)
Definition OpaqueAuth_Encode (a : OpaqueAuth) : Encoder.t -> Encoder.t :=
  (Encoder.Uint32 (oa_Flavor a) ;;
   Encoder.Opaque (oa_Body a))%enc.

(** src/rpc/auth.go:38-43 *)
Definition DecodeOpaqueAuth : Dec OpaqueAuth :=
  flavor ← D.Uint32;
  body ← D.Opaque;
  mret (mkOpaqueAuth flavor body).

(** src/rpc/auth.go:46-48 *)
Definition AuthNull : OpaqueAuth := mkOpaqueAuth AuthFlavorNull [].

(** src/rpc/auth.go:53-59 *)
Record AuthSys := mkAuthSys {
  as_Stamp : Z;
  as_MachineName : bytes;
  as_UID : Z;
  as_GID : Z;
  as_GIDs : list Z
}.

(** src/rpc/auth.go:62-74 *)
Definition AuthSys_body (c : AuthSys) : bytes :=
  let e := Encoder.NewEncoder bytes_Buffer in
  let e := (Encoder.Uint32 (as_Stamp c) ;;
            Encoder.String (as_MachineName c) ;;
            Encoder.Uint32 (as_UID c) ;;
            Encoder.Uint32 (as_GID c) ;;
            Encoder.Uint32 (u32 (blen (as_GIDs c))) ;;
            each Encoder.Uint32 (as_GIDs c))%enc e in
  w_out (Encoder.w e).

(** src/rpc/auth.go:77-79 *)
Definition AuthSys_OpaqueAuth (c : AuthSys) : OpaqueAuth :=
  mkOpaqueAuth AuthFlavorSys (AuthSys_body c).

(** src/rpc/auth.go:82-84 *)
Definition AuthSys_Encode (c : AuthSys) : Encoder.t -> Encoder.t :=
  OpaqueAuth_Encode (AuthSys_OpaqueAuth c).

(** ** record.go *)

(** src/rpc/record.go:28-28 *)
Definition lastFragmentFlag : Z := 2147483648.
(** src/rpc/record.go:29-29 *)
Definition fragmentSizeMask : Z := 2147483647.
(** src/rpc/record.go:34-34 *)
Definition maxFragmentSize : Z := Z.shiftl 256 20.
(** src/rpc/record.go:36-36 *)
Definition maxMessageSize : Z := Z.shiftl 512 20.

(** src/rpc/record.go:45-58 *)
Definition WriteRecord (w : Writer) (payload : bytes) : option error * Writer :=
  if fragmentSizeMask <? u32 (blen payload) then (Some ErrFragmentTooLarge, w)
  else
    let hdr := be 4 (Z.lor lastFragmentFlag (u32 (blen payload))) in
    match Write w hdr with
    | (Some err, w1) => (Some err, w1)
    | (None, w1) =>
        match Write w1 payload with
        | (Some err, w2) => (Some err, w2)
        | (None, w2) => (None, w2)
        end
    end.

(** The loop of [ReadRecord], one fragment per unit of fuel; [None] when the
    fuel runs out, which [ReadRecord_loop_total] excludes.
    src/rpc/record.go:64-98 *)
Fixpoint ReadRecord_loop (fuel : nat) (r : Reader) (msg : bytes)
    : option (result bytes * Reader) :=
  match fuel with
  | O => None
  | S fuel =>
    let '(hdr, e, r1) := ReadFull r 4 in
    match e with
    | Some err =>
        if errors_Is err ErrUnexpectedEOF then Some (inl err, r1)
        else if errors_Is err EOF && (blen msg =? 0) then Some (inl EOF, r1)
        else Some (inl err, r1)
    | None =>
        let marker := unbe hdr in
        let last := negb (Z.land marker lastFragmentFlag =? 0) in
        let size := Z.land marker fragmentSizeMask in
        if maxFragmentSize <? size then
          Some (inl (Wrapf "%w: %d bytes" [Fz size] ErrFragmentTooLarge), r1)
        else if maxMessageSize <? u64 (blen msg + size) then
          Some (inl (Wrapf "%w: reassembled message too large" [] ErrFragmentTooLarge), r1)
        else
          let '(frag, e2, r2) := ReadFull r1 size in
          match e2 with
          | Some err =>
              if errors_Is err EOF then Some (inl ErrUnexpectedEOF, r2)
              else Some (inl err, r2)
          | None =>
              let msg := msg ++ frag in
              if last then Some (inr msg, r2) else ReadRecord_loop fuel r2 msg
          end
    end
  end.

(** [ReadRecord]: every fragment takes at least its four header bytes off the
    reader, so one unit of fuel per byte, and one more, is enough.
    src/rpc/record.go:62-99 *)
Definition ReadRecord (r : Reader) : result bytes * Reader :=
  match ReadRecord_loop (S (length (rbytes r))) r [] with
  | Some res => res
  | None => (inl (NewError "unreachable"), r)
  end.

(** ** message.go *)

(** src/rpc/message.go:26-33 *)
Record CallHeader := mkCallHeader {
  ch_XID : Z;
  ch_Prog : Z;
  ch_Vers : Z;
  ch_Proc : Z;
  ch_Cred : OpaqueAuth;
  ch_Verf : OpaqueAuth
}.

(** src/rpc/message.go:36-45 *)
Definition CallHeader_Encode (c : CallHeader) : Encoder.t -> Encoder.t :=
  (Encoder.Uint32 (ch_XID c) ;;
   Encoder.Uint32 msgCall ;;
   Encoder.Uint32 RPCVersion ;;
   Encoder.Uint32 (ch_Prog c) ;;
   Encoder.Uint32 (ch_Vers c) ;;
   Encoder.Uint32 (ch_Proc c) ;;
   OpaqueAuth_Encode (ch_Cred c) ;;
   OpaqueAuth_Encode (ch_Verf c))%enc.

(** src/rpc/message.go:49-64 *)
Record ReplyHeader := mkReplyHeader {
  rh_XID : Z;
  rh_Stat : Z;
  rh_Verf : OpaqueAuth;
  rh_AcceptStat : Z;
  rh_Low : Z;
  rh_High : Z;
  rh_RejectStat : Z;
  rh_AuthStat : Z
}.

(** The zero [opaque_auth] of a [ReplyHeader] whose verifier was not decoded. *)
Definition zeroAuth : OpaqueAuth := mkOpaqueAuth 0 [].

(** The final [if err := d.Err(); err != nil] of [DecodeReplyHeader]. *)
Definition check_err {A} (a : A) : Dec (result A) :=
  err ← D.Err;
  mret (match err with Some e => inl e | None => inr a end).

(** src/rpc/message.go:68-107 *)
Definition DecodeReplyHeader : Dec (result ReplyHeader) :=
  xid ← D.Uint32;
  mtype ← D.Uint32;
  err ← D.Err;
  match err with
  | Some e => mret (inl e)
  | None =>
      if negb (mtype =? msgReply) then
        mret (inl (Errorf "rpc: expected REPLY message type, got %d" [Fz mtype]))
      else
        stat ← D.Uint32;
        if stat =? MsgAccepted then
          verf ← DecodeOpaqueAuth;
          acceptStat ← D.Uint32;
          if acceptStat =? AcceptProgMismatch then
            low ← D.Uint32;
            high ← D.Uint32;
            check_err (mkReplyHeader xid stat verf acceptStat low high 0 0)
          else check_err (mkReplyHeader xid stat verf acceptStat 0 0 0 0)
        else if stat =? MsgDenied then
          rejectStat ← D.Uint32;
          if rejectStat =? RejectRPCMismatch then
            low ← D.Uint32;
            high ← D.Uint32;
            check_err (mkReplyHeader xid stat zeroAuth 0 low high rejectStat 0)
          else if rejectStat =? RejectAuthError then
            authStat ← D.Uint32;
            check_err (mkReplyHeader xid stat zeroAuth 0 0 0 rejectStat authStat)
          else mret (inl (Errorf "rpc: unknown reject_stat %d" [Fz rejectStat]))
        else mret (inl (Errorf "rpc: unknown reply_stat %d" [Fz stat]))
  end.

(** src/rpc/message.go:114-116 *)
Definition AuthError_Error (stat : Z) : string :=
  "rpc: authentication error (auth_stat=" +:+ pretty stat +:+ ")".

(** src/rpc/message.go:120-143 *)
Definition ReplyHeader_Error (r : ReplyHeader) : option error :=
  if rh_Stat r =? MsgAccepted then
    if rh_AcceptStat r =? AcceptSuccess then None
    else if rh_AcceptStat r =? AcceptProgMismatch then
      Some (Errorf "rpc: program version mismatch (low=%d high=%d)" [Fz (rh_Low r); Fz (rh_High r)])
    else Some (Errorf "rpc: call rejected with accept_stat %d" [Fz (rh_AcceptStat r)])
  else if rh_Stat r =? MsgDenied then
    if rh_RejectStat r =? RejectRPCMismatch then
      Some (Errorf "rpc: RPC version mismatch (low=%d high=%d)" [Fz (rh_Low r); Fz (rh_High r)])
    else if rh_RejectStat r =? RejectAuthError then Some (AuthError (rh_AuthStat r))
    else Some (Errorf "rpc: denied with reject_stat %d" [Fz (rh_RejectStat r)])
  else Some (Errorf "rpc: unknown reply_stat %d" [Fz (rh_Stat r)]).
