(* ===== verification/RpcCorrect.v ===== *)
(** * Record marking and RPC messages: theorems *)

From S2P Require Import Prelude GoError Nfs4Const GoIO Xdr XdrSpec Rpc.

(** ** The fragment marker *)

Lemma testbit_31 w : is_u32 w -> Z.testbit w 31 = (2 ^ 31 <=? w).
Proof.
  intros H. rewrite Z.testbit_eqb by lia. destruct (Z.leb_spec (2 ^ 31) w).
  - apply Z.eqb_eq. int_lia.
  - apply Z.eqb_neq. int_lia.
Qed.

Lemma land_flag w : is_u32 w -> (Z.land w lastFragmentFlag =? 0) = (w <? 2 ^ 31).
Proof.
  intros H. pose proof (testbit_31 w H) as T.
  change lastFragmentFlag with (2 ^ 31).
  destruct (Z.eqb_spec (Z.land w (2 ^ 31)) 0) as [E|E].
  - assert (Z.testbit (Z.land w (2 ^ 31)) 31 = false) as B by (by rewrite E, Z.bits_0).
    rewrite Z.land_spec, Z.pow2_bits_true, andb_true_r, T in B by lia.
    apply Z.leb_gt in B. symmetry. by apply Z.ltb_lt.
  - symmetry. apply Z.ltb_ge. apply Z.leb_le. rewrite <- T.
    destruct (Z.testbit w 31) eqn:B; [done|]. destruct E. apply Z.bits_inj'. intros i Hi.
    rewrite Z.land_spec, Z.bits_0, Z.pow2_bits_eqb by lia.
    destruct (Z.eqb_spec 31 i) as [<-|]; [by rewrite B|by rewrite andb_false_r].
Qed.

Lemma land_mask w : Z.land w fragmentSizeMask = w mod 2 ^ 31.
Proof. change fragmentSizeMask with (Z.ones 31). by rewrite Z.land_ones by lia. Qed.

Lemma lor_flag n : 0 <= n < 2 ^ 31 -> Z.lor lastFragmentFlag n = 2 ^ 31 + n.
Proof.
  intros Hn. change lastFragmentFlag with (2 ^ 31). rewrite <- (Z.add_lor_land (2 ^ 31) n).
  assert (Z.land (2 ^ 31) n = 0) as ->; [|lia].
  apply Z.bits_inj'. intros i Hi. rewrite Z.land_spec, Z.bits_0, Z.pow2_bits_eqb by lia.
  destruct (Z.eqb_spec 31 i) as [<-|]; [|done].
  rewrite testbit_31 by int_lia. cbn. apply Z.leb_gt. lia.
Qed.

(** ** Records as sequences of fragments (RFC 5531, section 11) *)

Definition frag_marker (last : bool) (n : Z) : Z := if last then 2 ^ 31 + n else n.
Definition wire_frag (last : bool) (p : bytes) : bytes := wire_u32 (frag_marker last (blen p)) ++ p.

(** A message sent as the fragments [ps] followed by the last fragment [p]. *)
Definition wire_record (ps : list bytes) (p : bytes) : bytes :=
  concat (map (wire_frag false) ps) ++ wire_frag true p.

Definition frag_ok (p : bytes) : Prop := blen p <= maxFragmentSize.

Lemma maxFragmentSize_eq : maxFragmentSize = 268435456.
Proof. done. Qed.
Lemma maxMessageSize_eq : maxMessageSize = 536870912.
Proof. done. Qed.
Ltac sizes := unfold frag_ok in *; rewrite ?maxFragmentSize_eq, ?maxMessageSize_eq in *.

Lemma frag_marker_u32 last n : 0 <= n < 2 ^ 31 -> is_u32 (frag_marker last n).
Proof. unfold frag_marker. destruct last; int_lia. Qed.

Lemma frag_marker_last last n : 0 <= n < 2 ^ 31 ->
  negb (Z.land (frag_marker last n) lastFragmentFlag =? 0) = last.
Proof.
  intros H. rewrite land_flag by by apply frag_marker_u32. unfold frag_marker.
  destruct last; bool_cases; try done; lia.
Qed.

Lemma frag_marker_size last n : 0 <= n < 2 ^ 31 ->
  Z.land (frag_marker last n) fragmentSizeMask = n.
Proof. intros H. rewrite land_mask. unfold frag_marker. destruct last; int_lia. Qed.

(** Reading a whole field off a reader. *)
Lemma ReadFull_app r b more n : blen b = n -> rbytes r = b ++ more ->
  exists r', ReadFull r n = (b, None, r') /\ rbytes r' = more /\ rfate r' = rfate r.
Proof.
  intros <- Hr. pose proof (blen_nonneg b). pose proof (blen_nonneg more).
  destruct (ReadFull_enough r (blen b)) as (r' & E & Hb & Hf).
  { rewrite Hr. autorewrite with blen. lia. }
  exists r'. rewrite E, Hr, btake_app_exact by done. rewrite Hr, bdrop_app_exact in Hb by done. done.
Qed.

(** One turn of the loop on a well-formed fragment. *)
Lemma loop_frag fuel r msg last p more :
  rbytes r = wire_frag last p ++ more -> frag_ok p -> blen msg + blen p <= maxMessageSize ->
  exists r', rbytes r' = more /\ rfate r' = rfate r /\
    ReadRecord_loop (S fuel) r msg
    = if last then Some (inr (msg ++ p), r') else ReadRecord_loop fuel r' (msg ++ p).
Proof.
  intros Hr Hp Hm. sizes. pose proof (blen_nonneg p). pose proof (blen_nonneg msg).
  unfold wire_frag in Hr. rewrite <- app_assoc in Hr.
  destruct (ReadFull_app r _ _ 4 (blen_be 4 _) Hr) as (r1 & E1 & Hb1 & Hf1).
  destruct (ReadFull_app r1 _ _ _ eq_refl Hb1) as (r2 & E2 & Hb2 & Hf2).
  exists r2. split; [done|]. split; [congruence|].
  cbn [ReadRecord_loop]. rewrite E1. cbn beta iota zeta.
  rewrite unbe_be4, u32_id by (apply frag_marker_u32; lia).
  rewrite frag_marker_last, frag_marker_size by lia. sizes.
  destruct (Z.ltb_spec 268435456 (blen p)); [lia|].
  rewrite u64_id by int_lia.
  destruct (Z.ltb_spec 536870912 (blen msg + blen p)); [lia|]. by rewrite E2.
Qed.

Lemma loop_record ps : forall fuel r msg p more,
  rbytes r = wire_record ps p ++ more -> Forall frag_ok ps -> frag_ok p ->
  blen msg + blen (concat ps ++ p) <= maxMessageSize -> (length ps < fuel)%nat ->
  exists r', ReadRecord_loop fuel r msg = Some (inr (msg ++ concat ps ++ p), r')
             /\ rbytes r' = more /\ rfate r' = rfate r.
Proof.
  induction ps as [|q ps IH]; intros fuel r msg p more Hr Hps Hp Hm Hf;
    (destruct fuel as [|fuel]; [cbn in Hf; lia|]).
  - destruct (loop_frag fuel r msg true p more Hr Hp Hm) as (r' & ? & ? & E). eauto.
  - apply Forall_cons in Hps as [Hq Hps]. cbn [concat map] in *.
    rewrite <- app_assoc, blen_app in Hm. pose proof (blen_nonneg (concat ps ++ p)).
    assert (rbytes r = wire_frag false q ++ wire_record ps p ++ more) as Hr'.
    { rewrite Hr. unfold wire_record. cbn [map concat]. by rewrite <- !app_assoc. }
    destruct (loop_frag fuel r msg false q _ Hr' Hq ltac:(lia)) as (r1 & Hb1 & Hf1 & ->).
    destruct (IH fuel r1 (msg ++ q) p more Hb1 Hps Hp) as (r2 & -> & ? & ?).
    + rewrite blen_app. lia.
    + cbn in Hf. lia.
    + exists r2. rewrite <- !app_assoc. split; [done|]. split; congruence.
Qed.

Lemma wire_frag_length last p : (4 <= length (wire_frag last p))%nat.
Proof. unfold wire_frag, wire_u32. rewrite length_app, length_be. lia. Qed.

Lemma wire_record_length ps p : (length ps < length (wire_record ps p))%nat.
Proof.
  unfold wire_record. rewrite length_app. pose proof (wire_frag_length true p).
  enough (length ps <= length (concat (map (wire_frag false) ps)))%nat by lia.
  induction ps as [|q ps IH]; cbn [concat map length]; [lia|].
  rewrite length_app. pose proof (wire_frag_length false q). lia.
Qed.

Lemma ReadRecord_record ps p r more :
  rbytes r = wire_record ps p ++ more -> Forall frag_ok ps -> frag_ok p ->
  blen (concat ps ++ p) <= maxMessageSize ->
  exists r', ReadRecord r = (inr (concat ps ++ p), r') /\ rbytes r' = more /\ rfate r' = rfate r.
Proof.
  intros Hr Hps Hp Hm. unfold ReadRecord.
  destruct (loop_record ps (S (length (rbytes r))) r [] p more Hr Hps Hp) as (r' & -> & ?).
  - by rewrite blen_nil.
  - rewrite Hr, length_app. pose proof (wire_record_length ps p). lia.
  - by exists r'.
Qed.

(** *** Writing *)

Lemma WriteRecord_buffer out p : blen p < 2 ^ 31 ->
  WriteRecord (mkWriter out None) p = (None, mkWriter (out ++ wire_record [] p) None).
Proof.
  intros H. pose proof (blen_nonneg p). unfold WriteRecord.
  rewrite u32_id by int_lia. change fragmentSizeMask with 2147483647.
  destruct (Z.ltb_spec 2147483647 (blen p)); [lia|].
  unfold Write. cbn [w_budget w_out]. rewrite lor_flag by lia.
  unfold wire_record, wire_frag, frag_marker, wire_u32. cbn [map concat app].
  by rewrite <- app_assoc.
Qed.

(** A payload of 2^32 bytes and more passes the check on its length, which is
    cut to 32 bits first: the marker announces [k] bytes, a peer takes those for
    the record and the rest for the next ones. *)
Lemma WriteRecord_wraps out p k r : 0 <= k <= maxFragmentSize -> blen p = 2 ^ 32 + k ->
  WriteRecord (mkWriter out None) p = (None, mkWriter (out ++ wire_record [] (btake k p) ++ bdrop k p) None)
  /\ (rbytes r = wire_record [] (btake k p) ++ bdrop k p ->
      exists r', ReadRecord r = (inr (btake k p), r') /\ rbytes r' = bdrop k p).
Proof.
  intros Hk Hp. sizes. assert (blen (btake k p) = k) as Hl by (rewrite blen_take by lia; lia). split.
  - unfold WriteRecord. rewrite Hp. assert (u32 (2 ^ 32 + k) = k) as -> by int_lia. change fragmentSizeMask with 2147483647.
    destruct (Z.ltb_spec 2147483647 k); [lia|]. unfold Write. cbn [w_budget w_out]. rewrite lor_flag by lia.
    unfold wire_record, wire_frag, frag_marker, wire_u32. cbn [map concat app]. rewrite Hl, <- !app_assoc, btake_bdrop. done.
  - intros Hr. destruct (ReadRecord_record [] (btake k p) r (bdrop k p) Hr) as (r' & E & Hr' & _);
      [done|unfold frag_ok; sizes; lia|cbn [concat app]; sizes; lia|]. by exists r'.
Qed.

(** *** Everything a reader can deliver *)

(** The outcome of reading one field: all of it, or an error that depends on
    what was left. *)
Lemma ReadFull_cases r n : 0 <= n ->
  (exists b more r', blen b = n /\ rbytes r = b ++ more /\ ReadFull r n = (b, None, r')
                     /\ rbytes r' = more /\ rfate r' = rfate r)
  \/ (exists got e r', ReadFull r n = (got, Some e, r') /\ blen (rbytes r) < n
                     /\ e = short_error (rbytes r) (rfate r) /\ rbytes r' = []).
Proof.
  intros Hn. destruct (Z.le_gt_cases n (blen (rbytes r))) as [H|H].
  - left. destruct (ReadFull_enough r n) as (r' & E & ? & ?); [lia|].
    exists (btake n (rbytes r)), (bdrop n (rbytes r)), r'.
    rewrite blen_take by done. split_and!; try done; [lia|by rewrite btake_bdrop].
  - right. destruct (ReadFull_short r n) as (r' & E & ? & ?); [lia|]. eauto 10.
Qed.

(** The loop consumes the reader, so fuel above the bytes left is enough. *)
Lemma ReadRecord_loop_total fuel : forall r msg, (length (rbytes r) < fuel)%nat ->
  exists res, ReadRecord_loop fuel r msg = Some res.
Proof.
  induction fuel as [|fuel IH]; intros r msg Hf; [lia|]. cbn [ReadRecord_loop].
  destruct (ReadFull_cases r 4) as [(b & more & r1 & Hb & Hr & -> & Hr1 & _)|(got & e & r1 & -> & _)];
    [lia| |destruct (errors_Is e ErrUnexpectedEOF), (errors_Is e EOF && (blen msg =? 0)); eauto].
  cbn beta iota zeta. destruct (_ <? _); [eauto|]. destruct (_ <? _); [eauto|].
  set (size := Z.land (unbe b) fragmentSizeMask).
  assert (0 <= size) by (subst size; rewrite land_mask; lia).
  destruct (ReadFull_cases r1 size) as [(b2 & more2 & r2 & Hb2 & Hr2 & -> & Hr2' & _)|(got & e & r2 & -> & _)];
    [lia| |destruct (errors_Is e EOF); eauto].
  destruct (negb _); [eauto|]. apply IH.
  rewrite Hr, length_app in Hf. unfold blen in Hb.
  rewrite Hr1 in Hr2. rewrite Hr2, length_app in Hf. rewrite Hr2'. lia.
Qed.

(** What a successful read says about the bytes consumed. *)
Lemma ReadRecord_loop_sound fuel : forall r msg out r', blen msg <= maxMessageSize ->
  ReadRecord_loop fuel r msg = Some (inr out, r') ->
  exists ps p, rbytes r = wire_record ps p ++ rbytes r' /\ out = msg ++ concat ps ++ p
    /\ Forall frag_ok ps /\ frag_ok p /\ blen out <= maxMessageSize.
Proof.
  induction fuel as [|fuel IH]; intros r msg out r' Hinv; [done|]. cbn [ReadRecord_loop].
  destruct (ReadFull_cases r 4) as [(b & more & r1 & Hb & Hr & -> & Hr1 & _)|(got & e & r1 & -> & _)];
    [lia| |destruct (errors_Is e ErrUnexpectedEOF), (errors_Is e EOF && (blen msg =? 0)); discriminate].
  cbn beta iota zeta.
  pose proof (unbe_u32 b Hb) as Hu. pose proof (land_flag _ Hu) as Hl.
  pose proof (land_mask (unbe b)) as Hs.
  set (size := Z.land (unbe b) fragmentSizeMask) in *.
  assert (be 4 (unbe b) = b) as Hbe.
  { change 4%nat with (Z.to_nat 4). rewrite <- Hb. unfold blen. rewrite Nat2Z.id. apply be_unbe. }
  destruct (Z.ltb_spec maxFragmentSize size) as [|Hfr]; [done|].
  destruct (Z.ltb_spec maxMessageSize (u64 (blen msg + size))) as [|Hmsg]; [done|].
  destruct (ReadFull_cases r1 size) as [(b2 & more2 & r2 & Hb2 & Hr2 & -> & Hr2' & _)|(got & e & r2 & -> & _)];
    [lia| |destruct (errors_Is e EOF); discriminate].
  assert (wire_frag (negb (Z.land (unbe b) lastFragmentFlag =? 0)) b2 = b ++ b2) as Hw.
  { unfold wire_frag. rewrite Hl, Hb2. f_equal. rewrite <- Hbe at 2. unfold wire_u32. f_equal.
    unfold frag_marker. destruct (Z.ltb_spec (unbe b) (2 ^ 31)); cbn [negb]; int_lia. }
  assert (frag_ok b2) as Hok by (unfold frag_ok; lia).
  assert (blen (msg ++ b2) <= maxMessageSize) as Hinv'.
  { rewrite blen_app, Hb2. sizes. pose proof (blen_nonneg msg). int_lia. }
  rewrite Hr1 in Hr2.
  destruct (negb (Z.land (unbe b) lastFragmentFlag =? 0)) eqn:Hlast.
  - intros [= <- <-]. exists [], b2. unfold wire_record. cbn [map concat app].
    rewrite Hw, Hr2', <- app_assoc, <- Hr2. by split_and!.
  - intros Hloop. destruct (IH _ _ _ _ Hinv' Hloop) as (ps & p & Hr3 & Hout & Hps & Hp & Hlen).
    exists (b2 :: ps), p. unfold wire_record in *. cbn [map concat].
    rewrite Hw, <- !app_assoc. rewrite <- app_assoc in Hout.
    rewrite <- app_assoc in Hr3. rewrite <- Hr3, Hr2', <- Hr2. split_and!; try done. by constructor.
Qed.

(** *** Chunking *)

Lemma ReadRecord_loop_equiv fuel : forall r1 r2 msg, r1 ≡ r2 ->
  match ReadRecord_loop fuel r1 msg, ReadRecord_loop fuel r2 msg with
  | Some (o1, r1'), Some (o2, r2') => o1 = o2 /\ r1' ≡ r2'
  | None, None => True
  | _, _ => False
  end.
Proof.
  induction fuel as [|fuel IH]; intros r1 r2 msg Hr; cbn [ReadRecord_loop]; [done|].
  destruct (ReadFull_equiv r1 r2 4 Hr) as [E1 E2].
  destruct (ReadFull r1 4) as [[h1 x1] s1], (ReadFull r2 4) as [[h2 x2] s2].
  cbn in E1, E2. injection E1 as -> ->. destruct x2 as [e|].
  { by destruct (errors_Is e ErrUnexpectedEOF), (errors_Is e EOF && (blen msg =? 0)). }
  cbn beta iota zeta. destruct (_ <? _); [done|]. destruct (_ <? _); [done|].
  destruct (ReadFull_equiv s1 s2 (Z.land (unbe h2) fragmentSizeMask) E2) as [E3 E4].
  destruct (ReadFull s1 _) as [[f1 y1] t1], (ReadFull s2 _) as [[f2 y2] t2].
  cbn in E3, E4. injection E3 as -> ->. destruct y2 as [e|].
  { by destruct (errors_Is e EOF). }
  destruct (negb _); [done|]. by apply IH.
Qed.

#[global] Instance ReadRecord_proper : Proper ((≡) ==> prod_relation (=) (≡)) ReadRecord.
Proof.
  intros r1 r2 Hr. unfold ReadRecord. pose proof Hr as [Hb _]. rewrite Hb.
  pose proof (ReadRecord_loop_equiv (S (length (rbytes r2))) r1 r2 [] Hr) as H.
  destruct (ReadRecord_loop _ r1 []) as [[]|], (ReadRecord_loop _ r2 []) as [[]|]; by destruct H.
Qed.

(** ** Messages *)

Definition auth_ok (a : OpaqueAuth) : Prop := is_u32 (oa_Flavor a) /\ fits (oa_Body a).

#[global] Instance wire_OpaqueAuth : Wire OpaqueAuth := {
  valid := auth_ok;
  wire a := wire_u32 (oa_Flavor a) ++ wire_opaque (oa_Body a);
  encode := OpaqueAuth_Encode;
  decode := DecodeOpaqueAuth
}.

#[global] Arguments wire : simpl never.
#[global] Arguments DecodeOpaqueAuth : simpl never.

#[global] Instance wire_OpaqueAuth_laws : WireLaws OpaqueAuth.
Proof.
  split; [| |unfold decode, wire_OpaqueAuth, DecodeOpaqueAuth; apply _..].
  - intros a. unfold encode, wire, wire_OpaqueAuth, OpaqueAuth_Encode. emit.
  - intros [f b] [Hf Hb]. unfold decode, wire, wire_OpaqueAuth, DecodeOpaqueAuth.
    cbn [oa_Flavor oa_Body] in *. parse.
Qed.

Lemma emits_OpaqueAuth a : emits (OpaqueAuth_Encode a) (wire a).
Proof. exact (encode_emits a). Qed.
Lemma parses_OpaqueAuth a : auth_ok a -> parses DecodeOpaqueAuth (wire a) a.
Proof. exact (decode_parses a). Qed.
#[export] Hint Resolve emits_OpaqueAuth parses_OpaqueAuth : nfs.

(** The call header as a server decodes it: every field, in order. *)
Definition server_call_header : Dec (Z * Z * CallHeader) :=
  xid ← D.Uint32;
  mtype ← D.Uint32;
  vers ← D.Uint32;
  prog ← D.Uint32;
  pvers ← D.Uint32;
  proc ← D.Uint32;
  cred ← DecodeOpaqueAuth;
  verf ← DecodeOpaqueAuth;
  mret (mtype, vers, mkCallHeader xid prog pvers proc cred verf).

Definition call_header_ok (h : CallHeader) : Prop :=
  is_u32 (ch_XID h) /\ is_u32 (ch_Prog h) /\ is_u32 (ch_Vers h) /\ is_u32 (ch_Proc h)
  /\ auth_ok (ch_Cred h) /\ auth_ok (ch_Verf h).

Definition wire_call_header (h : CallHeader) : bytes :=
  wire_u32 (ch_XID h) ++ wire_u32 msgCall ++ wire_u32 RPCVersion ++ wire_u32 (ch_Prog h)
  ++ wire_u32 (ch_Vers h) ++ wire_u32 (ch_Proc h) ++ wire (ch_Cred h) ++ wire (ch_Verf h).

Lemma emits_call_header h : emits (CallHeader_Encode h) (wire_call_header h).
Proof. unfold CallHeader_Encode, wire_call_header. emit. Qed.

Lemma parses_call_header h : call_header_ok h ->
  parses server_call_header (wire_call_header h) (msgCall, RPCVersion, h).
Proof.
  intros (? & ? & ? & ? & ? & ?). unfold server_call_header, wire_call_header.
  assert (is_u32 msgCall) by done. assert (is_u32 RPCVersion) by done.
  destruct h as [xid prog vers proc cred verf]. cbn [ch_XID ch_Prog ch_Vers ch_Proc ch_Cred ch_Verf] in *. parse.
Qed.

(** The reply header as a server encodes it, by its kind. *)
Definition wire_reply (h : ReplyHeader) : bytes :=
  wire_u32 (rh_XID h) ++ wire_u32 msgReply ++ wire_u32 (rh_Stat h) ++
  (if rh_Stat h =? MsgAccepted then
     wire (rh_Verf h) ++ wire_u32 (rh_AcceptStat h) ++
     (if rh_AcceptStat h =? AcceptProgMismatch
      then wire_u32 (rh_Low h) ++ wire_u32 (rh_High h) else [])
   else
     wire_u32 (rh_RejectStat h) ++
     (if rh_RejectStat h =? RejectRPCMismatch
      then wire_u32 (rh_Low h) ++ wire_u32 (rh_High h) else wire_u32 (rh_AuthStat h))).

(** The reply headers of RFC 5531: fields the kind does not carry are zero. *)
Inductive reply_ok : ReplyHeader -> Prop :=
| ok_accepted xid verf stat : is_u32 xid -> auth_ok verf -> is_u32 stat -> stat <> AcceptProgMismatch ->
    reply_ok (mkReplyHeader xid MsgAccepted verf stat 0 0 0 0)
| ok_prog_mismatch xid verf low high : is_u32 xid -> auth_ok verf -> is_u32 low -> is_u32 high ->
    reply_ok (mkReplyHeader xid MsgAccepted verf AcceptProgMismatch low high 0 0)
| ok_rpc_mismatch xid low high : is_u32 xid -> is_u32 low -> is_u32 high ->
    reply_ok (mkReplyHeader xid MsgDenied zeroAuth 0 low high RejectRPCMismatch 0)
| ok_auth_error xid stat : is_u32 xid -> is_u32 stat ->
    reply_ok (mkReplyHeader xid MsgDenied zeroAuth 0 0 0 RejectAuthError stat).

Lemma parses_check_err {A} (a : A) : parses (check_err a) [] (inr a).
Proof. eapply parses_bind_last; [apply parses_Err|apply parses_ret]. Qed.
#[export] Hint Resolve parses_check_err : nfs.

Lemma parses_reply h : reply_ok h -> parses DecodeReplyHeader (wire_reply h) (inr h).
Proof.
  intros H. unfold DecodeReplyHeader, wire_reply.
  assert (is_u32 msgReply) by done. assert (is_u32 MsgAccepted) by done.
  assert (is_u32 MsgDenied) by done. assert (is_u32 AcceptProgMismatch) by done.
  assert (is_u32 RejectRPCMismatch) by done. assert (is_u32 RejectAuthError) by done.
  destruct H; cbn [rh_XID rh_Stat rh_Verf rh_AcceptStat rh_Low rh_High rh_RejectStat rh_AuthStat];
    (eapply parses_bind; [eauto with nfs|]); (eapply parses_bind; [eauto with nfs|]);
    rewrite <- (app_nil_l (wire_u32 _ ++ _)); (eapply parses_bind; [apply parses_Err|]);
    cbv beta; const_ifs; try solve [parse].
  do 2 (eapply parses_bind; [eauto with nfs|]; const_ifs).
  assert ((stat =? AcceptProgMismatch) = false) as Hs by (by apply Z.eqb_neq).
  rewrite Hs, app_nil_r. eapply parses_bind_last; [eauto with nfs|]. cbv beta. rewrite Hs.
  apply parses_check_err.
Qed.

(** ** Theorems *)

(** Record marking, completeness.  A message written by [WriteRecord], and
    more generally a message sent as any number of non-last fragments followed
    by the last one, is returned whole by [ReadRecord], however the connection
    cuts it into segments, provided the fragments and the message are within
    the size limits; exactly the record is consumed. *)
Theorem record_roundtrip (ps : list bytes) (p : bytes) (r : Reader) (more : bytes)
    (Hfrags : Forall frag_ok ps) (Hlast : frag_ok p)
    (Hsize : blen (concat ps ++ p) <= maxMessageSize)
    (Hr : rbytes r = wire_record ps p ++ more) :
  (exists r', ReadRecord r = (inr (concat ps ++ p), r') /\ rbytes r' = more /\ rfate r' = rfate r)
  /\ forall out, WriteRecord (mkWriter out None) p = (None, mkWriter (out ++ wire_record [] p) None).
Proof.
  split; [by apply ReadRecord_record|]. intros out. apply WriteRecord_buffer. sizes. lia.
Qed.

Lemma record_roundtrip_witness :
  exists r', ReadRecord [Data [x00; x00]; Data [x00; x02; x41]; Data [x42; x80; x00; x00; x01; x43]]
             = (inr (bstr "ABC"), r') /\ rbytes r' = [] /\ rfate r' = EOF.
Proof.
  refine (proj1 (record_roundtrip [bstr "AB"] (bstr "C") _ [] _ _ _ _)).
  - repeat constructor; vm_compute; discriminate.
  - vm_compute. discriminate.
  - vm_compute. discriminate.
  - vm_compute. reflexivity.
Defined.

(** C34.  Record marking, soundness and totality.  On any connection
    [ReadRecord] returns a message or an error, never running for longer than
    the bytes available; a message it returns is exactly the concatenation of a
    sequence of well-formed fragments that were on the connection, each within
    [maxFragmentSize], the whole within [maxMessageSize], with the last-fragment
    flag on the last one only; and nothing after that record was consumed. *)
Theorem record_sound (r : Reader) :
  (exists res, ReadRecord_loop (S (length (rbytes r))) r [] = Some res /\ ReadRecord r = res)
  /\ forall msg r', ReadRecord r = (inr msg, r') ->
     exists ps p, rbytes r = wire_record ps p ++ rbytes r' /\ msg = concat ps ++ p
       /\ Forall frag_ok ps /\ frag_ok p /\ blen msg <= maxMessageSize.
Proof.
  destruct (ReadRecord_loop_total (S (length (rbytes r))) r []) as [res E]; [lia|].
  unfold ReadRecord. rewrite E. split; [by exists res|].
  intros msg r' ->. by apply (ReadRecord_loop_sound _ r [] msg r' ltac:(done) E).
Qed.

(** Segmentation is invisible.  Two connections that deliver the same bytes
    and end the same way give the same result of [ReadRecord] and the same
    remaining connection, whatever the sizes of the individual reads. *)
Theorem record_chunking (r1 r2 : Reader) (H : r1 ≡ r2) :
  (ReadRecord r1).1 = (ReadRecord r2).1 /\ (ReadRecord r1).2 ≡ (ReadRecord r2).2.
Proof. exact (ReadRecord_proper r1 r2 H). Qed.

Lemma record_chunking_witness :
  (ReadRecord [Data [x80; x00; x00; x02; x41; x42]]).1
  = (ReadRecord [Data [x80]; Data []; Data [x00; x00]; Data [x02; x41]; Data [x42]]).1.
Proof. apply record_chunking. split; vm_compute; reflexivity. Defined.

(** Oversized fragments.  A fragment header announcing more than
    [maxFragmentSize] bytes, first or later in the message, ends [ReadRecord]
    with an error for which [errors.Is(err, ErrFragmentTooLarge)] holds, after
    reading the header only: no byte of the announced body is read or buffered. *)
Theorem record_oversized (ps : list bytes) (marker : Z) (r : Reader) (more : bytes)
    (Hfrags : Forall frag_ok ps) (Hsize : blen (concat ps) <= maxMessageSize)
    (Hmarker : is_u32 marker) (Hbig : maxFragmentSize < marker mod 2 ^ 31)
    (Hr : rbytes r = concat (map (wire_frag false) ps) ++ wire_u32 marker ++ more) :
  exists e r', ReadRecord r = (inl e, r') /\ errors_Is e ErrFragmentTooLarge = true
               /\ rbytes r' = more.
Proof.
  unfold ReadRecord.
  enough (forall fuel msg, (length ps < fuel)%nat -> blen msg + blen (concat ps) <= maxMessageSize ->
    exists e r', ReadRecord_loop fuel r msg = Some (inl e, r')
      /\ errors_Is e ErrFragmentTooLarge = true /\ rbytes r' = more) as H.
  { destruct (H (S (length (rbytes r))) []) as (e & r' & -> & ?); [|by rewrite blen_nil|eauto].
    rewrite Hr, length_app. enough (length ps <= length (concat (map (wire_frag false) ps)))%nat by lia.
    clear. induction ps as [|q ps IH]; cbn [concat map length]; [lia|].
    rewrite length_app. pose proof (wire_frag_length false q). lia. }
  clear Hsize. revert r Hr. induction Hfrags as [|q ps Hq Hps IH]; intros r Hr fuel msg Hf Hm;
    (destruct fuel as [|fuel]; [cbn in Hf; lia|]).
  - cbn [ReadRecord_loop]. destruct (ReadFull_app r _ _ 4 (blen_be 4 marker) Hr) as (r' & -> & ? & _).
    cbn beta iota zeta. rewrite unbe_be4, u32_id, land_mask by done.
    destruct (Z.ltb_spec maxFragmentSize (marker mod 2 ^ 31)); [|lia]. eauto.
  - cbn [map concat] in Hr, Hm. rewrite <- app_assoc in Hr. rewrite blen_app in Hm.
    pose proof (blen_nonneg (concat ps)).
    destruct (loop_frag fuel r msg false q _ Hr Hq ltac:(lia)) as (r1 & Hb1 & _ & ->).
    apply (IH r1 Hb1); [cbn in Hf; lia|]. rewrite blen_app. lia.
Qed.

Lemma record_oversized_witness :
  exists e r', ReadRecord [Data [x00; x00; x00; x01; x41; x20; x00; x00; x00; x55]] = (inl e, r')
    /\ errors_Is e ErrFragmentTooLarge = true /\ rbytes r' = [x55].
Proof.
  refine (record_oversized [bstr "A"] 536870912 _ [x55] _ _ _ _ _).
  - repeat constructor; vm_compute; discriminate.
  - vm_compute. discriminate.
  - vm_compute. split; [discriminate|reflexivity].
  - vm_compute. reflexivity.
  - vm_compute. reflexivity.
Defined.

(** Reply headers.  Every reply header a server can form (accepted with any
    accept_stat, PROG_MISMATCH with its range, denied with RPC_MISMATCH or
    AUTH_ERROR) is decoded to itself, stopping at the result body; and
    [ReplyHeader.Error] is nil exactly on an accepted SUCCESS, an [AuthError]
    with the server's auth_stat exactly on AUTH_ERROR. *)
Theorem reply_header_roundtrip (h : ReplyHeader) (H : reply_ok h) :
  (forall r body, rbytes r = wire_reply h ++ body ->
     exists d', DecodeReplyHeader (Decoder.NewDecoder r) = (inr h, d')
                /\ Decoder.err d' = None /\ rest d' = body)
  /\ (ReplyHeader_Error h = None <-> rh_Stat h = MsgAccepted /\ rh_AcceptStat h = AcceptSuccess)
  /\ (forall s, ReplyHeader_Error h = Some (AuthError s)
      <-> rh_Stat h = MsgDenied /\ rh_RejectStat h = RejectAuthError /\ rh_AuthStat h = s).
Proof.
  split_and!.
  - intros r body Hr.
    destruct (parses_reply h H (Decoder.NewDecoder r) body) as (d' & E & [? _] & ? & _); eauto.
    by split.
  - unfold ReplyHeader_Error.
    destruct H; cbn; try (split; [discriminate|intros [? ?]; discriminate]).
    destruct (Z.eqb_spec stat AcceptSuccess) as [->|Hn]; [done|].
    destruct (Z.eqb_spec stat AcceptProgMismatch); (split; [discriminate|intros [_ ?]; done]).
  - intros s. unfold ReplyHeader_Error.
    destruct H; cbn; try (split; [discriminate|intros (? & ? & ?); discriminate]).
    + repeat case_match; (split; [discriminate|intros (? & ? & ?); discriminate]).
    + split; [by intros [= ->]|by intros (_ & _ & ->)].
Qed.

Lemma reply_header_roundtrip_witness :
  ReplyHeader_Error (mkReplyHeader 7 MsgDenied zeroAuth 0 0 0 RejectAuthError 5) = Some (AuthError 5).
Proof.
  refine (proj2 (proj2 (proj2 (reply_header_roundtrip _ _)) 5) _).
  - constructor; vm_compute; split; (discriminate || reflexivity).
  - vm_compute. auto.
Defined.

(** Call headers.  The bytes [CallHeader.Encode] emits, for any credential
    and verifier, decode as a version-2 CALL with the same xid, program,
    version, procedure, credential and verifier; and the AUTH_SYS credential
    built by [AuthSys.OpaqueAuth] carries exactly the stamp, machine name, uid,
    gid and group list. *)
Theorem call_header_roundtrip (h : CallHeader) (c : AuthSys)
    (Hh : call_header_ok h)
    (Hc : is_u32 (as_Stamp c) /\ fits (as_MachineName c) /\ is_u32 (as_UID c)
          /\ is_u32 (as_GID c) /\ is_u32 (blen (as_GIDs c))) :
  (forall r more,
     rbytes r = w_out (Encoder.w (CallHeader_Encode h (Encoder.NewEncoder bytes_Buffer))) ++ more ->
     exists d', server_call_header (Decoder.NewDecoder r) = ((msgCall, RPCVersion, h), d')
                /\ Decoder.err d' = None /\ rest d' = more)
  /\ oa_Body (AuthSys_OpaqueAuth c)
     = wire_u32 (as_Stamp c) ++ wire_opaque (as_MachineName c) ++ wire_u32 (as_UID c)
       ++ wire_u32 (as_GID c) ++ wire_u32 (blen (as_GIDs c)) ++ concat (map wire_u32 (as_GIDs c)).
Proof.
  change (Encoder.NewEncoder bytes_Buffer) with (Encoder.mk (mkWriter [] None) None). split.
  - intros r more. rewrite (emits_healthy _ _ (emits_call_header h)). cbn [Encoder.w w_out app].
    intros Hr.
    destruct (parses_call_header h Hh (Decoder.NewDecoder r) more) as (d' & E & [? _] & ? & _); eauto.
    by split.
  - cbn [AuthSys_OpaqueAuth oa_Body]. unfold AuthSys_body.
    change (Encoder.NewEncoder bytes_Buffer) with (Encoder.mk (mkWriter [] None) None).
    rewrite (emits_healthy _ (wire_u32 (as_Stamp c) ++ wire_opaque (as_MachineName c)
       ++ wire_u32 (as_UID c) ++ wire_u32 (as_GID c) ++ wire_u32 (u32 (blen (as_GIDs c)))
       ++ concat (map wire_u32 (as_GIDs c)))).
    + cbn [Encoder.w w_out app]. by rewrite u32_id by apply Hc.
    + emit. apply emits_each. intros; apply emits_Uint32.
Qed.

Lemma call_header_roundtrip_witness :
  oa_Body (AuthSys_OpaqueAuth (mkAuthSys 1 (bstr "h") 2 3 [4]))
  = [x00;x00;x00;x01; x00;x00;x00;x01;x68;x00;x00;x00; x00;x00;x00;x02; x00;x00;x00;x03;
     x00;x00;x00;x01; x00;x00;x00;x04].
Proof.
  refine (eq_trans (proj2 (call_header_roundtrip (mkCallHeader 1 2 3 4 AuthNull AuthNull)
                    (mkAuthSys 1 (bstr "h") 2 3 [4]) _ _)) _); [by decide_wf..|].
  vm_compute. reflexivity.
Defined.
