(* ===== verification/RpcClient.v ===== *)
(** * The RPC client (src/rpc/client.go)

    One [Client] owns a connection and a transaction-id counter.  [Call] holds
    the mutex from start to end, so a call is a function on the client's state;
    RpcShared has the goroutines, and the theorem that this is all they can do.  Two things are decided outside
    the program and are given as a [CallCtx]: whether the context was already
    done on entry, and which branch the final [select] takes (with the progress
    the goroutine had made when the connection was closed under it).  The bytes
    the peer sends are those of the connection's reader. *)

From S2P Require Import Prelude GoError Nfs4Const GoIO Xdr Rpc.

(** The [io.ReadWriteCloser] of a client. *)
Record NetConn := mkNetConn {
  nc_in : Reader;
  nc_out : Writer
}.

(** After [Close] every read and write fails. *)
Definition NetConn_Close (c : NetConn) : NetConn :=
  mkNetConn [Fault ErrNetClosed] (mkWriter (w_out (nc_out c)) (Some (0, ErrNetClosed))).

(** src/rpc/client.go:31-36 *)
Record ClientOptions := mkClientOptions {
  opt_Cred : OpaqueAuth;
  opt_Verf : OpaqueAuth
}.

(** src/rpc/client.go:45-51 *)
Record Client := mkClient {
  cl_conn : NetConn;
  cl_opts : ClientOptions;
  cl_nextID : Z
}.

(** [rand] is the value of [rand.Uint32()].  src/rpc/client.go:54-60 *)
Definition NewClient (conn : NetConn) (opts : ClientOptions) (rand : Z) : Client :=
  mkClient conn opts rand.

(** [dialled] is the outcome of [net.Dialer.DialContext].
    src/rpc/client.go:64-76 *)
Definition rpc_Dial (dialled : result NetConn) (address : bytes) (opts : ClientOptions) (rand : Z)
    : result Client :=
  match dialled with
  | inl err => inl (Wrapf "rpc: dialing %s: %w" [Fs address] err)
  | inr conn => inr (NewClient conn opts rand)
  end.

(** src/rpc/client.go:87-89 *)
Definition Client_Close (c : Client) : Client :=
  mkClient (NetConn_Close (cl_conn c)) (cl_opts c) (cl_nextID c).

(** src/rpc/client.go:92-98 *)
Definition allocXID (c : Client) : Z * Client :=
  let next := u32 (cl_nextID c + 1) in
  let next := if next =? 0 then 1 else next in
  (next, mkClient (cl_conn c) (cl_opts c) next).

(** How far the round-trip goroutine had come. *)
Inductive Progress := NotWritten | RequestWritten | ReplyRead.

Record CallCtx := mkCallCtx {
  ctx_entry : option error;                    (* ctx.Err() at the first line *)
  ctx_preempt : option (error * Progress)      (* the select took <-ctx.Done() *)
}.

(** A context that is never done. *)
Definition live : CallCtx := mkCallCtx None None.

(** The goroutine of [Call].  src/rpc/client.go:147-158 *)
Definition roundTrip (conn : NetConn) (req : bytes) : result bytes * NetConn :=
  match WriteRecord (nc_out conn) req with
  | (Some err, w) => (inl (Wrapf "rpc: writing request: %w" [] err), mkNetConn (nc_in conn) w)
  | (None, w) =>
      match ReadRecord (nc_in conn) with
      | (inl err, r) => (inl (Wrapf "rpc: reading reply: %w" [] err), mkNetConn r w)
      | (inr reply, r) => (inr reply, mkNetConn r w)
      end
  end.

(** The error and, when [decodeRes] ran, what it decoded.
    src/rpc/client.go:176-195 *)
Definition decodeReply {A} (xid : Z) (reply : bytes) (decodeRes : option (Dec A))
    : option error * option A :=
  let dec := Decoder.NewDecoder (bytes_NewReader reply) in
  match DecodeReplyHeader dec with
  | (inl err, _) => (Some (Wrapf "rpc: decoding reply header: %w" [] err), None)
  | (inr hdr, dec) =>
      if negb (rh_XID hdr =? xid) then
        (Some (Errorf "rpc: reply xid %#x does not match request xid %#x"
                      [Fz (rh_XID hdr); Fz xid]), None)
      else
        match ReplyHeader_Error hdr with
        | Some err => (Some err, None)
        | None =>
            match decodeRes with
            | None => (None, None)
            | Some decodeRes =>
                let '(a, dec) := decodeRes dec in
                match Decoder.Err dec with
                | Some err => (Some (Wrapf "rpc: decoding result: %w" [] err), Some a)
                | None => (None, Some a)
                end
            end
        end
  end.

(** The connection when the select took the context's branch. *)
Definition preempted (conn : NetConn) (req : bytes) (p : Progress) : NetConn :=
  NetConn_Close match p with
                | NotWritten => conn
                | RequestWritten => mkNetConn (nc_in conn) (WriteRecord (nc_out conn) req).2
                | ReplyRead => (roundTrip conn req).2
                end.

(** src/rpc/client.go:106-172 *)
Definition Call {A} (ctx : CallCtx) (prog vers proc : Z)
    (encodeArgs : option (Encoder.t -> Encoder.t)) (decodeRes : option (Dec A)) (c : Client)
    : option error * option A * Client :=
  match ctx_entry ctx with
  | Some err => (Some err, None, c)
  | None =>
      let '(xid, c) := allocXID c in
      let enc := Encoder.NewEncoder bytes_Buffer in
      let hdr := mkCallHeader xid prog vers proc (opt_Cred (cl_opts c)) (opt_Verf (cl_opts c)) in
      let enc := CallHeader_Encode hdr enc in
      let enc := match encodeArgs with Some f => f enc | None => enc end in
      match Encoder.Err enc with
      | Some err => (Some (Wrapf "rpc: encoding request: %w" [] err), None, c)
      | None =>
          let req := w_out (Encoder.w enc) in
          match ctx_preempt ctx with
          | Some (err, p) =>
              (Some err, None, mkClient (preempted (cl_conn c) req p) (cl_opts c) (cl_nextID c))
          | None =>
              let '(res, conn) := roundTrip (cl_conn c) req in
              let c := mkClient conn (cl_opts c) (cl_nextID c) in
              match res with
              | inl err => (Some err, None, c)
              | inr reply => let '(err, a) := decodeReply xid reply decodeRes in (err, a, c)
              end
          end
      end
  end.
