(* ===== verification/RpcClientCorrect.v ===== *)
(** * The RPC client: theorems *)

From S2P Require Import Prelude GoError Nfs4Const GoIO Xdr XdrSpec Rpc RpcCorrect RpcClient.

(** ** Transaction ids *)

Definition next_xid (n : Z) : Z := let m := u32 (n + 1) in if m =? 0 then 1 else m.

Lemma allocXID_next c : allocXID c = (next_xid (cl_nextID c),
  mkClient (cl_conn c) (cl_opts c) (next_xid (cl_nextID c))).
Proof. done. Qed.

Lemma next_xid_range n : 1 <= next_xid n < 2 ^ 32.
Proof. unfold next_xid. pose proof (u32_range (n + 1)). unfold is_u32 in *. bool_cases; lia. Qed.

Lemma next_xid_step n : is_u32 n -> next_xid n = 1 + n mod (2 ^ 32 - 1).
Proof. intros H. unfold next_xid. bool_cases; int_lia. Qed.

(** The xid of the [k]-th following call. *)
Fixpoint iter_xid (k : nat) (n : Z) : Z :=
  match k with O => n | S k => iter_xid k (next_xid n) end.

Lemma iter_xid_closed k : forall n, 1 <= n < 2 ^ 32 ->
  iter_xid k n = 1 + (n - 1 + Z.of_nat k) mod (2 ^ 32 - 1).
Proof.
  induction k as [|k IH]; intros n Hn; cbn [iter_xid].
  - int_lia.
  - rewrite IH by apply next_xid_range. rewrite next_xid_step by int_lia.
    rewrite Nat2Z.inj_succ. replace (1 + n mod (2 ^ 32 - 1) - 1 + Z.of_nat k)
      with (n mod (2 ^ 32 - 1) + Z.of_nat k) by lia.
    rewrite Zplus_mod_idemp_l. do 2 f_equal. lia.
Qed.

(** ** One call *)

Lemma decodeReply_success {A} xid verf body (dec : Dec A) wbody junk a :
  is_u32 xid -> auth_ok verf -> body = wbody ++ junk -> parses dec wbody a ->
  decodeReply xid (wire_reply (mkReplyHeader xid MsgAccepted verf AcceptSuccess 0 0 0 0) ++ body)
    (Some dec) = (None, Some a).
Proof.
  intros Hx Hv -> Hp. unfold decodeReply.
  set (h := mkReplyHeader xid MsgAccepted verf AcceptSuccess 0 0 0 0).
  assert (reply_ok h) as Hok by by constructor.
  destruct (parses_reply h Hok (Decoder.NewDecoder (bytes_NewReader (wire_reply h ++ wbody ++ junk)))
              (wbody ++ junk)) as (d1 & -> & Hd1 & Hr1 & _); [done|cbn; by rewrite app_nil_r|].
  destruct (Hp d1 junk Hd1 Hr1) as (d2 & E & Hd2 & _). cbn. rewrite Z.eqb_refl. cbn.
  rewrite E. unfold Decoder.Err. by rewrite (healthy_err _ Hd2).
Qed.

(** The header decoder succeeds on an accepted reply only if the bytes are one. *)
Lemma check_err_inv {A} (a : A) d h d' :
  check_err a d = (inr h, d') -> h = a /\ d' = d /\ Decoder.err d = None.
Proof.
  unfold check_err, mbind, Dec_bind, D.Err. destruct (Decoder.err d); cbn; by intros [= <- <-].
Qed.

#[global] Instance sticky_DecodeOpaqueAuth : Sticky DecodeOpaqueAuth.
Proof. unfold DecodeOpaqueAuth. apply _. Qed.
#[global] Instance consuming_DecodeOpaqueAuth : Consuming DecodeOpaqueAuth.
Proof. unfold DecodeOpaqueAuth. apply _. Qed.

Lemma reply_success_inv d h d' :
  DecodeReplyHeader d = (inr h, d') -> ReplyHeader_Error h = None ->
  exists verf, rest d = wire_u32 (rh_XID h) ++ wire_u32 msgReply ++ wire_u32 MsgAccepted
                        ++ verf ++ wire_u32 AcceptSuccess ++ rest d'
               /\ Decoder.err d' = None.
Proof.
  unfold DecodeReplyHeader. intros E Hok.
  apply Dec_bind_inv in E as (xid & d1 & E1 & E). apply Dec_bind_inv in E as (mt & d2 & E2 & E).
  apply Dec_bind_inv in E as (err & d2' & [= <- <-] & E).
  destruct (Decoder.err d2) as [e|] eqn:He2; [discriminate|].
  destruct (Z.eqb_spec mt msgReply) as [->|]; [|discriminate]. cbn [negb] in E.
  destruct (Uint32_inv _ _ _ E2 He2) as (He1 & Hr1 & _).
  destruct (Uint32_inv _ _ _ E1 He1) as (_ & Hr0 & _).
  apply Dec_bind_inv in E as (stat & d3 & E3 & E).
  destruct (Z.eqb_spec stat MsgAccepted) as [->|].
  - apply Dec_bind_inv in E as (verf & d4 & E4 & E). apply Dec_bind_inv in E as (acc & d5 & E5 & E).
    destruct (Z.eqb_spec acc AcceptProgMismatch) as [->|Hna].
    + apply Dec_bind_inv in E as (lo & d6 & E6 & E). apply Dec_bind_inv in E as (hi & d7 & E7 & E).
      apply check_err_inv in E as (-> & _ & _). discriminate.
    + apply check_err_inv in E as (-> & -> & He5). unfold ReplyHeader_Error in Hok.
      cbn in Hok. destruct (Z.eqb_spec acc AcceptSuccess) as [->|]; [|by case_match].
      destruct (Uint32_inv _ _ _ E5 He5) as (He4 & Hr4 & _).
      pose proof (sticky_inv _ _ _ _ E4 He4) as He3.
      destruct (consuming_prefix _ _ _ _ E4) as [p Hr3].
      destruct (Uint32_inv _ _ _ E3 He3) as (_ & Hr2 & _).
      exists p. cbn [rh_XID]. split; [|done]. by rewrite Hr0, Hr1, Hr2, Hr3, Hr4.
  - destruct (Z.eqb_spec stat MsgDenied) as [->|]; [|discriminate].
    apply Dec_bind_inv in E as (rej & d4 & E4 & E).
    destruct (Z.eqb_spec rej RejectRPCMismatch) as [->|].
    + apply Dec_bind_inv in E as (lo & d6 & E6 & E). apply Dec_bind_inv in E as (hi & d7 & E7 & E).
      apply check_err_inv in E as (-> & _ & _). discriminate.
    + destruct (Z.eqb_spec rej RejectAuthError) as [->|]; [|discriminate].
      apply Dec_bind_inv in E as (st & d6 & E6 & E).
      apply check_err_inv in E as (-> & _ & _). discriminate.
Qed.

(** The request record [Call] sends: the header with a fresh xid and the
    client's credentials, then the arguments. *)
Definition request (c : Client) (prog vers proc : Z) (wargs : bytes) : bytes :=
  wire_call_header (mkCallHeader (allocXID c).1 prog vers proc (opt_Cred (cl_opts c)) (opt_Verf (cl_opts c)))
  ++ wargs.

Lemma request_encoded c prog vers proc encodeArgs wargs : emits encodeArgs wargs ->
  encodeArgs (CallHeader_Encode (mkCallHeader (allocXID c).1 prog vers proc (opt_Cred (cl_opts c))
                (opt_Verf (cl_opts c))) (Encoder.NewEncoder bytes_Buffer))
  = Encoder.mk (mkWriter (request c prog vers proc wargs) None) None.
Proof.
  intros H. exact (emits_healthy _ _ (emits_seq _ _ _ _ (emits_call_header _) H) []).
Qed.

(** A call on a connection that holds an accepted reply to it. *)
Lemma Call_run {A} (c : Client) (prog vers proc : Z)
    (encodeArgs : Encoder.t -> Encoder.t) (decodeRes : Dec A) (wargs wbody junk : bytes)
    (a : A) (verf : OpaqueAuth) (ps : list bytes) (p more out : bytes)
    (Hargs : emits encodeArgs wargs) (Hbody : parses decodeRes wbody a) (Hverf : auth_ok verf)
    (Hout : nc_out (cl_conn c) = mkWriter out None)
    (Hreq : blen (request c prog vers proc wargs) < 2 ^ 31)
    (Hfrags : Forall frag_ok ps) (Hlast : frag_ok p) (Hsize : blen (concat ps ++ p) <= maxMessageSize)
    (Hin : rbytes (nc_in (cl_conn c)) = wire_record ps p ++ more)
    (Hreply : concat ps ++ p
              = wire_reply (mkReplyHeader (allocXID c).1 MsgAccepted verf AcceptSuccess 0 0 0 0)
                ++ wbody ++ junk) :
  exists c', Call live prog vers proc (Some encodeArgs) (Some decodeRes) c = (None, Some a, c')
    /\ rbytes (nc_in (cl_conn c')) = more
    /\ nc_out (cl_conn c') = mkWriter (out ++ wire_record [] (request c prog vers proc wargs)) None
    /\ cl_nextID c' = (allocXID c).1 /\ cl_opts c' = cl_opts c.
Proof.
  destruct (ReadRecord_record ps p _ more Hin Hfrags Hlast Hsize) as (r' & Er & Hr' & _).
  exists (mkClient (mkNetConn r' (mkWriter (out ++ wire_record [] (request c prog vers proc wargs)) None))
            (cl_opts c) (allocXID c).1).
  split_and!; try done.
  pose proof (request_encoded c prog vers proc _ _ Hargs) as Ee.
  rewrite allocXID_next in Ee, Hreply. cbn [fst] in Ee, Hreply.
  unfold Call. cbn [ctx_entry ctx_preempt live]. rewrite allocXID_next. cbn [cl_opts cl_conn cl_nextID].
  rewrite Ee. cbn [Encoder.Err Encoder.err Encoder.w w_out]. unfold roundTrip.
  rewrite Hout, WriteRecord_buffer, Er, Hreply by done.
  rewrite (decodeReply_success _ _ _ _ wbody junk a); try done.
  pose proof (next_xid_range (cl_nextID c)). int_lia.
Qed.

(** ** Theorems *)

(** A successful call.  On a healthy connection whose incoming bytes start
    with a record (in any fragments and segments) that is an accepted SUCCESS
    reply to this call's xid followed by a result [decodeRes] accepts, [Call]
    returns no error and the decoded result.  Exactly one record went out: the
    version-2 call header with the fresh xid and the client's credential and
    verifier, then the arguments; exactly one record was consumed. *)
Theorem call_success {A} (c : Client) (prog vers proc : Z)
    (encodeArgs : Encoder.t -> Encoder.t) (decodeRes : Dec A) (wargs wbody junk : bytes)
    (a : A) (verf : OpaqueAuth) (ps : list bytes) (p more out : bytes)
    (Hargs : emits encodeArgs wargs) (Hbody : parses decodeRes wbody a) (Hverf : auth_ok verf)
    (Hout : nc_out (cl_conn c) = mkWriter out None)
    (Hreq : blen (request c prog vers proc wargs) < 2 ^ 31)
    (Hfrags : Forall frag_ok ps) (Hlast : frag_ok p) (Hsize : blen (concat ps ++ p) <= maxMessageSize)
    (Hin : rbytes (nc_in (cl_conn c)) = wire_record ps p ++ more)
    (Hreply : concat ps ++ p
              = wire_reply (mkReplyHeader (allocXID c).1 MsgAccepted verf AcceptSuccess 0 0 0 0)
                ++ wbody ++ junk) :
  exists c', Call live prog vers proc (Some encodeArgs) (Some decodeRes) c = (None, Some a, c')
    /\ rbytes (nc_in (cl_conn c')) = more
    /\ nc_out (cl_conn c') = mkWriter (out ++ wire_record [] (request c prog vers proc wargs)) None
    /\ cl_nextID c' = (allocXID c).1 /\ cl_opts c' = cl_opts c.
Proof. by apply (Call_run c prog vers proc encodeArgs decodeRes wargs wbody junk a verf ps p more out). Qed.

(** A client about to make the call with xid 8, and the reply to it. *)
Definition sample_client : Client :=
  mkClient (mkNetConn [Data (wire_record [] (wire_u32 8 ++ wire_u32 1 ++ wire_u32 0 ++ wire_u32 0
              ++ wire_u32 0 ++ wire_u32 0 ++ wire_u32 99))] (mkWriter [] None))
    (mkClientOptions AuthNull AuthNull) 7.

Lemma call_success_witness :
  exists c', Call live 100003 4 1 (Some (Encoder.Uint32 5)) (Some D.Uint32) sample_client
             = (None, Some 99, c') /\ cl_nextID c' = 8.
Proof.
  destruct (call_success sample_client 100003 4 1 (Encoder.Uint32 5) D.Uint32 (wire_u32 5)
    (wire_u32 99) [] 99 AuthNull []
    (wire_u32 8 ++ wire_u32 1 ++ wire_u32 0 ++ wire_u32 0 ++ wire_u32 0 ++ wire_u32 0 ++ wire_u32 99)
    [] []) as (c' & E & _ & _ & Hn & _);
    [apply emits_Uint32 | apply parses_Uint32; decide_wf | decide_wf | reflexivity
    | vm_compute; reflexivity | constructor | decide_wf | decide_wf
    | vm_compute; reflexivity | vm_compute; reflexivity |].
  exists c'. split; [exact E|exact Hn].
Defined.

(** C35.  No false success.  If [Call] returns a nil error, the context was
    not done, exactly one record was read, its first word is this call's xid,
    it is a REPLY, accepted, with accept_stat SUCCESS, and the result handed to
    the caller is what [decodeRes] made of the bytes after that header without
    a decoding error.  A reply to another call, a denied or unsuccessful reply
    or a malformed result never comes back as success. *)
Theorem call_sound {A} (ctx : CallCtx) (prog vers proc : Z)
    (encodeArgs : option (Encoder.t -> Encoder.t)) (decodeRes : Dec A) (c c' : Client) (a : option A)
    (H : Call ctx prog vers proc encodeArgs (Some decodeRes) c = (None, a, c')) :
  ctx_entry ctx = None /\ ctx_preempt ctx = None /\
  exists reply verf body d d' v,
    ReadRecord (nc_in (cl_conn c)) = (inr reply, nc_in (cl_conn c'))
    /\ reply = wire_u32 (allocXID c).1 ++ wire_u32 msgReply ++ wire_u32 MsgAccepted
               ++ verf ++ wire_u32 AcceptSuccess ++ body
    /\ rest d = body /\ Decoder.err d = None
    /\ decodeRes d = (v, d') /\ Decoder.err d' = None /\ a = Some v.
Proof.
  unfold Call in H. destruct (ctx_entry ctx); [discriminate|]. rewrite allocXID_next in *.
  destruct (Encoder.Err _); [discriminate|]. destruct (ctx_preempt ctx) as [[]|]; [discriminate|].
  cbn [cl_conn cl_opts cl_nextID fst] in *. split_and!; try done. unfold roundTrip in H.
  destruct (WriteRecord _ _) as [[e|] w]; [discriminate|].
  destruct (ReadRecord (nc_in (cl_conn c))) as [[e|reply] r']; [discriminate|].
  unfold decodeReply in H.
  destruct (DecodeReplyHeader _) as [[e|h] d1] eqn:Eh; [discriminate|].
  destruct (Z.eqb_spec (rh_XID h) (next_xid (cl_nextID c))) as [Ex|]; [|discriminate].
  cbn [negb] in H. destruct (ReplyHeader_Error h) eqn:Ehe; [discriminate|].
  destruct (decodeRes d1) as [v d2] eqn:Ed. unfold Decoder.Err in H.
  destruct (Decoder.err d2) eqn:He2; [discriminate|]. injection H as <- <-.
  destruct (reply_success_inv _ _ _ Eh Ehe) as (verf & Hr & He1).
  exists reply, verf, (rest d1), d1, d2, v. cbn [nc_in cl_conn]. rewrite <- Ex.
  split_and!; try done. cbn in Hr. by rewrite app_nil_r in Hr.
Qed.

Lemma call_sound_witness :
  ctx_preempt live = None /\ exists reply, ReadRecord (nc_in (cl_conn sample_client)) = (inr reply, []).
Proof.
  destruct (call_sound live 100003 4 1 None D.Uint32 sample_client
    (Call live 100003 4 1 None (Some D.Uint32) sample_client).2
    (Call live 100003 4 1 None (Some D.Uint32) sample_client).1.2) as (_ & E & reply & H);
    [vm_compute; reflexivity|].
  split; [exact E|]. exists reply. destruct H as (verf & body & d & d' & v & H & _).
  rewrite H. vm_compute. reflexivity.
Defined.

(** Transaction ids.  [allocXID] never returns zero, and any two of
    [2^32 - 1] consecutive calls of a client, whatever its random start, carry
    different xids, across the wrap-around of the counter. *)
Theorem xid_distinct (c : Client) (i j : nat)
    (Hstart : is_u32 (cl_nextID c)) (Hij : (i < j)%nat) (Hnear : Z.of_nat j - Z.of_nat i < 2 ^ 32 - 1) :
  let xid k := iter_xid k (allocXID c).1 in
  xid i <> xid j /\ 1 <= xid i < 2 ^ 32.
Proof.
  cbv zeta. rewrite allocXID_next. cbn [fst]. pose proof (next_xid_range (cl_nextID c)) as H.
  rewrite !iter_xid_closed by done. int_lia.
Qed.

Lemma xid_distinct_witness :
  iter_xid 0 (allocXID (mkClient (cl_conn sample_client) (cl_opts sample_client) 4294967294)).1
  <> iter_xid 1 (allocXID (mkClient (cl_conn sample_client) (cl_opts sample_client) 4294967294)).1.
Proof.
  refine (proj1 (xid_distinct (mkClient (cl_conn sample_client) (cl_opts sample_client) 4294967294)
    0 1 _ _ _)); [decide_wf|lia|vm_compute; reflexivity].
Defined.

(** Cancellation.  When the context ends while a call is in flight, the
    call returns the context's error, and the client is closed: however far the
    round trip had come, every later call on it fails and sends nothing, so a
    late reply to the cancelled call can never be taken for another reply. *)
Theorem call_cancelled {A B} (err : error) (p : Progress) (prog vers proc : Z)
    (encodeArgs : Encoder.t -> Encoder.t) (wargs : bytes) (decodeRes : option (Dec A)) (c : Client)
    (ctx : CallCtx) (prog' vers' proc' : Z) (encodeArgs' : option (Encoder.t -> Encoder.t))
    (decodeRes' : option (Dec B))
    (Hargs : emits encodeArgs wargs) (Hctx : ctx_entry ctx = None) :
  exists c', Call (mkCallCtx None (Some (err, p))) prog vers proc (Some encodeArgs) decodeRes c
             = (Some err, None, c')
    /\ exists e c'', Call ctx prog' vers' proc' encodeArgs' decodeRes' c' = (Some e, None, c'')
                     /\ w_out (nc_out (cl_conn c'')) = w_out (nc_out (cl_conn c')).
Proof.
  unfold Call at 1. cbn [ctx_entry ctx_preempt]. rewrite allocXID_next. cbn [cl_opts cl_conn cl_nextID].
  pose proof (request_encoded c prog vers proc _ _ Hargs) as Ee.
  rewrite allocXID_next in Ee. cbn [fst] in Ee. rewrite Ee. cbn [Encoder.Err Encoder.err Encoder.w w_out].
  eexists. split; [done|]. unfold preempted. set (conn := match p with NotWritten => _ | _ => _ end).
  unfold Call. rewrite Hctx, allocXID_next. cbn [cl_opts cl_conn cl_nextID].
  destruct (Encoder.Err _) as [e|]; [by eauto|].
  destruct (ctx_preempt ctx) as [[e q]|].
  - eexists _, _. split; [done|]. cbn. destruct q; cbn; try done; unfold roundTrip, WriteRecord, Write;
      cbn; repeat case_match; simplify_eq; cbn; rewrite ?app_nil_r; try done.
  - unfold roundTrip, WriteRecord, Write. cbn.
    destruct (_ <? _); [eexists _, _; by split|]. cbn. eexists _, _. split; [done|].
    cbn. by rewrite app_nil_r.
Qed.

Lemma call_cancelled_witness :
  exists c', Call (mkCallCtx None (Some (Canceled, RequestWritten))) 100003 4 1
               (Some (Encoder.Uint32 5)) (Some D.Uint32) sample_client = (Some Canceled, None, c').
Proof.
  destruct (call_cancelled Canceled RequestWritten 100003 4 1 (Encoder.Uint32 5) (wire_u32 5)
    (Some D.Uint32) sample_client live 100003 4 1 None (Some D.Uint32)) as (c' & E & _).
  - apply emits_Uint32.
  - reflexivity.
  - exists c'. exact E.
Defined.
