(* ===== verification/RpcShared.v ===== *)
(** * Goroutines sharing one RPC client (src/rpc/client.go)

    [Client] is safe for concurrent use: [Call] holds its mutex from the xid to
    the reply.  Here every call is a goroutine that starts one more for its round
    trip, contexts end and the connection is closed whenever they like, and the
    peer sends what it likes.  An [action] is one atomic step of one goroutine or
    of the world, so a list of actions is an interleaving; RpcSharedCorrect
    proves that all of them are sequences of [RpcClient.Call]s, which is what the
    rest of the development works with. *)

From S2P Require Import Prelude GoError Nfs4Const GoIO Xdr Rpc RpcClient.

(** The arguments of one [Call]. *)
Record CallArgs {A : Type} := mkCallArgs {
  a_prog : Z;
  a_vers : Z;
  a_proc : Z;
  a_encodeArgs : option (Encoder.t -> Encoder.t);
  a_decodeRes : option (Dec A)
}.
Arguments CallArgs A : clear implicits.
Arguments mkCallArgs {A}.

(** Where a call is: before its [ctx.Err], before [c.mu.Lock], in its [select]
    for this xid, returned. *)
Inductive call_pc {A : Type} :=
| Entering
| Locking
| Selecting (xid : Z)
| Returned (err : option error) (a : option A).
Arguments call_pc A : clear implicits.

(** Where its round trip is: not started, about to write, about to read, with a
    value in [done]. *)
Inductive worker_pc :=
| Idle
| Writing
| Reading
| Delivered (res : result bytes).

Record goroutine {A : Type} := mkGoroutine {
  g_args : CallArgs A;
  g_call : call_pc A;
  g_req : bytes;
  g_worker : worker_pc
}.
Arguments goroutine A : clear implicits.
Arguments mkGoroutine {A}.

(** The client, who holds its mutex, and the calls; [sh_order] records the order
    in which they took the mutex.  src/rpc/client.go:45-51 *)
Record shared {A : Type} := mkShared {
  sh_client : Client;
  sh_mu : option nat;
  sh_calls : list (goroutine A);
  sh_order : list nat
}.
Arguments shared A : clear implicits.
Arguments mkShared {A}.

Definition with_conn (k : NetConn) (c : Client) : Client := mkClient k (cl_opts c) (cl_nextID c).

(** Whether a read of a record has to wait: what it would return still depends
    on how the input goes on. *)
Definition starved (r : Reader) : bool :=
  let ending e := (ReadRecord (r ++ [Fault e])).1 in
  negb (bool_decide (ending (Foreign 0) = ending (Foreign 1))).

(** [n] further bytes fit a writer. *)
Definition has_room (n : Z) (w : Writer) : bool :=
  (0 <=? n) && ((n =? 0) || match w_budget w with Some (m, _) => n <=? m | None => true end).

Section calls.
Context {A : Type}.
Implicit Types (st : shared A) (g : goroutine A).

Definition idle_client (c : Client) : shared A := mkShared c None [] [].

Definition set_call (i : nat) g st : shared A :=
  mkShared (sh_client st) (sh_mu st) (<[i := g]> (sh_calls st)) (sh_order st).
Definition set_client (c : Client) st : shared A := mkShared c (sh_mu st) (sh_calls st) (sh_order st).
Definition unlock st : shared A := mkShared (sh_client st) None (sh_calls st) (sh_order st).

Definition at_call (pc : call_pc A) g : goroutine A := mkGoroutine (g_args g) pc (g_req g) (g_worker g).
Definition at_worker (pc : worker_pc) g : goroutine A := mkGoroutine (g_args g) (g_call g) (g_req g) pc.

(** A goroutine calls [Call]. *)
Definition call_made (args : CallArgs A) st : shared A :=
  mkShared (sh_client st) (sh_mu st) (sh_calls st ++ [mkGoroutine args Entering [] Idle]) (sh_order st).

(** [ended] is what [ctx.Err()] returns.  src/rpc/client.go:112-114 *)
Definition call_entered (i : nat) (ended : option error) st : option (shared A) :=
  match sh_calls st !! i with
  | Some (mkGoroutine args Entering req w) =>
      Some (set_call i (mkGoroutine args match ended with Some err => Returned (Some err) None | None => Locking end req w) st)
  | _ => None
  end.

(** The encoder after the header and the arguments.  src/rpc/client.go:122-134 *)
Definition encode_request (c : Client) (xid : Z) (args : CallArgs A) : Encoder.t :=
  let enc := Encoder.NewEncoder bytes_Buffer in
  let hdr := mkCallHeader xid (a_prog args) (a_vers args) (a_proc args) (opt_Cred (cl_opts c)) (opt_Verf (cl_opts c)) in
  let enc := CallHeader_Encode hdr enc in
  match a_encodeArgs args with Some f => f enc | None => enc end.

(** The mutex is taken, the request built and the round trip started.
    src/rpc/client.go:116-146 *)
Definition call_locked (i : nat) st : option (shared A) :=
  match sh_mu st, sh_calls st !! i with
  | None, Some (mkGoroutine args Locking _ _) =>
      let '(xid, c) := allocXID (sh_client st) in
      let enc := encode_request c xid args in
      let order := sh_order st ++ [i] in
      match Encoder.Err enc with
      | Some err =>
          Some (mkShared c None
            (<[i := mkGoroutine args (Returned (Some (Wrapf "rpc: encoding request: %w" [] err)) None) [] Idle]>
              (sh_calls st)) order)
      | None =>
          Some (mkShared c (Some i)
            (<[i := mkGoroutine args (Selecting xid) (w_out (Encoder.w enc)) Writing]> (sh_calls st)) order)
      end
  | _, _ => None
  end.

(** src/rpc/client.go:147-151 *)
Definition worker_write (i : nat) st : option (shared A) :=
  match sh_calls st !! i with
  | Some (mkGoroutine args pc req Writing) =>
      let conn := cl_conn (sh_client st) in
      let '(err, w) := WriteRecord (nc_out conn) req in
      let res := match err with
                 | Some err => Delivered (inl (Wrapf "rpc: writing request: %w" [] err))
                 | None => Reading
                 end in
      Some (set_client (with_conn (mkNetConn (nc_in conn) w) (sh_client st)) (set_call i (mkGoroutine args pc req res) st))
  | _ => None
  end.

(** src/rpc/client.go:152-157 *)
Definition worker_read (i : nat) st : option (shared A) :=
  match sh_calls st !! i with
  | Some (mkGoroutine args pc req Reading) =>
      let conn := cl_conn (sh_client st) in
      if starved (nc_in conn) then None
      else
        let '(res, r) := ReadRecord (nc_in conn) in
        let res := match res with
                   | inl err => inl (Wrapf "rpc: reading reply: %w" [] err)
                   | inr reply => inr reply
                   end in
        Some (set_client (with_conn (mkNetConn r (nc_out conn)) (sh_client st))
               (set_call i (mkGoroutine args pc req (Delivered res)) st))
  | _ => None
  end.

(** The branch of [done], and the deferred unlock.  src/rpc/client.go:166-171 *)
Definition call_finished (i : nat) st : option (shared A) :=
  match sh_calls st !! i with
  | Some (mkGoroutine args (Selecting xid) req (Delivered res)) =>
      let '(err, a) := match res with
                       | inl err => (Some err, None)
                       | inr reply => decodeReply xid reply (a_decodeRes args)
                       end in
      Some (unlock (set_call i (mkGoroutine args (Returned err a) req (Delivered res)) st))
  | _ => None
  end.

(** Closing the connection when the round trip [g] is about to write, and [n]
    bytes of its record are already out; the connection then, and where the
    round trip is. *)
Definition close_writing (n : Z) (k : NetConn) g : option (NetConn * goroutine A) :=
  match WriteRecord (mkWriter (w_out (nc_out k)) (Some (n, ErrNetClosed))) (g_req g) with
  | (Some err, w) =>
      if has_room n (nc_out k) then
        Some (NetConn_Close (mkNetConn (nc_in k) w), at_worker (Delivered (inl (Wrapf "rpc: writing request: %w" [] err))) g)
      else None
  | (None, _) => None
  end.

Definition close_under (n : Z) (k : NetConn) g : option (NetConn * goroutine A) :=
  match g_worker g with
  | Writing => close_writing n k g
  | _ => Some (NetConn_Close k, g)
  end.

(** The branch of [ctx.Done], possible also when [done] is ready: the connection
    is closed under the round trip.  src/rpc/client.go:161-165 *)
Definition call_cancelled (i : nat) (n : Z) (err : error) st : option (shared A) :=
  match sh_calls st !! i with
  | Some (mkGoroutine args (Selecting xid) req w) =>
      match close_under n (cl_conn (sh_client st)) (mkGoroutine args (Returned (Some err) None) req w) with
      | Some (k, g) => Some (unlock (set_client (with_conn k (sh_client st)) (set_call i g st)))
      | None => None
      end
  | _ => None
  end.

(** [Client.Close] takes no lock.  src/rpc/client.go:87-89 *)
Definition client_closed (n : Z) st : option (shared A) :=
  match sh_mu st with
  | None => Some (set_client (Client_Close (sh_client st)) st)
  | Some i =>
      match sh_calls st !! i with
      | Some g =>
          match close_under n (cl_conn (sh_client st)) g with
          | Some (k, g) => Some (set_client (with_conn k (sh_client st)) (set_call i g st))
          | None => None
          end
      | None => None
      end
  end.

(** More comes from the peer, or the connection fails in reading. *)
Definition arrived (ch : chunk) st : shared A :=
  let conn := cl_conn (sh_client st) in
  set_client (with_conn (mkNetConn (nc_in conn ++ [ch]) (nc_out conn)) (sh_client st)) st.

Inductive action :=
| ActCall (args : CallArgs A)
| ActEnter (i : nat) (ended : option error)
| ActLock (i : nat)
| ActWrite (i : nat)
| ActRead (i : nat)
| ActFinish (i : nat)
| ActCancel (i : nat) (n : Z) (err : error)
| ActClose (n : Z)
| ActArrive (ch : chunk).

Definition act (a : action) st : option (shared A) :=
  match a with
  | ActCall args => Some (call_made args st)
  | ActEnter i ended => call_entered i ended st
  | ActLock i => call_locked i st
  | ActWrite i => worker_write i st
  | ActRead i => worker_read i st
  | ActFinish i => call_finished i st
  | ActCancel i n err => call_cancelled i n err st
  | ActClose n => client_closed n st
  | ActArrive ch => Some (arrived ch st)
  end.

(** An interleaving; [None] when one of its actions is not possible. *)
Fixpoint run_actions (acts : list action) st : option (shared A) :=
  match acts with
  | [] => Some st
  | a :: acts => match act a st with Some st => run_actions acts st | None => None end
  end.
End calls.
Arguments action A : clear implicits.
