(* ===== verification/RpcSharedCorrect.v ===== *)
(** * Goroutines sharing one RPC client: theorems *)

From S2P Require Import Prelude GoError Nfs4Const GoIO Xdr XdrSpec Rpc RpcCorrect RpcClient RpcClientCorrect.
From S2P Require Import RpcShared.

(** ** What the world does to a connection *)

(** More has arrived, or it was closed with [n] bytes still to be written. *)
Definition closed_after (n : Z) (k : NetConn) : NetConn :=
  mkNetConn [Fault ErrNetClosed] (mkWriter (w_out (nc_out k)) (Some (n, ErrNetClosed))).

Definition more_input (more : Reader) (k : NetConn) : NetConn := mkNetConn (nc_in k ++ more) (nc_out k).

Inductive touched (k : NetConn) : NetConn -> Prop :=
| touched_arrivals more : touched k (more_input more k)
| touched_closed n more : has_room n (nc_out k) = true -> touched k (more_input more (closed_after n k)).

Lemma fits_spec n w : has_room n w = true <->
  0 <= n /\ (n = 0 \/ match w_budget w with Some (m, _) => n <= m | None => True end).
Proof. unfold has_room. destruct (w_budget w) as [[m e]|]; lia. Qed.

Lemma more_nothing k : more_input [] k = k.
Proof. destruct k. unfold more_input. cbn. by rewrite app_nil_r. Qed.

Lemma touched_refl k : touched k k.
Proof. rewrite <- (more_nothing k) at 2. apply touched_arrivals. Qed.

Lemma touched_more k k' more : touched k k' -> touched k (more_input more k').
Proof.
  intros [m|n m Hn]; [|by apply (touched_closed k n (m ++ more))].
  unfold more_input. cbn. rewrite <- app_assoc. apply touched_arrivals.
Qed.

Lemma touched_close_after k k' n : touched k k' -> has_room n (nc_out k') = true -> touched k (closed_after n k').
Proof.
  intros Hk Hn. assert (has_room n (nc_out k) = true) as Hn'.
  { destruct Hk as [m|j m Hj]; [done|]. apply fits_spec in Hj, Hn. apply fits_spec. cbn in Hn. destruct (w_budget (nc_out k)) as [[]|]; lia. }
  pose proof (touched_closed k n [] Hn') as H. by destruct Hk.
Qed.

Lemma touched_close k k' : touched k k' -> touched k (NetConn_Close k').
Proof. intros H. by apply (touched_close_after k k' 0). Qed.

Lemma touched_out k k' : touched k k' -> w_out (nc_out k') = w_out (nc_out k).
Proof. by intros []. Qed.

Lemma Close_eq k k' : w_out (nc_out k) = w_out (nc_out k') -> NetConn_Close k = NetConn_Close k'.
Proof. unfold NetConn_Close. by intros ->. Qed.

(** A record that was written would have been written just before a close. *)
Lemma WriteRecord_done w req w' : WriteRecord w req = (None, w') ->
  exists n, has_room n w = true /\
    forall e, WriteRecord (mkWriter (w_out w) (Some (n, e))) req = (None, mkWriter (w_out w') (Some (0, e))).
Proof.
  unfold WriteRecord. destruct (_ <? _); [done|]. set (hdr := be 4 _). intros H.
  pose proof (blen_nonneg hdr). pose proof (blen_nonneg req). exists (blen hdr + blen req).
  destruct w as [out [[m e0]|]]; unfold Write in *; cbn [w_budget w_out] in *.
  - destruct (Z.leb_spec (blen hdr) m); [|done]. cbn [w_budget w_out] in H.
    destruct (Z.leb_spec (blen req) (m - blen hdr)); [|done]. injection H as <-. split; [apply fits_spec; cbn; lia|].
    intros e. destruct (Z.leb_spec (blen hdr) (blen hdr + blen req)); [|lia]. cbn [w_budget w_out].
    destruct (Z.leb_spec (blen req) (blen hdr + blen req - blen hdr)); [|lia]. do 4 f_equal. lia.
  - injection H as <-. split; [apply fits_spec; cbn; lia|].
    intros e. destruct (Z.leb_spec (blen hdr) (blen hdr + blen req)); [|lia]. cbn [w_budget w_out].
    destruct (Z.leb_spec (blen req) (blen hdr + blen req - blen hdr)); [|lia]. do 4 f_equal. lia.
Qed.

(** A closed connection: nothing is read from it and nothing written. *)
Definition dead (k : NetConn) : Prop :=
  (exists more, nc_in k = Fault ErrNetClosed :: more) /\ exists e, w_budget (nc_out k) = Some (0, e).

Lemma dead_close k : dead (NetConn_Close k).
Proof. split; cbn; eauto. Qed.

Lemma dead_more k more : dead k -> dead (more_input more k).
Proof. intros [[m Hm] He]. split; [|done]. exists (m ++ more). unfold more_input. cbn. by rewrite Hm. Qed.

Lemma dead_write k req : dead k -> (WriteRecord (nc_out k) req).2 = nc_out k.
Proof.
  intros [_ [e He]]. destruct k as [r [out b]]. cbn in *. subst b. unfold WriteRecord, Write. cbn [w_budget w_out].
  destruct (_ <? _); [done|]. set (hdr := be 4 _). assert (blen hdr = 4) as -> by apply blen_be.
  cbn. by rewrite app_nil_r.
Qed.

Lemma dead_read k : dead k -> (ReadRecord (nc_in k)).2 = nc_in k.
Proof. intros [[m ->] _]. done. Qed.

(** ** Reads that do not wait *)

(** A full read is decided by what is there, or fails the way the input ends. *)
Lemma read_loop_decided r : forall n,
  (exists got err r', forall more, read_loop (r ++ more) n = (got, err, r' ++ more))
  \/ (forall e, exists got r', read_loop (r ++ [Fault e]) n = (got, Some e, r')).
Proof.
  induction r as [|[bs|e0] r IH]; intros n; cbn [app read_loop]; destruct (n <=? 0) eqn:Hn.
  - left. exists [], None, []. intros [|[] more]; cbn; by rewrite ?Hn.
  - right. intros e. eauto.
  - left. by exists [], None, (Data bs :: r).
  - destruct (n <? blen bs); [left; by eexists _, _, (_ :: _)|].
    destruct (IH (n - blen bs)) as [(got & err & r' & H)|H]; [left|right].
    + exists (bs ++ got), err, r'. intros more. by rewrite H.
    + intros e. destruct (H e) as (got & r' & ->). eauto.
  - left. by exists [], None, (Fault e0 :: r).
  - left. by exists [], (Some e0), (Fault e0 :: r).
Qed.

Lemma ReadFull_decided r n :
  (exists got err r', forall more, ReadFull (r ++ more) n = (got, err, r' ++ more))
  \/ (forall j, exists got r', ReadFull (r ++ [Fault (Foreign j)]) n = (got, Some (Foreign j), r')).
Proof.
  unfold ReadFull. destruct (read_loop_decided r n) as [(got & err & r' & H)|H]; [left|right].
  - destruct err as [[]|]; try by eexists _, _, _; intros more; rewrite H.
    destruct (0 <? blen got) eqn:E; by eexists _, _, _; intros more; rewrite H, E.
  - intros j. destruct (H (Foreign j)) as (got & r' & ->). eauto.
Qed.

Lemma ReadRecord_loop_decided fuel : forall r msg,
  (exists out, forall more, ReadRecord_loop fuel (r ++ more) msg
     = match out with Some (res, r') => Some (res, r' ++ more) | None => None end)
  \/ (forall j, exists r', ReadRecord_loop fuel (r ++ [Fault (Foreign j)]) msg = Some (inl (Foreign j), r')).
Proof.
  induction fuel as [|fuel IH]; intros r msg; cbn [ReadRecord_loop]; [left; by exists None|].
  destruct (ReadFull_decided r 4) as [(hdr & err & r1 & H)|H].
  2: { right. intros j. destruct (H j) as (got & r' & ->). cbn. eauto. }
  destruct err as [err|].
  { left. eexists (Some (if errors_Is err ErrUnexpectedEOF then inl err
      else if errors_Is err EOF && (blen msg =? 0) then inl EOF else inl err, r1)).
    intros more. rewrite H. by repeat case_match. }
  destruct (maxFragmentSize <? Z.land (unbe hdr) fragmentSizeMask) eqn:E1.
  { left. eexists (Some (_, r1)). intros more. rewrite H, E1. done. }
  destruct (maxMessageSize <? u64 (blen msg + Z.land (unbe hdr) fragmentSizeMask)) eqn:E2.
  { left. eexists (Some (_, r1)). intros more. rewrite H, E1, E2. done. }
  destruct (ReadFull_decided r1 (Z.land (unbe hdr) fragmentSizeMask)) as [(frag & err & r2 & H2)|H2].
  2: { right. intros j. rewrite H, E1, E2. destruct (H2 j) as (got & r' & ->). cbn. eauto. }
  destruct err as [err|].
  { left. eexists (Some (if errors_Is err EOF then inl ErrUnexpectedEOF else inl err, r2)).
    intros more. rewrite H, E1, E2, H2. by repeat case_match. }
  destruct (negb (Z.land (unbe hdr) lastFragmentFlag =? 0)) eqn:E3.
  { left. eexists (Some (_, r2)). intros more. rewrite H, E1, E2, H2, E3. done. }
  destruct (IH r2 (msg ++ frag)) as [[out Ho]|Ho]; [left; exists out|right];
    [intros more|intros j]; rewrite H, E1, E2, H2, E3; auto.
Qed.

Lemma ReadRecord_loop_more fuel : forall fuel' r msg res, ReadRecord_loop fuel r msg = Some res -> (fuel <= fuel')%nat ->
  ReadRecord_loop fuel' r msg = Some res.
Proof.
  induction fuel as [|fuel IH]; intros [|fuel'] r msg res; [done..|lia|]. cbn [ReadRecord_loop]. intros E Hf.
  repeat case_match; simplify_eq; try done. eapply IH; [done|lia].
Qed.

(** A read that does not have to wait returns the same whatever comes. *)
Lemma starved_decided r more : starved r = false ->
  ReadRecord (r ++ more) = ((ReadRecord r).1, (ReadRecord r).2 ++ more).
Proof.
  intros Hs. set (big := S (length (rbytes r) + length (rbytes (r ++ more)) + length (rbytes (r ++ [Fault (Foreign 0)]))
    + length (rbytes (r ++ [Fault (Foreign 1)])))).
  assert (forall x, (length (rbytes x) < big)%nat -> ReadRecord_loop big x [] = Some (ReadRecord x)) as Hbig.
  { intros x Hx. unfold ReadRecord. destruct (ReadRecord_loop_total (S (length (rbytes x))) x []) as [res E]; [lia|].
    rewrite E. eapply ReadRecord_loop_more; [done|lia]. }
  destruct (ReadRecord_loop_decided big r []) as [[out H]|H].
  - pose proof (H []) as H0. rewrite app_nil_r, Hbig in H0 by (subst big; lia).
    pose proof (H more) as Hm. rewrite Hbig in Hm by (subst big; lia). destruct out as [[res r']|]; [|done].
    injection H0 as ->. injection Hm as ->. cbn [fst snd]. by rewrite app_nil_r.
  - destruct (H 0) as [r0 H0], (H 1) as [r1 H1]. rewrite Hbig in H0, H1 by (subst big; lia).
    injection H0 as H0. injection H1 as H1. unfold starved in Hs. rewrite H0, H1 in Hs. by vm_compute in Hs.
Qed.

(** ** Sequences of calls *)

(** A call by goroutine [e_call], and what it returned. *)
Record Event {A : Type} := mkEvent {
  e_call : nat;
  e_args : CallArgs A;
  e_err : option error;
  e_res : option A
}.
Arguments Event A : clear implicits.
Arguments mkEvent {A}.

Definition Call_of {A} (ctx : CallCtx) (args : CallArgs A) (c : Client) : option error * option A * Client :=
  Call ctx (a_prog args) (a_vers args) (a_proc args) (a_encodeArgs args) (a_decodeRes args) c.

(** A call does not wait for anything that could still come. *)
Definition settled {A} (ctx : CallCtx) (args : CallArgs A) (c : Client) : Prop :=
  forall more, (Call_of ctx args (with_conn (more_input more (cl_conn c)) c)).1 = (Call_of ctx args c).1.

(** From a client the calls [h] one after the other, the world touching the
    connection between them, lead to a client. *)
Inductive serial {A} : Client -> list (Event A) -> Client -> Prop :=
| serial_nil c : serial c [] c
| serial_touched c k h c' : touched (cl_conn c) k -> serial (with_conn k c) h c' -> serial c h c'
| serial_call c ctx i args err a c1 h c' :
    ctx_entry ctx = None -> settled ctx args c -> Call_of ctx args c = (err, a, c1) -> serial c1 h c' ->
    serial c (mkEvent i args err a :: h) c'.

Section shared.
Context {A : Type}.
Implicit Types (st : shared A) (g : goroutine A) (h : list (Event A)) (c : Client).

Lemma serial_app c h1 c1 h2 c2 : serial c h1 c1 -> serial c1 h2 c2 -> serial c (h1 ++ h2) c2.
Proof. induction 1; intros; [done|eapply serial_touched|eapply serial_call]; eauto. Qed.

Lemma serial_snoc_touched c h c1 k : serial c h c1 -> touched (cl_conn c1) k -> serial c h (with_conn k c1).
Proof.
  intros H Hk. rewrite <- (app_nil_r h). eapply serial_app; [done|]. eapply serial_touched; [done|constructor].
Qed.

(** One more call, on the connection as it was touched under it and after. *)
Lemma serial_snoc_call c h c1 k1 ctx i args err a c2 k2 :
  serial c h c1 -> touched (cl_conn c1) k1 -> ctx_entry ctx = None -> settled ctx args (with_conn k1 c1) ->
  Call_of ctx args (with_conn k1 c1) = (err, a, c2) -> touched (cl_conn c2) k2 ->
  serial c (h ++ [mkEvent i args err a]) (with_conn k2 c2).
Proof.
  intros H H1 Hctx Hset Hc H2. eapply serial_app; [done|]. eapply serial_touched; [done|].
  eapply serial_call; [done..|]. eapply serial_touched; [done|]. constructor.
Qed.

(** A call in its select that took the mutex when the client was [cL], now [c]. *)
Record underway (cL : Client) g (xid : Z) c : Prop := {
  uw_xid : xid = (allocXID cL).1;
  uw_client : c = with_conn (cl_conn c) (allocXID cL).2;
  uw_encoded : Encoder.Err (encode_request cL xid (g_args g)) = None;
  uw_req : g_req g = w_out (Encoder.w (encode_request cL xid (g_args g)));
  uw_worker : match g_worker g with
              | Idle => False
              | Writing => touched (cl_conn cL) (cl_conn c)
              | Reading => exists k, touched (cl_conn cL) k /\ nc_in (cl_conn c) = nc_in k
                           /\ WriteRecord (nc_out k) (g_req g) = (None, nc_out (cl_conn c))
              | Delivered res => exists k, touched (cl_conn cL) k
                                 /\ (forall more, (roundTrip (more_input more k) (g_req g)).1 = res)
                                 /\ touched (roundTrip k (g_req g)).2 (cl_conn c)
              end
}.

(** [Call] past the point where its request is encoded. *)
Lemma Call_encoded ctx c k g : ctx_entry ctx = None ->
  Encoder.Err (encode_request c (allocXID c).1 (g_args g)) = None ->
  g_req g = w_out (Encoder.w (encode_request c (allocXID c).1 (g_args g))) ->
  Call_of ctx (g_args g) (with_conn k c)
  = match ctx_preempt ctx with
    | Some (err, p) => (Some err, None, with_conn (preempted k (g_req g) p) (allocXID c).2)
    | None =>
        let '(res, k') := roundTrip k (g_req g) in
        let c' := with_conn k' (allocXID c).2 in
        match res with
        | inl err => (Some err, None, c')
        | inr reply => let '(err, a) := decodeReply (allocXID c).1 reply (a_decodeRes (g_args g)) in (err, a, c')
        end
    end.
Proof.
  intros Hctx He Hreq. unfold Call_of, Call. rewrite Hctx, allocXID_next.
  rewrite allocXID_next in He, Hreq. cbn [fst] in He, Hreq. cbn [with_conn cl_conn cl_opts cl_nextID].
  unfold encode_request in He, Hreq. destruct (a_encodeArgs (g_args g)) as [f|]; rewrite He, <- Hreq, allocXID_next; done.
Qed.

Lemma Call_unencoded c xid c' (args : CallArgs A) err : allocXID c = (xid, c') -> Encoder.Err (encode_request c' xid args) = Some err ->
  Call_of live args c = (Some (Wrapf "rpc: encoding request: %w" [] err), None, c').
Proof.
  intros Hx He. unfold Call_of, Call. cbn [ctx_entry live]. rewrite Hx. unfold encode_request in He.
  destruct (a_encodeArgs args); by rewrite He.
Qed.

(** What an action of the holder does to its call. *)

Lemma underway_write cL g xid c err w : underway cL g xid c -> g_worker g = Writing ->
  WriteRecord (nc_out (cl_conn c)) (g_req g) = (err, w) ->
  underway cL (at_worker match err with
                         | Some err => Delivered (inl (Wrapf "rpc: writing request: %w" [] err))
                         | None => Reading
                         end g) xid (with_conn (mkNetConn (nc_in (cl_conn c)) w) c).
Proof.
  intros [Hx Hc He Hr Hw] Hpc Ew. rewrite Hpc in Hw. split; try done; [by rewrite Hc|]. cbn.
  destruct err as [err|]; exists (cl_conn c); [|done].
  unfold roundTrip. cbn [more_input nc_out]. rewrite Ew. split_and!; [done..|apply touched_refl].
Qed.

Lemma underway_read cL g xid c res r : underway cL g xid c -> g_worker g = Reading ->
  starved (nc_in (cl_conn c)) = false ->
  ReadRecord (nc_in (cl_conn c)) = (res, r) ->
  underway cL (at_worker (Delivered match res with
                                    | inl err => inl (Wrapf "rpc: reading reply: %w" [] err)
                                    | inr reply => inr reply
                                    end) g) xid (with_conn (mkNetConn r (nc_out (cl_conn c))) c).
Proof.
  intros [Hx Hc He Hr Hw] Hpc Hst Er. rewrite Hpc in Hw. destruct Hw as (k & Hk & Hin & Hwr).
  split; try done; [by rewrite Hc|]. cbn. exists k. unfold roundTrip. cbn [more_input nc_in nc_out].
  rewrite Hwr, <- Hin, Er. split_and!; [done| |destruct res; apply touched_refl].
  intros more. rewrite starved_decided, Er by done. by destruct res.
Qed.

Lemma underway_arrived cL g xid c ch : underway cL g xid c ->
  underway cL g xid (with_conn (more_input [ch] (cl_conn c)) c).
Proof.
  intros [Hx Hc He Hr Hw]. split; try done; [by rewrite Hc|]. cbn [with_conn cl_conn].
  destruct (g_worker g); [done|by apply touched_more| |].
  - destruct Hw as (k & Hk & Hin & Hwr). exists (more_input [ch] k). split_and!; [by apply touched_more| |done].
    unfold more_input. cbn. by rewrite Hin.
  - destruct Hw as (k & Hk & Hres & Hw). exists k. split_and!; [done..|by apply touched_more].
Qed.

(** Closing a round trip that has written its record. *)
Lemma underway_closed_reading cL g xid c : underway cL g xid c -> g_worker g = Reading ->
  exists k, touched (cl_conn cL) k /\ WriteRecord (nc_out k) (g_req g) = (None, nc_out (NetConn_Close (cl_conn c)))
            /\ nc_in k = nc_in (NetConn_Close (cl_conn c)).
Proof.
  intros [_ _ _ _ Hw] Hpc. rewrite Hpc in Hw. destruct Hw as (k & Hk & Hin & Hwr).
  destruct (WriteRecord_done _ _ _ Hwr) as (n & Hn & Hwn). exists (closed_after n k).
  split_and!; [by apply touched_close_after|cbn; by rewrite Hwn|done].
Qed.

Lemma close_writing_inv n k g k' g' : close_writing n k g = Some (k', g') -> exists err w,
  has_room n (nc_out k) = true /\ WriteRecord (nc_out (closed_after n k)) (g_req g) = (Some err, w)
  /\ k' = NetConn_Close (mkNetConn (nc_in k) w) /\ g' = at_worker (Delivered (inl (Wrapf "rpc: writing request: %w" [] err))) g.
Proof.
  unfold close_writing. cbn. destruct (WriteRecord _ _) as [[err|] w]; [|done].
  destruct (has_room _ _) eqn:Ef; [|done]. intros [= <- <-]. eauto 10.
Qed.

Lemma underway_closed cL n g xid c k' g' : underway cL g xid c -> close_under n (cl_conn c) g = Some (k', g') ->
  underway cL g' xid (with_conn k' c) /\ g_args g' = g_args g /\ g_call g' = g_call g /\ g_worker g' <> Writing
  /\ dead k'.
Proof.
  intros Hu E. unfold close_under in E. destruct (g_worker g) eqn:Hpc.
  - destruct Hu as [_ _ _ _ Hw]. by rewrite Hpc in Hw.
  - apply close_writing_inv in E as (err & w & Hf & Hwr & -> & ->). destruct Hu as [Hx Hc He Hr Hw]. rewrite Hpc in Hw.
    split_and!; try done; [|apply dead_close]. split; try done; [by rewrite Hc|]. cbn [at_worker g_worker].
    exists (closed_after n (cl_conn c)). split; [by apply touched_close_after|].
    cbn [at_worker g_req]. unfold roundTrip. cbn [more_input nc_out]. rewrite Hwr. split; [done|]. cbn [snd with_conn cl_conn].
    rewrite (Close_eq _ (mkNetConn (nc_in (closed_after n (cl_conn c))) w)) by done. apply touched_close, touched_refl.
  - injection E as <- <-. split_and!; try done; [|by rewrite Hpc|apply dead_close].
    destruct (underway_closed_reading _ _ _ _ Hu Hpc) as (k & Hk & Hwr & Hin). destruct Hu as [Hx Hc He Hr _].
    split; try done; [by rewrite Hc|]. rewrite Hpc. by exists k.
  - injection E as <- <-. split_and!; try done; [|by rewrite Hpc|apply dead_close].
    destruct Hu as [Hx Hc He Hr Hw]. rewrite Hpc in Hw. split; try done; [by rewrite Hc|]. rewrite Hpc.
    destruct Hw as (k & Hk & Hres & Hw). exists k. split_and!; [done..|by apply touched_close].
Qed.

(** The call returns: it is one more of the sequence. *)

Lemma underway_finished c0 h cL i g xid c res err a : serial c0 h cL -> underway cL g xid c -> g_worker g = Delivered res ->
  match res with inl err => (Some err, None) | inr reply => decodeReply xid reply (a_decodeRes (g_args g)) end = (err, a) ->
  serial c0 (h ++ [mkEvent i (g_args g) err a]) c.
Proof.
  intros Hs [-> Hc He Hr Hw] Hpc Ed. rewrite Hpc in Hw. destruct Hw as (k & Hk & Hset & Htouch).
  pose proof (Hset []) as Hres. rewrite more_nothing in Hres.
  rewrite Hc. destruct (roundTrip k (g_req g)) as [res' k'] eqn:Et. cbn [fst snd] in *. subst res'.
  apply (serial_snoc_call c0 h cL k live i (g_args g) err a (with_conn k' (allocXID cL).2)); try done.
  { intros more. change (with_conn _ (with_conn k cL)) with (with_conn (more_input more k) cL).
    rewrite (Call_encoded live cL k g), (Call_encoded live cL (more_input more k) g) by done. cbn [ctx_preempt live].
    rewrite Et. pose proof (Hset more) as Hm. destruct (roundTrip (more_input more k) _) as [res2 k2]. cbn [fst] in Hm. subst res2.
    destruct res; [done|]. by destruct (decodeReply _ _ _). }
  rewrite (Call_encoded live cL k g) by done. cbn [ctx_preempt live]. rewrite Et.
  destruct res as [e|reply]; [by injection Ed as <- <-|]. by rewrite Ed.
Qed.

(** How far the round trip had come that is closed. *)
Definition progress_of (pc : worker_pc) : Progress :=
  match pc with Idle => NotWritten | Writing | Reading => RequestWritten | Delivered _ => ReplyRead end.

Lemma underway_cancelled c0 h cL i n g xid c err k g' : serial c0 h cL -> underway cL g xid c ->
  close_under n (cl_conn c) g = Some (k, g') ->
  serial c0 (h ++ [mkEvent i (g_args g) (Some err) None]) (with_conn k c).
Proof.
  intros Hs Hu E. pose proof Hu as [-> Hc He Hr Hw].
  assert (exists k1, touched (cl_conn cL) k1 /\ preempted k1 (g_req g) (progress_of (g_worker g)) = k) as (k1 & H1 & <-).
  { unfold close_under in E. destruct (g_worker g) eqn:Hpc; [done| | |].
    - apply close_writing_inv in E as (e & w & Hf & Hwr & -> & _). exists (closed_after n (cl_conn c)).
      split; [by apply touched_close_after|]. unfold preempted, progress_of. rewrite Hwr. by apply Close_eq.
    - injection E as <- _. destruct (underway_closed_reading _ _ _ _ Hu Hpc) as (k & Hk & Hwr & Hin).
      exists k. split; [done|]. unfold preempted, progress_of. rewrite Hwr. by apply Close_eq.
    - injection E as <- _. destruct Hw as (k & Hk & Hres & Hw). exists k. split; [done|]. apply Close_eq. symmetry. by apply touched_out. }
  assert (forall k, with_conn k c = with_conn k (allocXID cL).2) as -> by (intros; by rewrite Hc).
  set (k := preempted k1 _ _).
  apply (serial_snoc_call c0 h cL k1 (mkCallCtx None (Some (err, progress_of (g_worker g)))) i (g_args g) (Some err) None
           (with_conn k (allocXID cL).2) k); try done; [| |apply touched_refl].
  - intros more. change (with_conn _ (with_conn k1 cL)) with (with_conn (more_input more k1) cL).
    by rewrite (Call_encoded _ cL k1 g), (Call_encoded _ cL (more_input more k1) g).
  - by rewrite (Call_encoded _ cL k1 g).
Qed.

(** ** The invariant *)

(** Where a goroutine may be. *)
Definition placed st i g : Prop :=
  match g_call g with
  | Entering | Locking => i ∉ sh_order st /\ g_worker g = Idle
  | Selecting _ => sh_mu st = Some i
  | Returned err a => sh_mu st <> Some i /\ g_worker g <> Writing /\ (g_worker g = Reading -> dead (cl_conn (sh_client st)))
  end.

(** The goroutine of an event has returned what it says. *)
Definition happened st (e : Event A) : Prop :=
  exists g, sh_calls st !! e_call e = Some g /\ g_args g = e_args e /\ g_call g = Returned (e_err e) (e_res e).

Record shared_inv (c0 : Client) h (cL : Client) st : Prop := {
  inv_serial : serial c0 h cL;
  inv_mu : match sh_mu st with
           | None => sh_client st = cL /\ sh_order st = map e_call h
           | Some i => sh_order st = map e_call h ++ [i] /\
               exists g xid, sh_calls st !! i = Some g /\ g_call g = Selecting xid /\ underway cL g xid (sh_client st)
           end;
  inv_happened : Forall (happened st) h;
  inv_placed : forall i g, sh_calls st !! i = Some g -> placed st i g;
  inv_returned : forall i g err a, sh_calls st !! i = Some g -> g_call g = Returned err a ->
                   i ∈ map e_call h \/ i ∉ sh_order st /\ err <> None /\ a = None;
  inv_order : NoDup (sh_order st)
}.

Lemma idle_client_inv c : shared_inv c [] c (idle_client c).
Proof. by split; [constructor|..|constructor]. Qed.

Lemma insert_cases {B} (l : list B) (i j : nat) (y y' x : B) : l !! i = Some y -> <[i := y']> l !! j = Some x ->
  j = i /\ x = y' \/ j <> i /\ l !! j = Some x.
Proof.
  intros Hi. destruct (decide (j = i)) as [->|Hj].
  - rewrite list_lookup_insert_eq by (by eapply lookup_lt_Some). intros [= ->]. by left.
  - rewrite list_lookup_insert_ne by done. by right.
Qed.

Lemma inserted {B} (l : list B) (i : nat) (y y' : B) : l !! i = Some y -> <[i := y']> l !! i = Some y'.
Proof. intros Hi. eapply list_lookup_insert_eq, lookup_lt_Some, Hi. Qed.

(** What a move of goroutine [i] leaves of the past. *)
Lemma happened_insert st st' i g g' e : sh_calls st !! i = Some g -> sh_calls st' = <[i := g']> (sh_calls st) ->
  g_args g' = g_args g -> (forall err a, g_call g = Returned err a -> g_call g' = Returned err a) ->
  happened st e -> happened st' e.
Proof.
  intros Hi E Ha Hc (ge & He & Hargs & Hcall). unfold happened. rewrite E. destruct (decide (e_call e = i)) as [Ei|Ei].
  - rewrite Ei in *. rewrite Hi in He. injection He as <-. exists g'. rewrite (inserted _ _ g) by done.
    by rewrite Ha, Hargs, (Hc _ _ Hcall).
  - exists ge. by rewrite list_lookup_insert_ne by done.
Qed.

(** The holder moves on in its call. *)
Lemma holder_moves c0 h cL st i g g' xid c' : shared_inv c0 h cL st -> sh_mu st = Some i -> sh_calls st !! i = Some g ->
  g_args g' = g_args g -> g_call g' = g_call g -> g_call g = Selecting xid -> underway cL g' xid c' ->
  (dead (cl_conn (sh_client st)) -> dead (cl_conn c')) ->
  shared_inv c0 h cL (set_client c' (set_call i g' st)).
Proof.
  intros [Hs Hm Hh Hp Hr Ho] Hmu Hi Ha Hc Hpc Hu Hd. rewrite Hmu in Hm. destruct Hm as (Hord & _).
  split; try done; cbn [set_client set_call sh_client sh_mu sh_calls sh_order].
  - rewrite Hmu. split; [done|]. exists g', xid. rewrite (inserted _ _ g), Hc by done. done.
  - eapply Forall_impl; [done|]. intros e. eapply happened_insert; [done..|]. intros. congruence.
  - intros j x Hj. apply (insert_cases _ _ _ g) in Hj as [[-> ->]|[Hj Hx]]; [|..|done].
    + unfold placed. cbn. by rewrite Hc, Hpc.
    + pose proof (Hp _ _ Hx) as Hpx. unfold placed in *. cbn. repeat case_match; try done.
      destruct Hpx as (? & ? & ?). auto.
  - intros j x err a Hj Hx. apply (insert_cases _ _ _ g) in Hj as [[-> ->]|[Hj Hx']]; [congruence|eauto|done].
Qed.

(** The holder returns. *)
Lemma holder_returns c0 h cL st i g g' err a c' : shared_inv c0 h cL st -> sh_mu st = Some i ->
  sh_calls st !! i = Some g -> g_args g' = g_args g -> g_call g' = Returned err a ->
  serial c0 (h ++ [mkEvent i (g_args g) err a]) c' -> g_worker g' <> Writing ->
  (g_worker g' = Reading -> dead (cl_conn c')) -> (dead (cl_conn (sh_client st)) -> dead (cl_conn c')) ->
  shared_inv c0 (h ++ [mkEvent i (g_args g) err a]) c' (unlock (set_client c' (set_call i g' st))).
Proof.
  intros [Hs Hm Hh Hp Hr Ho] Hmu Hi Ha Hc Hser Hw Hwd Hd. rewrite Hmu in Hm. destruct Hm as (Hord & gi & xid & Hgi & Hsel & _).
  rewrite Hi in Hgi. injection Hgi as <-.
  split; try done; cbn [unlock set_client set_call sh_client sh_mu sh_calls sh_order].
  - by rewrite map_app, Hord.
  - apply Forall_app. split.
    + eapply Forall_impl; [done|]. intros e. eapply happened_insert; [done..|]. intros. congruence.
    + apply Forall_singleton. exists g'. cbn. by rewrite (inserted _ _ g) by done.
  - intros j x Hj. apply (insert_cases _ _ _ g) in Hj as [[-> ->]|[Hj Hx]]; [|..|done].
    + unfold placed. cbn. rewrite Hc. done.
    + pose proof (Hp _ _ Hx) as Hpx. unfold placed in *. cbn. repeat case_match; try done; [congruence|].
      destruct Hpx as (? & ? & ?). auto.
  - intros j x err' a' Hj Hx. rewrite map_app. setoid_rewrite elem_of_app.
    apply (insert_cases _ _ _ g) in Hj as [[-> ->]|[Hj Hx']]; [| |done].
    + left. right. by apply list_elem_of_singleton.
    + destruct (Hr _ _ _ _ Hx' Hx); auto.
Qed.

(** Another goroutine moves, the client is as it was. *)
Lemma other_moves c0 h cL st i g g' : shared_inv c0 h cL st -> sh_mu st <> Some i -> sh_calls st !! i = Some g ->
  g_args g' = g_args g -> placed st i g' -> (forall err a, g_call g = Returned err a -> g_call g' = Returned err a) ->
  (forall err a, g_call g' = Returned err a -> g_call g = Returned err a \/ i ∉ sh_order st /\ err <> None /\ a = None) ->
  shared_inv c0 h cL (set_call i g' st).
Proof.
  intros [Hs Hm Hh Hp Hr Ho] Hmu Hi Ha Hpl Hret Hret'.
  split; try done; cbn [set_call sh_client sh_mu sh_calls sh_order].
  - destruct (sh_mu st) as [k|]; [|done]. destruct Hm as (Hord & gk & xid & Hk & H). split; [done|]. exists gk, xid.
    rewrite list_lookup_insert_ne by congruence. done.
  - eapply Forall_impl; [done|]. intros e. by eapply happened_insert.
  - intros j x Hj. apply (insert_cases _ _ _ g) in Hj as [[-> ->]|[Hj Hx]]; [done|by apply Hp|done].
  - intros j x err a Hj Hx. apply (insert_cases _ _ _ g) in Hj as [[-> ->]|[Hj Hx']]; [|eauto|done].
    destruct (Hret' _ _ Hx); eauto.
Qed.

(** The world touches the connection. *)
Lemma world_touches c0 h cL st k : shared_inv c0 h cL st -> sh_mu st = None -> touched (cl_conn (sh_client st)) k ->
  (dead (cl_conn (sh_client st)) -> dead k) -> shared_inv c0 h (with_conn k cL) (set_client (with_conn k (sh_client st)) st).
Proof.
  intros [Hs Hm Hh Hp Hr Ho] Hmu Hk Hd. rewrite Hmu in Hm. destruct Hm as (Hc & Hord).
  split; try done; cbn [set_client sh_client sh_mu sh_calls sh_order].
  - rewrite Hc in Hk. by apply serial_snoc_touched.
  - by rewrite Hmu, Hc.
  - intros j x Hx. pose proof (Hp _ _ Hx) as Hpx. unfold placed in *. cbn. repeat case_match; try done.
    destruct Hpx as (? & ? & ?). auto.
Qed.

Lemma set_call_same st i g : sh_calls st !! i = Some g -> set_call i g st = st.
Proof. intros Hi. unfold set_call. rewrite list_insert_id by done. by destruct st. Qed.

(** The goroutine that holds the mutex. *)
Lemma holder c0 h cL st i : shared_inv c0 h cL st -> sh_mu st = Some i ->
  exists g xid, sh_calls st !! i = Some g /\ g_call g = Selecting xid /\ underway cL g xid (sh_client st).
Proof. intros Hi Hmu. pose proof (inv_mu _ _ _ _ Hi) as H. rewrite Hmu in H. by destruct H. Qed.

Lemma selecting c0 h cL st i g xid : shared_inv c0 h cL st -> sh_calls st !! i = Some g -> g_call g = Selecting xid ->
  sh_mu st = Some i /\ underway cL g xid (sh_client st).
Proof.
  intros Hi Hg Hc. pose proof (inv_placed _ _ _ _ Hi _ _ Hg) as Hp. unfold placed in Hp. rewrite Hc in Hp.
  destruct (holder _ _ _ _ _ Hi Hp) as (g' & xid' & Hg' & Hc' & Hu). rewrite Hg in Hg'. injection Hg' as <-.
  rewrite Hc in Hc'. by injection Hc' as <-.
Qed.

(** Some events and a client witness the invariant. *)
Definition ok (c0 : Client) st : Prop := exists h cL, shared_inv c0 h cL st.

Lemma call_made_ok c0 args st : ok c0 st -> ok c0 (call_made args st).
Proof.
  intros (h & cL & [Hs Hm Hh Hp Hr Ho]). exists h, cL.
  assert (forall j x, (sh_calls st ++ [mkGoroutine args Entering [] Idle]) !! j = Some x ->
    sh_calls st !! j = Some x \/ j = length (sh_calls st) /\ x = mkGoroutine args Entering [] Idle) as Hl.
  { intros j x [?|[? H]]%lookup_app_Some; [by left|]. apply list_lookup_singleton_Some in H as [? <-]. right. split; [lia|done]. }
  assert (forall j, j ∈ sh_order st -> exists x, sh_calls st !! j = Some x) as Hin.
  { intros j Hj. assert (forall j, j ∈ map e_call h -> exists x, sh_calls st !! j = Some x) as Hin'.
    { intros k (e & -> & He)%list_elem_of_fmap. rewrite Forall_forall in Hh. destruct (Hh _ He) as (x & Hx & _). eauto. }
    destruct (sh_mu st) as [i|]; [|destruct Hm as [_ Hm]; rewrite Hm in Hj; eauto].
    destruct Hm as (Hm & g & xid & Hg & _). rewrite Hm in Hj. apply elem_of_app in Hj as [Hj|Hj%list_elem_of_singleton]; [eauto|].
    subst. eauto. }
  split; try done; cbn [call_made sh_client sh_mu sh_calls sh_order].
  - destruct (sh_mu st) as [i|]; [|done]. destruct Hm as (Hm & g & xid & Hg & H). split; [done|]. exists g, xid.
    by rewrite (lookup_app_l_Some _ _ _ _ Hg).
  - eapply Forall_impl; [done|]. intros e (x & Hx & H). exists x. cbn. by rewrite (lookup_app_l_Some _ _ _ _ Hx).
  - intros j x [Hx|[-> ->]]%Hl; [exact (Hp _ _ Hx)|]. split; [|done]. cbn. intros [x Hx]%Hin.
    apply lookup_lt_Some in Hx. lia.
  - intros j x err a [Hx|[-> ->]]%Hl; [by apply Hr|done].
Qed.

Lemma call_entered_ok c0 i ended st st' : ok c0 st -> call_entered i ended st = Some st' -> ok c0 st'.
Proof.
  intros (h & cL & Hi) E. exists h, cL. unfold call_entered in E.
  destruct (sh_calls st !! i) as [[args [| | |] req w]|] eqn:Hg; try done. injection E as <-.
  pose proof (inv_placed _ _ _ _ Hi _ _ Hg) as [Hno Hw]. cbn in Hw. subst w.
  assert (sh_mu st <> Some i) as Hmu.
  { intros Hmu. by destruct (holder _ _ _ _ _ Hi Hmu) as (g & xid & Hg' & Hc & _); simplify_eq. }
  eapply other_moves; [done|done|exact Hg|done| |done|].
  - unfold placed. cbn. by destruct ended.
  - cbn. intros err a. destruct ended; [|done]. intros [= <- <-]. by right.
Qed.

Lemma call_locked_ok c0 i st st' : ok c0 st -> call_locked i st = Some st' -> ok c0 st'.
Proof.
  intros (h & cL & Hi) E. unfold call_locked in E. destruct (sh_mu st) eqn:Hmu; [done|].
  destruct (sh_calls st !! i) as [[args [| | |] req w]|] eqn:Hg; try done.
  pose proof (inv_placed _ _ _ _ Hi _ _ Hg) as [Hno _]. destruct Hi as [Hs Hm Hh Hp Hr Ho]. rewrite Hmu in Hm.
  destruct Hm as [Hc Hord]. rewrite Hc in *. rewrite allocXID_next in E.
  assert (NoDup (sh_order st ++ [i])) as Hnodup.
  { apply NoDup_app. split_and!; [done| |apply NoDup_singleton]. intros j Hj ->%list_elem_of_singleton. done. }
  set (xid := next_xid (cl_nextID cL)) in *. set (c := mkClient (cl_conn cL) (cl_opts cL) xid) in *.
  destruct (Encoder.Err (encode_request c xid args)) as [err|] eqn:Ee; injection E as <-.
  - set (werr := Wrapf _ _ _). exists (h ++ [mkEvent i args (Some werr) None]), c.
    split; try done; cbn [sh_client sh_mu sh_calls sh_order].
    + eapply serial_app; [done|]. eapply (serial_call _ live); [done| | |constructor].
      * intros more. rewrite (Call_unencoded cL xid c args err (allocXID_next _) Ee).
        by rewrite (Call_unencoded (with_conn _ cL) xid (with_conn (more_input more (cl_conn cL)) c) args err (allocXID_next _) Ee).
      * by apply (Call_unencoded cL xid c); [apply allocXID_next|].
    + by rewrite map_app, Hord.
    + apply Forall_app. split.
      * eapply Forall_impl; [done|]. intros e. by eapply happened_insert.
      * apply Forall_singleton. eexists. cbn. by rewrite (inserted _ _ _ _ Hg).
    + intros j x Hj. apply (insert_cases _ _ _ _ _ _ Hg) in Hj as [[-> ->]|[Hj Hx]]; [done|].
      pose proof (Hp _ _ Hx) as Hpx. unfold placed in *. cbn. rewrite Hmu, Hc in Hpx. repeat case_match; try done.
      all: destruct Hpx as [Hno' ?]; split; [|done]; intros [?|?%list_elem_of_singleton]%elem_of_app; done.
    + intros j x e a Hj Hx. rewrite map_app. setoid_rewrite elem_of_app.
      apply (insert_cases _ _ _ _ _ _ Hg) in Hj as [[-> ->]|[Hj Hx']]; [left; right; by apply list_elem_of_singleton|].
      destruct (Hr _ _ _ _ Hx' Hx) as [?|[Hno' ?]]; [auto|]. right. split; [|done].
      intros [?|?%list_elem_of_singleton]; done.
  - exists h, cL. split; try done; cbn [sh_client sh_mu sh_calls sh_order].
    + split; [by rewrite Hord|]. eexists _, xid. rewrite (inserted _ _ _ _ Hg). split; [done|]. split; [done|].
      split; cbn; rewrite ?allocXID_next; try done. destruct cL. apply touched_refl.
    + eapply Forall_impl; [done|]. intros e. by eapply happened_insert.
    + intros j x Hj. apply (insert_cases _ _ _ _ _ _ Hg) in Hj as [[-> ->]|[Hj Hx]]; [done|].
      pose proof (Hp _ _ Hx) as Hpx. unfold placed in *. cbn. rewrite Hmu, Hc in Hpx. repeat case_match; try done.
      all: try (destruct Hpx as [Hno' ?]; split; [|done]; intros [?|?%list_elem_of_singleton]%elem_of_app; done).
      destruct Hpx as (? & ? & ?). split_and!; [congruence|done..].
    + intros j x e a Hj Hx. apply (insert_cases _ _ _ _ _ _ Hg) in Hj as [[-> ->]|[Hj Hx']]; [done|].
      destruct (Hr _ _ _ _ Hx' Hx) as [?|[Hno' ?]]; [auto|]. right. split; [|done].
      intros [?|?%list_elem_of_singleton]%elem_of_app; done.
Qed.

Lemma same_client st g i : let c := sh_client st in
  set_client (with_conn (mkNetConn (nc_in (cl_conn c)) (nc_out (cl_conn c))) c) (set_call i g st) = set_call i g st.
Proof. by destruct st as [[[r w] o n] m l ord]. Qed.

Lemma worker_write_ok c0 i st st' : ok c0 st -> worker_write i st = Some st' -> ok c0 st'.
Proof.
  intros (h & cL & Hi) E. exists h, cL. unfold worker_write in E.
  destruct (sh_calls st !! i) as [[args pc req [| | |]]|] eqn:Hg; try done.
  pose proof (inv_placed _ _ _ _ Hi _ _ Hg) as Hp. unfold placed in Hp. cbn in Hp.
  destruct pc as [| |xid|err a]; [by destruct Hp..| |by destruct Hp as (_ & ? & _)].
  destruct (selecting _ _ _ _ _ _ _ Hi Hg eq_refl) as [Hmu Hu].
  destruct (WriteRecord _ _) as [err w] eqn:Ew. injection E as <-.
  pose proof (underway_write _ _ _ _ _ _ Hu eq_refl Ew) as Hu'.
  eapply holder_moves; [done|done|exact Hg|done|done|done|exact Hu'|].
  intros Hd. pose proof (dead_write _ req Hd) as Hw. rewrite Ew in Hw. cbn in Hw. by subst w.
Qed.

Lemma worker_read_ok c0 i st st' : ok c0 st -> worker_read i st = Some st' -> ok c0 st'.
Proof.
  intros (h & cL & Hi) E. exists h, cL. unfold worker_read in E.
  destruct (sh_calls st !! i) as [[args pc req [| | |]]|] eqn:Hg; try done.
  destruct (starved _) eqn:Hst; [done|]. destruct (ReadRecord _) as [res r] eqn:Er. injection E as <-.
  pose proof (inv_placed _ _ _ _ Hi _ _ Hg) as Hp. unfold placed in Hp. cbn in Hp.
  destruct pc as [| |xid|err a]; try (by destruct Hp).
  - destruct (selecting _ _ _ _ _ _ _ Hi Hg eq_refl) as [Hmu Hu].
    pose proof (underway_read _ _ _ _ _ _ Hu eq_refl Hst Er) as Hu'.
    eapply holder_moves; [done|done|exact Hg|done|done|done|exact Hu'|].
    intros Hd. pose proof (dead_read _ Hd) as Hr. rewrite Er in Hr. cbn in Hr. by subst r.
  - destruct Hp as (Hmu & _ & Hd). specialize (Hd eq_refl). pose proof (dead_read _ Hd) as Hr.
    rewrite Er in Hr. cbn in Hr. subst r. rewrite same_client.
    eapply other_moves; [done|done|exact Hg|done|done|done|]. by left.
Qed.

Lemma call_finished_ok c0 i st st' : ok c0 st -> call_finished i st = Some st' -> ok c0 st'.
Proof.
  intros (h & cL & Hi) E. unfold call_finished in E.
  destruct (sh_calls st !! i) as [[args [| |xid|] req [| | |res]]|] eqn:Hg; try done.
  destruct (match res with inl _ => _ | inr _ => _ end) as [err a] eqn:Ed. injection E as <-.
  destruct (selecting _ _ _ _ _ _ _ Hi Hg eq_refl) as [Hmu Hu].
  exists (h ++ [mkEvent i args err a]), (sh_client st).
  eapply (holder_returns c0 h cL st i _ _ err a (sh_client st) Hi Hmu Hg); try done.
  eapply underway_finished; [exact (inv_serial _ _ _ _ Hi)|exact Hu|done|exact Ed].
Qed.

Lemma close_under_inv n k g k' g' : close_under n k g = Some (k', g') ->
  exists w, g' = at_worker w g /\ w <> Writing /\ dead k'.
Proof.
  unfold close_under. destruct (g_worker g) eqn:Hpc.
  2: intros (err & w & _ & _ & -> & ->)%close_writing_inv; eexists; split_and!; [done..|apply dead_close].
  all: intros [= <- <-]; exists (g_worker g); rewrite Hpc; split_and!; [|done|apply dead_close].
  all: destruct g; cbn in *; by subst.
Qed.

Lemma close_under_pc n k g g2 k' g' : close_under n k g = Some (k', g') -> g_req g2 = g_req g ->
  g_worker g2 = g_worker g -> exists g2', close_under n k g2 = Some (k', g2').
Proof.
  unfold close_under, close_writing. intros E -> ->. destruct (g_worker g); [injection E as <- _; by eauto| |injection E as <- _; by eauto..].
  destruct (WriteRecord _ _) as [[err|] w]; [|done]. destruct (has_room _ _); [|done]. injection E as <- _. eauto.
Qed.

Lemma call_cancelled_ok c0 i n err st st' : ok c0 st -> call_cancelled i n err st = Some st' -> ok c0 st'.
Proof.
  intros (h & cL & Hi) E. unfold call_cancelled in E.
  destruct (sh_calls st !! i) as [[args [| |xid|] req w]|] eqn:Hg; try done.
  destruct (close_under _ _ _) as [[k g']|] eqn:Ec; [|done]. injection E as <-.
  destruct (selecting _ _ _ _ _ _ _ Hi Hg eq_refl) as [Hmu Hu].
  pose proof (close_under_inv _ _ _ _ _ Ec) as (w' & -> & Hw' & Hd).
  eexists (h ++ [mkEvent i args (Some err) None]), (with_conn k (sh_client st)).
  eapply (holder_returns c0 h cL st i _ _ (Some err) None (with_conn k (sh_client st)) Hi Hmu Hg); try done.
  destruct (close_under_pc _ _ _ (mkGoroutine args (Selecting xid) req w) _ _ Ec eq_refl eq_refl) as [g2 Ec2].
  by eapply underway_cancelled; [exact (inv_serial _ _ _ _ Hi)|exact Hu|].
Qed.

Lemma client_closed_ok c0 n st st' : ok c0 st -> client_closed n st = Some st' -> ok c0 st'.
Proof.
  intros (h & cL & Hi) E. unfold client_closed in E. destruct (sh_mu st) as [i|] eqn:Hmu.
  - destruct (holder _ _ _ _ _ Hi Hmu) as (g & xid & Hg & Hc & Hu). rewrite Hg in E.
    destruct (close_under _ _ _) as [[k g']|] eqn:Ec; [|done]. injection E as <-. exists h, cL.
    destruct (underway_closed _ _ _ _ _ _ _ Hu Ec) as (Hu' & Ha & Hc' & _ & Hd).
    by eapply holder_moves.
  - injection E as <-. eexists h, _. eapply world_touches; [done..|apply touched_close, touched_refl|].
    intros _. apply dead_close.
Qed.

Lemma arrived_ok c0 ch st : ok c0 st -> ok c0 (arrived ch st).
Proof.
  intros (h & cL & Hi). change (arrived ch st) with (set_client (with_conn (more_input [ch] (cl_conn (sh_client st))) (sh_client st)) st).
  destruct (sh_mu st) as [i|] eqn:Hmu.
  - destruct (holder _ _ _ _ _ Hi Hmu) as (g & xid & Hg & Hc & Hu). exists h, cL.
    pose proof (holder_moves c0 h cL st i g g xid _ Hi Hmu Hg eq_refl eq_refl Hc (underway_arrived _ _ _ _ ch Hu)
      (dead_more _ _)) as H. by rewrite set_call_same in H.
  - eexists h, _. eapply world_touches; [done..|apply touched_more, touched_refl|]. by apply dead_more.
Qed.

Lemma act_ok c0 a st st' : ok c0 st -> act a st = Some st' -> ok c0 st'.
Proof.
  destruct a; cbn [act]; intros Ho E.
  - injection E as <-. by apply call_made_ok.
  - by eapply call_entered_ok.
  - by eapply call_locked_ok.
  - by eapply worker_write_ok.
  - by eapply worker_read_ok.
  - by eapply call_finished_ok.
  - by eapply call_cancelled_ok.
  - by eapply client_closed_ok.
  - injection E as <-. by apply arrived_ok.
Qed.

Lemma run_actions_ok c0 acts : forall st st', ok c0 st -> run_actions acts st = Some st' -> ok c0 st'.
Proof.
  induction acts as [|a acts IH]; intros st st' Ho E; cbn [run_actions] in E; [by injection E as <-|].
  destruct (act a st) as [st1|] eqn:Ea; [|done]. by eapply IH, E; eapply act_ok.
Qed.
End shared.

(** ** Calls that never took the mutex *)

Section ended.
Context {A : Type}.
Implicit Types (st : shared A) (g : goroutine A).

(** A call that took the mutex is in the order; another returned because its
    context had ended when it entered. *)
Definition entered (before : list (action A)) (order : list nat) (i : nat) g : Prop :=
  match g_call g with
  | Entering | Locking => True
  | Selecting _ => i ∈ order
  | Returned err a => i ∈ order \/ exists e, ActEnter i (Some e) ∈ before /\ err = Some e /\ a = None
  end.
Definition all_entered (before : list (action A)) st : Prop :=
  forall i g, sh_calls st !! i = Some g -> entered before (sh_order st) i g.

Lemma entered_more before before' order order' i g : before ⊆ before' -> order ⊆ order' ->
  entered before order i g -> entered before' order' i g.
Proof.
  unfold entered. intros Hb Ho. destruct (g_call g); [done|done|apply Ho|].
  intros [H|(e & He & H)]; [by left; apply Ho|right]. exists e. split; [by apply Hb|done].
Qed.

(** Goroutine [i] moves, the order as it was. *)
Lemma entered_moves before a st st' i g g' : all_entered before st -> sh_calls st !! i = Some g ->
  sh_calls st' = <[i := g']> (sh_calls st) -> sh_order st ⊆ sh_order st' -> entered (before ++ [a]) (sh_order st') i g' ->
  all_entered (before ++ [a]) st'.
Proof.
  intros Ha Hi Hc Ho Hg j x Hj. rewrite Hc in Hj. apply (insert_cases _ _ _ _ _ _ Hi) in Hj as [[-> ->]|[_ Hj]]; [done|].
  eapply entered_more; [|exact Ho|by apply Ha]. set_solver.
Qed.

Lemma entered_same before a st st' : all_entered before st -> sh_calls st' = sh_calls st -> sh_order st' = sh_order st ->
  all_entered (before ++ [a]) st'.
Proof.
  intros Ha Hc Ho i g Hi. rewrite Hc in Hi. rewrite Ho. eapply entered_more; [|done|by apply Ha]. set_solver.
Qed.

Lemma close_under_call n k g k' g' : close_under n k g = Some (k', g') -> g_call g' = g_call g.
Proof.
  unfold close_under. destruct (g_worker g); [by intros [= <- <-]| |by intros [= <- <-]..].
  by intros (err & w & _ & _ & _ & ->)%close_writing_inv.
Qed.

Lemma all_entered_act before a st st' : all_entered before st -> act a st = Some st' -> all_entered (before ++ [a]) st'.
Proof.
  intros Ha E. destruct a as [args|i ended|i|i|i|i|i n err|n|ch]; cbn [act] in E.
  - injection E as <-. intros i g Hi. apply lookup_app_Some in Hi as [Hi|[_ Hi]].
    + eapply entered_more; [|done|by apply Ha]. set_solver.
    + apply list_lookup_singleton_Some in Hi as [_ <-]. done.
  - unfold call_entered in E. destruct (sh_calls st !! i) as [[args [| | |] req w]|] eqn:Hi; try done. injection E as <-.
    eapply entered_moves; [exact Ha|exact Hi|reflexivity|done|]. destruct ended as [e|]; [right; exists e|done]. split; [set_solver|done].
  - unfold call_locked in E. destruct (sh_mu st); [done|].
    destruct (sh_calls st !! i) as [[args [| | |] req w]|] eqn:Hi; try done. destruct (allocXID _) as [xid c].
    destruct (Encoder.Err _); injection E as <-;
      (eapply entered_moves; [exact Ha|exact Hi|reflexivity|set_solver|]); [left|]; cbn; set_solver.
  - unfold worker_write in E. destruct (sh_calls st !! i) as [[args pc req [| | |]]|] eqn:Hi; try done.
    destruct (WriteRecord _ _) as [err w]. injection E as <-. eapply entered_moves; [exact Ha|exact Hi|reflexivity|done|].
    eapply entered_more; [|done|exact (Ha _ _ Hi)]. set_solver.
  - unfold worker_read in E. destruct (sh_calls st !! i) as [[args pc req [| | |]]|] eqn:Hi; try done.
    destruct (starved _); [done|]. destruct (ReadRecord _) as [res r]. injection E as <-.
    eapply entered_moves; [exact Ha|exact Hi|reflexivity|done|].
    eapply entered_more; [|done|exact (Ha _ _ Hi)]. set_solver.
  - unfold call_finished in E. destruct (sh_calls st !! i) as [[args [| |xid|] req [| | |res]]|] eqn:Hi; try done.
    destruct (match res with inl _ => _ | inr _ => _ end) as [err a]. injection E as <-.
    eapply entered_moves; [exact Ha|exact Hi|reflexivity|done|]. left. exact (Ha _ _ Hi).
  - unfold call_cancelled in E. destruct (sh_calls st !! i) as [[args [| |xid|] req w]|] eqn:Hi; try done.
    destruct (close_under _ _ _) as [[k g']|] eqn:Ec; [|done]. injection E as <-.
    eapply entered_moves; [exact Ha|exact Hi|reflexivity|done|].
    unfold entered. rewrite (close_under_call _ _ _ _ _ Ec). left. exact (Ha _ _ Hi).
  - unfold client_closed in E. destruct (sh_mu st) as [i|]; [|injection E as <-; by eapply entered_same].
    destruct (sh_calls st !! i) as [g|] eqn:Hi; [|done]. destruct (close_under _ _ _) as [[k g']|] eqn:Ec; [|done]. injection E as <-.
    eapply entered_moves; [exact Ha|exact Hi|reflexivity|done|].
    unfold entered. rewrite (close_under_call _ _ _ _ _ Ec). eapply entered_more; [|done|exact (Ha _ _ Hi)]. set_solver.
  - injection E as <-. by eapply entered_same.
Qed.

Lemma run_entered acts : forall before st st', all_entered before st -> run_actions acts st = Some st' ->
  all_entered (before ++ acts) st'.
Proof.
  induction acts as [|a acts IH]; intros before st st' Ha E; cbn [run_actions] in E.
  { injection E as <-. by rewrite app_nil_r. }
  destruct (act a st) as [st1|] eqn:Ea; [|done]. rewrite (app_assoc before [a] acts : before ++ a :: acts = _).
  eapply IH; [|exact E]. by eapply all_entered_act.
Qed.
End ended.

(** ** Whose reply *)

(** What the actions deliver. *)
Definition arrivals {A} (acts : list (action A)) : Reader :=
  flat_map (fun a => match a with ActArrive ch => [ch] | _ => [] end) acts.

(** A record as its fragments, the last one apart: its bytes, and the message. *)
Abbreviation fragments := (list bytes * bytes)%type.
Definition record_bytes (rec : fragments) : bytes := wire_record rec.1 rec.2.
Definition record_message (rec : fragments) : bytes := concat rec.1 ++ rec.2.
Definition record_ok (rec : fragments) : Prop :=
  Forall frag_ok rec.1 /\ frag_ok rec.2 /\ blen (record_message rec) <= maxMessageSize.

(** What is left to read can be continued to whole records, all of [recs]. *)
Definition aligned (recs : list fragments) (r : Reader) : Prop :=
  exists rs future, Forall (fun p => p ∈ recs) rs /\ rbytes r ++ future = concat (map record_bytes rs).

Lemma aligned_nothing recs r : rbytes r = [] -> aligned recs r.
Proof. intros Hr. exists [], []. by rewrite Hr. Qed.

(** A fragment, and a record, that is cut short. *)
Lemma loop_frag_cut fuel r msg last p missing : rbytes r ++ missing = wire_frag last p -> missing <> [] -> frag_ok p ->
  blen msg + blen p <= maxMessageSize ->
  exists e r', ReadRecord_loop (S fuel) r msg = Some (inl e, r') /\ rbytes r' = [].
Proof.
  intros Hr Hm Hp Hmax. sizes. pose proof (blen_nonneg p). pose proof (blen_nonneg msg). cbn [ReadRecord_loop].
  destruct (ReadFull_cases r 4) as [(b & more & r1 & Hb & Hr1 & -> & Hr1' & _)|(got & e & r1 & -> & _ & _ & Hr1)];
    [lia| |destruct (errors_Is e ErrUnexpectedEOF), (errors_Is e EOF && (blen msg =? 0)); by eauto].
  unfold wire_frag in Hr. rewrite Hr1, <- app_assoc in Hr. apply app_inj_1 in Hr as [-> Hr].
  2: { unfold blen in Hb. unfold wire_u32. rewrite length_be. lia. }
  rewrite unbe_be4, u32_id by (apply frag_marker_u32; lia). rewrite frag_marker_last, frag_marker_size by lia. sizes.
  destruct (Z.ltb_spec 268435456 (blen p)); [lia|]. rewrite u64_id by int_lia.
  destruct (Z.ltb_spec 536870912 (blen msg + blen p)); [lia|].
  destruct (ReadFull_cases r1 (blen p)) as [(b2 & more2 & r2 & Hb2 & Hr2 & _)|(got & e & r2 & -> & _ & _ & Hr2)];
    [lia| |destruct (errors_Is e EOF); by eauto].
  exfalso. rewrite Hr1' in Hr2. subst more. apply Hm. rewrite <- Hr, blen_app, Hr2, blen_app in Hb2. pose proof (blen_nonneg more2).
  pose proof (blen_nonneg missing). apply nil_length_inv. unfold blen in *. lia.
Qed.

Lemma loop_record_cut ps : forall fuel r msg p missing, rbytes r ++ missing = wire_record ps p -> missing <> [] ->
  Forall frag_ok ps -> frag_ok p -> blen msg + blen (concat ps ++ p) <= maxMessageSize -> (length (rbytes r) < fuel)%nat ->
  exists e r', ReadRecord_loop fuel r msg = Some (inl e, r') /\ rbytes r' = [].
Proof.
  induction ps as [|q ps IH]; intros fuel r msg p missing Hr Hm Hps Hp Hmax Hf; (destruct fuel as [|fuel]; [lia|]).
  - by apply (loop_frag_cut fuel r msg true p missing).
  - apply Forall_cons in Hps as [Hq Hps]. cbn [concat] in Hmax. rewrite <- app_assoc, blen_app in Hmax.
    pose proof (blen_nonneg (concat ps ++ p)).
    assert (rbytes r ++ missing = wire_frag false q ++ wire_record ps p) as Hr2
      by (rewrite Hr; unfold wire_record; cbn [map concat]; by rewrite <- app_assoc).
    apply app_eq_inv in Hr2 as [(more & Hr2 & Hmore)|(more & Hr2 & Hmore)].
    + destruct (loop_frag fuel r msg false q more Hr2 Hq ltac:(lia)) as (r1 & Hr1 & _ & ->).
      apply (IH fuel r1 (msg ++ q) p missing); try done; [by rewrite Hr1|rewrite blen_app; lia|].
      rewrite Hr2, length_app in Hf. pose proof (wire_frag_length false q). rewrite Hr1. lia.
    + destruct (decide (more = [])) as [->|Hne].
      * rewrite app_nil_r in Hr2. destruct (loop_frag fuel r msg false q [] ltac:(by rewrite app_nil_r) Hq ltac:(lia)) as (r1 & Hr1 & _ & ->).
        apply (IH fuel r1 (msg ++ q) p missing); try done; [by rewrite Hr1|rewrite blen_app; lia|].
        rewrite <- Hr2 in Hf. pose proof (wire_frag_length false q). rewrite Hr1. cbn. lia.
      * apply (loop_frag_cut fuel r msg false q more); done || lia.
Qed.

Lemma ReadRecord_cut r rec missing : rbytes r ++ missing = record_bytes rec -> missing <> [] -> record_ok rec ->
  exists e r', ReadRecord r = (inl e, r') /\ rbytes r' = [].
Proof.
  intros Hr Hm (Hps & Hp & Hmax). unfold ReadRecord.
  destruct (loop_record_cut rec.1 (S (length (rbytes r))) r [] rec.2 missing Hr Hm Hps Hp) as (e & r' & -> & Hr');
    [by rewrite blen_nil|lia|]. by exists e, r'.
Qed.

(** A read takes one of the records, or leaves nothing. *)
Lemma aligned_read recs r res r' : Forall record_ok recs -> aligned recs r -> ReadRecord r = (res, r') ->
  aligned recs r' /\ forall reply, res = inr reply -> reply ∈ map record_message recs.
Proof.
  intros Hok (rs & future & Hrs & Hr) E. destruct rs as [|rec rs].
  - apply app_eq_nil in Hr as [Hr _]. unfold ReadRecord in E. rewrite Hr in E. cbn [length ReadRecord_loop] in E.
    destruct (ReadFull_short r 4) as (r1 & E1 & Hr1 & _); [by rewrite Hr|]. rewrite E1 in E.
    repeat case_match; simplify_eq; split; (by apply aligned_nothing) || done.
  - apply Forall_cons in Hrs as [Hp Hrs]. pose proof (proj1 (Forall_forall _ _) Hok rec Hp) as Hrec. cbn [map concat] in Hr.
    assert (forall more, rbytes r = record_bytes rec ++ more -> exists r2, ReadRecord r = (inr (record_message rec), r2) /\ rbytes r2 = more) as Hread.
    { intros more Hm. destruct Hrec as (Hps & Hq & Hmax).
      destruct (ReadRecord_record rec.1 rec.2 r more Hm Hps Hq Hmax) as (r2 & E2 & Hr2 & _). by exists r2. }
    assert (forall reply, (inr (record_message rec) : result bytes) = inr reply -> reply ∈ map record_message recs) as Hin.
    { intros reply [= <-]. by apply list_elem_of_fmap_2. }
    apply app_eq_inv in Hr as [(more & Hr & Hmore)|(more & Hr & Hmore)].
    + destruct (Hread more Hr) as (r2 & E2 & Hr2). rewrite E2 in E. injection E as <- <-. split; [|done].
      exists rs, future. by rewrite Hr2.
    + destruct (decide (more = [])) as [->|Hne].
      * rewrite app_nil_r in Hr. destruct (Hread []) as (r2 & E2 & Hr2); [by rewrite app_nil_r|].
        rewrite E2 in E. injection E as <- <-. split; [by apply aligned_nothing|done].
      * destruct (ReadRecord_cut r rec more) as (e & r2 & E2 & Hr2); [done..|].
        rewrite E2 in E. injection E as <- <-. split; [by apply aligned_nothing|done].
Qed.

Lemma iter_xid_S k : forall n, iter_xid (S k) n = next_xid (iter_xid k n).
Proof. induction k as [|k IH]; intros n; [done|]. cbn [iter_xid] in *. apply IH. Qed.

(** A decoded result is that of an accepted reply with this xid. *)
Lemma decodeReply_inv {A} xid reply (dec : Dec A) a : decodeReply xid reply (Some dec) = (None, a) ->
  exists verf body, reply = wire_u32 xid ++ wire_u32 msgReply ++ wire_u32 MsgAccepted ++ verf ++ wire_u32 AcceptSuccess ++ body.
Proof.
  unfold decodeReply. destruct (DecodeReplyHeader _) as [[e|h] d1] eqn:Eh; [done|].
  destruct (Z.eqb_spec (rh_XID h) xid) as [<-|]; [|done]. cbn [negb].
  destruct (ReplyHeader_Error h) eqn:Ehe; [done|]. intros _.
  destruct (reply_success_inv _ _ _ Eh Ehe) as (verf & Hr & _). exists verf, (rest d1).
  cbn in Hr. by rewrite app_nil_r in Hr.
Qed.

Section own.
Context {A : Type} (recs : list fragments) (Hrecs : Forall record_ok recs) (n0 : Z).
Implicit Types (st : shared A) (g : goroutine A).

(** What goroutine [i] has of the peer's records. *)
Record owns (order : list nat) (i : nat) g : Prop := {
  own_xid : forall xid, g_call g = Selecting xid -> exists k, order !! k = Some i /\ xid = iter_xid (S k) n0;
  own_delivered : forall reply, g_worker g = Delivered (inr reply) -> reply ∈ map record_message recs;
  own_returned : forall a, g_call g = Returned None a -> exists k reply, order !! k = Some i /\ reply ∈ map record_message recs
    /\ decodeReply (iter_xid (S k) n0) reply (a_decodeRes (g_args g)) = (None, a)
}.

(** The rest of what will arrive is whole records, and so was what was read. *)
Record own_inv (later : Reader) st : Prop := {
  own_aligned : aligned recs (nc_in (cl_conn (sh_client st)) ++ later);
  own_next : cl_nextID (sh_client st) = iter_xid (length (sh_order st)) n0;
  own_calls : forall i g, sh_calls st !! i = Some g -> owns (sh_order st) i g
}.

Lemma owns_more order more i g : owns order i g -> owns (order ++ more) i g.
Proof.
  intros [Hx Hd Hr]. split.
  - intros xid E. destruct (Hx xid E) as (k & Hk & ->). exists k. by rewrite (lookup_app_l_Some _ _ _ _ Hk).
  - done.
  - intros a E. destruct (Hr a E) as (k & reply & Hk & H). exists k, reply. by rewrite (lookup_app_l_Some _ _ _ _ Hk).
Qed.

(** Goroutine [i] moves; the connection may have been read or closed. *)
Lemma own_moves later st i g g' c : own_inv later st -> sh_calls st !! i = Some g -> owns (sh_order st) i g' ->
  aligned recs (nc_in (cl_conn c) ++ later) -> cl_nextID c = cl_nextID (sh_client st) ->
  own_inv later (set_client c (set_call i g' st)).
Proof.
  intros [Ha Hn Hc] Hi Hg' Hal Hnext. split; cbn [set_client set_call sh_client sh_order sh_calls]; [done|by rewrite Hnext|].
  intros j x Hj. by apply (insert_cases _ _ _ _ _ _ Hi) in Hj as [[-> ->]|[_ Hj]]; [|apply Hc].
Qed.

Lemma aligned_closed later k : aligned recs (nc_in (NetConn_Close k) ++ later).
Proof. by apply aligned_nothing. Qed.

Lemma owns_closed order n k g k' g' i : close_under n k g = Some (k', g') -> owns order i g -> owns order i g'.
Proof.
  unfold close_under. destruct (g_worker g); [by intros [= <- <-]| |by intros [= <- <-]..].
  intros (err & w & _ & _ & _ & ->)%close_writing_inv [Hx Hd Hr]. by split.
Qed.

Lemma closed_conn n k (g : goroutine A) k' g' : close_under n k g = Some (k', g') -> exists k2, k' = NetConn_Close k2.
Proof.
  unfold close_under. destruct (g_worker g); [intros [= <- <-]; eauto| |intros [= <- <-]; eauto..].
  intros (err & w & _ & _ & -> & _)%close_writing_inv. eauto.
Qed.

Lemma own_unlock later st : own_inv later st -> own_inv later (unlock st).
Proof. by intros [Ha Hn Hc]. Qed.

Lemma own_lock later st st' i : own_inv later st -> call_locked i st = Some st' -> own_inv later st'.
Proof.
  intros [Ha Hn Hc] E. unfold call_locked in E. destruct (sh_mu st); [done|].
  destruct (sh_calls st !! i) as [[args [| | |] req w]|] eqn:Hg; try done. rewrite allocXID_next in E.
  assert (next_xid (cl_nextID (sh_client st)) = iter_xid (length (sh_order st ++ [i])) n0) as Hx.
  { rewrite Hn, length_app. cbn [length]. by rewrite Nat.add_1_r, iter_xid_S. }
  destruct (Encoder.Err _) as [err|]; injection E as <-; (split; cbn [sh_client sh_order sh_calls cl_conn cl_nextID]; [done|done|]);
    intros j x Hj; (apply (insert_cases _ _ _ _ _ _ Hg) in Hj as [[-> ->]|[_ Hj]]; [|by apply owns_more, Hc]);
    split; try done.
  intros xid [= <-]. exists (length (sh_order st)). rewrite list_lookup_middle by done. split; [done|]. by rewrite iter_xid_S, Hn.
Qed.

Lemma own_read later st st' i : own_inv later st -> worker_read i st = Some st' -> own_inv later st'.
Proof.
  intros Hi E. pose proof Hi as [Ha Hn Hc]. unfold worker_read in E.
  destruct (sh_calls st !! i) as [[args pc req [| | |]]|] eqn:Hg; try done.
  destruct (starved _) eqn:Hst; [done|]. pose proof (starved_decided _ later Hst) as Hdec.
  destruct (ReadRecord (nc_in (cl_conn (sh_client st)))) as [res r] eqn:Er. injection E as <-.
  destruct (aligned_read recs _ _ _ Hrecs Ha Hdec) as [Ha' Hres]. pose proof (Hc _ _ Hg) as [Hx Hd Hr].
  eapply own_moves; [done|exact Hg| |exact Ha'|done].
  split; [done| |done]. cbn. intros reply [= E]. destruct res as [err|reply']; [done|]. injection E as ->. by apply Hres.
Qed.

Lemma own_finish later st st' i : own_inv later st -> call_finished i st = Some st' -> own_inv later st'.
Proof.
  intros Hi E. pose proof Hi as [Ha Hn Hc]. unfold call_finished in E.
  destruct (sh_calls st !! i) as [[args [| |xid|] req [| | |res]]|] eqn:Hg; try done.
  destruct (match res with inl _ => _ | inr _ => _ end) as [err a] eqn:Ed. injection E as <-.
  pose proof (Hc _ _ Hg) as [Hx Hd _]. destruct (Hx xid eq_refl) as (k & Hk & ->).
  apply own_unlock, (own_moves later st i _ _ (sh_client st) Hi Hg); [|done|done].
  split; [done|done|]. cbn. intros a' [= -> <-]. destruct res as [e|reply]; [done|]. exists k, reply. split_and!; [done|by apply Hd|done].
Qed.

Lemma own_act later a st st' : own_inv (arrivals [a] ++ later) st -> act a st = Some st' -> own_inv later st'.
Proof.
  destruct a as [args|i ended|i|i|i|i|i n err|n|ch]; cbn [act arrivals flat_map app]; intros Hi E.
  - injection E as <-. destruct Hi as [Ha Hn Hc]. split; [done|done|]. cbn.
    intros i g [Hg|[_ Hg]]%lookup_app_Some; [by apply Hc|]. apply list_lookup_singleton_Some in Hg as [_ <-]. by split.
  - pose proof Hi as [Ha Hn Hc]. unfold call_entered in E.
    destruct (sh_calls st !! i) as [[args [| | |] req w]|] eqn:Hg; try done. injection E as <-.
    apply (own_moves later st i _ _ (sh_client st) Hi Hg); [|done|done]. pose proof (Hc _ _ Hg) as [_ Hd _].
    split; [|done|]; cbn; by destruct ended.
  - by eapply own_lock.
  - pose proof Hi as [Ha Hn Hc]. unfold worker_write in E.
    destruct (sh_calls st !! i) as [[args pc req [| | |]]|] eqn:Hg; try done.
    destruct (WriteRecord _ _) as [err w]. injection E as <-. pose proof (Hc _ _ Hg) as [Hx Hd Hr].
    apply (own_moves later st i _ _ _ Hi Hg); [|done|done]. split; [done| |done]. cbn. by destruct err.
  - by eapply own_read.
  - by eapply own_finish.
  - pose proof Hi as [Ha Hn Hc]. unfold call_cancelled in E.
    destruct (sh_calls st !! i) as [[args [| |xid|] req w]|] eqn:Hg; try done.
    destruct (close_under _ _ _) as [[k g']|] eqn:Ec; [|done]. injection E as <-. pose proof (Hc _ _ Hg) as [Hx Hd Hr].
    destruct (closed_conn _ _ _ _ _ Ec) as [k2 ->].
    apply own_unlock, (own_moves later st i _ _ (with_conn (NetConn_Close k2) (sh_client st)) Hi Hg); [|apply aligned_closed|done].
    eapply owns_closed; [done|]. by split.
  - pose proof Hi as [Ha Hn Hc]. unfold client_closed in E. destruct (sh_mu st) as [i|].
    + destruct (sh_calls st !! i) as [g|] eqn:Hg; [|done]. destruct (close_under _ _ _) as [[k g']|] eqn:Ec; [|done].
      injection E as <-. destruct (closed_conn _ _ _ _ _ Ec) as [k2 ->].
      apply (own_moves later st i _ _ _ Hi Hg); [|apply aligned_closed|done]. eapply owns_closed; [done|]. by apply Hc.
    + injection E as <-. split; [apply aligned_closed|done|done].
  - injection E as <-. destruct Hi as [Ha Hn Hc]. split; [|done|done]. cbn. by rewrite <- app_assoc.
Qed.

Lemma own_run acts : forall st st', own_inv (arrivals acts) st -> run_actions acts st = Some st' -> own_inv [] st'.
Proof.
  induction acts as [|a acts IH]; intros st st' Hi E; cbn [run_actions] in E; [by injection E as <-|].
  destruct (act a st) as [st1|] eqn:Ea; [|done]. apply (IH st1); [|done]. eapply own_act; [|done].
  cbn [arrivals flat_map app] in *. by destruct a.
Qed.
End own.

(** ** Theorems *)

(** C4.  Sharing a client.  However goroutines that call, round trips, contexts
    that end, [Close] and the peer interleave, the calls that took the mutex are
    a sequence of whole [Call]s, in the order in which they took it: each
    returned what [Call] returns on the client its predecessors left, the
    connection touched by the world only, and did not wait for anything that
    could still come; a call that never took the mutex returned the error of its
    context; and while a call is in its select, all the others are before or
    after it. *)
Theorem rpc_serialised {A : Type} (c0 : Client) (acts : list (action A)) (st : shared A)
    (Hrun : run_actions acts (idle_client c0) = Some st) :
  exists h c, serial c0 h c /\ NoDup (map e_call h) /\ Forall (happened st) h
    /\ (forall i g err a, sh_calls st !! i = Some g -> g_call g = Returned err a ->
          i ∈ map e_call h
          \/ i ∉ sh_order st /\ a = None /\ exists e, err = Some e /\ ActEnter i (Some e) ∈ acts)
    /\ (forall i g xid, sh_calls st !! i = Some g -> g_call g = Selecting xid -> sh_mu st = Some i)
    /\ match sh_mu st with
       | None => sh_client st = c /\ sh_order st = map e_call h
       | Some i => sh_order st = map e_call h ++ [i]
       end.
Proof.
  destruct (run_actions_ok c0 acts (idle_client c0) st) as (h & c & Hi); [|done|].
  { exists [], c0. apply idle_client_inv. }
  assert (all_entered acts st) as Hent by (apply (run_entered acts [] (idle_client c0) st); [by intros i g|done]).
  pose proof Hi as [Hs Hm Hh Hp Hr Ho]. exists h, c. split_and!; try done.
  - destruct (sh_mu st) as [i|].
    + destruct Hm as [Hord _]. rewrite Hord in Ho. by apply NoDup_app in Ho as [? _].
    + destruct Hm as [_ Hord]. by rewrite <- Hord.
  - intros i g err a Hg Hret. destruct (Hr i g err a Hg Hret) as [?|(Hno & _ & ->)]; [by left|right].
    pose proof (Hent i g Hg) as He. unfold entered in He. rewrite Hret in He.
    destruct He as [?|(e & He & -> & _)]; [done|]. split_and!; [done..|]. by exists e.
  - intros i g xid Hg Hc. by destruct (selecting _ _ _ _ _ _ _ Hi Hg Hc).
  - destruct (sh_mu st) as [i|]; [by destruct Hm|done].
Qed.

(** Two goroutines call; the second waits for the mutex while the reply to the
    first arrives in two segments; then its context ends with four bytes of its
    record written, and a third finds the connection closed. *)
Definition number_args : CallArgs Z := mkCallArgs 100003 4 1 (Some (Encoder.Uint32 5)) (Some D.Uint32).

Definition number_reply (xid n : Z) : bytes :=
  wire_u32 xid ++ wire_u32 1 ++ wire_u32 0 ++ wire_u32 0 ++ wire_u32 0 ++ wire_u32 0 ++ wire_u32 n.

Definition number_client : Client := mkClient (mkNetConn [] (mkWriter [] None)) (mkClientOptions AuthNull AuthNull) 7.

Definition number_acts : list (action Z) :=
  [ActCall number_args; ActCall number_args; ActEnter 1 None; ActEnter 0 None; ActLock 0; ActWrite 0;
   ActArrive (Data (btake 6 (wire_record [] (number_reply 8 99))));
   ActArrive (Data (bdrop 6 (wire_record [] (number_reply 8 99)))); ActCall number_args; ActRead 0;
   ActEnter 2 None; ActFinish 0; ActLock 1; ActCancel 1 4 Canceled; ActLock 2; ActWrite 2; ActFinish 2].

Definition number_state : shared Z :=
  match run_actions number_acts (idle_client number_client) with Some st => st | None => idle_client number_client end.

Lemma rpc_serialised_witness :
  map g_call (sh_calls number_state)
  = [Returned None (Some 99); Returned (Some Canceled) None;
     Returned (Some (Wrapf "rpc: writing request: %w" [] ErrNetClosed)) None]
  /\ exists (h : list (Event Z)) c, serial number_client h c /\ sh_order number_state = map e_call h.
Proof.
  split; [vm_compute; reflexivity|].
  destruct (rpc_serialised number_client number_acts number_state) as (h & c & Hs & _ & _ & _ & _ & Hm);
    [vm_compute; reflexivity|].
  exists h, c. split; [exact Hs|]. exact (proj2 Hm).
Defined.

(** C10.  Nobody gets another call's reply.  When what the peer sends are whole
    records, each in one or more fragments within the limits of the reader, then
    in every interleaving a call that succeeded as the [k]-th to take the mutex
    decoded its result from the message of one of those records, an accepted
    SUCCESS reply to the [k]-th transaction id after the client's first; the ids
    of two calls less than 2^32 - 1 calls apart are distinct. *)
Theorem rpc_own_reply {A : Type} (c0 : Client) (acts : list (action A)) (st : shared A) (recs : list fragments)
    (future : bytes) (i : nat) (g : goroutine A) (dec : Dec A) (a : option A)
    (Hrecs : Forall record_ok recs)
    (Hsent : rbytes (nc_in (cl_conn c0) ++ arrivals acts) ++ future = concat (map record_bytes recs))
    (Hrun : run_actions acts (idle_client c0) = Some st)
    (Hg : sh_calls st !! i = Some g) (Hdec : a_decodeRes (g_args g) = Some dec)
    (Hok : g_call g = Returned None a) :
  exists k reply verf body, sh_order st !! k = Some i /\ reply ∈ map record_message recs
    /\ reply = wire_u32 (iter_xid (S k) (cl_nextID c0)) ++ wire_u32 msgReply ++ wire_u32 MsgAccepted
               ++ verf ++ wire_u32 AcceptSuccess ++ body
    /\ decodeReply (iter_xid (S k) (cl_nextID c0)) reply (Some dec) = (None, a)
    /\ forall k' i', sh_order st !! k' = Some i' -> k' <> k -> Z.abs (Z.of_nat k' - Z.of_nat k) < 2 ^ 32 - 1 ->
         iter_xid (S k') (cl_nextID c0) <> iter_xid (S k) (cl_nextID c0).
Proof.
  destruct (own_run recs Hrecs (cl_nextID c0) acts (idle_client c0) st) as [_ _ Hc]; [|done|].
  { split; [|done|done]. exists recs, future. split; [by apply Forall_forall|done]. }
  destruct (own_returned _ _ _ _ _ (Hc i g Hg) a Hok) as (k & reply & Hk & Hin & Hd). rewrite Hdec in Hd.
  destruct (decodeReply_inv _ _ _ _ Hd) as (verf & body & Hr). exists k, reply, verf, body. split_and!; try done.
  intros k' i' Hk' Hne Hapart. cbn [iter_xid].
  pose proof (next_xid_range (cl_nextID c0)) as Hx. rewrite !iter_xid_closed by done. int_lia.
Qed.

(** The reply to the first call in two fragments. *)
Definition number_records : list fragments := [([btake 9 (number_reply 8 99)], bdrop 9 (number_reply 8 99))].
Definition number_fragments : bytes := concat (map record_bytes number_records).

Definition fragments_acts : list (action Z) :=
  [ActCall number_args; ActEnter 0 None; ActLock 0; ActWrite 0; ActArrive (Data (btake 15 number_fragments));
   ActArrive (Data (bdrop 15 number_fragments)); ActRead 0; ActFinish 0].

Definition fragments_state : shared Z :=
  match run_actions fragments_acts (idle_client number_client) with Some st => st | None => idle_client number_client end.

Lemma rpc_own_reply_witness : exists k reply, sh_order fragments_state !! k = Some 0%nat /\ reply ∈ [number_reply 8 99].
Proof.
  destruct (rpc_own_reply number_client fragments_acts fragments_state number_records [] 0
    (mkGoroutine number_args (Returned None (Some 99))
       (w_out (Encoder.w (encode_request number_client 8 number_args))) (Delivered (inr (number_reply 8 99))))
    D.Uint32 (Some 99)) as (k & reply & verf & body & Hk & Hin & _);
    [constructor; [repeat split; repeat constructor; vm_compute; discriminate|constructor]|vm_compute; reflexivity..|].
  exists k, reply. split; [exact Hk|exact Hin].
Defined.
