(* ===== verification/Attr.v ===== *)
(** * Package nfs4/attr: attribute bitmaps, fattr4 decoding and encoding
    (src/nfs4/attr/bitmap.go, attr.go, encode.go, statvfs.go)

    Modes, sizes and the like are integers of their Go width; a [time.Time] is
    the number of seconds since the Unix epoch and the nanoseconds within the
    second, as [Time.Unix] and [Time.Nanosecond] report them. *)

From S2P Require Import Prelude GoError GoIO Xdr.

(** ** Bitmaps *)

(** src/nfs4/attr/bitmap.go:24-24 *)
Definition AttrSupportedAttrs : Z := 0.
(** src/nfs4/attr/bitmap.go:25-25 *)
Definition AttrType : Z := 1.
(** src/nfs4/attr/bitmap.go:26-26 *)
Definition AttrFHExpireType : Z := 2.
(** src/nfs4/attr/bitmap.go:27-27 *)
Definition AttrChange : Z := 3.
(** src/nfs4/attr/bitmap.go:28-28 *)
Definition AttrSize : Z := 4.
(** src/nfs4/attr/bitmap.go:29-29 *)
Definition AttrLinkSupport : Z := 5.
(** src/nfs4/attr/bitmap.go:30-30 *)
Definition AttrSymlinkSupport : Z := 6.
(** src/nfs4/attr/bitmap.go:31-31 *)
Definition AttrNamedAttr : Z := 7.
(** src/nfs4/attr/bitmap.go:32-32 *)
Definition AttrFSID : Z := 8.
(** src/nfs4/attr/bitmap.go:33-33 *)
Definition AttrLeaseTime : Z := 10.
(** src/nfs4/attr/bitmap.go:34-34 *)
Definition AttrFileID : Z := 20.
(** src/nfs4/attr/bitmap.go:35-35 *)
Definition AttrFilesAvail : Z := 21.
(** src/nfs4/attr/bitmap.go:36-36 *)
Definition AttrFilesFree : Z := 22.
(** src/nfs4/attr/bitmap.go:37-37 *)
Definition AttrFilesTotal : Z := 23.
(** src/nfs4/attr/bitmap.go:38-38 *)
Definition AttrMaxName : Z := 30.
(** src/nfs4/attr/bitmap.go:39-39 *)
Definition AttrMaxRead : Z := 31.
(** src/nfs4/attr/bitmap.go:40-40 *)
Definition AttrMaxWrite : Z := 32.
(** src/nfs4/attr/bitmap.go:41-41 *)
Definition AttrMode : Z := 33.
(** src/nfs4/attr/bitmap.go:42-42 *)
Definition AttrNumLinks : Z := 35.
(** src/nfs4/attr/bitmap.go:43-43 *)
Definition AttrOwner : Z := 36.
(** src/nfs4/attr/bitmap.go:44-44 *)
Definition AttrOwnerGroup : Z := 37.
(** src/nfs4/attr/bitmap.go:45-45 *)
Definition AttrRawDev : Z := 41.
(** src/nfs4/attr/bitmap.go:46-46 *)
Definition AttrSpaceAvail : Z := 42.
(** src/nfs4/attr/bitmap.go:47-47 *)
Definition AttrSpaceFree : Z := 43.
(** src/nfs4/attr/bitmap.go:48-48 *)
Definition AttrSpaceTotal : Z := 44.
(** src/nfs4/attr/bitmap.go:49-49 *)
Definition AttrSpaceUsed : Z := 45.
(** src/nfs4/attr/bitmap.go:50-50 *)
Definition AttrTimeAccess : Z := 47.
(** src/nfs4/attr/bitmap.go:51-51 *)
Definition AttrTimeMetadata : Z := 52.
(** src/nfs4/attr/bitmap.go:52-52 *)
Definition AttrTimeModify : Z := 53.

(** src/nfs4/attr/bitmap.go:57-57 *)
Definition Bitmap : Type := list Z.

(** src/nfs4/attr/bitmap.go:60-73 *)
Definition BitmapFor (attrs : list Z) : list Z :=
  let max := fold_left (fun max a => if max <? a then a else max) attrs 0 in
  let words := max / 32 + 1 in
  let bm := replicate (Z.to_nat words) 0 in
  fold_left (fun bm a =>
    alter (fun w => Z.lor w (Z.shiftl 1 (a mod 32))) (Z.to_nat (a / 32)) bm) attrs bm.

(** src/nfs4/attr/bitmap.go:76-82 *)
Definition Has (b : list Z) (a : Z) : bool :=
  let word := a / 32 in
  if blen b <=? word then false
  else negb (Z.land (nth (Z.to_nat word) b 0) (Z.shiftl 1 (a mod 32)) =? 0).

(** The inner loop of [SetAttrs]: the bits of one word, in increasing order. *)
Definition wordAttrs (word : nat) (w : Z) : list Z :=
  omap (fun bit : nat =>
    if negb (Z.land w (Z.shiftl 1 (Z.of_nat bit)) =? 0)
    then Some (u32 (Z.of_nat word * 32 + Z.of_nat bit)) else None) (seq 0 32).

(** src/nfs4/attr/bitmap.go:86-96 *)
Definition SetAttrs (b : list Z) : list Z :=
  concat (imap wordAttrs b).

(** src/nfs4/attr/bitmap.go:99-104 *)
Definition attr_Bitmap_Encode (b : list Z) : Encoder.t -> Encoder.t :=
  (Encoder.Uint32 (u32 (blen b)) ;;
   each Encoder.Uint32 b)%enc.

(** [for i := range bm { bm[i] = d.Uint32() }] *)
Fixpoint decode_words (n : nat) : Dec (list Z) :=
  match n with
  | O => mret []
  | S n => w ← D.Uint32; ws ← decode_words n; mret (w :: ws)
  end.

(** src/nfs4/attr/bitmap.go:107-117 *)
Definition attr_DecodeBitmap : Dec (list Z) :=
  n ← D.Uint32;
  err ← D.Err;
  match err with
  | Some _ => mret []
  | None => decode_words (Z.to_nat n)
  end.

(** src/nfs4/attr/bitmap.go:121-127 *)
Definition StandardMask : list Z :=
  BitmapFor [AttrType; AttrSize; AttrFSID; AttrFileID;
    AttrMode; AttrNumLinks; AttrOwner; AttrOwnerGroup;
    AttrRawDev; AttrSpaceUsed; AttrTimeAccess; AttrTimeMetadata; AttrTimeModify].

(** src/nfs4/attr/bitmap.go:131-136 *)
Definition StatvfsMask : list Z :=
  BitmapFor [AttrFSID; AttrFilesAvail; AttrFilesFree; AttrFilesTotal; AttrMaxName;
    AttrSpaceAvail; AttrSpaceFree; AttrSpaceTotal].

(** ** Attribute values *)

(** src/nfs4/attr/attr.go:31-31 *)
Definition FtypeReg : Z := 1.
(** src/nfs4/attr/attr.go:32-32 *)
Definition FtypeDir : Z := 2.
(** src/nfs4/attr/attr.go:33-33 *)
Definition FtypeBlk : Z := 3.
(** src/nfs4/attr/attr.go:34-34 *)
Definition FtypeChr : Z := 4.
(** src/nfs4/attr/attr.go:35-35 *)
Definition FtypeLnk : Z := 5.
(** src/nfs4/attr/attr.go:36-36 *)
Definition FtypeSock : Z := 6.
(** src/nfs4/attr/attr.go:37-37 *)
Definition FtypeFifo : Z := 7.
(** src/nfs4/attr/attr.go:38-38 *)
Definition FtypeAttrDir : Z := 8.
(** src/nfs4/attr/attr.go:39-39 *)
Definition FtypeNamedAt : Z := 9.

(** src/nfs4/attr/attr.go:43-46 *)
Record FSID := mkFSID { Major : Z; Minor : Z }.

(** src/nfs4/attr/attr.go:49-52 *)
Record SpecData := mkSpecData { Spec1 : Z; Spec2 : Z }.

(** A [time.Time] in UTC. *)
Record Time := mkTime { unix : Z; nanosecond : Z }.

(** [time.Time{}]: January 1, year 1. *)
Definition zeroTime : Time := mkTime (- 62135596800) 0.

(** [time.Unix(sec, nsec)] for a non-negative [nsec]: whole seconds are carried. *)
Definition time_Unix (sec nsec : Z) : Time :=
  mkTime (i64 (sec + nsec / 1000000000)) (nsec mod 1000000000).

(** src/nfs4/attr/attr.go:57-73 *)
Record Attributes := mkAttributes {
  a_Present : list Z;
  a_Type : Z;
  a_Size : Z;
  a_FSID : FSID;
  a_FileID : Z;
  a_Mode : Z;
  a_NumLinks : Z;
  a_Owner : bytes;
  a_OwnerGroup : bytes;
  a_RawDev : SpecData;
  a_SpaceUsed : Z;
  a_TimeAccess : Time;
  a_TimeMeta : Time;
  a_TimeModify : Time
}.

(** Assignments [a.F = v]. *)
Definition set_a_Type (v : Z) (a : Attributes) : Attributes :=
  mkAttributes (a_Present a) v (a_Size a) (a_FSID a) (a_FileID a) (a_Mode a) (a_NumLinks a) (a_Owner a) (a_OwnerGroup a) (a_RawDev a) (a_SpaceUsed a) (a_TimeAccess a) (a_TimeMeta a) (a_TimeModify a).
Definition set_a_Size (v : Z) (a : Attributes) : Attributes :=
  mkAttributes (a_Present a) (a_Type a) v (a_FSID a) (a_FileID a) (a_Mode a) (a_NumLinks a) (a_Owner a) (a_OwnerGroup a) (a_RawDev a) (a_SpaceUsed a) (a_TimeAccess a) (a_TimeMeta a) (a_TimeModify a).
Definition set_a_FSID (v : FSID) (a : Attributes) : Attributes :=
  mkAttributes (a_Present a) (a_Type a) (a_Size a) v (a_FileID a) (a_Mode a) (a_NumLinks a) (a_Owner a) (a_OwnerGroup a) (a_RawDev a) (a_SpaceUsed a) (a_TimeAccess a) (a_TimeMeta a) (a_TimeModify a).
Definition set_a_FileID (v : Z) (a : Attributes) : Attributes :=
  mkAttributes (a_Present a) (a_Type a) (a_Size a) (a_FSID a) v (a_Mode a) (a_NumLinks a) (a_Owner a) (a_OwnerGroup a) (a_RawDev a) (a_SpaceUsed a) (a_TimeAccess a) (a_TimeMeta a) (a_TimeModify a).
Definition set_a_Mode (v : Z) (a : Attributes) : Attributes :=
  mkAttributes (a_Present a) (a_Type a) (a_Size a) (a_FSID a) (a_FileID a) v (a_NumLinks a) (a_Owner a) (a_OwnerGroup a) (a_RawDev a) (a_SpaceUsed a) (a_TimeAccess a) (a_TimeMeta a) (a_TimeModify a).
Definition set_a_NumLinks (v : Z) (a : Attributes) : Attributes :=
  mkAttributes (a_Present a) (a_Type a) (a_Size a) (a_FSID a) (a_FileID a) (a_Mode a) v (a_Owner a) (a_OwnerGroup a) (a_RawDev a) (a_SpaceUsed a) (a_TimeAccess a) (a_TimeMeta a) (a_TimeModify a).
Definition set_a_Owner (v : bytes) (a : Attributes) : Attributes :=
  mkAttributes (a_Present a) (a_Type a) (a_Size a) (a_FSID a) (a_FileID a) (a_Mode a) (a_NumLinks a) v (a_OwnerGroup a) (a_RawDev a) (a_SpaceUsed a) (a_TimeAccess a) (a_TimeMeta a) (a_TimeModify a).
Definition set_a_OwnerGroup (v : bytes) (a : Attributes) : Attributes :=
  mkAttributes (a_Present a) (a_Type a) (a_Size a) (a_FSID a) (a_FileID a) (a_Mode a) (a_NumLinks a) (a_Owner a) v (a_RawDev a) (a_SpaceUsed a) (a_TimeAccess a) (a_TimeMeta a) (a_TimeModify a).
Definition set_a_RawDev (v : SpecData) (a : Attributes) : Attributes :=
  mkAttributes (a_Present a) (a_Type a) (a_Size a) (a_FSID a) (a_FileID a) (a_Mode a) (a_NumLinks a) (a_Owner a) (a_OwnerGroup a) v (a_SpaceUsed a) (a_TimeAccess a) (a_TimeMeta a) (a_TimeModify a).
Definition set_a_SpaceUsed (v : Z) (a : Attributes) : Attributes :=
  mkAttributes (a_Present a) (a_Type a) (a_Size a) (a_FSID a) (a_FileID a) (a_Mode a) (a_NumLinks a) (a_Owner a) (a_OwnerGroup a) (a_RawDev a) v (a_TimeAccess a) (a_TimeMeta a) (a_TimeModify a).
Definition set_a_TimeAccess (v : Time) (a : Attributes) : Attributes :=
  mkAttributes (a_Present a) (a_Type a) (a_Size a) (a_FSID a) (a_FileID a) (a_Mode a) (a_NumLinks a) (a_Owner a) (a_OwnerGroup a) (a_RawDev a) (a_SpaceUsed a) v (a_TimeMeta a) (a_TimeModify a).
Definition set_a_TimeMeta (v : Time) (a : Attributes) : Attributes :=
  mkAttributes (a_Present a) (a_Type a) (a_Size a) (a_FSID a) (a_FileID a) (a_Mode a) (a_NumLinks a) (a_Owner a) (a_OwnerGroup a) (a_RawDev a) (a_SpaceUsed a) (a_TimeAccess a) v (a_TimeModify a).
Definition set_a_TimeModify (v : Time) (a : Attributes) : Attributes :=
  mkAttributes (a_Present a) (a_Type a) (a_Size a) (a_FSID a) (a_FileID a) (a_Mode a) (a_NumLinks a) (a_Owner a) (a_OwnerGroup a) (a_RawDev a) (a_SpaceUsed a) (a_TimeAccess a) (a_TimeMeta a) v.

(** [&Attributes{Present: mask}] *)
Definition newAttributes (mask : list Z) : Attributes :=
  mkAttributes mask 0 0 (mkFSID 0 0) 0 0 0 [] [] (mkSpecData 0 0) 0 zeroTime zeroTime zeroTime.

(** src/nfs4/attr/attr.go:126-133 *)
Definition decodeTime : Dec Time :=
  secs ← D.Int64;
  nsecs ← D.Uint32;
  err ← D.Err;
  mret (match err with Some _ => zeroTime | None => time_Unix secs nsecs end).

(** The switch of [Decode]; [None] is its default case.
    src/nfs4/attr/attr.go:83-116 *)
Definition decodeAttr (num : Z) (a : Attributes) : option (Dec Attributes) :=
  if num =? AttrType then Some (v ← D.Uint32; mret (set_a_Type v a))
  else if num =? AttrSize then Some (v ← D.Uint64; mret (set_a_Size v a))
  else if num =? AttrFSID then
    Some (major ← D.Uint64; minor ← D.Uint64; mret (set_a_FSID (mkFSID major minor) a))
  else if num =? AttrFileID then Some (v ← D.Uint64; mret (set_a_FileID v a))
  else if num =? AttrMode then Some (v ← D.Uint32; mret (set_a_Mode v a))
  else if num =? AttrNumLinks then Some (v ← D.Uint32; mret (set_a_NumLinks v a))
  else if num =? AttrOwner then Some (v ← D.String; mret (set_a_Owner v a))
  else if num =? AttrOwnerGroup then Some (v ← D.String; mret (set_a_OwnerGroup v a))
  else if num =? AttrRawDev then
    Some (s1 ← D.Uint32; s2 ← D.Uint32; mret (set_a_RawDev (mkSpecData s1 s2) a))
  else if num =? AttrSpaceUsed then Some (v ← D.Uint64; mret (set_a_SpaceUsed v a))
  else if num =? AttrTimeAccess then Some (v ← decodeTime; mret (set_a_TimeAccess v a))
  else if num =? AttrTimeMetadata then Some (v ← decodeTime; mret (set_a_TimeMeta v a))
  else if num =? AttrTimeModify then Some (v ← decodeTime; mret (set_a_TimeModify v a))
  else None.

(** The loop [for _, num := range mask.SetAttrs()] of a decoder whose switch is
    [switch], with the two error messages of its caller. *)
Fixpoint decode_loop {A} (switch : Z -> A -> option (Dec A)) (unsupported decoding : string)
    (nums : list Z) (a : A) : Dec (result A) :=
  match nums with
  | [] => mret (inr a)
  | num :: nums =>
      match switch num a with
      | None => mret (inl (Errorf unsupported [Fz num]))
      | Some m =>
          a ← m;
          err ← D.Err;
          match err with
          | Some e => mret (inl (Wrapf decoding [Fz num] e))
          | None => decode_loop switch unsupported decoding nums a
          end
      end
  end.

(** src/nfs4/attr/attr.go:78-122 *)
Definition attr_Decode (mask : list Z) (vals : bytes) : result Attributes :=
  (decode_loop decodeAttr "attr: cannot decode unsupported attribute %d"
     "attr: decoding attribute %d: %w" (SetAttrs mask) (newAttributes mask)
     (Decoder.NewDecoder (bytes_NewReader vals))).1.

(** *** io/fs views *)

(** The bits of [fs.FileMode]. *)
Definition ModeDir : Z := 2 ^ 31.
Definition ModeSymlink : Z := 2 ^ 27.
Definition ModeDevice : Z := 2 ^ 26.
Definition ModeNamedPipe : Z := 2 ^ 25.
Definition ModeSocket : Z := 2 ^ 24.
Definition ModeSetuid : Z := 2 ^ 23.
Definition ModeSetgid : Z := 2 ^ 22.
Definition ModeCharDevice : Z := 2 ^ 21.
Definition ModeSticky : Z := 2 ^ 20.
Definition FileMode_IsDir (m : Z) : bool := negb (Z.land m ModeDir =? 0).

(** src/nfs4/attr/attr.go:136-163 *)
Definition FileMode (a : Attributes) : Z :=
  let mode := Z.land (a_Mode a) 511 in
  let mode := if negb (Z.land (a_Mode a) 2048 =? 0) then Z.lor mode ModeSetuid else mode in
  let mode := if negb (Z.land (a_Mode a) 1024 =? 0) then Z.lor mode ModeSetgid else mode in
  let mode := if negb (Z.land (a_Mode a) 512 =? 0) then Z.lor mode ModeSticky else mode in
  let t := a_Type a in
  if (t =? FtypeDir) || (t =? FtypeAttrDir) then Z.lor mode ModeDir
  else if t =? FtypeLnk then Z.lor mode ModeSymlink
  else if t =? FtypeBlk then Z.lor mode ModeDevice
  else if t =? FtypeChr then Z.lor mode (Z.lor ModeDevice ModeCharDevice)
  else if t =? FtypeSock then Z.lor mode ModeSocket
  else if t =? FtypeFifo then Z.lor mode ModeNamedPipe
  else mode.

(** src/nfs4/attr/attr.go:171-174 *)
Record fileInfo := mkFileInfo { fi_name : bytes; fi_attrs : Attributes }.

(** src/nfs4/attr/attr.go:166-168 *)
Definition FileInfo (a : Attributes) (name : bytes) : fileInfo := mkFileInfo name a.

(** src/nfs4/attr/attr.go:176-176 *)
Definition fileInfo_Name (fi : fileInfo) : bytes := fi_name fi.
(** src/nfs4/attr/attr.go:177-177 *)
Definition fileInfo_Size (fi : fileInfo) : Z := i64 (a_Size (fi_attrs fi)).
(** src/nfs4/attr/attr.go:178-178 *)
Definition fileInfo_Mode (fi : fileInfo) : Z := FileMode (fi_attrs fi).
(** src/nfs4/attr/attr.go:179-179 *)
Definition fileInfo_ModTime (fi : fileInfo) : Time := a_TimeModify (fi_attrs fi).
(** src/nfs4/attr/attr.go:180-180 *)
Definition fileInfo_IsDir (fi : fileInfo) : bool := FileMode_IsDir (FileMode (fi_attrs fi)).
(** src/nfs4/attr/attr.go:181-181 *)
Definition fileInfo_Sys (fi : fileInfo) : Attributes := fi_attrs fi.

(** ** Settable attributes *)

(** src/nfs4/attr/encode.go:26-26 *)
Definition setToServerTime4 : Z := 0.
(** src/nfs4/attr/encode.go:27-27 *)
Definition setToClientTime4 : Z := 1.

(** src/nfs4/attr/encode.go:32-37 *)
Record SettableAttrs := mkSettableAttrs {
  sa_Mode : option Z;
  sa_Size : option Z;
  sa_TimeAccess : option Time;
  sa_TimeModify : option Time
}.

(** src/nfs4/attr/encode.go:79-83 *)
Definition encodeSettime (t : Time) : Encoder.t -> Encoder.t :=
  (Encoder.Uint32 setToClientTime4 ;;
   Encoder.Int64 (unix t) ;;
   Encoder.Uint32 (u32 (nanosecond t)))%enc.

(** [if p != nil] guarding one encoder statement. *)
Definition when_set {A} (p : option A) (f : A -> Encoder.t -> Encoder.t) (e : Encoder.t) : Encoder.t :=
  match p with Some v => f v e | None => e end.

Definition num_if {A} (p : option A) (n : Z) : list Z := if p is Some _ then [n] else [].

(** src/nfs4/attr/encode.go:43-75 *)
Definition EncodeFattr (s : SettableAttrs) : list Z * bytes :=
  let nums := num_if (sa_Size s) AttrSize ++ num_if (sa_Mode s) AttrMode
              ++ num_if (sa_TimeAccess s) AttrTimeAccess ++ num_if (sa_TimeModify s) AttrTimeModify in
  let mask := BitmapFor nums in
  let e := Encoder.NewEncoder bytes_Buffer in
  let e := (when_set (sa_Size s) Encoder.Uint64 ;;
            when_set (sa_Mode s) Encoder.Uint32 ;;
            when_set (sa_TimeAccess s) encodeSettime ;;
            when_set (sa_TimeModify s) encodeSettime)%enc e in
  (mask, w_out (Encoder.w e)).

(** ** Filesystem statistics *)

(** src/nfs4/attr/statvfs.go:28-39 *)
Record Statvfs := mkStatvfs {
  s_Present : list Z;
  s_FSID : FSID;
  s_FilesAvail : Z;
  s_FilesFree : Z;
  s_FilesTotal : Z;
  s_MaxName : Z;
  s_SpaceAvail : Z;
  s_SpaceFree : Z;
  s_SpaceTotal : Z
}.

Definition set_s_FSID (v : FSID) (a : Statvfs) : Statvfs :=
  mkStatvfs (s_Present a) v (s_FilesAvail a) (s_FilesFree a) (s_FilesTotal a) (s_MaxName a) (s_SpaceAvail a) (s_SpaceFree a) (s_SpaceTotal a).
Definition set_s_FilesAvail (v : Z) (a : Statvfs) : Statvfs :=
  mkStatvfs (s_Present a) (s_FSID a) v (s_FilesFree a) (s_FilesTotal a) (s_MaxName a) (s_SpaceAvail a) (s_SpaceFree a) (s_SpaceTotal a).
Definition set_s_FilesFree (v : Z) (a : Statvfs) : Statvfs :=
  mkStatvfs (s_Present a) (s_FSID a) (s_FilesAvail a) v (s_FilesTotal a) (s_MaxName a) (s_SpaceAvail a) (s_SpaceFree a) (s_SpaceTotal a).
Definition set_s_FilesTotal (v : Z) (a : Statvfs) : Statvfs :=
  mkStatvfs (s_Present a) (s_FSID a) (s_FilesAvail a) (s_FilesFree a) v (s_MaxName a) (s_SpaceAvail a) (s_SpaceFree a) (s_SpaceTotal a).
Definition set_s_MaxName (v : Z) (a : Statvfs) : Statvfs :=
  mkStatvfs (s_Present a) (s_FSID a) (s_FilesAvail a) (s_FilesFree a) (s_FilesTotal a) v (s_SpaceAvail a) (s_SpaceFree a) (s_SpaceTotal a).
Definition set_s_SpaceAvail (v : Z) (a : Statvfs) : Statvfs :=
  mkStatvfs (s_Present a) (s_FSID a) (s_FilesAvail a) (s_FilesFree a) (s_FilesTotal a) (s_MaxName a) v (s_SpaceFree a) (s_SpaceTotal a).
Definition set_s_SpaceFree (v : Z) (a : Statvfs) : Statvfs :=
  mkStatvfs (s_Present a) (s_FSID a) (s_FilesAvail a) (s_FilesFree a) (s_FilesTotal a) (s_MaxName a) (s_SpaceAvail a) v (s_SpaceTotal a).
Definition set_s_SpaceTotal (v : Z) (a : Statvfs) : Statvfs :=
  mkStatvfs (s_Present a) (s_FSID a) (s_FilesAvail a) (s_FilesFree a) (s_FilesTotal a) (s_MaxName a) (s_SpaceAvail a) (s_SpaceFree a) v.

(** The switch of [DecodeStatvfs].  src/nfs4/attr/statvfs.go:49-71 *)
Definition decodeStatvfsAttr (num : Z) (s : Statvfs) : option (Dec Statvfs) :=
  if num =? AttrFSID then
    Some (major ← D.Uint64; minor ← D.Uint64; mret (set_s_FSID (mkFSID major minor) s))
  else if num =? AttrFilesAvail then Some (v ← D.Uint64; mret (set_s_FilesAvail v s))
  else if num =? AttrFilesFree then Some (v ← D.Uint64; mret (set_s_FilesFree v s))
  else if num =? AttrFilesTotal then Some (v ← D.Uint64; mret (set_s_FilesTotal v s))
  else if num =? AttrMaxName then Some (v ← D.Uint32; mret (set_s_MaxName v s))
  else if num =? AttrSpaceAvail then Some (v ← D.Uint64; mret (set_s_SpaceAvail v s))
  else if num =? AttrSpaceFree then Some (v ← D.Uint64; mret (set_s_SpaceFree v s))
  else if num =? AttrSpaceTotal then Some (v ← D.Uint64; mret (set_s_SpaceTotal v s))
  else None.

(** src/nfs4/attr/statvfs.go:44-77 *)
Definition DecodeStatvfs (mask : list Z) (vals : bytes) : result Statvfs :=
  (decode_loop decodeStatvfsAttr "attr: cannot decode unsupported statvfs attribute %d"
     "attr: decoding statvfs attribute %d: %w" (SetAttrs mask) (mkStatvfs mask (mkFSID 0 0) 0 0 0 0 0 0 0)
     (Decoder.NewDecoder (bytes_NewReader vals))).1.
