(* ===== verification/AttrCorrect.v ===== *)
(** * Package nfs4/attr: theorems *)

From S2P Require Import Prelude GoError GoIO Xdr XdrSpec XdrCorrect Attr.

(** ** Bitmaps *)

Lemma Has_testbit b a : 0 <= a ->
  Has b a = Z.testbit (nth (Z.to_nat (a / 32)) b 0) (a mod 32).
Proof.
  intros Ha. unfold Has. destruct (Z.leb_spec (blen b) (a / 32)) as [H|H].
  - rewrite nth_overflow by (unfold blen in H; lia). by rewrite Z.bits_0.
  - apply land_bit. lia.
Qed.

Lemma nth_alter (f : Z -> Z) (i j : nat) (bm : list Z) : (j < length bm)%nat ->
  nth i (alter f j bm) 0 = if decide (i = j) then f (nth i bm 0) else nth i bm 0.
Proof.
  intros Hj. rewrite !nth_lookup. destruct (decide (i = j)) as [->|].
  - rewrite list_lookup_alter_eq. destruct (lookup_lt_is_Some_2 _ _ Hj) as [x ->]. done.
  - by rewrite list_lookup_alter_ne by done.
Qed.

(** Setting the bits of a list of attributes in a bitmap long enough for them. *)
Lemma set_bits_spec attrs : forall bm (a : Z), 0 <= a ->
  Forall (fun x => 0 <= x /\ (Z.to_nat (x / 32) < length bm)%nat) attrs ->
  Has (fold_left (fun bm a => alter (fun w => Z.lor w (Z.shiftl 1 (a mod 32))) (Z.to_nat (a / 32)) bm)
         attrs bm) a = Has bm a || existsb (Z.eqb a) attrs.
Proof.
  induction attrs as [|x attrs IH]; intros bm a Ha Hx; cbn [fold_left existsb].
  - by rewrite orb_false_r.
  - apply Forall_cons in Hx as [[Hx0 Hxl] Hx]. rewrite IH; [|done|by rewrite length_alter].
    rewrite orb_assoc. f_equal. rewrite !Has_testbit, nth_alter by done.
    destruct (decide _) as [E|E].
    + rewrite Z.lor_spec, Z.shiftl_1_l, Z.pow2_bits_eqb by lia. f_equal.
      bool_cases; try done; exfalso; lia.
    + destruct (Z.eqb_spec a x) as [->|]; [done|]. by rewrite orb_false_r.
Qed.

Lemma fold_max_ge attrs : forall m, m <= fold_left (fun max a => if max <? a then a else max) attrs m
  /\ Forall (fun x => x <= fold_left (fun max a => if max <? a then a else max) attrs m) attrs.
Proof.
  induction attrs as [|x attrs IH]; intros m; cbn [fold_left]; [split; [lia|constructor]|].
  destruct (IH (if m <? x then x else m)) as [H1 H2]. bool_cases; (split; [lia|constructor; [lia|done]]).
Qed.

Lemma fold_max_lt attrs B : forall m, m < B -> Forall (fun x => x < B) attrs ->
  fold_left (fun max a => if max <? a then a else max) attrs m < B.
Proof.
  induction attrs as [|x attrs IH]; intros m Hm Hx; [done|]. apply Forall_cons in Hx as [? ?].
  cbn. apply IH; [|done]. by destruct (m <? x).
Qed.

Lemma Has_replicate n a : 0 <= a -> Has (replicate n 0) a = false.
Proof.
  intros. rewrite Has_testbit by done. enough (nth (Z.to_nat (a / 32)) (replicate n 0) 0 = 0) as ->
    by apply Z.bits_0.
  rewrite nth_lookup. destruct (replicate n 0 !! _) eqn:E; [|done].
  by apply lookup_replicate in E as [-> _].
Qed.

Lemma BitmapFor_Has attrs a : Forall is_u32 attrs -> 0 <= a ->
  Has (BitmapFor attrs) a = existsb (Z.eqb a) attrs.
Proof.
  intros Hu Ha. unfold BitmapFor. destruct (fold_max_ge attrs 0) as [H0 Hm].
  set (max := fold_left _ attrs 0) in *. rewrite set_bits_spec; [by rewrite Has_replicate|done|].
  rewrite length_replicate. rewrite Forall_forall in *. intros x Hx.
  specialize (Hu x Hx). specialize (Hm x Hx). cbn in Hm. unfold is_u32 in Hu. lia.
Qed.

Lemma fold_alter_length attrs : forall bm,
  length (fold_left (fun bm a => alter (fun w => Z.lor w (Z.shiftl 1 (a mod 32))) (Z.to_nat (a / 32)) bm)
         attrs bm) = length bm.
Proof. induction attrs as [|x attrs IH]; intros bm; cbn; [done|]. by rewrite IH, length_alter. Qed.

Lemma BitmapFor_blen attrs : Forall is_u32 attrs -> blen (BitmapFor attrs) <= 2 ^ 27.
Proof.
  intros Hu. unfold BitmapFor, blen. rewrite fold_alter_length, length_replicate.
  destruct (fold_max_ge attrs 0) as [H0 _].
  enough (fold_left (fun max a => if max <? a then a else max) attrs 0 < 2 ^ 32) by int_lia.
  apply fold_max_lt; [done|]. eapply Forall_impl; [exact Hu|]. unfold is_u32. cbn. lia.
Qed.

(** *** SetAttrs *)

Lemma wordAttrs_elem word w a : Z.of_nat word < 2 ^ 27 ->
  a ∈ wordAttrs word w <-> a / 32 = Z.of_nat word /\ Z.testbit w (a mod 32) = true.
Proof.
  intros Hw. unfold wordAttrs. rewrite list_elem_of_omap. split.
  - intros (bit & [_ Hb]%elem_of_seq & E). rewrite land_bit in E by lia.
    destruct (Z.testbit w (Z.of_nat bit)) eqn:B; [|done]. injection E as <-.
    rewrite u32_id by int_lia. replace ((Z.of_nat word * 32 + Z.of_nat bit) mod 32) with (Z.of_nat bit) by lia.
    split; [lia|done].
  - intros [Hq Hb]. exists (Z.to_nat (a mod 32)). rewrite land_bit, Z2Nat.id by lia.
    rewrite Hb. split; [apply elem_of_seq; lia|]. f_equal. rewrite u32_id by int_lia. lia.
Qed.

Lemma wordAttrs_sorted word w : Z.of_nat word < 2 ^ 27 -> StronglySorted Z.lt (wordAttrs word w).
Proof.
  intros Hw. unfold wordAttrs. apply (StronglySorted_omap lt); [|apply StronglySorted_seq].
  intros x y a b [_ Hx]%elem_of_seq [_ Hy]%elem_of_seq Hxy Ha Hb.
  destruct (negb _) in Ha; [|done]. destruct (negb _) in Hb; [|done].
  apply Some_inj in Ha, Hb. rewrite u32_id in Ha, Hb by (clear -Hw Hx Hy; int_lia). lia.
Qed.

Lemma SetAttrs_elem b a : blen b <= 2 ^ 27 -> 0 <= a ->
  a ∈ SetAttrs b <-> Has b a = true.
Proof.
  intros Hb Ha. unfold SetAttrs. rewrite list_elem_of_In, in_concat. rewrite Has_testbit by done. split.
  - intros (l & Hl & Hin). apply list_elem_of_In, elem_of_lookup_imap in Hl as (i & w & -> & Hi).
    pose proof (lookup_lt_Some _ _ _ Hi). unfold blen in Hb.
    apply list_elem_of_In, wordAttrs_elem in Hin as [Hq Hbit]; [|lia].
    rewrite Hq, Nat2Z.id, nth_lookup, Hi. done.
  - intros Hbit. exists (wordAttrs (Z.to_nat (a / 32)) (nth (Z.to_nat (a / 32)) b 0)).
    destruct (decide (Z.to_nat (a / 32) < length b)%nat) as [Hlt|Hge].
    + split; [|apply list_elem_of_In, wordAttrs_elem; [unfold blen in Hb; lia|split; [lia|done]]].
      apply list_elem_of_In, elem_of_lookup_imap.
      destruct (lookup_lt_is_Some_2 _ _ Hlt) as [w Hw]. exists (Z.to_nat (a / 32)), w.
      split; [|done]. by rewrite nth_lookup, Hw.
    + rewrite nth_overflow, Z.bits_0 in Hbit by lia. done.
Qed.

Lemma SetAttrs_bounds b : blen b <= 2 ^ 27 ->
  StronglySorted Z.lt (SetAttrs b) /\ Forall (fun x => 0 <= x) (SetAttrs b).
Proof.
  intros Hb. unfold SetAttrs. apply (StronglySorted_concat _ (fun i => 32 * Z.of_nat i)); [|lia].
  intros i l E. rewrite list_lookup_imap in E. apply fmap_Some in E as (w & Hi & ->).
  pose proof (lookup_lt_Some _ _ _ Hi). unfold blen in Hb.
  split; [apply wordAttrs_sorted; lia|]. rewrite Forall_forall. intros x Hx.
  apply wordAttrs_elem in Hx as [? _]; [|lia]. lia.
Qed.

(** The attributes of a bitmap built from a strictly increasing list. *)
Lemma SetAttrs_BitmapFor l : Forall is_u32 l -> StronglySorted Z.lt l -> SetAttrs (BitmapFor l) = l.
Proof.
  intros Hu Hs. pose proof (BitmapFor_blen l Hu) as Hb.
  destruct (SetAttrs_bounds _ Hb) as [Hs' Hp]. rewrite Forall_forall in Hp.
  apply sorted_ext; [done..|]. intros x.
  assert (0 <= x -> x ∈ SetAttrs (BitmapFor l) <-> x ∈ l) as H.
  { intros Hx. rewrite SetAttrs_elem, BitmapFor_Has by done. rewrite existsb_exists. split.
    - intros (y & Hy & ->%Z.eqb_eq). by apply list_elem_of_In.
    - intros Hin. exists x. split; [by apply list_elem_of_In|apply Z.eqb_refl]. }
  split; intros Hx.
  - by apply H; [apply Hp|].
  - apply H; [|done]. rewrite Forall_forall in Hu. apply Hu in Hx. apply Hx.
Qed.

(** ** Decoding: the loop over the mask *)

(** What the loop promises when every attribute of the mask is one the switch
    knows: it consumes the fields in mask order and applies them in that order. *)
Section decode_loop.
Context {A : Type} (switch : Z -> A -> option (Dec A)) (unsupported decoding : string).
Context (wire_field : Z -> bytes) (copy : Z -> A -> A).

Definition knows (num : Z) : Prop := forall a, exists m, switch num a = Some m
  /\ parses m (wire_field num) (copy num a) /\ cuts m (wire_field num).

Context (switch_sticky : forall num a m, switch num a = Some m -> Sticky m).

Lemma decode_loop_sticky nums : forall a, Sticky (decode_loop switch unsupported decoding nums a).
Proof.
  induction nums as [|num nums IH]; intros a; [apply _|]. cbn [decode_loop].
  destruct (switch num a) as [m|] eqn:E; [|apply _]. pose proof (switch_sticky _ _ _ E).
  apply sticky_bind; [done|]. intros a'. apply sticky_bind; [apply _|]. intros [?|]; [apply _|apply IH].
Qed.

Lemma decode_loop_parses nums : Forall knows nums -> forall a,
  parses (decode_loop switch unsupported decoding nums a) (concat (map wire_field nums))
    (inr (fold_left (fun a num => copy num a) nums a)).
Proof.
  induction 1 as [|num nums Hk _ IH]; intros a; [apply parses_ret|]. cbn [decode_loop map concat fold_left].
  destruct (Hk a) as (m & -> & Hm & _). eapply parses_bind; [exact Hm|].
  eapply parses_bind_nil; [apply parses_Err|]. apply IH.
Qed.

Lemma decode_loop_cuts nums : Forall knows nums -> forall a,
  cuts (decode_loop switch unsupported decoding nums a) (concat (map wire_field nums)).
Proof.
  induction 1 as [|num nums Hk _ IH]; intros a; [apply cuts_ret|]. cbn [decode_loop map concat].
  destruct (Hk a) as (m & -> & Hm & Hc).
  eapply cuts_bind; [exact Hc|exact Hm| |].
  - intros d q Hd. unfold mbind, Dec_bind, D.Err. rewrite (healthy_err _ Hd). by apply IH.
  - intros a'. apply sticky_bind; [apply _|]. intros [?|]; [apply _|apply decode_loop_sticky].
Qed.

(** A result is only returned by a decoder without an error, and only when
    every attribute was known. *)
Lemma decode_loop_inr nums : forall a d r d',
  decode_loop switch unsupported decoding nums a d = (inr r, d') -> Decoder.err d = None ->
  Decoder.err d' = None /\ Forall (fun num => exists a m, switch num a = Some m) nums.
Proof.
  induction nums as [|num nums IH]; intros a d r d' E He; cbn [decode_loop] in E.
  - injection E as <- <-. by split.
  - destruct (switch num a) as [m|] eqn:Es; [|done].
    apply Dec_bind_inv in E as (a1 & d1 & _ & E). unfold mbind, Dec_bind, D.Err in E.
    destruct (Decoder.err d1) eqn:He1; [done|]. destruct (IH _ _ _ _ E He1) as [? ?].
    split; [done|]. constructor; [eauto|done].
Qed.

(** An attribute the switch does not know ends the loop with its number. *)
Lemma decode_loop_unsupported pre num post : Forall knows pre -> (forall a, switch num a = None) ->
  forall a, parses (decode_loop switch unsupported decoding (pre ++ num :: post) a)
    (concat (map wire_field pre)) (inl (Errorf unsupported [Fz num])).
Proof.
  intros Hpre Hnum. induction Hpre as [|x pre Hk _ IH]; intros a; cbn [decode_loop map concat app].
  - rewrite Hnum. apply parses_ret.
  - destruct (Hk a) as (m & -> & Hm & _). eapply parses_bind; [exact Hm|].
    eapply parses_bind_nil; [apply parses_Err|]. apply IH.
Qed.

(** The loop run over a buffer of its own, as both decoders do. *)
Lemma decode_loop_whole nums a r : Forall knows nums ->
  fold_left (fun a num => copy num a) nums a = r ->
  let run vals := (decode_loop switch unsupported decoding nums a
                     (Decoder.NewDecoder (bytes_NewReader vals))).1 in
  let all := concat (map wire_field nums) in
  run all = inr r /\
  forall vals missing, all = vals ++ missing -> missing <> [] -> exists e, run vals = inl e.
Proof.
  intros Hk <- run all. subst run all. cbn beta. split.
  - by destruct (parses_run _ _ _ (decode_loop_parses nums Hk a)) as (d' & -> & _).
  - intros vals missing E Hmiss.
    destruct (decode_loop _ _ _ _ _ _) as [[e|r] d'] eqn:El; [by exists e|exfalso].
    destruct (decode_loop_inr _ _ _ _ _ El eq_refl) as [Hd' _].
    destruct (decode_loop_cuts nums Hk a (Decoder.NewDecoder (bytes_NewReader vals)) missing)
      as (e & He & _); [done|done|cbn; by rewrite app_nil_r|done|].
    rewrite El in He. cbn in He. congruence.
Qed.

(** The value of one field after the loop. *)
Lemma fold_copy_get {B} (get : A -> B) (k : Z) (v : B) nums :
  (forall num a, get (copy num a) = if k =? num then v else get a) ->
  forall a, get (fold_left (fun a num => copy num a) nums a)
            = if existsb (Z.eqb k) nums then v else get a.
Proof.
  intros H. induction nums as [|num nums IH]; intros a; [done|]. cbn [fold_left existsb].
  rewrite IH, H. by destruct (k =? num), (existsb _ nums).
Qed.

Lemma fold_copy_const {B} (get : A -> B) nums :
  (forall num a, get (copy num a) = get a) ->
  forall a, get (fold_left (fun a num => copy num a) nums a) = get a.
Proof. intros H. induction nums as [|num nums IH]; intros a; [done|]. cbn. by rewrite IH. Qed.
End decode_loop.

Lemma existsb_SetAttrs mask k : blen mask <= 2 ^ 27 -> 0 <= k ->
  existsb (Z.eqb k) (SetAttrs mask) = Has mask k.
Proof.
  intros Hm Hk. apply eq_bool_prop_intro. rewrite !Is_true_true, existsb_exists.
  rewrite <- SetAttrs_elem by done. setoid_rewrite <- list_elem_of_In. split.
  - by intros (x & ? & ->%Z.eqb_eq).
  - intros. exists k. by rewrite Z.eqb_refl.
Qed.

(** ** What a server sends *)

Definition wire_time (t : Time) : bytes := wire_u64 (u64 (unix t)) ++ wire_u32 (nanosecond t).
Definition time_ok (t : Time) : Prop := is_i64 (unix t) /\ 0 <= nanosecond t < 1000000000.

(** The XDR form of one attribute of a file. *)
Definition wire_attr (a : Attributes) (num : Z) : bytes :=
  if num =? AttrType then wire_u32 (a_Type a)
  else if num =? AttrSize then wire_u64 (a_Size a)
  else if num =? AttrFSID then wire_u64 (Major (a_FSID a)) ++ wire_u64 (Minor (a_FSID a))
  else if num =? AttrFileID then wire_u64 (a_FileID a)
  else if num =? AttrMode then wire_u32 (a_Mode a)
  else if num =? AttrNumLinks then wire_u32 (a_NumLinks a)
  else if num =? AttrOwner then wire_opaque (a_Owner a)
  else if num =? AttrOwnerGroup then wire_opaque (a_OwnerGroup a)
  else if num =? AttrRawDev then wire_u32 (Spec1 (a_RawDev a)) ++ wire_u32 (Spec2 (a_RawDev a))
  else if num =? AttrSpaceUsed then wire_u64 (a_SpaceUsed a)
  else if num =? AttrTimeAccess then wire_time (a_TimeAccess a)
  else if num =? AttrTimeMetadata then wire_time (a_TimeMeta a)
  else if num =? AttrTimeModify then wire_time (a_TimeModify a)
  else [].

(** The attributes the client decodes. *)
Definition supported : list Z :=
  [AttrType; AttrSize; AttrFSID; AttrFileID; AttrMode; AttrNumLinks; AttrOwner; AttrOwnerGroup;
   AttrRawDev; AttrSpaceUsed; AttrTimeAccess; AttrTimeMetadata; AttrTimeModify].

Record attrs_ok (a : Attributes) : Prop := {
  ok_Type : is_u32 (a_Type a);
  ok_Size : is_u64 (a_Size a);
  ok_Major : is_u64 (Major (a_FSID a));
  ok_Minor : is_u64 (Minor (a_FSID a));
  ok_FileID : is_u64 (a_FileID a);
  ok_Mode : is_u32 (a_Mode a);
  ok_NumLinks : is_u32 (a_NumLinks a);
  ok_Owner : fits (a_Owner a);
  ok_OwnerGroup : fits (a_OwnerGroup a);
  ok_Spec1 : is_u32 (Spec1 (a_RawDev a));
  ok_Spec2 : is_u32 (Spec2 (a_RawDev a));
  ok_SpaceUsed : is_u64 (a_SpaceUsed a);
  ok_TimeAccess : time_ok (a_TimeAccess a);
  ok_TimeMeta : time_ok (a_TimeMeta a);
  ok_TimeModify : time_ok (a_TimeModify a)
}.
#[export] Hint Resolve ok_Type ok_Size ok_Major ok_Minor ok_FileID ok_Mode ok_NumLinks ok_Owner
  ok_OwnerGroup ok_Spec1 ok_Spec2 ok_SpaceUsed ok_TimeAccess ok_TimeMeta ok_TimeModify : nfs.

(** The fields of [a] that are in the mask; the others are zero. *)
Definition project (mask : list Z) (a : Attributes) : Attributes :=
  let sel {A} (k : Z) (v zero : A) := if Has mask k then v else zero in
  mkAttributes mask
    (sel AttrType (a_Type a) 0) (sel AttrSize (a_Size a) 0)
    (sel AttrFSID (a_FSID a) (mkFSID 0 0)) (sel AttrFileID (a_FileID a) 0)
    (sel AttrMode (a_Mode a) 0) (sel AttrNumLinks (a_NumLinks a) 0)
    (sel AttrOwner (a_Owner a) []) (sel AttrOwnerGroup (a_OwnerGroup a) [])
    (sel AttrRawDev (a_RawDev a) (mkSpecData 0 0)) (sel AttrSpaceUsed (a_SpaceUsed a) 0)
    (sel AttrTimeAccess (a_TimeAccess a) zeroTime) (sel AttrTimeMetadata (a_TimeMeta a) zeroTime)
    (sel AttrTimeModify (a_TimeModify a) zeroTime).

(** Assigning one attribute of [a] to [d]. *)
Definition copy_attr (a : Attributes) (num : Z) (d : Attributes) : Attributes :=
  if num =? AttrType then set_a_Type (a_Type a) d
  else if num =? AttrSize then set_a_Size (a_Size a) d
  else if num =? AttrFSID then set_a_FSID (mkFSID (Major (a_FSID a)) (Minor (a_FSID a))) d
  else if num =? AttrFileID then set_a_FileID (a_FileID a) d
  else if num =? AttrMode then set_a_Mode (a_Mode a) d
  else if num =? AttrNumLinks then set_a_NumLinks (a_NumLinks a) d
  else if num =? AttrOwner then set_a_Owner (a_Owner a) d
  else if num =? AttrOwnerGroup then set_a_OwnerGroup (a_OwnerGroup a) d
  else if num =? AttrRawDev then set_a_RawDev (mkSpecData (Spec1 (a_RawDev a)) (Spec2 (a_RawDev a))) d
  else if num =? AttrSpaceUsed then set_a_SpaceUsed (a_SpaceUsed a) d
  else if num =? AttrTimeAccess then set_a_TimeAccess (a_TimeAccess a) d
  else if num =? AttrTimeMetadata then set_a_TimeMeta (a_TimeMeta a) d
  else if num =? AttrTimeModify then set_a_TimeModify (a_TimeModify a) d
  else d.

Lemma time_Unix_ok t : time_ok t -> time_Unix (unix t) (nanosecond t) = t.
Proof.
  destruct t as [s n]. intros [Hs Hn]. unfold time_Unix. cbn in *.
  rewrite Z.div_small, Z.mod_small, Z.add_0_r by done. f_equal. int_lia.
Qed.

Lemma parses_decodeTime t : time_ok t -> parses decodeTime (wire_time t) t.
Proof.
  intros Ht. pose proof Ht as [Hs Hn].
  eapply parses_bind; [by apply parses_Int64|].
  eapply parses_bind_last; [apply parses_Uint32; int_lia|].
  eapply parses_bind_last; [apply parses_Err|]. cbn. rewrite time_Unix_ok by done. apply parses_ret.
Qed.

Lemma cuts_Int64 v : cuts D.Int64 (wire_u64 (u64 v)).
Proof. apply cuts_map, cuts_Uint64. Qed.

Lemma cuts_bind_ret {A B C} (m : Dec A) (m' : Dec B) (f : A -> B -> C) b1 b2 a :
  cuts m b1 -> parses m b1 a -> cuts m' b2 -> Sticky m' ->
  cuts (v ← m; w ← m'; mret (f v w)) (b1 ++ b2).
Proof. intros H1 H2 H3 ?. eapply cuts_bind; [done..|by apply cuts_map|intros; apply _]. Qed.

#[global] Instance sticky_decodeTime : Sticky decodeTime.
Proof. unfold decodeTime. apply _. Qed.

Lemma cuts_decodeTime t : time_ok t -> cuts decodeTime (wire_time t).
Proof.
  intros [Hs Hn]. eapply cuts_bind; [apply cuts_Int64|by apply parses_Int64| |intros; apply _].
  intros d q Hd Hf E Hq. destruct (cuts_Uint32 _ d q Hd Hf E Hq) as (e & He & Hc).
  unfold mbind, Dec_bind, D.Err. destruct (D.Uint32 d) as [v d1]. cbn in *. eauto.
Qed.

#[export] Hint Resolve parses_decodeTime cuts_decodeTime cuts_Uint32 cuts_Uint64 cuts_Opaque : nfs.

(** The three obligations of a field read by one primitive, and by two. *)
Lemma knows_one {A B} (m : Dec B) (set : B -> A -> A) bs v a :
  parses m bs v -> cuts m bs -> exists p, Some (x ← m; mret (set x a)) = Some p
    /\ parses p bs (set v a) /\ cuts p bs.
Proof.
  intros Hp Hc. eexists. split; [done|]. split.
  - eapply parses_bind_last; [exact Hp|apply parses_ret].
  - by apply cuts_map.
Qed.

Lemma knows_two {A B C} (m : Dec B) (m' : Dec C) (set : B -> C -> A -> A) b1 b2 v w a :
  parses m b1 v -> cuts m b1 -> parses m' b2 w -> cuts m' b2 -> Sticky m' ->
  exists p, Some (x ← m; y ← m'; mret (set x y a)) = Some p
    /\ parses p (b1 ++ b2) (set v w a) /\ cuts p (b1 ++ b2).
Proof.
  intros Hp Hc Hp' Hc' ?. eexists. split; [done|]. split.
  - eapply parses_bind; [exact Hp|]. eapply parses_bind_last; [exact Hp'|apply parses_ret].
  - eapply cuts_bind; [done..|by apply cuts_map|intros; apply _].
Qed.

Lemma decodeAttr_sticky num a m : decodeAttr num a = Some m -> Sticky m.
Proof.
  unfold decodeAttr. repeat (destruct (num =? _); [injection 1 as <-; apply _|]). done.
Qed.

Lemma decodeAttr_knows a num : attrs_ok a -> num ∈ supported ->
  knows decodeAttr (wire_attr a) (copy_attr a) num.
Proof.
  intros Ha Hnum d. unfold supported in Hnum. rewrite !elem_of_cons, elem_of_nil in Hnum.
  destruct_or?; try done; subst; unfold decodeAttr, wire_attr, copy_attr; const_ifs;
    first [ apply knows_one; eauto with nfs
          | apply (knows_two _ _ (fun x y => set_a_FSID (mkFSID x y))); eauto with nfs; apply _
          | apply (knows_two _ _ (fun x y => set_a_RawDev (mkSpecData x y))); eauto with nfs; apply _ ].
Qed.

(** One field of one assignment. *)
Ltac copy_field copy :=
  intros num d; unfold copy;
  match goal with |- context [if ?k =? num then _ else _] => destruct (Z.eqb_spec k num) as [<-|Hne] end;
  [ const_ifs; cbn; try done; by match goal with |- _ = ?x => destruct x end
  | repeat match goal with
           | |- context [if num =? ?k then _ else _] => destruct (Z.eqb_spec num k); [done || congruence|]
           end; done ].

Lemma Attributes_eta r : r = mkAttributes (a_Present r) (a_Type r) (a_Size r) (a_FSID r) (a_FileID r)
  (a_Mode r) (a_NumLinks r) (a_Owner r) (a_OwnerGroup r) (a_RawDev r) (a_SpaceUsed r)
  (a_TimeAccess r) (a_TimeMeta r) (a_TimeModify r).
Proof. by destruct r. Qed.

Lemma fold_copy_project mask a : blen mask <= 2 ^ 27 ->
  fold_left (fun d num => copy_attr a num d) (SetAttrs mask) (newAttributes mask) = project mask a.
Proof.
  intros Hm. set (r := fold_left _ _ _).
  assert (forall B (get : Attributes -> B) k v, 0 <= k ->
    (forall num d, get (copy_attr a num d) = if k =? num then v else get d) ->
    get r = if Has mask k then v else get (newAttributes mask)) as G.
  { intros B get k v Hk H. rewrite <- (existsb_SetAttrs mask k Hm Hk). by apply fold_copy_get. }
  assert (a_Present r = mask) as H0.
  { apply (fold_copy_const (copy_attr a) a_Present). intros num d. unfold copy_attr.
    repeat (destruct (num =? _); [done|]). done. }
  rewrite (Attributes_eta r). unfold project. rewrite H0. f_equal;
    match goal with |- ?get r = _ => apply (G _ get); [done|copy_field copy_attr] end.
Qed.

Lemma SetAttrs_supported mask : blen mask <= 2 ^ 27 ->
  (forall k, 0 <= k -> Has mask k = true -> k ∈ supported) -> Forall (fun num => num ∈ supported) (SetAttrs mask).
Proof.
  intros Hm Hs. destruct (SetAttrs_bounds mask Hm) as [_ Hp]. rewrite Forall_forall in Hp.
  apply Forall_forall. intros k Hk. apply Hs; [by apply Hp|]. apply SetAttrs_elem; auto.
Qed.

(** The values a server returns for [mask]: the fields of its file, in order. *)
Definition fattr_vals (mask : list Z) (a : Attributes) : bytes :=
  concat (map (wire_attr a) (SetAttrs mask)).

(** A mask and a file for the witnesses: every supported attribute. *)
Definition sample_attrs : Attributes :=
  mkAttributes [] FtypeReg (2 ^ 40) (mkFSID 7 9) 42 2541 3 (bstr "alice") (bstr "wheel")
    (mkSpecData 8 1) 4096 (mkTime 1700000000 5) (mkTime (-3) 999999999) (mkTime 12 0).

Lemma sample_attrs_ok : attrs_ok sample_attrs.
Proof. split; decide_wf. Qed.

(** ** Theorems *)

(** Attribute bitmaps.  [SetAttrs] lists exactly the attributes [Has]
    reports, each once and in increasing order, whatever the words of the
    bitmap; and the bitmap [BitmapFor] builds from any attribute numbers
    contains exactly those, so that [SetAttrs] of it is their sorted list
    without duplicates. *)
Theorem bitmap_set (b attrs : list Z) (Hb : blen b <= 2 ^ 27) (Hattrs : Forall is_u32 attrs) :
  StronglySorted Z.lt (SetAttrs b) /\
  (forall a, 0 <= a -> a ∈ SetAttrs b <-> Has b a = true) /\
  StronglySorted Z.lt (SetAttrs (BitmapFor attrs)) /\
  (forall a, 0 <= a -> a ∈ SetAttrs (BitmapFor attrs) <-> a ∈ attrs) /\
  (forall a, 0 <= a -> Has (BitmapFor attrs) a = true <-> a ∈ attrs).
Proof.
  assert (forall a, 0 <= a -> Has (BitmapFor attrs) a = true <-> a ∈ attrs) as H.
  { intros a Ha. rewrite BitmapFor_Has, existsb_exists by done. setoid_rewrite <- list_elem_of_In. split.
    - by intros (x & ? & ->%Z.eqb_eq).
    - intros. exists a. by rewrite Z.eqb_refl. }
  pose proof (BitmapFor_blen attrs Hattrs).
  split_and!; [by apply SetAttrs_bounds|by intros; apply SetAttrs_elem|by apply SetAttrs_bounds| |done].
  intros a Ha. by rewrite SetAttrs_elem, H.
Qed.

Lemma bitmap_set_witness :
  53 ∈ SetAttrs (BitmapFor [53; 1; 33; 1]) /\ SetAttrs (BitmapFor [53; 1; 33; 1]) = [1; 33; 53].
Proof.
  split; [|reflexivity].
  apply (bitmap_set [2 ^ 31] [53; 1; 33; 1]); [decide_wf|repeat constructor; decide_wf|lia|].
  apply list_elem_of_here.
Defined.

Lemma attr_decode_vals (mask : list Z) (a : Attributes) :
  blen mask <= 2 ^ 27 -> (forall k, 0 <= k -> Has mask k = true -> k ∈ supported) -> attrs_ok a ->
  attr_Decode mask (fattr_vals mask a) = inr (project mask a) /\
  forall vals missing, fattr_vals mask a = vals ++ missing -> missing <> [] ->
    exists e, attr_Decode mask vals = inl e.
Proof.
  intros Hm Hs Ha.
  assert (Forall (knows decodeAttr (wire_attr a) (copy_attr a)) (SetAttrs mask)) as Hk.
  { eapply Forall_impl; [by apply SetAttrs_supported|]. intros num Hnum. by apply decodeAttr_knows. }
  apply (decode_loop_whole decodeAttr _ _ (wire_attr a) (copy_attr a) decodeAttr_sticky);
    [done|by apply fold_copy_project].
Qed.

Lemma StandardMask_supported k : 0 <= k -> Has StandardMask k = true -> k ∈ supported.
Proof.
  intros Hk H. unfold StandardMask in H. rewrite BitmapFor_Has in H; [|repeat constructor; decide_wf|done].
  apply existsb_exists in H as (x & Hx & ->%Z.eqb_eq). apply list_elem_of_In. exact Hx.
Qed.

(** C39.  Attribute round trip.  For a mask of supported attributes and any
    file, decoding what a server sends for that mask yields the file's values
    for exactly the attributes of the mask (the fields not asked for stay
    zero, [Present] is the mask); when the values are cut short anywhere an
    error is returned, never a partial result. *)
Theorem attr_decode_roundtrip (mask : list Z) (a : Attributes)
    (Hm : blen mask <= 2 ^ 27) (Hs : forall k, 0 <= k -> Has mask k = true -> k ∈ supported)
    (Ha : attrs_ok a) :
  attr_Decode mask (fattr_vals mask a) = inr (project mask a) /\
  forall vals missing, fattr_vals mask a = vals ++ missing -> missing <> [] ->
    exists e, attr_Decode mask vals = inl e.
Proof. by apply attr_decode_vals. Qed.

Lemma attr_decode_roundtrip_witness :
  attr_Decode StandardMask (fattr_vals StandardMask sample_attrs) = inr (project StandardMask sample_attrs)
  /\ a_Owner (project StandardMask sample_attrs) = bstr "alice"
  /\ a_TimeMeta (project StandardMask sample_attrs) = mkTime (-3) 999999999.
Proof.
  split; [|split; vm_compute; reflexivity].
  refine (proj1 (attr_decode_roundtrip StandardMask sample_attrs _ _ sample_attrs_ok)).
  - vm_compute. discriminate.
  - apply StandardMask_supported.
Defined.

(** Unsupported attributes.  When the mask holds an attribute the client
    cannot decode, the first such attribute ends decoding with an error that
    names it, however many values precede and follow it; and a result is
    returned only for masks of supported attributes. *)
Theorem attr_decode_unsupported (mask pre post : list Z) (num : Z) (a : Attributes) (more : bytes)
    (Hmask : SetAttrs mask = pre ++ num :: post) (Hpre : Forall (fun k => k ∈ supported) pre)
    (Hnum : num ∉ supported) (Ha : attrs_ok a) :
  attr_Decode mask (concat (map (wire_attr a) pre) ++ more)
    = inl (Errorf "attr: cannot decode unsupported attribute %d" [Fz num]) /\
  (forall vals r, attr_Decode mask vals <> inr r).
Proof.
  assert (forall d, decodeAttr num d = None) as Hnone.
  { intros d. unfold decodeAttr. unfold supported in Hnum. rewrite !not_elem_of_cons in Hnum.
    destruct_and!. repeat match goal with |- context [num =? ?k] => destruct (Z.eqb_spec num k); [done|] end.
    done. }
  split.
  - unfold attr_Decode. rewrite Hmask.
    edestruct (decode_loop_unsupported decodeAttr "attr: cannot decode unsupported attribute %d"
      "attr: decoding attribute %d: %w" (wire_attr a) (copy_attr a) pre num post) as (d' & -> & _);
      [|exact Hnone|by apply (Build_healthy (Decoder.NewDecoder (bytes_NewReader _)))|..].
    + eapply Forall_impl; [exact Hpre|]. intros k Hk. by apply decodeAttr_knows.
    + cbn. by rewrite app_nil_r.
    + done.
  - intros vals r E. unfold attr_Decode in E. rewrite Hmask in E.
    destruct (decode_loop _ _ _ _ _ _) as [res d'] eqn:El. cbn in E. subst res.
    apply decode_loop_inr in El as [_ Hf]; [|done].
    apply Forall_app in Hf as [_ [(d & m & Hd) _]%Forall_cons]. congruence.
Qed.

Lemma attr_decode_unsupported_witness :
  attr_Decode (BitmapFor [AttrType; AttrMaxName]) (wire_u32 FtypeDir ++ wire_u32 255)
  = inl (Errorf "attr: cannot decode unsupported attribute %d" [Fz 30]).
Proof.
  refine (proj1 (attr_decode_unsupported (BitmapFor [AttrType; AttrMaxName]) [AttrType] [] AttrMaxName
    (mkAttributes [] FtypeDir 0 (mkFSID 0 0) 0 0 0 [] [] (mkSpecData 0 0) 0 zeroTime zeroTime zeroTime)
    (wire_u32 255) _ _ _ _)).
  - vm_compute. reflexivity.
  - repeat constructor; apply list_elem_of_In; left; reflexivity.
  - unfold supported. rewrite !not_elem_of_cons, elem_of_nil. split_and!; (discriminate || exact id).
  - split; decide_wf.
Defined.

(** ** Settable attributes *)

(** A server reading the fattr4 of a SETATTR: settime4 for the times. *)
Definition server_settime : Dec (option Time) :=
  how ← D.Uint32;
  if how =? setToClientTime4 then t ← decodeTime; mret (Some t) else mret None.

Definition server_settable (num : Z) (s : SettableAttrs) : option (Dec SettableAttrs) :=
  if num =? AttrSize then
    Some (v ← D.Uint64; mret (mkSettableAttrs (sa_Mode s) (Some v) (sa_TimeAccess s) (sa_TimeModify s)))
  else if num =? AttrMode then
    Some (v ← D.Uint32; mret (mkSettableAttrs (Some v) (sa_Size s) (sa_TimeAccess s) (sa_TimeModify s)))
  else if num =? AttrTimeAccess then
    Some (t ← server_settime; mret (mkSettableAttrs (sa_Mode s) (sa_Size s) t (sa_TimeModify s)))
  else if num =? AttrTimeModify then
    Some (t ← server_settime; mret (mkSettableAttrs (sa_Mode s) (sa_Size s) (sa_TimeAccess s) t))
  else None.

Definition opt_ok {A} (P : A -> Prop) (o : option A) : Prop := match o with Some v => P v | None => True end.

Definition settable_ok (s : SettableAttrs) : Prop :=
  opt_ok is_u32 (sa_Mode s) /\ opt_ok is_u64 (sa_Size s) /\ opt_ok time_ok (sa_TimeAccess s)
  /\ opt_ok time_ok (sa_TimeModify s).

Definition wire_when {A} (p : option A) (wire : A -> bytes) : bytes :=
  match p with Some v => wire v | None => [] end.
Definition wire_settime (t : Time) : bytes := wire_u32 1 ++ wire_time t.

Definition wire_settable (s : SettableAttrs) : bytes :=
  wire_when (sa_Size s) wire_u64 ++ wire_when (sa_Mode s) wire_u32
  ++ wire_when (sa_TimeAccess s) wire_settime ++ wire_when (sa_TimeModify s) wire_settime.

Lemma emits_when {A} (p : option A) f (wire : A -> bytes) :
  (forall v, emits (f v) (wire v)) -> emits (when_set p f) (wire_when p wire).
Proof. intros H. destruct p as [v|]; [apply H|apply emits_id]. Qed.

Lemma emits_settime t : emits (encodeSettime t) (wire_settime t).
Proof.
  unfold encodeSettime, wire_settime, wire_time, Encoder.Int64.
  apply emits_seq; [apply emits_Uint32|]. apply emits_seq; [apply emits_Uint64|].
  eapply emits_eq; [apply emits_Uint32|]. unfold wire_u32. apply be4_u32.
Qed.

Lemma emits_settable s : emits (when_set (sa_Size s) Encoder.Uint64 ;;
  when_set (sa_Mode s) Encoder.Uint32 ;; when_set (sa_TimeAccess s) encodeSettime ;;
  when_set (sa_TimeModify s) encodeSettime)%enc (wire_settable s).
Proof.
  repeat apply emits_seq; apply emits_when; intros v;
    first [apply emits_settime|apply emits_Uint64|apply emits_Uint32].
Qed.

Definition settable_nums (s : SettableAttrs) : list Z :=
  num_if (sa_Size s) AttrSize ++ num_if (sa_Mode s) AttrMode
  ++ num_if (sa_TimeAccess s) AttrTimeAccess ++ num_if (sa_TimeModify s) AttrTimeModify.

Lemma EncodeFattr_eq s : EncodeFattr s = (BitmapFor (settable_nums s), wire_settable s).
Proof.
  unfold EncodeFattr. f_equal. change (Encoder.NewEncoder bytes_Buffer) with (Encoder.mk (mkWriter [] None) None).
  by rewrite (emits_healthy _ _ (emits_settable s)).
Qed.

Lemma parses_server_settime t : time_ok t -> parses server_settime (wire_settime t) (Some t).
Proof.
  intros Ht. eapply parses_bind; [by apply parses_Uint32|]. const_ifs.
  eapply parses_bind_last; [by apply parses_decodeTime|apply parses_ret].
Qed.

(** One round of the loop: a field, the error check, the remaining fields. *)
Lemma parses_field {A B C} (m : Dec A) (f : A -> B) (k : B -> Dec C) (E : error -> Dec C) b1 b2 v c :
  parses m b1 v -> parses (k (f v)) b2 c ->
  parses (a ← (x ← m; mret (f x)); err ← D.Err;
          match err with Some e => E e | None => k a end) (b1 ++ b2) c.
Proof.
  intros Hm Hk. eapply parses_bind; [eapply parses_bind_last; [exact Hm|apply parses_ret]|].
  eapply (parses_bind _ _ []); [apply parses_Err|exact Hk].
Qed.

Lemma parses_field_last {A B C} (m : Dec A) (f : A -> B) (k : B -> Dec C) (E : error -> Dec C) b v c :
  parses m b v -> parses (k (f v)) [] c ->
  parses (a ← (x ← m; mret (f x)); err ← D.Err;
          match err with Some e => E e | None => k a end) b c.
Proof. intros. rewrite <- (app_nil_r b). by eapply parses_field. Qed.

(** Setting attributes.  The bitmap of a fattr4 built from settable
    attributes lists exactly those that were given, in increasing order, and
    the values follow in that order: a server that walks the bitmap reads back
    each value, sees the others as absent, and finds nothing left over. *)
Theorem fattr_encode (s : SettableAttrs) (Hs : settable_ok s) :
  let '(mask, vals) := EncodeFattr s in
  SetAttrs mask = settable_nums s /\
  exists d', decode_loop server_settable "unsupported" "decoding" (SetAttrs mask)
               (mkSettableAttrs None None None None) (Decoder.NewDecoder (bytes_NewReader vals)) = (inr s, d')
             /\ Decoder.err d' = None /\ rest d' = [].
Proof.
  rewrite EncodeFattr_eq.
  assert (SetAttrs (BitmapFor (settable_nums s)) = settable_nums s) as E.
  { apply SetAttrs_BitmapFor; destruct s as [[] [] [] []]; cbn;
      repeat constructor; decide_wf. }
  split; [done|]. rewrite E. apply parses_run. destruct s as [m z ta tm], Hs as (Hm & Hz & Hta & Htm).
  unfold wire_settable, settable_nums. cbn in *. pose proof parses_server_settime as Hset.
  destruct z, m, ta, tm; cbn [opt_ok num_if app decode_loop wire_when] in *; unfold server_settable; const_ifs;
    rewrite ?app_nil_r;
    repeat first [ apply parses_ret
                 | eapply parses_field; [by eauto with nfs|]
                 | eapply parses_field_last; [by eauto with nfs|] ].
Qed.

Lemma fattr_encode_witness :
  let '(mask, vals) := EncodeFattr (mkSettableAttrs (Some 420) None None (Some (mkTime 1000 7))) in
  SetAttrs mask = [33; 53] /\
  exists d', decode_loop server_settable "unsupported" "decoding" (SetAttrs mask)
      (mkSettableAttrs None None None None) (Decoder.NewDecoder (bytes_NewReader vals))
      = (inr (mkSettableAttrs (Some 420) None None (Some (mkTime 1000 7))), d')
    /\ Decoder.err d' = None /\ rest d' = [].
Proof.
  apply (fattr_encode (mkSettableAttrs (Some 420) None None (Some (mkTime 1000 7)))). decide_wf.
Defined.

(** The times are sent as settime4 values of the read-only attributes
    time_access and time_modify: the bits of time_access_set (48) and
    time_modify_set (54) are never set, and the client's own decoder, which
    reads a bare nfstime4 for those attributes, does not read the time back. *)
Lemma settime_attribute_numbers (s : SettableAttrs) :
  Has (EncodeFattr s).1 48 = false /\ Has (EncodeFattr s).1 54 = false /\
  let '(mask, vals) := EncodeFattr (mkSettableAttrs None None (Some (mkTime 1000 0)) None) in
  exists r, attr_Decode mask vals = inr r /\ a_TimeAccess r = mkTime 4294967296 1000.
Proof.
  rewrite EncodeFattr_eq. cbn [fst].
  assert (Forall is_u32 (settable_nums s)).
  { destruct s as [[] [] [] []]; cbn; repeat constructor; decide_wf. }
  rewrite !BitmapFor_Has by done.
  split_and!; [by destruct s as [[] [] [] []]..|]. eexists. split; vm_compute; reflexivity.
Qed.

(** ** FileMode *)

Lemma testbit_511 m k : 0 <= k -> Z.testbit (Z.land m 511) k = (k <? 9) && Z.testbit m k.
Proof.
  intros. change 511 with (Z.ones 9). rewrite Z.land_spec, andb_comm. f_equal.
  rewrite Z.testbit_ones by lia. by destruct (Z.leb_spec 0 k); [|lia].
Qed.

Lemma testbit_lor_pow2 m j k : 0 <= k -> 0 <= j -> Z.testbit (Z.lor m (2 ^ j)) k = Z.testbit m k || (k =? j).
Proof. intros. rewrite Z.lor_spec, Z.pow2_bits_eqb by done. by rewrite (Z.eqb_sym j). Qed.

Lemma testbit_set_if (c : bool) m j k : 0 <= k -> 0 <= j ->
  Z.testbit (if c then Z.lor m (2 ^ j) else m) k = Z.testbit m k || ((k =? j) && c).
Proof.
  intros. destruct c; rewrite ?testbit_lor_pow2, ?andb_true_r, ?andb_false_r, ?orb_false_r by done; done.
Qed.

(** Decide the equality tests between constants. *)
Ltac const_eqbs :=
  repeat match goal with
         | |- context [Z.eqb ?x ?y] =>
             let v := eval vm_compute in (Z.eqb x y) in
             lazymatch v with true => idtac | false => idtac end;
             change (Z.eqb x y) with v
         end; cbn [orb andb].

Lemma FileMode_testbit a k : 0 <= k ->
  let t := a_Type a in
  Z.testbit (FileMode a) k =
    ((k <? 9) && Z.testbit (a_Mode a) k)
    || ((k =? 23) && Z.testbit (a_Mode a) 11) || ((k =? 22) && Z.testbit (a_Mode a) 10)
    || ((k =? 20) && Z.testbit (a_Mode a) 9)
    || ((k =? 31) && ((t =? FtypeDir) || (t =? FtypeAttrDir)))
    || ((k =? 27) && (t =? FtypeLnk)) || ((k =? 26) && ((t =? FtypeBlk) || (t =? FtypeChr)))
    || ((k =? 21) && (t =? FtypeChr)) || ((k =? 24) && (t =? FtypeSock)) || ((k =? 25) && (t =? FtypeFifo)).
Proof.
  intros Hk t. unfold FileMode. fold t.
  change 2048 with (Z.shiftl 1 11). change 1024 with (Z.shiftl 1 10). change 512 with (Z.shiftl 1 9).
  rewrite !land_bit by lia. unfold ModeSetuid, ModeSetgid, ModeSticky.
  set (m0 := Z.land (a_Mode a) 511).
  set (m1 := if Z.testbit (a_Mode a) 11 then _ else m0).
  set (m2 := if Z.testbit (a_Mode a) 10 then _ else m1).
  set (m3 := if Z.testbit (a_Mode a) 9 then _ else m2).
  assert (Z.testbit m3 k = ((k <? 9) && Z.testbit (a_Mode a) k) || ((k =? 23) && Z.testbit (a_Mode a) 11)
    || ((k =? 22) && Z.testbit (a_Mode a) 10) || ((k =? 20) && Z.testbit (a_Mode a) 9)) as <-.
  { unfold m3, m2, m1, m0. rewrite !testbit_set_if, testbit_511 by lia. done. }
  clearbody m3 t. clear m0 m1 m2 a.
  unfold ModeDir, ModeSymlink, ModeDevice, ModeCharDevice, ModeSocket, ModeNamedPipe.
  destruct (decide (t ∈ [FtypeDir; FtypeAttrDir; FtypeLnk; FtypeBlk; FtypeChr; FtypeSock; FtypeFifo])) as [Hin|Hnot].
  - rewrite !elem_of_cons, elem_of_nil in Hin. destruct_or?; try done; subst t; const_eqbs;
      rewrite ?Z.lor_assoc, !testbit_lor_pow2, ?andb_false_r, ?andb_true_r, ?orb_false_r by lia;
      rewrite <- ?orb_assoc; done.
  - rewrite !not_elem_of_cons in Hnot. destruct_and!.
    repeat match goal with |- context [t =? ?c] => destruct (Z.eqb_spec t c); [done|] end.
    by rewrite ?andb_false_r, !orb_false_r.
Qed.

(** File modes.  Every bit of the [fs.FileMode] of a file is
    accounted for: the nine permission bits are those of the NFS mode, setuid,
    setgid and sticky come from its bits 11, 10 and 9, the type bits follow from
    the NFS file type, and no other bit is set; [IsDir] holds for directories
    and attribute directories only. *)
Theorem filemode_bits (a : Attributes) (k : Z) (Hk : 0 <= k) :
  let t := a_Type a in
  Z.testbit (FileMode a) k =
    ((k <? 9) && Z.testbit (a_Mode a) k)
    || ((k =? 23) && Z.testbit (a_Mode a) 11) || ((k =? 22) && Z.testbit (a_Mode a) 10)
    || ((k =? 20) && Z.testbit (a_Mode a) 9)
    || ((k =? 31) && ((t =? FtypeDir) || (t =? FtypeAttrDir)))
    || ((k =? 27) && (t =? FtypeLnk)) || ((k =? 26) && ((t =? FtypeBlk) || (t =? FtypeChr)))
    || ((k =? 21) && (t =? FtypeChr)) || ((k =? 24) && (t =? FtypeSock)) || ((k =? 25) && (t =? FtypeFifo))
  /\ fileInfo_IsDir (FileInfo a []) = ((t =? FtypeDir) || (t =? FtypeAttrDir)).
Proof.
  intros t. split; [by apply FileMode_testbit|].
  unfold fileInfo_IsDir, FileMode_IsDir, FileInfo. cbn [fi_attrs].
  change ModeDir with (Z.shiftl 1 31). rewrite land_bit, FileMode_testbit by lia.
  fold t. change (31 <? 9) with false. const_eqbs. by rewrite ?andb_false_r, ?orb_false_r.
Qed.

Lemma filemode_bits_witness :
  Z.testbit (FileMode sample_attrs) 23 = true /\ FileMode sample_attrs = 8389101.
Proof.
  split; [|reflexivity]. rewrite (proj1 (filemode_bits sample_attrs 23 ltac:(lia))). reflexivity.
Defined.

(** ** Filesystem statistics *)

Definition statvfs_supported : list Z :=
  [AttrFSID; AttrFilesAvail; AttrFilesFree; AttrFilesTotal; AttrMaxName; AttrSpaceAvail;
   AttrSpaceFree; AttrSpaceTotal].

Definition wire_stat (s : Statvfs) (num : Z) : bytes :=
  if num =? AttrFSID then wire_u64 (Major (s_FSID s)) ++ wire_u64 (Minor (s_FSID s))
  else if num =? AttrFilesAvail then wire_u64 (s_FilesAvail s)
  else if num =? AttrFilesFree then wire_u64 (s_FilesFree s)
  else if num =? AttrFilesTotal then wire_u64 (s_FilesTotal s)
  else if num =? AttrMaxName then wire_u32 (s_MaxName s)
  else if num =? AttrSpaceAvail then wire_u64 (s_SpaceAvail s)
  else if num =? AttrSpaceFree then wire_u64 (s_SpaceFree s)
  else if num =? AttrSpaceTotal then wire_u64 (s_SpaceTotal s)
  else [].

Record stat_ok (s : Statvfs) : Prop := {
  sok_Major : is_u64 (Major (s_FSID s));
  sok_Minor : is_u64 (Minor (s_FSID s));
  sok_FilesAvail : is_u64 (s_FilesAvail s);
  sok_FilesFree : is_u64 (s_FilesFree s);
  sok_FilesTotal : is_u64 (s_FilesTotal s);
  sok_MaxName : is_u32 (s_MaxName s);
  sok_SpaceAvail : is_u64 (s_SpaceAvail s);
  sok_SpaceFree : is_u64 (s_SpaceFree s);
  sok_SpaceTotal : is_u64 (s_SpaceTotal s)
}.
#[export] Hint Resolve sok_Major sok_Minor sok_FilesAvail sok_FilesFree sok_FilesTotal sok_MaxName
  sok_SpaceAvail sok_SpaceFree sok_SpaceTotal : nfs.

Definition project_stat (mask : list Z) (s : Statvfs) : Statvfs :=
  let sel {A} (k : Z) (v zero : A) := if Has mask k then v else zero in
  mkStatvfs mask (sel AttrFSID (s_FSID s) (mkFSID 0 0)) (sel AttrFilesAvail (s_FilesAvail s) 0)
    (sel AttrFilesFree (s_FilesFree s) 0) (sel AttrFilesTotal (s_FilesTotal s) 0)
    (sel AttrMaxName (s_MaxName s) 0) (sel AttrSpaceAvail (s_SpaceAvail s) 0)
    (sel AttrSpaceFree (s_SpaceFree s) 0) (sel AttrSpaceTotal (s_SpaceTotal s) 0).

Definition copy_stat (s : Statvfs) (num : Z) (d : Statvfs) : Statvfs :=
  if num =? AttrFSID then set_s_FSID (mkFSID (Major (s_FSID s)) (Minor (s_FSID s))) d
  else if num =? AttrFilesAvail then set_s_FilesAvail (s_FilesAvail s) d
  else if num =? AttrFilesFree then set_s_FilesFree (s_FilesFree s) d
  else if num =? AttrFilesTotal then set_s_FilesTotal (s_FilesTotal s) d
  else if num =? AttrMaxName then set_s_MaxName (s_MaxName s) d
  else if num =? AttrSpaceAvail then set_s_SpaceAvail (s_SpaceAvail s) d
  else if num =? AttrSpaceFree then set_s_SpaceFree (s_SpaceFree s) d
  else if num =? AttrSpaceTotal then set_s_SpaceTotal (s_SpaceTotal s) d
  else d.

Lemma decodeStatvfsAttr_sticky num a m : decodeStatvfsAttr num a = Some m -> Sticky m.
Proof.
  unfold decodeStatvfsAttr. repeat (destruct (num =? _); [injection 1 as <-; apply _|]). done.
Qed.

Lemma decodeStatvfsAttr_knows s num : stat_ok s -> num ∈ statvfs_supported ->
  knows decodeStatvfsAttr (wire_stat s) (copy_stat s) num.
Proof.
  intros Hs Hnum d. unfold statvfs_supported in Hnum. rewrite !elem_of_cons, elem_of_nil in Hnum.
  destruct_or?; try done; subst; unfold decodeStatvfsAttr, wire_stat, copy_stat; const_ifs;
    first [ apply knows_one; eauto with nfs
          | apply (knows_two _ _ (fun x y => set_s_FSID (mkFSID x y))); eauto with nfs; apply _ ].
Qed.

Lemma fold_copy_project_stat mask s : blen mask <= 2 ^ 27 ->
  fold_left (fun d num => copy_stat s num d) (SetAttrs mask) (mkStatvfs mask (mkFSID 0 0) 0 0 0 0 0 0 0)
  = project_stat mask s.
Proof.
  intros Hm. set (r := fold_left _ _ _).
  assert (forall B (get : Statvfs -> B) k v, 0 <= k ->
    (forall num d, get (copy_stat s num d) = if k =? num then v else get d) ->
    get r = if Has mask k then v else get (mkStatvfs mask (mkFSID 0 0) 0 0 0 0 0 0 0)) as G.
  { intros B get k v Hk H. rewrite <- (existsb_SetAttrs mask k Hm Hk). by apply fold_copy_get. }
  assert (s_Present r = mask) as H0.
  { apply (fold_copy_const (copy_stat s) s_Present). intros num d. unfold copy_stat.
    repeat (destruct (num =? _); [done|]). done. }
  assert (r = mkStatvfs (s_Present r) (s_FSID r) (s_FilesAvail r) (s_FilesFree r) (s_FilesTotal r)
    (s_MaxName r) (s_SpaceAvail r) (s_SpaceFree r) (s_SpaceTotal r)) as -> by (by destruct r).
  unfold project_stat. rewrite H0. f_equal;
    match goal with |- ?get r = _ => apply (G _ get); [done|copy_field copy_stat] end.
Qed.

Definition statvfs_vals (mask : list Z) (s : Statvfs) : bytes :=
  concat (map (wire_stat s) (SetAttrs mask)).

(** Filesystem statistics.  For a mask of the statistics the client
    knows and any filesystem, decoding what a server sends yields exactly the
    values asked for; values cut short anywhere are an error. *)
Theorem statvfs_roundtrip (mask : list Z) (s : Statvfs)
    (Hm : blen mask <= 2 ^ 27) (Hs : forall k, 0 <= k -> Has mask k = true -> k ∈ statvfs_supported)
    (Ha : stat_ok s) :
  DecodeStatvfs mask (statvfs_vals mask s) = inr (project_stat mask s) /\
  forall vals missing, statvfs_vals mask s = vals ++ missing -> missing <> [] ->
    exists e, DecodeStatvfs mask vals = inl e.
Proof.
  assert (Forall (knows decodeStatvfsAttr (wire_stat s) (copy_stat s)) (SetAttrs mask)) as Hk.
  { destruct (SetAttrs_bounds mask Hm) as [_ Hp]. rewrite Forall_forall in Hp.
    apply Forall_forall. intros k Hin. apply decodeStatvfsAttr_knows; [done|].
    apply Hs; [by apply Hp|]. apply SetAttrs_elem; auto. }
  apply (decode_loop_whole decodeStatvfsAttr _ _ (wire_stat s) (copy_stat s) decodeStatvfsAttr_sticky);
    [done|by apply fold_copy_project_stat].
Qed.

Lemma statvfs_roundtrip_witness :
  DecodeStatvfs StatvfsMask (statvfs_vals StatvfsMask (mkStatvfs [] (mkFSID 1 2) 3 4 5 255 6 7 (2 ^ 50)))
  = inr (mkStatvfs StatvfsMask (mkFSID 1 2) 3 4 5 255 6 7 (2 ^ 50)).
Proof.
  refine (proj1 (statvfs_roundtrip StatvfsMask (mkStatvfs [] (mkFSID 1 2) 3 4 5 255 6 7 (2 ^ 50)) _ _ _)).
  - vm_compute. discriminate.
  - intros k Hk H. unfold StatvfsMask in H. rewrite BitmapFor_Has in H; [|repeat constructor; decide_wf|done].
    apply existsb_exists in H as (x & Hx & ->%Z.eqb_eq). apply list_elem_of_In. exact Hx.
  - split; decide_wf.
Defined.
