(* ===== verification/Nfs4Types.v ===== *)
(** * Package nfs4: basic protocol types (src/nfs4/types.go)

    [Verifier] and [SessionID] are byte arrays of a fixed length; [copy(x[:],
    src)] into one of them is [go_copy], which leaves the bytes that [src] does
    not reach.  A decoder that has failed hands it an empty [src]. *)

From S2P Require Import Prelude GoError GoIO Xdr Nfs4Const Attr.

(** A byte slice that may be nil.  src/nfs4/types.go:20-20 *)
Definition FileHandle : Type := option bytes.
(** The bytes of a slice: nil is as good as empty to an encoder. *)
Definition fh_bytes (fh : FileHandle) : bytes := default [] fh.

(** src/nfs4/types.go:23-23 *)
Definition Verifier : Type := bytes.
(** src/nfs4/types.go:26-26 *)
Definition ClientID : Type := Z.

(** The built-in [copy(dst, src)]: [dst] afterwards. *)
Definition go_copy (dst src : bytes) : bytes :=
  take (length dst) src ++ drop (length src) dst.

(** The zero value of a byte array. *)
Definition zero_array (n : Z) : bytes := replicate (Z.to_nat n) x00.

(** src/nfs4/types.go:33-38 *)
Definition Bitmap_Encode (b : list Z) : Encoder.t -> Encoder.t :=
  (Encoder.Uint32 (u32 (blen b)) ;;
   each Encoder.Uint32 b)%enc.

(** src/nfs4/types.go:41-51 *)
Definition DecodeBitmap : Dec (list Z) :=
  n ← D.Uint32;
  err ← D.Err;
  match err with
  | Some _ => mret []
  | None => decode_words (Z.to_nat n)
  end.

(** src/nfs4/types.go:54-57 *)
Record Stateid := mkStateid {
  st_Seqid : Z;
  st_Other : bytes
}.

(** The zero [Stateid], which is also the anonymous stateid. *)
Definition zeroStateid : Stateid := mkStateid 0 (zero_array 12).

(** src/nfs4/types.go:60-63 *)
Definition Stateid_Encode (s : Stateid) : Encoder.t -> Encoder.t :=
  (Encoder.Uint32 (st_Seqid s) ;;
   Encoder.FixedOpaque (st_Other s))%enc.

(** src/nfs4/types.go:66-71 *)
Definition DecodeStateid : Dec Stateid :=
  seqid ← D.Uint32;
  other ← D.FixedOpaque 12;
  mret (mkStateid seqid (go_copy (zero_array 12) other)).
