(* ===== verification/Nfs4Args.v ===== *)
(** * Package nfs4: operation arguments and results
    (src/nfs4/ops.go, src/nfs4/writeops.go, src/nfs4/sessionops.go)

    Each argument struct has its [EncodeArg]; each result struct has its
    [DecodeRes], a computation from the value the result pointer held to the
    value it holds afterwards, since a result that fails leaves the other fields
    as they were.  [Arg] and [Res] are the two interfaces, with one constructor
    per implementing type. *)

From S2P Require Import Prelude GoError GoIO Xdr Nfs4Const Attr Nfs4Types.

(** ** Constants *)

(** src/nfs4/writeops.go:21-21 *)
Definition OpenShareAccessRead : Z := 1.
(** src/nfs4/writeops.go:22-22 *)
Definition OpenShareAccessWrite : Z := 2.
(** src/nfs4/writeops.go:23-23 *)
Definition OpenShareAccessBoth : Z := 3.
(** src/nfs4/writeops.go:25-25 *)
Definition OpenShareDenyNone : Z := 0.
(** src/nfs4/writeops.go:26-26 *)
Definition OpenShareDenyRead : Z := 1.
(** src/nfs4/writeops.go:27-27 *)
Definition OpenShareDenyWrite : Z := 2.
(** src/nfs4/writeops.go:28-28 *)
Definition OpenShareDenyBoth : Z := 3.
(** src/nfs4/writeops.go:33-33 *)
Definition Open4NoCreate : Z := 0.
(** src/nfs4/writeops.go:34-34 *)
Definition Open4Create : Z := 1.
(** src/nfs4/writeops.go:39-39 *)
Definition CreateUnchecked : Z := 0.
(** src/nfs4/writeops.go:40-40 *)
Definition CreateGuarded : Z := 1.
(** src/nfs4/writeops.go:41-41 *)
Definition CreateExclusive : Z := 2.
(** src/nfs4/writeops.go:46-46 *)
Definition ClaimNull : Z := 0.
(** src/nfs4/writeops.go:51-51 *)
Definition OpenResultConfirm : Z := 2.
(** src/nfs4/writeops.go:58-58 *)
Definition Unstable4 : Z := 0.
(** src/nfs4/writeops.go:59-59 *)
Definition DataSync4 : Z := 1.
(** src/nfs4/writeops.go:60-60 *)
Definition FileSync4 : Z := 2.
(** src/nfs4/sessionops.go:24-24 *)
Definition ExchgIDFlagSuppMovedRefer : Z := 1.
(** src/nfs4/sessionops.go:25-25 *)
Definition ExchgIDFlagUsePNFSMDS : Z := 65536.
(** src/nfs4/sessionops.go:26-26 *)
Definition ExchgIDFlagUsePNFSDS : Z := 131072.
(** src/nfs4/sessionops.go:27-27 *)
Definition ExchgIDFlagUseNonPNFS : Z := 262144.
(** src/nfs4/sessionops.go:28-28 *)
Definition ExchgIDFlagConfirmedR : Z := 2147483648.
(** src/nfs4/sessionops.go:32-32 *)
Definition spNone : Z := 0.

(** ** Arguments *)

(** src/nfs4/ops.go:38-41 *)
Definition PutrootfhArgs_EncodeArg : Encoder.t -> Encoder.t :=
  (Encoder.Uint32 OpPutrootfh)%enc.

(** src/nfs4/ops.go:46-48 *)
Record PutfhArgs := mkPutfhArgs {
  pf_FH : bytes
}.

(** src/nfs4/ops.go:50-54 *)
Definition PutfhArgs_EncodeArg (a : PutfhArgs) : Encoder.t -> Encoder.t :=
  (Encoder.Uint32 OpPutfh ;;
   Encoder.Opaque (pf_FH a))%enc.

(** src/nfs4/ops.go:61-64 *)
Definition GetfhArgs_EncodeArg : Encoder.t -> Encoder.t :=
  (Encoder.Uint32 OpGetfh)%enc.

(** src/nfs4/ops.go:83-85 *)
Record LookupArgs := mkLookupArgs {
  lk_Name : bytes
}.

(** src/nfs4/ops.go:87-91 *)
Definition LookupArgs_EncodeArg (a : LookupArgs) : Encoder.t -> Encoder.t :=
  (Encoder.Uint32 OpLookup ;;
   Encoder.String (lk_Name a))%enc.

(** src/nfs4/ops.go:96-98 *)
Record GetattrArgs := mkGetattrArgs {
  ga_AttrRequest : list Z
}.

(** src/nfs4/ops.go:100-104 *)
Definition GetattrArgs_EncodeArg (a : GetattrArgs) : Encoder.t -> Encoder.t :=
  (Encoder.Uint32 OpGetattr ;;
   Bitmap_Encode (ga_AttrRequest a))%enc.

(** src/nfs4/ops.go:127-134 *)
Record SetclientidArgs := mkSetclientidArgs {
  sc_Verifier : bytes;
  sc_ID : bytes;
  sc_CallbackProg : Z;
  sc_CallbackNetID : bytes;
  sc_CallbackAddr : bytes;
  sc_CallbackIdent : Z
}.

(** src/nfs4/ops.go:136-149 *)
Definition SetclientidArgs_EncodeArg (a : SetclientidArgs) : Encoder.t -> Encoder.t :=
  (Encoder.Uint32 OpSetclientid ;;
   Encoder.FixedOpaque (sc_Verifier a) ;;
   Encoder.Opaque (sc_ID a) ;;
   Encoder.Uint32 (sc_CallbackProg a) ;;
   Encoder.String (sc_CallbackNetID a) ;;
   Encoder.String (sc_CallbackAddr a) ;;
   Encoder.Uint32 (sc_CallbackIdent a))%enc.

(** src/nfs4/ops.go:178-181 *)
Record SetclientidConfirmArgs := mkSetclientidConfirmArgs {
  scc_ClientID : Z;
  scc_Verifier : bytes
}.

(** src/nfs4/ops.go:183-188 *)
Definition SetclientidConfirmArgs_EncodeArg (a : SetclientidConfirmArgs) : Encoder.t -> Encoder.t :=
  (Encoder.Uint32 OpSetclientidConfirm ;;
   Encoder.Uint64 (scc_ClientID a) ;;
   Encoder.FixedOpaque (scc_Verifier a))%enc.

(** src/nfs4/ops.go:195-199 *)
Record ReadArgs := mkReadArgs {
  rd_Stateid : Stateid;
  rd_Offset : Z;
  rd_Count : Z
}.

(** src/nfs4/ops.go:201-207 *)
Definition ReadArgs_EncodeArg (a : ReadArgs) : Encoder.t -> Encoder.t :=
  (Encoder.Uint32 OpRead ;;
   Stateid_Encode (rd_Stateid a) ;;
   Encoder.Uint64 (rd_Offset a) ;;
   Encoder.Uint32 (rd_Count a))%enc.

(** src/nfs4/ops.go:230-236 *)
Record ReaddirArgs := mkReaddirArgs {
  rdd_Cookie : Z;
  rdd_Cookieverf : bytes;
  rdd_Dircount : Z;
  rdd_Maxcount : Z;
  rdd_AttrRequest : list Z
}.

(** src/nfs4/ops.go:238-246 *)
Definition ReaddirArgs_EncodeArg (a : ReaddirArgs) : Encoder.t -> Encoder.t :=
  (Encoder.Uint32 OpReaddir ;;
   Encoder.Uint64 (rdd_Cookie a) ;;
   Encoder.FixedOpaque (rdd_Cookieverf a) ;;
   Encoder.Uint32 (rdd_Dircount a) ;;
   Encoder.Uint32 (rdd_Maxcount a) ;;
   Bitmap_Encode (rdd_AttrRequest a))%enc.

(** src/nfs4/ops.go:298-301 *)
Definition ReadlinkArgs_EncodeArg : Encoder.t -> Encoder.t :=
  (Encoder.Uint32 OpReadlink)%enc.

(** src/nfs4/ops.go:320-322 *)
Record RenewArgs := mkRenewArgs {
  rn_ClientID : Z
}.

(** src/nfs4/ops.go:324-328 *)
Definition RenewArgs_EncodeArg (a : RenewArgs) : Encoder.t -> Encoder.t :=
  (Encoder.Uint32 OpRenew ;;
   Encoder.Uint64 (rn_ClientID a))%enc.

(** src/nfs4/writeops.go:68-85 *)
Record OpenArgs := mkOpenArgs {
  op_Seqid : Z;
  op_ShareAccess : Z;
  op_ShareDeny : Z;
  op_ClientID : Z;
  op_Owner : bytes;
  op_OpenType : Z;
  op_CreateMode : Z;
  op_CreateAttrMask : list Z;
  op_CreateAttrVals : bytes;
  op_CreateVerf : bytes;
  op_Name : bytes
}.

(** src/nfs4/writeops.go:87-112 *)
Definition OpenArgs_EncodeArg (a : OpenArgs) : Encoder.t -> Encoder.t :=
  (Encoder.Uint32 OpOpen ;;
   Encoder.Uint32 (op_Seqid a) ;;
   Encoder.Uint32 (op_ShareAccess a) ;;
   Encoder.Uint32 (op_ShareDeny a) ;;
   Encoder.Uint64 (op_ClientID a) ;;
   Encoder.Opaque (op_Owner a) ;;
   Encoder.Uint32 (op_OpenType a) ;;
   (if op_OpenType a =? Open4Create then
      Encoder.Uint32 (op_CreateMode a) ;;
      (if op_CreateMode a =? CreateExclusive then Encoder.FixedOpaque (op_CreateVerf a)
       else Bitmap_Encode (op_CreateAttrMask a) ;; Encoder.Opaque (op_CreateAttrVals a))
    else fun e => e) ;;
   Encoder.Uint32 ClaimNull ;;
   Encoder.String (op_Name a))%enc.

(** src/nfs4/writeops.go:181-184 *)
Record OpenConfirmArgs := mkOpenConfirmArgs {
  oc_Stateid : Stateid;
  oc_Seqid : Z
}.

(** src/nfs4/writeops.go:186-191 *)
Definition OpenConfirmArgs_EncodeArg (a : OpenConfirmArgs) : Encoder.t -> Encoder.t :=
  (Encoder.Uint32 OpOpenConfirm ;;
   Stateid_Encode (oc_Stateid a) ;;
   Encoder.Uint32 (oc_Seqid a))%enc.

(** src/nfs4/writeops.go:211-216 *)
Record WriteArgs := mkWriteArgs {
  wr_Stateid : Stateid;
  wr_Offset : Z;
  wr_Stable : Z;
  wr_Data : bytes
}.

(** src/nfs4/writeops.go:218-225 *)
Definition WriteArgs_EncodeArg (a : WriteArgs) : Encoder.t -> Encoder.t :=
  (Encoder.Uint32 OpWrite ;;
   Stateid_Encode (wr_Stateid a) ;;
   Encoder.Uint64 (wr_Offset a) ;;
   Encoder.Uint32 (wr_Stable a) ;;
   Encoder.Opaque (wr_Data a))%enc.

(** src/nfs4/writeops.go:250-253 *)
Record CommitArgs := mkCommitArgs {
  cm_Offset : Z;
  cm_Count : Z
}.

(** src/nfs4/writeops.go:255-260 *)
Definition CommitArgs_EncodeArg (a : CommitArgs) : Encoder.t -> Encoder.t :=
  (Encoder.Uint32 OpCommit ;;
   Encoder.Uint64 (cm_Offset a) ;;
   Encoder.Uint32 (cm_Count a))%enc.

(** src/nfs4/writeops.go:279-282 *)
Record CloseArgs := mkCloseArgs {
  cl_Seqid : Z;
  cl_Stateid : Stateid
}.

(** src/nfs4/writeops.go:284-289 *)
Definition CloseArgs_EncodeArg (a : CloseArgs) : Encoder.t -> Encoder.t :=
  (Encoder.Uint32 OpClose ;;
   Encoder.Uint32 (cl_Seqid a) ;;
   Stateid_Encode (cl_Stateid a))%enc.

(** src/nfs4/writeops.go:309-315 *)
Record CreateArgs := mkCreateArgs {
  cr_Type : Z;
  cr_LinkData : bytes;
  cr_ObjName : bytes;
  cr_AttrMask : list Z;
  cr_AttrVals : bytes
}.

(** src/nfs4/writeops.go:317-332 *)
Definition CreateArgs_EncodeArg (a : CreateArgs) : Encoder.t -> Encoder.t :=
  (Encoder.Uint32 OpCreate ;;
   Encoder.Uint32 (cr_Type a) ;;
   (if cr_Type a =? 5 then Encoder.String (cr_LinkData a)
    else if (cr_Type a =? 3) || (cr_Type a =? 4) then Encoder.Uint32 0 ;; Encoder.Uint32 0
    else fun e => e) ;;
   Encoder.String (cr_ObjName a) ;;
   Bitmap_Encode (cr_AttrMask a) ;;
   Encoder.Opaque (cr_AttrVals a))%enc.

(** src/nfs4/writeops.go:355-357 *)
Record RemoveArgs := mkRemoveArgs {
  rm_Name : bytes
}.

(** src/nfs4/writeops.go:359-363 *)
Definition RemoveArgs_EncodeArg (a : RemoveArgs) : Encoder.t -> Encoder.t :=
  (Encoder.Uint32 OpRemove ;;
   Encoder.String (rm_Name a))%enc.

(** src/nfs4/writeops.go:384-387 *)
Record RenameArgs := mkRenameArgs {
  rnm_OldName : bytes;
  rnm_NewName : bytes
}.

(** src/nfs4/writeops.go:389-394 *)
Definition RenameArgs_EncodeArg (a : RenameArgs) : Encoder.t -> Encoder.t :=
  (Encoder.Uint32 OpRename ;;
   Encoder.String (rnm_OldName a) ;;
   Encoder.String (rnm_NewName a))%enc.

(** src/nfs4/writeops.go:420-422 *)
Record LinkArgs := mkLinkArgs {
  ln_NewName : bytes
}.

(** src/nfs4/writeops.go:424-428 *)
Definition LinkArgs_EncodeArg (a : LinkArgs) : Encoder.t -> Encoder.t :=
  (Encoder.Uint32 OpLink ;;
   Encoder.String (ln_NewName a))%enc.

(** src/nfs4/writeops.go:450-454 *)
Record SetattrArgs := mkSetattrArgs {
  sa_Stateid : Stateid;
  sa_AttrMask : list Z;
  sa_AttrVals : bytes
}.

(** src/nfs4/writeops.go:456-462 *)
Definition SetattrArgs_EncodeArg (a : SetattrArgs) : Encoder.t -> Encoder.t :=
  (Encoder.Uint32 OpSetattr ;;
   Stateid_Encode (sa_Stateid a) ;;
   Bitmap_Encode (sa_AttrMask a) ;;
   Encoder.Opaque (sa_AttrVals a))%enc.

(** src/nfs4/writeops.go:481-484 *)
Definition SavefhArgs_EncodeArg : Encoder.t -> Encoder.t :=
  (Encoder.Uint32 OpSavefh)%enc.

(** src/nfs4/writeops.go:489-492 *)
Definition RestorefhArgs_EncodeArg : Encoder.t -> Encoder.t :=
  (Encoder.Uint32 OpRestorefh)%enc.

(** src/nfs4/sessionops.go:38-42 *)
Record ExchangeIDArgs := mkExchangeIDArgs {
  ei_Verifier : bytes;
  ei_OwnerID : bytes;
  ei_Flags : Z
}.

(** src/nfs4/sessionops.go:44-56 *)
Definition ExchangeIDArgs_EncodeArg (a : ExchangeIDArgs) : Encoder.t -> Encoder.t :=
  (Encoder.Uint32 OpExchangeID ;;
   Encoder.FixedOpaque (ei_Verifier a) ;;
   Encoder.Opaque (ei_OwnerID a) ;;
   Encoder.Uint32 (ei_Flags a) ;;
   Encoder.Uint32 spNone ;;
   Encoder.Uint32 0)%enc.

(** src/nfs4/sessionops.go:97-104 *)
Record ChannelAttrs := mkChannelAttrs {
  ca_HeaderPadSize : Z;
  ca_MaxRequestSize : Z;
  ca_MaxResponseSize : Z;
  ca_MaxResponseSizeCach : Z;
  ca_MaxOperations : Z;
  ca_MaxRequests : Z
}.

(** src/nfs4/sessionops.go:106-114 *)
Definition ChannelAttrs_encode (c : ChannelAttrs) : Encoder.t -> Encoder.t :=
  (Encoder.Uint32 (ca_HeaderPadSize c) ;;
   Encoder.Uint32 (ca_MaxRequestSize c) ;;
   Encoder.Uint32 (ca_MaxResponseSize c) ;;
   Encoder.Uint32 (ca_MaxResponseSizeCach c) ;;
   Encoder.Uint32 (ca_MaxOperations c) ;;
   Encoder.Uint32 (ca_MaxRequests c) ;;
   Encoder.Uint32 0)%enc.

(** src/nfs4/sessionops.go:134-141 *)
Record CreateSessionArgs := mkCreateSessionArgs {
  cs_ClientID : Z;
  cs_SequenceID : Z;
  cs_Flags : Z;
  cs_ForeChan : ChannelAttrs;
  cs_BackChan : ChannelAttrs;
  cs_CBProgram : Z
}.

(** src/nfs4/sessionops.go:143-154 *)
Definition CreateSessionArgs_EncodeArg (a : CreateSessionArgs) : Encoder.t -> Encoder.t :=
  (Encoder.Uint32 OpCreateSession ;;
   Encoder.Uint64 (cs_ClientID a) ;;
   Encoder.Uint32 (cs_SequenceID a) ;;
   Encoder.Uint32 (cs_Flags a) ;;
   ChannelAttrs_encode (cs_ForeChan a) ;;
   ChannelAttrs_encode (cs_BackChan a) ;;
   Encoder.Uint32 (cs_CBProgram a) ;;
   Encoder.Uint32 0)%enc.

(** src/nfs4/sessionops.go:182-184 *)
Record DestroySessionArgs := mkDestroySessionArgs {
  ds_SessionID : bytes
}.

(** src/nfs4/sessionops.go:186-190 *)
Definition DestroySessionArgs_EncodeArg (a : DestroySessionArgs) : Encoder.t -> Encoder.t :=
  (Encoder.Uint32 OpDestroySession ;;
   Encoder.FixedOpaque (ds_SessionID a))%enc.

(** src/nfs4/sessionops.go:205-207 *)
Record DestroyClientIDArgs := mkDestroyClientIDArgs {
  dc_ClientID : Z
}.

(** src/nfs4/sessionops.go:209-213 *)
Definition DestroyClientIDArgs_EncodeArg (a : DestroyClientIDArgs) : Encoder.t -> Encoder.t :=
  (Encoder.Uint32 OpDestroyClientID ;;
   Encoder.Uint64 (dc_ClientID a))%enc.

(** src/nfs4/sessionops.go:229-231 *)
Record ReclaimCompleteArgs := mkReclaimCompleteArgs {
  rc_OneFS : bool
}.

(** src/nfs4/sessionops.go:233-237 *)
Definition ReclaimCompleteArgs_EncodeArg (a : ReclaimCompleteArgs) : Encoder.t -> Encoder.t :=
  (Encoder.Uint32 OpReclaimComplete ;;
   Encoder.Bool (rc_OneFS a))%enc.

(** src/nfs4/sessionops.go:252-258 *)
Record SequenceArgs := mkSequenceArgs {
  sq_SessionID : bytes;
  sq_SequenceID : Z;
  sq_SlotID : Z;
  sq_HighestSlotID : Z;
  sq_CacheThis : bool
}.

(** src/nfs4/sessionops.go:260-268 *)
Definition SequenceArgs_EncodeArg (a : SequenceArgs) : Encoder.t -> Encoder.t :=
  (Encoder.Uint32 OpSequence ;;
   Encoder.FixedOpaque (sq_SessionID a) ;;
   Encoder.Uint32 (sq_SequenceID a) ;;
   Encoder.Uint32 (sq_SlotID a) ;;
   Encoder.Uint32 (sq_HighestSlotID a) ;;
   Encoder.Bool (sq_CacheThis a))%enc.

(** The implementations of the interface [Arg].
    src/nfs4/ops.go:21-24 *)
Inductive Arg :=
| APutrootfh
| APutfh (a : PutfhArgs)
| AGetfh
| ALookup (a : LookupArgs)
| AGetattr (a : GetattrArgs)
| ASetclientid (a : SetclientidArgs)
| ASetclientidConfirm (a : SetclientidConfirmArgs)
| ARead (a : ReadArgs)
| AReaddir (a : ReaddirArgs)
| AReadlink
| ARenew (a : RenewArgs)
| AOpen (a : OpenArgs)
| AOpenConfirm (a : OpenConfirmArgs)
| AWrite (a : WriteArgs)
| ACommit (a : CommitArgs)
| AClose (a : CloseArgs)
| ACreate (a : CreateArgs)
| ARemove (a : RemoveArgs)
| ARename (a : RenameArgs)
| ALink (a : LinkArgs)
| ASetattr (a : SetattrArgs)
| ASavefh
| ARestorefh
| AExchangeID (a : ExchangeIDArgs)
| ACreateSession (a : CreateSessionArgs)
| ADestroySession (a : DestroySessionArgs)
| ADestroyClientID (a : DestroyClientIDArgs)
| AReclaimComplete (a : ReclaimCompleteArgs)
| ASequence (a : SequenceArgs).

(** Its method [Op]. *)
Definition Op (a : Arg) : Z :=
  match a with
  | APutrootfh => OpPutrootfh
  | APutfh _ => OpPutfh
  | AGetfh => OpGetfh
  | ALookup _ => OpLookup
  | AGetattr _ => OpGetattr
  | ASetclientid _ => OpSetclientid
  | ASetclientidConfirm _ => OpSetclientidConfirm
  | ARead _ => OpRead
  | AReaddir _ => OpReaddir
  | AReadlink => OpReadlink
  | ARenew _ => OpRenew
  | AOpen _ => OpOpen
  | AOpenConfirm _ => OpOpenConfirm
  | AWrite _ => OpWrite
  | ACommit _ => OpCommit
  | AClose _ => OpClose
  | ACreate _ => OpCreate
  | ARemove _ => OpRemove
  | ARename _ => OpRename
  | ALink _ => OpLink
  | ASetattr _ => OpSetattr
  | ASavefh => OpSavefh
  | ARestorefh => OpRestorefh
  | AExchangeID _ => OpExchangeID
  | ACreateSession _ => OpCreateSession
  | ADestroySession _ => OpDestroySession
  | ADestroyClientID _ => OpDestroyClientID
  | AReclaimComplete _ => OpReclaimComplete
  | ASequence _ => OpSequence
  end.

(** Its method [EncodeArg]. *)
Definition EncodeArg (a : Arg) : Encoder.t -> Encoder.t :=
  match a with
  | APutrootfh => PutrootfhArgs_EncodeArg
  | APutfh a => PutfhArgs_EncodeArg a
  | AGetfh => GetfhArgs_EncodeArg
  | ALookup a => LookupArgs_EncodeArg a
  | AGetattr a => GetattrArgs_EncodeArg a
  | ASetclientid a => SetclientidArgs_EncodeArg a
  | ASetclientidConfirm a => SetclientidConfirmArgs_EncodeArg a
  | ARead a => ReadArgs_EncodeArg a
  | AReaddir a => ReaddirArgs_EncodeArg a
  | AReadlink => ReadlinkArgs_EncodeArg
  | ARenew a => RenewArgs_EncodeArg a
  | AOpen a => OpenArgs_EncodeArg a
  | AOpenConfirm a => OpenConfirmArgs_EncodeArg a
  | AWrite a => WriteArgs_EncodeArg a
  | ACommit a => CommitArgs_EncodeArg a
  | AClose a => CloseArgs_EncodeArg a
  | ACreate a => CreateArgs_EncodeArg a
  | ARemove a => RemoveArgs_EncodeArg a
  | ARename a => RenameArgs_EncodeArg a
  | ALink a => LinkArgs_EncodeArg a
  | ASetattr a => SetattrArgs_EncodeArg a
  | ASavefh => SavefhArgs_EncodeArg
  | ARestorefh => RestorefhArgs_EncodeArg
  | AExchangeID a => ExchangeIDArgs_EncodeArg a
  | ACreateSession a => CreateSessionArgs_EncodeArg a
  | ADestroySession a => DestroySessionArgs_EncodeArg a
  | ADestroyClientID a => DestroyClientIDArgs_EncodeArg a
  | AReclaimComplete a => ReclaimCompleteArgs_EncodeArg a
  | ASequence a => SequenceArgs_EncodeArg a
  end.
