(* ===== verification/Nfs4Res.v ===== *)
(** * Package nfs4: operation results
    (src/nfs4/ops.go, src/nfs4/writeops.go, src/nfs4/sessionops.go)

    [XRes_DecodeRes r] is the body of the method on a pointer whose target holds
    [r]: fields that a branch does not assign keep their value. *)

From S2P Require Import Prelude GoError GoIO Xdr Nfs4Const Attr Nfs4Types Nfs4Args.

(** [switch]-less shape shared by most results: a status, and a body that is
    present only on [NFS4_OK]. *)
Definition on_ok {A} (set_status : Z -> A) (body : A -> Dec A) : Dec A :=
  status ← D.Uint32;
  let r := set_status status in
  if status =? NFS4_OK then body r else mret r.

(** [change_info4], decoded and discarded. *)
Definition discard_change_info : Dec unit :=
  _ ← D.Bool;
  _ ← D.Uint64;
  _ ← D.Uint64;
  mret tt.

(** ** ops.go *)

(** src/nfs4/ops.go:67-70 *)
Record GetfhRes := mkGetfhRes { gfr_Status : Z; gfr_FH : FileHandle }.

(** src/nfs4/ops.go:72-78 *)
Definition GetfhRes_DecodeRes (r : GetfhRes) : Dec GetfhRes :=
  on_ok (fun s => mkGetfhRes s (gfr_FH r)) (fun r =>
    fh ← D.Opaque;
    err ← D.Err;
    mret (mkGetfhRes (gfr_Status r) (if is_nil err then Some fh else None))).

(** src/nfs4/ops.go:109-113 *)
Record GetattrRes := mkGetattrRes { gar_Status : Z; gar_AttrMask : list Z; gar_AttrVals : bytes }.

(** src/nfs4/ops.go:115-122 *)
Definition GetattrRes_DecodeRes (r : GetattrRes) : Dec GetattrRes :=
  on_ok (fun s => mkGetattrRes s (gar_AttrMask r) (gar_AttrVals r)) (fun r =>
    mask ← DecodeBitmap;
    vals ← D.Opaque;
    mret (mkGetattrRes (gar_Status r) mask vals)).

(** src/nfs4/ops.go:154-160 *)
Record SetclientidRes := mkSetclientidRes {
  scr_Status : Z;
  scr_ClientID : Z;
  scr_Confirm : bytes;
  scr_ClientUsingNetID : bytes;
  scr_ClientUsingAddr : bytes
}.

(** src/nfs4/ops.go:162-173 *)
Definition SetclientidRes_DecodeRes (r : SetclientidRes) : Dec SetclientidRes :=
  status ← D.Uint32;
  if status =? NFS4_OK then
    clientid ← D.Uint64;
    confirm ← D.FixedOpaque 8;
    mret (mkSetclientidRes status clientid (go_copy (scr_Confirm r) confirm)
            (scr_ClientUsingNetID r) (scr_ClientUsingAddr r))
  else if status =? NFS4ERR_CLID_INUSE then
    netid ← D.String;
    addr ← D.String;
    mret (mkSetclientidRes status (scr_ClientID r) (scr_Confirm r) netid addr)
  else
    mret (mkSetclientidRes status (scr_ClientID r) (scr_Confirm r)
            (scr_ClientUsingNetID r) (scr_ClientUsingAddr r)).

(** src/nfs4/ops.go:210-214 *)
Record ReadRes := mkReadRes { rdr_Status : Z; rdr_EOF : bool; rdr_Data : bytes }.

(** src/nfs4/ops.go:216-223 *)
Definition ReadRes_DecodeRes (r : ReadRes) : Dec ReadRes :=
  on_ok (fun s => mkReadRes s (rdr_EOF r) (rdr_Data r)) (fun r =>
    eof ← D.Bool;
    data ← D.Opaque;
    mret (mkReadRes (rdr_Status r) eof data)).

(** src/nfs4/ops.go:250-255 *)
Record DirEntry := mkDirEntry {
  de_Cookie : Z;
  de_Name : bytes;
  de_AttrMask : list Z;
  de_AttrVals : bytes
}.

(** src/nfs4/ops.go:259-264 *)
Record ReaddirRes := mkReaddirRes {
  rddr_Status : Z;
  rddr_Cookieverf : bytes;
  rddr_Entries : list DirEntry;
  rddr_EOF : bool
}.

(** src/nfs4/ops.go:280-284 *)
Definition DecodeDirEntry : Dec DirEntry :=
  cookie ← D.Uint64;
  name ← D.String;
  mask ← DecodeBitmap;
  vals ← D.Opaque;
  mret (mkDirEntry cookie name mask vals).

(** Gives [f] the number of bytes still to come. *)
Definition with_input {A} (f : nat -> Dec A) : Dec A := fun d => f (length (rbytes (Decoder.r d))) d.

(** The loop over the entries, one per unit of fuel: the entries, and whether
    the method returned from inside the loop.  [None] when the fuel runs out,
    which [readdir_loop_total] excludes.
    src/nfs4/ops.go:275-289 *)
Fixpoint readdir_loop (fuel : nat) (entries : list DirEntry) : Dec (option (list DirEntry * bool)) :=
  match fuel with
  | O => mret None
  | S fuel =>
      more ← D.Bool;
      err ← D.Err;
      if negb (is_nil err) || negb more then mret (Some (entries, false))
      else
        e ← DecodeDirEntry;
        err ← D.Err;
        match err with
        | Some _ => mret (Some (entries, true))
        | None => readdir_loop fuel (entries ++ [e])
        end
  end.

(** Every entry takes bytes off the input, so one unit of fuel per byte, and
    one more, is enough.  src/nfs4/ops.go:266-291 *)
Definition ReaddirRes_DecodeRes (r : ReaddirRes) : Dec ReaddirRes :=
  status ← D.Uint32;
  if negb (status =? NFS4_OK) then
    mret (mkReaddirRes status (rddr_Cookieverf r) (rddr_Entries r) (rddr_EOF r))
  else
    verf ← D.FixedOpaque 8;
    let verf := go_copy (rddr_Cookieverf r) verf in
    res ← with_input (fun n => readdir_loop (S n) (rddr_Entries r));
    match res with
    | None => mret r
    | Some (entries, true) => mret (mkReaddirRes status verf entries (rddr_EOF r))
    | Some (entries, false) =>
        eof ← D.Bool;
        mret (mkReaddirRes status verf entries eof)
    end.

(** src/nfs4/ops.go:304-307 *)
Record ReadlinkRes := mkReadlinkRes { rlr_Status : Z; rlr_Link : bytes }.

(** src/nfs4/ops.go:309-315 *)
Definition ReadlinkRes_DecodeRes (r : ReadlinkRes) : Dec ReadlinkRes :=
  on_ok (fun s => mkReadlinkRes s (rlr_Link r)) (fun r =>
    link ← D.String;
    mret (mkReadlinkRes (rlr_Status r) link)).

(** src/nfs4/ops.go:334-336 *)
Record StatusRes := mkStatusRes { sr_Status : Z }.

(** src/nfs4/ops.go:338-340 *)
Definition StatusRes_DecodeRes (r : StatusRes) : Dec StatusRes :=
  status ← D.Uint32;
  mret (mkStatusRes status).

(** ** writeops.go *)

(** src/nfs4/writeops.go:117-122 *)
Record OpenRes := mkOpenRes {
  opr_Status : Z;
  opr_Stateid : Stateid;
  opr_RFlags : Z;
  opr_AttrSet : list Z
}.

(** src/nfs4/writeops.go:159-164 *)
Definition decodeNfsace4 : Dec unit :=
  _ ← D.Uint32;
  _ ← D.Uint32;
  _ ← D.Uint32;
  _ ← D.String;
  mret tt.

(** src/nfs4/writeops.go:167-176 *)
Definition decodeSpaceLimit : Dec unit :=
  limitBy ← D.Uint32;
  if limitBy =? 1 then _ ← D.Uint64; mret tt
  else if limitBy =? 2 then _ ← D.Uint32; _ ← D.Uint32; mret tt
  else mret tt.

(** The [open_delegation4] switch.  src/nfs4/writeops.go:138-150 *)
Definition decodeDelegation : Dec unit :=
  delegType ← D.Uint32;
  if delegType =? 0 then mret tt
  else if delegType =? 1 then
    _ ← DecodeStateid;
    _ ← D.Bool;
    decodeNfsace4
  else if delegType =? 2 then
    _ ← DecodeStateid;
    _ ← D.Bool;
    _ ← decodeSpaceLimit;
    decodeNfsace4
  else mret tt.

(** src/nfs4/writeops.go:124-151 *)
Definition OpenRes_DecodeRes (r : OpenRes) : Dec OpenRes :=
  on_ok (fun s => mkOpenRes s (opr_Stateid r) (opr_RFlags r) (opr_AttrSet r)) (fun r =>
    stateid ← DecodeStateid;
    _ ← discard_change_info;
    rflags ← D.Uint32;
    attrset ← DecodeBitmap;
    _ ← decodeDelegation;
    mret (mkOpenRes (opr_Status r) stateid rflags attrset)).

(** src/nfs4/writeops.go:154-156 *)
Definition NeedsConfirm (r : OpenRes) : bool :=
  negb (Z.land (opr_RFlags r) OpenResultConfirm =? 0).

(** src/nfs4/writeops.go:194-197 *)
Record OpenConfirmRes := mkOpenConfirmRes { ocr_Status : Z; ocr_Stateid : Stateid }.

(** src/nfs4/writeops.go:199-205 *)
Definition OpenConfirmRes_DecodeRes (r : OpenConfirmRes) : Dec OpenConfirmRes :=
  on_ok (fun s => mkOpenConfirmRes s (ocr_Stateid r)) (fun r =>
    stateid ← DecodeStateid;
    mret (mkOpenConfirmRes (ocr_Status r) stateid)).

(** src/nfs4/writeops.go:229-234 *)
Record WriteRes := mkWriteRes { wrr_Status : Z; wrr_Count : Z; wrr_Committed : Z; wrr_Verf : bytes }.

(** src/nfs4/writeops.go:236-244 *)
Definition WriteRes_DecodeRes (r : WriteRes) : Dec WriteRes :=
  on_ok (fun s => mkWriteRes s (wrr_Count r) (wrr_Committed r) (wrr_Verf r)) (fun r =>
    count ← D.Uint32;
    committed ← D.Uint32;
    verf ← D.FixedOpaque 8;
    mret (mkWriteRes (wrr_Status r) count committed (go_copy (wrr_Verf r) verf))).

(** src/nfs4/writeops.go:263-266 *)
Record CommitRes := mkCommitRes { cmr_Status : Z; cmr_Verf : bytes }.

(** src/nfs4/writeops.go:268-274 *)
Definition CommitRes_DecodeRes (r : CommitRes) : Dec CommitRes :=
  on_ok (fun s => mkCommitRes s (cmr_Verf r)) (fun r =>
    verf ← D.FixedOpaque 8;
    mret (mkCommitRes (cmr_Status r) (go_copy (cmr_Verf r) verf))).

(** src/nfs4/writeops.go:292-295 *)
Record CloseRes := mkCloseRes { clr_Status : Z; clr_Stateid : Stateid }.

(** src/nfs4/writeops.go:297-303 *)
Definition CloseRes_DecodeRes (r : CloseRes) : Dec CloseRes :=
  on_ok (fun s => mkCloseRes s (clr_Stateid r)) (fun r =>
    stateid ← DecodeStateid;
    mret (mkCloseRes (clr_Status r) stateid)).

(** src/nfs4/writeops.go:335-338 *)
Record CreateRes := mkCreateRes { crr_Status : Z; crr_AttrSet : list Z }.

(** src/nfs4/writeops.go:340-350 *)
Definition CreateRes_DecodeRes (r : CreateRes) : Dec CreateRes :=
  on_ok (fun s => mkCreateRes s (crr_AttrSet r)) (fun r =>
    _ ← discard_change_info;
    attrset ← DecodeBitmap;
    mret (mkCreateRes (crr_Status r) attrset)).

(** src/nfs4/writeops.go:366-368 *)
Record RemoveRes := mkRemoveRes { rmr_Status : Z }.

(** src/nfs4/writeops.go:370-378 *)
Definition RemoveRes_DecodeRes (r : RemoveRes) : Dec RemoveRes :=
  on_ok mkRemoveRes (fun r => _ ← discard_change_info; mret r).

(** src/nfs4/writeops.go:397-399 *)
Record RenameRes := mkRenameRes { rnr_Status : Z }.

(** src/nfs4/writeops.go:401-414 *)
Definition RenameRes_DecodeRes (r : RenameRes) : Dec RenameRes :=
  on_ok mkRenameRes (fun r => _ ← discard_change_info; _ ← discard_change_info; mret r).

(** src/nfs4/writeops.go:431-433 *)
Record LinkRes := mkLinkRes { lnr_Status : Z }.

(** src/nfs4/writeops.go:435-443 *)
Definition LinkRes_DecodeRes (r : LinkRes) : Dec LinkRes :=
  on_ok mkLinkRes (fun r => _ ← discard_change_info; mret r).

(** src/nfs4/writeops.go:465-468 *)
Record SetattrRes := mkSetattrRes { sar_Status : Z; sar_AttrSet : list Z }.

(** src/nfs4/writeops.go:470-474 *)
Definition SetattrRes_DecodeRes (r : SetattrRes) : Dec SetattrRes :=
  status ← D.Uint32;
  attrset ← DecodeBitmap;
  mret (mkSetattrRes status attrset).

(** ** sessionops.go *)

(** src/nfs4/sessionops.go:60-65 *)
Record ExchangeIDRes := mkExchangeIDRes {
  eir_Status : Z;
  eir_ClientID : Z;
  eir_SequenceID : Z;
  eir_Flags : Z
}.

(** [for i := uint32(0); i < n; i++ { ... }] *)
Fixpoint times (n : nat) (m : Dec unit) : Dec unit :=
  match n with
  | O => mret tt
  | S n => _ ← m; times n m
  end.

(** The body of the loop over [nfs_impl_id4]. *)
Definition discard_impl_id : Dec unit :=
  _ ← D.String;
  _ ← D.String;
  _ ← D.Int64;
  _ ← D.Uint32;
  mret tt.

(** src/nfs4/sessionops.go:67-92 *)
Definition ExchangeIDRes_DecodeRes (r : ExchangeIDRes) : Dec ExchangeIDRes :=
  on_ok (fun s => mkExchangeIDRes s (eir_ClientID r) (eir_SequenceID r) (eir_Flags r)) (fun r =>
    clientid ← D.Uint64;
    sequenceid ← D.Uint32;
    flags ← D.Uint32;
    _ ← D.Uint32;
    _ ← D.Uint64;
    _ ← D.Opaque;
    _ ← D.Opaque;
    n ← D.Uint32;
    _ ← times (Z.to_nat n) discard_impl_id;
    mret (mkExchangeIDRes (eir_Status r) clientid sequenceid flags)).

(** src/nfs4/sessionops.go:116-129 *)
Definition decodeChannelAttrs : Dec ChannelAttrs :=
  headerPadSize ← D.Uint32;
  maxRequestSize ← D.Uint32;
  maxResponseSize ← D.Uint32;
  maxResponseSizeCach ← D.Uint32;
  maxOperations ← D.Uint32;
  maxRequests ← D.Uint32;
  n ← D.Uint32;
  _ ← times (Z.to_nat n) (_ ← D.Uint32; mret tt);
  mret (mkChannelAttrs headerPadSize maxRequestSize maxResponseSize maxResponseSizeCach
          maxOperations maxRequests).

(** src/nfs4/sessionops.go:157-164 *)
Record CreateSessionRes := mkCreateSessionRes {
  csr_Status : Z;
  csr_SessionID : bytes;
  csr_SequenceID : Z;
  csr_Flags : Z;
  csr_ForeChan : ChannelAttrs;
  csr_BackChan : ChannelAttrs
}.

(** src/nfs4/sessionops.go:166-177 *)
Definition CreateSessionRes_DecodeRes (r : CreateSessionRes) : Dec CreateSessionRes :=
  on_ok (fun s => mkCreateSessionRes s (csr_SessionID r) (csr_SequenceID r) (csr_Flags r)
                    (csr_ForeChan r) (csr_BackChan r)) (fun r =>
    sessionid ← D.FixedOpaque SessionIDLen;
    sequenceid ← D.Uint32;
    flags ← D.Uint32;
    fore ← decodeChannelAttrs;
    back ← decodeChannelAttrs;
    mret (mkCreateSessionRes (csr_Status r) (go_copy (csr_SessionID r) sessionid) sequenceid flags
            fore back)).

(** src/nfs4/sessionops.go:193-195 *)
Record DestroySessionRes := mkDestroySessionRes { dsr_Status : Z }.
(** src/nfs4/sessionops.go:197-200 *)
Definition DestroySessionRes_DecodeRes (r : DestroySessionRes) : Dec DestroySessionRes :=
  status ← D.Uint32;
  mret (mkDestroySessionRes status).

(** src/nfs4/sessionops.go:216-218 *)
Record DestroyClientIDRes := mkDestroyClientIDRes { dcr_Status : Z }.
(** src/nfs4/sessionops.go:220-223 *)
Definition DestroyClientIDRes_DecodeRes (r : DestroyClientIDRes) : Dec DestroyClientIDRes :=
  status ← D.Uint32;
  mret (mkDestroyClientIDRes status).

(** src/nfs4/sessionops.go:240-242 *)
Record ReclaimCompleteRes := mkReclaimCompleteRes { rcr_Status : Z }.
(** src/nfs4/sessionops.go:244-247 *)
Definition ReclaimCompleteRes_DecodeRes (r : ReclaimCompleteRes) : Dec ReclaimCompleteRes :=
  status ← D.Uint32;
  mret (mkReclaimCompleteRes status).

(** src/nfs4/sessionops.go:271-279 *)
Record SequenceRes := mkSequenceRes {
  sqr_Status : Z;
  sqr_SessionID : bytes;
  sqr_SequenceID : Z;
  sqr_SlotID : Z;
  sqr_HighestSlotID : Z;
  sqr_TargetHighestSlot : Z;
  sqr_StatusFlags : Z
}.

(** src/nfs4/sessionops.go:281-293 *)
Definition SequenceRes_DecodeRes (r : SequenceRes) : Dec SequenceRes :=
  on_ok (fun s => mkSequenceRes s (sqr_SessionID r) (sqr_SequenceID r) (sqr_SlotID r)
                    (sqr_HighestSlotID r) (sqr_TargetHighestSlot r) (sqr_StatusFlags r)) (fun r =>
    sessionid ← D.FixedOpaque SessionIDLen;
    sequenceid ← D.Uint32;
    slotid ← D.Uint32;
    highest ← D.Uint32;
    target ← D.Uint32;
    flags ← D.Uint32;
    mret (mkSequenceRes (sqr_Status r) (go_copy (sqr_SessionID r) sessionid) sequenceid slotid
            highest target flags)).

(** ** The interface *)

(** The implementations of the interface [Res].
    src/nfs4/ops.go:29-31 *)
Inductive Res :=
| RGetfh (r : GetfhRes)
| RGetattr (r : GetattrRes)
| RSetclientid (r : SetclientidRes)
| RRead (r : ReadRes)
| RReaddir (r : ReaddirRes)
| RReadlink (r : ReadlinkRes)
| RStatus (r : StatusRes)
| ROpen (r : OpenRes)
| ROpenConfirm (r : OpenConfirmRes)
| RWrite (r : WriteRes)
| RCommit (r : CommitRes)
| RClose (r : CloseRes)
| RCreate (r : CreateRes)
| RRemove (r : RemoveRes)
| RRename (r : RenameRes)
| RLink (r : LinkRes)
| RSetattr (r : SetattrRes)
| RExchangeID (r : ExchangeIDRes)
| RCreateSession (r : CreateSessionRes)
| RDestroySession (r : DestroySessionRes)
| RDestroyClientID (r : DestroyClientIDRes)
| RReclaimComplete (r : ReclaimCompleteRes)
| RSequence (r : SequenceRes).

(** Its method [DecodeRes]: the value the pointer holds afterwards. *)
Definition DecodeRes (r : Res) : Dec Res :=
  match r with
  | RGetfh r => r ← GetfhRes_DecodeRes r; mret (RGetfh r)
  | RGetattr r => r ← GetattrRes_DecodeRes r; mret (RGetattr r)
  | RSetclientid r => r ← SetclientidRes_DecodeRes r; mret (RSetclientid r)
  | RRead r => r ← ReadRes_DecodeRes r; mret (RRead r)
  | RReaddir r => r ← ReaddirRes_DecodeRes r; mret (RReaddir r)
  | RReadlink r => r ← ReadlinkRes_DecodeRes r; mret (RReadlink r)
  | RStatus r => r ← StatusRes_DecodeRes r; mret (RStatus r)
  | ROpen r => r ← OpenRes_DecodeRes r; mret (ROpen r)
  | ROpenConfirm r => r ← OpenConfirmRes_DecodeRes r; mret (ROpenConfirm r)
  | RWrite r => r ← WriteRes_DecodeRes r; mret (RWrite r)
  | RCommit r => r ← CommitRes_DecodeRes r; mret (RCommit r)
  | RClose r => r ← CloseRes_DecodeRes r; mret (RClose r)
  | RCreate r => r ← CreateRes_DecodeRes r; mret (RCreate r)
  | RRemove r => r ← RemoveRes_DecodeRes r; mret (RRemove r)
  | RRename r => r ← RenameRes_DecodeRes r; mret (RRename r)
  | RLink r => r ← LinkRes_DecodeRes r; mret (RLink r)
  | RSetattr r => r ← SetattrRes_DecodeRes r; mret (RSetattr r)
  | RExchangeID r => r ← ExchangeIDRes_DecodeRes r; mret (RExchangeID r)
  | RCreateSession r => r ← CreateSessionRes_DecodeRes r; mret (RCreateSession r)
  | RDestroySession r => r ← DestroySessionRes_DecodeRes r; mret (RDestroySession r)
  | RDestroyClientID r => r ← DestroyClientIDRes_DecodeRes r; mret (RDestroyClientID r)
  | RReclaimComplete r => r ← ReclaimCompleteRes_DecodeRes r; mret (RReclaimComplete r)
  | RSequence r => r ← SequenceRes_DecodeRes r; mret (RSequence r)
  end.

(** The type assertion of [expectedOp] and the [Op] methods behind it: 0 for
    the result that has none.  src/nfs4/compound.go:120-125 *)
Definition expectedOp (r : Res) : Z :=
  match r with
  | RGetfh _ => OpGetfh
  | RGetattr _ => OpGetattr
  | RSetclientid _ => OpSetclientid
  | RRead _ => OpRead
  | RReaddir _ => OpReaddir
  | RReadlink _ => OpReadlink
  | RStatus _ => 0
  | ROpen _ => OpOpen
  | ROpenConfirm _ => OpOpenConfirm
  | RWrite _ => OpWrite
  | RCommit _ => OpCommit
  | RClose _ => OpClose
  | RCreate _ => OpCreate
  | RRemove _ => OpRemove
  | RRename _ => OpRename
  | RLink _ => OpLink
  | RSetattr _ => OpSetattr
  | RExchangeID _ => OpExchangeID
  | RCreateSession _ => OpCreateSession
  | RDestroySession _ => OpDestroySession
  | RDestroyClientID _ => OpDestroyClientID
  | RReclaimComplete _ => OpReclaimComplete
  | RSequence _ => OpSequence
  end.

(** The [Status] field of a result. *)
Definition Res_Status (r : Res) : Z :=
  match r with
  | RGetfh r => gfr_Status r
  | RGetattr r => gar_Status r
  | RSetclientid r => scr_Status r
  | RRead r => rdr_Status r
  | RReaddir r => rddr_Status r
  | RReadlink r => rlr_Status r
  | RStatus r => sr_Status r
  | ROpen r => opr_Status r
  | ROpenConfirm r => ocr_Status r
  | RWrite r => wrr_Status r
  | RCommit r => cmr_Status r
  | RClose r => clr_Status r
  | RCreate r => crr_Status r
  | RRemove r => rmr_Status r
  | RRename r => rnr_Status r
  | RLink r => lnr_Status r
  | RSetattr r => sar_Status r
  | RExchangeID r => eir_Status r
  | RCreateSession r => csr_Status r
  | RDestroySession r => dsr_Status r
  | RDestroyClientID r => dcr_Status r
  | RReclaimComplete r => rcr_Status r
  | RSequence r => sqr_Status r
  end.
