(* ===== verification/Compound.v ===== *)
(** * COMPOUND requests and replies (src/nfs4/compound.go)

    The result pointers of a compound are distinct objects, so a list of result
    values is threaded through the decoder. *)

From S2P Require Import Prelude GoError GoIO Xdr Nfs4Const Attr Nfs4Types Nfs4Args Nfs4Res.

(** src/nfs4/compound.go:26-30 *)
Record Compound := mkCompound {
  cp_Tag : bytes;
  cp_MinorVersion : Z;
  cp_ops : list Arg
}.

(** src/nfs4/compound.go:34-36 *)
Definition NewCompound (tag : bytes) : Compound := mkCompound tag 0 [].

(** src/nfs4/compound.go:40-43 *)
Definition Add (op : Arg) (c : Compound) : Compound :=
  mkCompound (cp_Tag c) (cp_MinorVersion c) (cp_ops c ++ [op]).

(** src/nfs4/compound.go:46-48 *)
Definition Ops (c : Compound) : list Arg := cp_ops c.

(** src/nfs4/compound.go:52-59 *)
Definition Compound_Encode (c : Compound) : Encoder.t -> Encoder.t :=
  (Encoder.String (cp_Tag c) ;;
   Encoder.Uint32 (cp_MinorVersion c) ;;
   Encoder.Uint32 (u32 (blen (cp_ops c))) ;;
   each EncodeArg (cp_ops c))%enc.

(** src/nfs4/compound.go:62-72 *)
Record CompoundResult := mkCompoundResult {
  cpr_Status : Z;
  cpr_Tag : bytes;
  cpr_NumResults : Z
}.

(** src/nfs4/compound.go:75-77 *)
Definition CompoundResult_Err (r : CompoundResult) : option error := Status_Err (cpr_Status r).

(** The loop of [DecodeCompound] over the [n] resops announced, from index [i]:
    the error it returns, if any, and the results afterwards.
    src/nfs4/compound.go:101-113 *)
Fixpoint decode_resops (n : nat) (i : Z) (results : list Res) : Dec (option error * list Res) :=
  match n, results with
  | O, _ => mret (None, results)
  | S _, [] => mret (None, [])    (* results[i] out of range: the caller compares the lengths *)
  | S n, r :: rs =>
      opnum ← D.Uint32;
      err ← D.Err;
      match err with
      | Some e => mret (Some (Wrapf "nfs4: decoding resop[%d] opnum: %w" [Fz i] e), r :: rs)
      | None =>
          let got := expectedOp r in
          if negb (got =? 0) && negb (got =? opnum) then
            mret (Some (Errorf "nfs4: resop[%d] opnum %d does not match expected %d"
                               [Fz i; Fz opnum; Fz got]), r :: rs)
          else
            r ← DecodeRes r;
            err ← D.Err;
            match err with
            | Some e => mret (Some (Wrapf "nfs4: decoding resop[%d] body: %w" [Fz i] e), r :: rs)
            | None =>
                rest ← decode_resops n (i + 1) rs;
                mret (rest.1, r :: rest.2)
            end
      end
  end.

(** src/nfs4/compound.go:88-116 *)
Definition DecodeCompound (results : list Res) : Dec (result CompoundResult * list Res) :=
  status ← D.Uint32;
  tag ← D.String;
  count ← D.Uint32;
  err ← D.Err;
  match err with
  | Some e => mret (inl (Wrapf "nfs4: decoding compound header: %w" [] e), results)
  | None =>
      if blen results <? count then
        mret (inl (Errorf "nfs4: server returned %d resops but only %d expected"
                          [Fz count; Fz (blen results)]), results)
      else
        loop ← decode_resops (Z.to_nat count) 0 results;
        match loop.1 with
        | Some e => mret (inl e, loop.2)
        | None => mret (inr (mkCompoundResult status tag count), loop.2)
        end
  end.
