(* ===== verification/Nfs4Spec.v ===== *)
(** * Operations and compounds: what they promise

    The nfs_argop4 and nfs_resop4 forms of every operation, a server that reads
    the arguments, and the laws that connect them with the code. *)

From S2P Require Import Prelude GoError GoIO Xdr XdrSpec XdrCorrect Nfs4Const Attr AttrCorrect.
From S2P Require Import Nfs4Types Nfs4Args Nfs4Res Compound.

(** ** Basic types *)

Definition sized (n : Z) (p : bytes) : Prop := blen p = n.
Definition bitmap_ok (b : list Z) : Prop := blen b < 2 ^ 32 /\ Forall is_u32 b.
Definition wire_bitmap (b : list Z) : bytes := wire_u32 (blen b) ++ concat (map wire_u32 b).
Definition stateid_ok (s : Stateid) : Prop := is_u32 (st_Seqid s) /\ sized 12 (st_Other s).
Definition wire_stateid (s : Stateid) : bytes := wire_u32 (st_Seqid s) ++ wire_fixed (st_Other s).
Definition chan_ok (c : ChannelAttrs) : Prop :=
  is_u32 (ca_HeaderPadSize c) /\ is_u32 (ca_MaxRequestSize c) /\ is_u32 (ca_MaxResponseSize c)
  /\ is_u32 (ca_MaxResponseSizeCach c) /\ is_u32 (ca_MaxOperations c) /\ is_u32 (ca_MaxRequests c).
Definition wire_chan (c : ChannelAttrs) : bytes :=
  wire_u32 (ca_HeaderPadSize c) ++ wire_u32 (ca_MaxRequestSize c) ++ wire_u32 (ca_MaxResponseSize c)
  ++ wire_u32 (ca_MaxResponseSizeCach c) ++ wire_u32 (ca_MaxOperations c)
  ++ wire_u32 (ca_MaxRequests c) ++ wire_u32 0.

Lemma wire_u32_u32 v : wire_u32 (u32 v) = wire_u32 v.
Proof. apply be4_u32. Qed.

Lemma go_copy_full dst src : blen src = blen dst -> go_copy dst src = src.
Proof.
  unfold go_copy, blen. intros. rewrite take_ge, drop_ge by lia. apply app_nil_r.
Qed.

Lemma emits_Bitmap b : emits (Bitmap_Encode b) (wire_bitmap b).
Proof.
  apply emits_seq; [|apply emits_each, emits_Uint32].
  eapply emits_eq; [apply emits_Uint32|apply wire_u32_u32].
Qed.

Lemma parses_decode_words ws : Forall is_u32 ws ->
  parses (decode_words (length ws)) (concat (map wire_u32 ws)) ws.
Proof.
  induction 1 as [|w ws Hw _ IH]; [apply parses_ret|]. cbn [length decode_words map concat].
  eapply parses_bind; [by apply parses_Uint32|]. eapply parses_bind_last; [exact IH|apply parses_ret].
Qed.

Lemma parses_Bitmap b : bitmap_ok b -> parses DecodeBitmap (wire_bitmap b) b.
Proof.
  intros [Hl Hw]. pose proof (blen_nonneg b). eapply parses_bind; [apply parses_Uint32; split; lia|].
  eapply parses_bind_nil; [apply parses_Err|]. cbn beta iota.
  unfold blen. rewrite Nat2Z.id. by apply parses_decode_words.
Qed.

Lemma decode_words_length n : forall d, length (decode_words n d).1 = n.
Proof.
  induction n as [|n IH]; intros d; [done|]. cbn [decode_words]. unfold mbind, Dec_bind.
  destruct (D.Uint32 d) as [w d1]. specialize (IH d1). destruct (decode_words n d1) as [ws d2]. cbn in *. congruence.
Qed.

(** No limit on the count of a bitmap: the slice is as long as four bytes say,
    up to 2^32 - 1 words, whatever follows them. *)
Lemma DecodeBitmap_unbounded n d more : is_u32 n -> healthy d -> rest d = wire_u32 n ++ more ->
  blen (DecodeBitmap d).1 = n.
Proof.
  intros Hn Hd Hr. destruct (parses_Uint32 n Hn d more Hd Hr) as (d1 & E & Hd1 & _). unfold DecodeBitmap, mbind, Dec_bind.
  rewrite E. unfold D.Err. rewrite (healthy_err _ Hd1). unfold blen. rewrite decode_words_length. destruct Hn. lia.
Qed.

Lemma emits_Stateid s : emits (Stateid_Encode s) (wire_stateid s).
Proof. apply emits_seq; [apply emits_Uint32|apply emits_FixedOpaque]. Qed.

Lemma parses_Stateid s : stateid_ok s -> parses DecodeStateid (wire_stateid s) s.
Proof.
  destruct s as [q o]. intros [Hq Ho]. cbn in *.
  eapply parses_bind; [by apply parses_Uint32|].
  eapply parses_bind_last; [by apply parses_FixedOpaque|]. rewrite go_copy_full by done. apply parses_ret.
Qed.

Lemma emits_chan c : emits (ChannelAttrs_encode c) (wire_chan c).
Proof. unfold ChannelAttrs_encode, wire_chan. emit. Qed.

Lemma parses_chan c : chan_ok c -> parses decodeChannelAttrs (wire_chan c) c.
Proof.
  destruct c. intros (?&?&?&?&?&?). cbn in *. unfold wire_chan, decodeChannelAttrs. cbn.
  do 6 (eapply parses_bind; [by apply parses_Uint32|]).
  eapply parses_bind_last; [by apply parses_Uint32|].
  eapply (parses_bind _ _ [] []); apply parses_ret.
Qed.

#[export] Hint Resolve emits_Bitmap emits_Stateid emits_chan parses_Bitmap parses_Stateid parses_chan : nfs.

(** ** Arguments *)

Definition open_ok (a : OpenArgs) : Prop :=
  is_u32 (op_Seqid a) /\ is_u32 (op_ShareAccess a) /\ is_u32 (op_ShareDeny a) /\ is_u64 (op_ClientID a)
  /\ fits (op_Owner a) /\ (op_OpenType a = Open4NoCreate \/ op_OpenType a = Open4Create)
  /\ (op_CreateMode a = CreateUnchecked \/ op_CreateMode a = CreateGuarded \/ op_CreateMode a = CreateExclusive)
  /\ bitmap_ok (op_CreateAttrMask a) /\ fits (op_CreateAttrVals a) /\ sized 8 (op_CreateVerf a)
  /\ fits (op_Name a).

(** What OPEN carries of the creation parameters: the fields of the other arms
    of the unions are not sent. *)
Definition open_sent (a : OpenArgs) : OpenArgs :=
  let create := op_OpenType a =? Open4Create in
  let excl := op_CreateMode a =? CreateExclusive in
  mkOpenArgs (op_Seqid a) (op_ShareAccess a) (op_ShareDeny a) (op_ClientID a) (op_Owner a) (op_OpenType a)
    (if create then op_CreateMode a else 0)
    (if create && negb excl then op_CreateAttrMask a else [])
    (if create && negb excl then op_CreateAttrVals a else [])
    (if create && excl then op_CreateVerf a else zero_array 8) (op_Name a).

Definition wire_open (a : OpenArgs) : bytes :=
  wire_u32 (op_Seqid a) ++ wire_u32 (op_ShareAccess a) ++ wire_u32 (op_ShareDeny a)
  ++ wire_u64 (op_ClientID a) ++ wire_opaque (op_Owner a) ++ wire_u32 (op_OpenType a)
  ++ (if op_OpenType a =? Open4Create then
        wire_u32 (op_CreateMode a)
        ++ (if op_CreateMode a =? CreateExclusive then wire_fixed (op_CreateVerf a)
            else wire_bitmap (op_CreateAttrMask a) ++ wire_opaque (op_CreateAttrVals a))
      else [])
  ++ wire_u32 ClaimNull ++ wire_opaque (op_Name a).

(** createhow4, as mode, mask, values and verifier. *)
Definition server_createhow : Dec (Z * list Z * bytes * bytes) :=
  mode ← D.Uint32;
  if mode =? CreateExclusive then verf ← D.FixedOpaque 8; mret (mode, [], [], verf)
  else mask ← DecodeBitmap; vals ← D.Opaque; mret (mode, mask, vals, zero_array 8).

Definition server_openflag : Dec (Z * (Z * list Z * bytes * bytes)) :=
  opentype ← D.Uint32;
  if opentype =? Open4Create then how ← server_createhow; mret (opentype, how)
  else mret (opentype, (0, [], [], zero_array 8)).

Definition server_open : Dec OpenArgs :=
  seqid ← D.Uint32; access ← D.Uint32; deny ← D.Uint32;
  clientid ← D.Uint64; owner ← D.Opaque;
  flag ← server_openflag;
  _ ← D.Uint32; name ← D.String;
  let '(mode, mask, vals, verf) := flag.2 in
  mret (mkOpenArgs seqid access deny clientid owner flag.1 mode mask vals verf name).

Definition create_ok (a : CreateArgs) : Prop :=
  is_u32 (cr_Type a) /\ fits (cr_LinkData a) /\ fits (cr_ObjName a) /\ bitmap_ok (cr_AttrMask a)
  /\ fits (cr_AttrVals a).

Definition create_sent (a : CreateArgs) : CreateArgs :=
  mkCreateArgs (cr_Type a) (if cr_Type a =? FtypeLnk then cr_LinkData a else []) (cr_ObjName a)
    (cr_AttrMask a) (cr_AttrVals a).

Definition wire_create (a : CreateArgs) : bytes :=
  wire_u32 (cr_Type a)
  ++ (if cr_Type a =? FtypeLnk then wire_opaque (cr_LinkData a)
      else if (cr_Type a =? FtypeBlk) || (cr_Type a =? FtypeChr) then wire_u32 0 ++ wire_u32 0
      else [])
  ++ wire_opaque (cr_ObjName a) ++ wire_bitmap (cr_AttrMask a) ++ wire_opaque (cr_AttrVals a).

Definition server_createtype (type : Z) : Dec bytes :=
  if type =? FtypeLnk then D.String
  else if (type =? FtypeBlk) || (type =? FtypeChr) then _ ← D.Uint32; _ ← D.Uint32; mret []
  else mret [].

Definition server_create : Dec CreateArgs :=
  type ← D.Uint32;
  link ← server_createtype type;
  name ← D.String; mask ← DecodeBitmap; vals ← D.Opaque;
  mret (mkCreateArgs type link name mask vals).

(** The fields are within their XDR types. *)
Definition arg_ok (a : Arg) : Prop :=
  match a with
  | APutrootfh => True
  | APutfh a => fits (pf_FH a)
  | AGetfh => True
  | ALookup a => fits (lk_Name a)
  | AGetattr a => bitmap_ok (ga_AttrRequest a)
  | ASetclientid a => sized 8 (sc_Verifier a) /\ fits (sc_ID a) /\ is_u32 (sc_CallbackProg a) /\ fits (sc_CallbackNetID a) /\ fits (sc_CallbackAddr a) /\ is_u32 (sc_CallbackIdent a)
  | ASetclientidConfirm a => is_u64 (scc_ClientID a) /\ sized 8 (scc_Verifier a)
  | ARead a => stateid_ok (rd_Stateid a) /\ is_u64 (rd_Offset a) /\ is_u32 (rd_Count a)
  | AReaddir a => is_u64 (rdd_Cookie a) /\ sized 8 (rdd_Cookieverf a) /\ is_u32 (rdd_Dircount a) /\ is_u32 (rdd_Maxcount a) /\ bitmap_ok (rdd_AttrRequest a)
  | AReadlink => True
  | ARenew a => is_u64 (rn_ClientID a)
  | AOpen a => open_ok a
  | AOpenConfirm a => stateid_ok (oc_Stateid a) /\ is_u32 (oc_Seqid a)
  | AWrite a => stateid_ok (wr_Stateid a) /\ is_u64 (wr_Offset a) /\ is_u32 (wr_Stable a) /\ fits (wr_Data a)
  | ACommit a => is_u64 (cm_Offset a) /\ is_u32 (cm_Count a)
  | AClose a => is_u32 (cl_Seqid a) /\ stateid_ok (cl_Stateid a)
  | ACreate a => create_ok a
  | ARemove a => fits (rm_Name a)
  | ARename a => fits (rnm_OldName a) /\ fits (rnm_NewName a)
  | ALink a => fits (ln_NewName a)
  | ASetattr a => stateid_ok (sa_Stateid a) /\ bitmap_ok (sa_AttrMask a) /\ fits (sa_AttrVals a)
  | ASavefh => True
  | ARestorefh => True
  | AExchangeID a => sized 8 (ei_Verifier a) /\ fits (ei_OwnerID a) /\ is_u32 (ei_Flags a)
  | ACreateSession a => is_u64 (cs_ClientID a) /\ is_u32 (cs_SequenceID a) /\ is_u32 (cs_Flags a) /\ chan_ok (cs_ForeChan a) /\ chan_ok (cs_BackChan a) /\ is_u32 (cs_CBProgram a)
  | ADestroySession a => sized 16 (ds_SessionID a)
  | ADestroyClientID a => is_u64 (dc_ClientID a)
  | AReclaimComplete _ => True
  | ASequence a => sized 16 (sq_SessionID a) /\ is_u32 (sq_SequenceID a) /\ is_u32 (sq_SlotID a) /\ is_u32 (sq_HighestSlotID a)
  end.

(** The nfs_argop4 of an argument. *)
Definition wire_arg (a : Arg) : bytes :=
  wire_u32 (Op a) ++
  match a with
  | APutrootfh => []
  | APutfh a => wire_opaque (pf_FH a)
  | AGetfh => []
  | ALookup a => wire_opaque (lk_Name a)
  | AGetattr a => wire_bitmap (ga_AttrRequest a)
  | ASetclientid a => wire_fixed (sc_Verifier a) ++ wire_opaque (sc_ID a) ++ wire_u32 (sc_CallbackProg a) ++ wire_opaque (sc_CallbackNetID a) ++ wire_opaque (sc_CallbackAddr a) ++ wire_u32 (sc_CallbackIdent a)
  | ASetclientidConfirm a => wire_u64 (scc_ClientID a) ++ wire_fixed (scc_Verifier a)
  | ARead a => wire_stateid (rd_Stateid a) ++ wire_u64 (rd_Offset a) ++ wire_u32 (rd_Count a)
  | AReaddir a => wire_u64 (rdd_Cookie a) ++ wire_fixed (rdd_Cookieverf a) ++ wire_u32 (rdd_Dircount a) ++ wire_u32 (rdd_Maxcount a) ++ wire_bitmap (rdd_AttrRequest a)
  | AReadlink => []
  | ARenew a => wire_u64 (rn_ClientID a)
  | AOpen a => wire_open a
  | AOpenConfirm a => wire_stateid (oc_Stateid a) ++ wire_u32 (oc_Seqid a)
  | AWrite a => wire_stateid (wr_Stateid a) ++ wire_u64 (wr_Offset a) ++ wire_u32 (wr_Stable a) ++ wire_opaque (wr_Data a)
  | ACommit a => wire_u64 (cm_Offset a) ++ wire_u32 (cm_Count a)
  | AClose a => wire_u32 (cl_Seqid a) ++ wire_stateid (cl_Stateid a)
  | ACreate a => wire_create a
  | ARemove a => wire_opaque (rm_Name a)
  | ARename a => wire_opaque (rnm_OldName a) ++ wire_opaque (rnm_NewName a)
  | ALink a => wire_opaque (ln_NewName a)
  | ASetattr a => wire_stateid (sa_Stateid a) ++ wire_bitmap (sa_AttrMask a) ++ wire_opaque (sa_AttrVals a)
  | ASavefh => []
  | ARestorefh => []
  | AExchangeID a => wire_fixed (ei_Verifier a) ++ wire_opaque (ei_OwnerID a) ++ wire_u32 (ei_Flags a) ++ wire_u32 spNone ++ wire_u32 0
  | ACreateSession a => wire_u64 (cs_ClientID a) ++ wire_u32 (cs_SequenceID a) ++ wire_u32 (cs_Flags a) ++ wire_chan (cs_ForeChan a) ++ wire_chan (cs_BackChan a) ++ wire_u32 (cs_CBProgram a) ++ wire_u32 0
  | ADestroySession a => wire_fixed (ds_SessionID a)
  | ADestroyClientID a => wire_u64 (dc_ClientID a)
  | AReclaimComplete a => wire_bool (rc_OneFS a)
  | ASequence a => wire_fixed (sq_SessionID a) ++ wire_u32 (sq_SequenceID a) ++ wire_u32 (sq_SlotID a) ++ wire_u32 (sq_HighestSlotID a) ++ wire_bool (sq_CacheThis a)
  end.

(** A server reading one nfs_argop4; [None] for an operation this client never sends. *)
Definition server_arg : Dec (option Arg) :=
  opnum ← D.Uint32;
  if opnum =? OpPutrootfh then mret (Some APutrootfh)
  else if opnum =? OpPutfh then x0 ← D.Opaque; mret (Some (APutfh (mkPutfhArgs x0)))
  else if opnum =? OpGetfh then mret (Some AGetfh)
  else if opnum =? OpLookup then x0 ← D.String; mret (Some (ALookup (mkLookupArgs x0)))
  else if opnum =? OpGetattr then x0 ← DecodeBitmap; mret (Some (AGetattr (mkGetattrArgs x0)))
  else if opnum =? OpSetclientid then x0 ← D.FixedOpaque 8; x1 ← D.Opaque; x2 ← D.Uint32; x3 ← D.String; x4 ← D.String; x5 ← D.Uint32; mret (Some (ASetclientid (mkSetclientidArgs x0 x1 x2 x3 x4 x5)))
  else if opnum =? OpSetclientidConfirm then x0 ← D.Uint64; x1 ← D.FixedOpaque 8; mret (Some (ASetclientidConfirm (mkSetclientidConfirmArgs x0 x1)))
  else if opnum =? OpRead then x0 ← DecodeStateid; x1 ← D.Uint64; x2 ← D.Uint32; mret (Some (ARead (mkReadArgs x0 x1 x2)))
  else if opnum =? OpReaddir then x0 ← D.Uint64; x1 ← D.FixedOpaque 8; x2 ← D.Uint32; x3 ← D.Uint32; x4 ← DecodeBitmap; mret (Some (AReaddir (mkReaddirArgs x0 x1 x2 x3 x4)))
  else if opnum =? OpReadlink then mret (Some AReadlink)
  else if opnum =? OpRenew then x0 ← D.Uint64; mret (Some (ARenew (mkRenewArgs x0)))
  else if opnum =? OpOpen then a ← server_open; mret (Some (AOpen a))
  else if opnum =? OpOpenConfirm then x0 ← DecodeStateid; x1 ← D.Uint32; mret (Some (AOpenConfirm (mkOpenConfirmArgs x0 x1)))
  else if opnum =? OpWrite then x0 ← DecodeStateid; x1 ← D.Uint64; x2 ← D.Uint32; x3 ← D.Opaque; mret (Some (AWrite (mkWriteArgs x0 x1 x2 x3)))
  else if opnum =? OpCommit then x0 ← D.Uint64; x1 ← D.Uint32; mret (Some (ACommit (mkCommitArgs x0 x1)))
  else if opnum =? OpClose then x0 ← D.Uint32; x1 ← DecodeStateid; mret (Some (AClose (mkCloseArgs x0 x1)))
  else if opnum =? OpCreate then a ← server_create; mret (Some (ACreate a))
  else if opnum =? OpRemove then x0 ← D.String; mret (Some (ARemove (mkRemoveArgs x0)))
  else if opnum =? OpRename then x0 ← D.String; x1 ← D.String; mret (Some (ARename (mkRenameArgs x0 x1)))
  else if opnum =? OpLink then x0 ← D.String; mret (Some (ALink (mkLinkArgs x0)))
  else if opnum =? OpSetattr then x0 ← DecodeStateid; x1 ← DecodeBitmap; x2 ← D.Opaque; mret (Some (ASetattr (mkSetattrArgs x0 x1 x2)))
  else if opnum =? OpSavefh then mret (Some ASavefh)
  else if opnum =? OpRestorefh then mret (Some ARestorefh)
  else if opnum =? OpExchangeID then x0 ← D.FixedOpaque 8; x1 ← D.Opaque; x2 ← D.Uint32; _ ← D.Uint32; _ ← D.Uint32; mret (Some (AExchangeID (mkExchangeIDArgs x0 x1 x2)))
  else if opnum =? OpCreateSession then x0 ← D.Uint64; x1 ← D.Uint32; x2 ← D.Uint32; x3 ← decodeChannelAttrs; x4 ← decodeChannelAttrs; x5 ← D.Uint32; _ ← D.Uint32; mret (Some (ACreateSession (mkCreateSessionArgs x0 x1 x2 x3 x4 x5)))
  else if opnum =? OpDestroySession then x0 ← D.FixedOpaque 16; mret (Some (ADestroySession (mkDestroySessionArgs x0)))
  else if opnum =? OpDestroyClientID then x0 ← D.Uint64; mret (Some (ADestroyClientID (mkDestroyClientIDArgs x0)))
  else if opnum =? OpReclaimComplete then x0 ← D.Bool; mret (Some (AReclaimComplete (mkReclaimCompleteArgs x0)))
  else if opnum =? OpSequence then x0 ← D.FixedOpaque 16; x1 ← D.Uint32; x2 ← D.Uint32; x3 ← D.Uint32; x4 ← D.Bool; mret (Some (ASequence (mkSequenceArgs x0 x1 x2 x3 x4)))
  else mret None.

(** The argument as the server sees it. *)
Definition arg_sent (a : Arg) : Arg :=
  match a with
  | AOpen a => AOpen (open_sent a)
  | ACreate a => ACreate (create_sent a)
  | a => a
  end.

Lemma emits_if (b : bool) f g b1 b2 : emits f b1 -> emits g b2 ->
  emits (if b then f else g) (if b then b1 else b2).
Proof. by destruct b. Qed.

Lemma emits_arg a : emits (EncodeArg a) (wire_arg a).
Proof.
  unfold wire_arg. destruct a; cbn [EncodeArg Op]; unfold
    PutrootfhArgs_EncodeArg, PutfhArgs_EncodeArg, GetfhArgs_EncodeArg, LookupArgs_EncodeArg,
    GetattrArgs_EncodeArg, SetclientidArgs_EncodeArg, SetclientidConfirmArgs_EncodeArg,
    ReadArgs_EncodeArg, ReaddirArgs_EncodeArg, ReadlinkArgs_EncodeArg, RenewArgs_EncodeArg,
    OpenConfirmArgs_EncodeArg, WriteArgs_EncodeArg, CommitArgs_EncodeArg, CloseArgs_EncodeArg,
    RemoveArgs_EncodeArg, RenameArgs_EncodeArg, LinkArgs_EncodeArg, SetattrArgs_EncodeArg,
    SavefhArgs_EncodeArg, RestorefhArgs_EncodeArg, ExchangeIDArgs_EncodeArg,
    CreateSessionArgs_EncodeArg, DestroySessionArgs_EncodeArg, DestroyClientIDArgs_EncodeArg,
    ReclaimCompleteArgs_EncodeArg, SequenceArgs_EncodeArg; rewrite ?app_nil_r; try solve [emit].
  - unfold OpenArgs_EncodeArg, wire_open. repeat first [solve [auto with nfs] | apply emits_seq].
    apply emits_if; [|apply emits_id]. apply emits_seq; [auto with nfs|]. apply emits_if; emit.
  - unfold CreateArgs_EncodeArg, wire_create. repeat first [solve [auto with nfs] | apply emits_seq].
    repeat apply emits_if; emit.
Qed.

Lemma parses_if {A} (b : bool) (m1 m2 : Dec A) b1 b2 v1 v2 : (b = true -> parses m1 b1 v1) ->
  (b = false -> parses m2 b2 v2) ->
  parses (if b then m1 else m2) (if b then b1 else b2) (if b then v1 else v2).
Proof. destruct b; auto. Qed.

Lemma parses_server_open a : open_ok a -> parses server_open (wire_open a) (open_sent a).
Proof.
  intros (?&?&?&?&?&Ht&Hm&?&?&?&?).
  set (how := (if op_CreateMode a =? CreateExclusive then (op_CreateMode a, [], [], op_CreateVerf a)
               else (op_CreateMode a, op_CreateAttrMask a, op_CreateAttrVals a, zero_array 8))
              : Z * list Z * bytes * bytes).
  assert (parses server_createhow (wire_u32 (op_CreateMode a)
        ++ (if op_CreateMode a =? CreateExclusive then wire_fixed (op_CreateVerf a)
            else wire_bitmap (op_CreateAttrMask a) ++ wire_opaque (op_CreateAttrVals a))) how) as Hhow.
  { unfold server_createhow. eapply parses_bind.
    - apply parses_Uint32. by destruct Hm as [->|[->| ->]].
    - apply parses_if; intros _; parse. }
  assert (parses server_openflag (wire_u32 (op_OpenType a) ++ (if op_OpenType a =? Open4Create then
        wire_u32 (op_CreateMode a)
        ++ (if op_CreateMode a =? CreateExclusive then wire_fixed (op_CreateVerf a)
            else wire_bitmap (op_CreateAttrMask a) ++ wire_opaque (op_CreateAttrVals a))
      else [])) (if op_OpenType a =? Open4Create then (op_OpenType a, how)
                 else (op_OpenType a, (0, [], [], zero_array 8)))) as Hflag.
  { unfold server_openflag. eapply parses_bind.
    - apply parses_Uint32. destruct Ht as [-> | ->]; done.
    - apply parses_if; intros _; [|apply parses_ret].
      eapply parses_bind_last; [exact Hhow|apply parses_ret]. }
  unfold server_open, wire_open. do 5 (eapply parses_bind; [eauto with nfs|]; cbn beta).
  rewrite app_assoc. eapply parses_bind; [exact Hflag|].
  eapply parses_bind; [by apply parses_Uint32|]. eapply parses_bind_last; [by apply parses_String|].
  unfold open_sent. subst how. destruct a as [q sa sd c o t m mk vl vf nm]. cbn in *.
  destruct (t =? Open4Create), (m =? CreateExclusive); apply parses_ret.
Qed.

Lemma parses_server_create a : create_ok a -> parses server_create (wire_create a) (create_sent a).
Proof.
  intros (?&?&?&?&?). unfold server_create, wire_create, create_sent.
  eapply parses_bind; [by apply parses_Uint32|].
  eapply (parses_bind _ _ _ _ (if cr_Type a =? FtypeLnk then cr_LinkData a
     else if (cr_Type a =? FtypeBlk) || (cr_Type a =? FtypeChr) then [] else [])).
  - unfold server_createtype. apply parses_if; intros _; [by apply parses_String|].
    apply parses_if; intros _; [|apply parses_ret].
    eapply parses_bind; [by apply parses_Uint32|]. eapply parses_bind_last; [by apply parses_Uint32|apply parses_ret].
  - destruct a as [t l n m v]. cbn in *. destruct (t =? FtypeLnk); [parse|].
    destruct (_ || _); parse.
Qed.
#[export] Hint Resolve parses_server_open parses_server_create : nfs.

(** The constant words of EXCHANGE_ID and CREATE_SESSION. *)
Lemma is_u32_spNone : is_u32 spNone.
Proof. done. Qed.
Lemma is_u32_0 : is_u32 0.
Proof. done. Qed.
#[export] Hint Resolve is_u32_spNone is_u32_0 : nfs.

(** One nfs_argop4: the operation number selects the body the server reads. *)
Lemma parses_arg a : arg_ok a -> parses server_arg (wire_arg a) (Some (arg_sent a)).
Proof.
  intros Ha. unfold server_arg, wire_arg. eapply parses_bind; [by apply parses_Uint32; destruct a|].
  cbn beta. destruct a; cbn [Op arg_ok arg_sent] in *; const_ifs;
    try (destruct a); cbn in Ha |- *; destruct_and?; parse.
Qed.

(** ** COMPOUND requests *)

Fixpoint server_args (n : nat) : Dec (list (option Arg)) :=
  match n with
  | O => mret []
  | S n => a ← server_arg; l ← server_args n; mret (a :: l)
  end.

(** A server reading a COMPOUND4args: tag, minor version and the operations. *)
Definition server_compound : Dec (bytes * Z * list (option Arg)) :=
  tag ← D.String; minor ← D.Uint32; n ← D.Uint32;
  ops ← server_args (Z.to_nat n);
  mret (tag, minor, ops).

Definition wire_compound (c : Compound) : bytes :=
  wire_opaque (cp_Tag c) ++ wire_u32 (cp_MinorVersion c) ++ wire_u32 (blen (cp_ops c))
  ++ concat (map wire_arg (cp_ops c)).

Definition compound_ok (c : Compound) : Prop :=
  fits (cp_Tag c) /\ is_u32 (cp_MinorVersion c) /\ blen (cp_ops c) < 2 ^ 32 /\ Forall arg_ok (cp_ops c).

Lemma emits_compound c : emits (Compound_Encode c) (wire_compound c).
Proof.
  unfold Compound_Encode, wire_compound. do 2 (apply emits_seq; [auto with nfs|]). apply emits_seq.
  - eapply emits_eq; [apply emits_Uint32|apply wire_u32_u32].
  - apply emits_each, emits_arg.
Qed.

Lemma parses_args ops : Forall arg_ok ops ->
  parses (server_args (length ops)) (concat (map wire_arg ops)) (map (fun a => Some (arg_sent a)) ops).
Proof.
  induction 1 as [|a ops Ha _ IH]; [apply parses_ret|]. cbn [length server_args map concat].
  eapply parses_bind; [by apply parses_arg|]. eapply parses_bind_last; [exact IH|apply parses_ret].
Qed.

Lemma parses_compound c : compound_ok c ->
  parses server_compound (wire_compound c)
    (cp_Tag c, cp_MinorVersion c, map (fun a => Some (arg_sent a)) (cp_ops c)).
Proof.
  intros (?&?&Hl&?). pose proof (blen_nonneg (cp_ops c)).
  eapply parses_bind; [by apply parses_String|]. eapply parses_bind; [by apply parses_Uint32|].
  eapply parses_bind; [apply parses_Uint32; split; lia|]. cbn beta.
  unfold blen. rewrite Nat2Z.id. eapply parses_bind_last; [by apply parses_args|apply parses_ret].
Qed.
