(* ===== verification/Nfs4ResSpec.v ===== *)
(** * Operation results: what they promise

    [Reply] is what a server can answer to one operation, with the parts the
    client decodes and drops; [wire_resop] its nfs_resop4 body (the operation
    number aside); [answers r p] says the reply belongs to the kind of result
    [r]; [updated r p] is the value the client's result should hold. *)

From S2P Require Import Prelude GoError GoIO Xdr XdrSpec XdrCorrect Nfs4Const Attr Nfs4Types.
From S2P Require Import Nfs4Args Nfs4Res Compound Nfs4Spec.

Record ChangeInfo := mkChangeInfo { ci_atomic : bool; ci_before : Z; ci_after : Z }.
Record Ace := mkAce { ace_type : Z; ace_flag : Z; ace_mask : Z; ace_who : bytes }.
Inductive SpaceLimit := LimitSize (size : Z) | LimitBlocks (num bytes_per : Z).
Inductive Delegation :=
| DelegNone
| DelegRead (s : Stateid) (recall : bool) (a : Ace)
| DelegWrite (s : Stateid) (recall : bool) (l : SpaceLimit) (a : Ace).
Record ImplID := mkImplID { impl_domain : bytes; impl_name : bytes; impl_secs : Z; impl_nsecs : Z }.

Inductive Reply :=
| PFail (status : Z)
| PVoid
| PGetfh (fh : bytes)
| PGetattr (mask : list Z) (vals : bytes)
| PSetclientid (clientid : Z) (confirm : bytes)
| PClidInuse (netid addr : bytes)
| PRead (eof : bool) (data : bytes)
| PReaddir (verf : bytes) (entries : list DirEntry) (eof : bool)
| PReadlink (link : bytes)
| POpen (s : Stateid) (c : ChangeInfo) (rflags : Z) (attrset : list Z) (d : Delegation)
| PStateid (s : Stateid)
| PWrite (count committed : Z) (verf : bytes)
| PCommit (verf : bytes)
| PCreate (c : ChangeInfo) (attrset : list Z)
| PChange (c : ChangeInfo)
| PRename (c1 c2 : ChangeInfo)
| PSetattr (status : Z) (attrset : list Z)
| PExchangeID (clientid seq flags protect minor : Z) (major scope : bytes) (impls : list ImplID)
| PCreateSession (sid : bytes) (seq flags : Z) (fore back : ChannelAttrs) (ird1 ird2 : list Z)
| PSequence (sid : bytes) (seq slot highest target flags : Z).

(** ** Wire forms *)

Definition wire_change (c : ChangeInfo) : bytes :=
  wire_bool (ci_atomic c) ++ wire_u64 (ci_before c) ++ wire_u64 (ci_after c).
Definition change_ok (c : ChangeInfo) : Prop := is_u64 (ci_before c) /\ is_u64 (ci_after c).

Definition wire_ace (a : Ace) : bytes :=
  wire_u32 (ace_type a) ++ wire_u32 (ace_flag a) ++ wire_u32 (ace_mask a) ++ wire_opaque (ace_who a).
Definition ace_ok (a : Ace) : Prop :=
  is_u32 (ace_type a) /\ is_u32 (ace_flag a) /\ is_u32 (ace_mask a) /\ fits (ace_who a).

Definition wire_limit (l : SpaceLimit) : bytes :=
  match l with
  | LimitSize s => wire_u32 1 ++ wire_u64 s
  | LimitBlocks n b => wire_u32 2 ++ wire_u32 n ++ wire_u32 b
  end.
Definition limit_ok (l : SpaceLimit) : Prop :=
  match l with LimitSize s => is_u64 s | LimitBlocks n b => is_u32 n /\ is_u32 b end.

Definition wire_deleg (d : Delegation) : bytes :=
  match d with
  | DelegNone => wire_u32 0
  | DelegRead s r a => wire_u32 1 ++ wire_stateid s ++ wire_bool r ++ wire_ace a
  | DelegWrite s r l a => wire_u32 2 ++ wire_stateid s ++ wire_bool r ++ wire_limit l ++ wire_ace a
  end.
Definition deleg_ok (d : Delegation) : Prop :=
  match d with
  | DelegNone => True
  | DelegRead s _ a => stateid_ok s /\ ace_ok a
  | DelegWrite s _ l a => stateid_ok s /\ limit_ok l /\ ace_ok a
  end.

Definition wire_impl (i : ImplID) : bytes :=
  wire_opaque (impl_domain i) ++ wire_opaque (impl_name i) ++ wire_u64 (u64 (impl_secs i))
  ++ wire_u32 (impl_nsecs i).
Definition impl_ok (i : ImplID) : Prop :=
  fits (impl_domain i) /\ fits (impl_name i) /\ is_i64 (impl_secs i) /\ is_u32 (impl_nsecs i).

Definition wire_entry (e : DirEntry) : bytes :=
  wire_u64 (de_Cookie e) ++ wire_opaque (de_Name e) ++ wire_bitmap (de_AttrMask e)
  ++ wire_opaque (de_AttrVals e).
Definition entry_ok (e : DirEntry) : Prop :=
  is_u64 (de_Cookie e) /\ fits (de_Name e) /\ bitmap_ok (de_AttrMask e) /\ fits (de_AttrVals e).

Definition wire_dirlist (es : list DirEntry) : bytes :=
  concat (map (fun e => wire_bool true ++ wire_entry e) es) ++ wire_bool false.

(** channel_attrs4 with its ca_rdma_ird array. *)
Definition wire_chan_ird (c : ChannelAttrs) (ird : list Z) : bytes :=
  wire_u32 (ca_HeaderPadSize c) ++ wire_u32 (ca_MaxRequestSize c) ++ wire_u32 (ca_MaxResponseSize c)
  ++ wire_u32 (ca_MaxResponseSizeCach c) ++ wire_u32 (ca_MaxOperations c)
  ++ wire_u32 (ca_MaxRequests c) ++ wire_u32 (blen ird) ++ concat (map wire_u32 ird).

Definition wire_resop (p : Reply) : bytes :=
  match p with
  | PFail status => wire_u32 status
  | PVoid => wire_u32 NFS4_OK
  | PGetfh fh => wire_u32 NFS4_OK ++ wire_opaque fh
  | PGetattr mask vals => wire_u32 NFS4_OK ++ wire_bitmap mask ++ wire_opaque vals
  | PSetclientid c v => wire_u32 NFS4_OK ++ wire_u64 c ++ wire_fixed v
  | PClidInuse n a => wire_u32 NFS4ERR_CLID_INUSE ++ wire_opaque n ++ wire_opaque a
  | PRead eof data => wire_u32 NFS4_OK ++ wire_bool eof ++ wire_opaque data
  | PReaddir v es eof => wire_u32 NFS4_OK ++ wire_fixed v ++ wire_dirlist es ++ wire_bool eof
  | PReadlink l => wire_u32 NFS4_OK ++ wire_opaque l
  | POpen s c rf m d => wire_u32 NFS4_OK ++ wire_stateid s ++ wire_change c ++ wire_u32 rf
                        ++ wire_bitmap m ++ wire_deleg d
  | PStateid s => wire_u32 NFS4_OK ++ wire_stateid s
  | PWrite n c v => wire_u32 NFS4_OK ++ wire_u32 n ++ wire_u32 c ++ wire_fixed v
  | PCommit v => wire_u32 NFS4_OK ++ wire_fixed v
  | PCreate c m => wire_u32 NFS4_OK ++ wire_change c ++ wire_bitmap m
  | PChange c => wire_u32 NFS4_OK ++ wire_change c
  | PRename c1 c2 => wire_u32 NFS4_OK ++ wire_change c1 ++ wire_change c2
  | PSetattr st m => wire_u32 st ++ wire_bitmap m
  | PExchangeID c q f sp mi ma sc ims =>
      wire_u32 NFS4_OK ++ wire_u64 c ++ wire_u32 q ++ wire_u32 f ++ wire_u32 sp ++ wire_u64 mi
      ++ wire_opaque ma ++ wire_opaque sc ++ wire_u32 (blen ims) ++ concat (map wire_impl ims)
  | PCreateSession sid q f fc bc i1 i2 =>
      wire_u32 NFS4_OK ++ wire_fixed sid ++ wire_u32 q ++ wire_u32 f ++ wire_chan_ird fc i1
      ++ wire_chan_ird bc i2
  | PSequence sid q sl h t f =>
      wire_u32 NFS4_OK ++ wire_fixed sid ++ wire_u32 q ++ wire_u32 sl ++ wire_u32 h ++ wire_u32 t
      ++ wire_u32 f
  end.

Definition reply_valid (p : Reply) : Prop :=
  match p with
  | PFail st => is_u32 st /\ st <> NFS4_OK
  | PVoid => True
  | PGetfh fh => fits fh
  | PGetattr m v => bitmap_ok m /\ fits v
  | PSetclientid c v => is_u64 c /\ sized 8 v
  | PClidInuse n a => fits n /\ fits a
  | PRead _ d => fits d
  | PReaddir v es _ => sized 8 v /\ Forall entry_ok es
  | PReadlink l => fits l
  | POpen s c rf m d => stateid_ok s /\ change_ok c /\ is_u32 rf /\ bitmap_ok m /\ deleg_ok d
  | PStateid s => stateid_ok s
  | PWrite n c v => is_u32 n /\ is_u32 c /\ sized 8 v
  | PCommit v => sized 8 v
  | PCreate c m => change_ok c /\ bitmap_ok m
  | PChange c => change_ok c
  | PRename c1 c2 => change_ok c1 /\ change_ok c2
  | PSetattr st m => is_u32 st /\ bitmap_ok m
  | PExchangeID c q f sp mi ma sc ims =>
      is_u64 c /\ is_u32 q /\ is_u32 f /\ is_u32 sp /\ is_u64 mi /\ fits ma /\ fits sc
      /\ blen ims < 2 ^ 32 /\ Forall impl_ok ims
  | PCreateSession sid q f fc bc i1 i2 =>
      sized 16 sid /\ is_u32 q /\ is_u32 f /\ chan_ok fc /\ chan_ok bc
      /\ bitmap_ok i1 /\ bitmap_ok i2
  | PSequence sid q sl h t f =>
      sized 16 sid /\ is_u32 q /\ is_u32 sl /\ is_u32 h /\ is_u32 t /\ is_u32 f
  end.

(** A reply that the server may send for the operation a result belongs to;
    SETATTR sends its bitmap with every status, so it has no bare failure. *)
Definition answers (r : Res) (p : Reply) : Prop :=
  match r, p with
  | RSetattr _, PSetattr _ _ => True
  | RSetattr _, _ => False
  | RSetclientid _, PFail st => st <> NFS4ERR_CLID_INUSE
  | _, PFail _ => True
  | RStatus _, PVoid | RDestroySession _, PVoid | RDestroyClientID _, PVoid | RReclaimComplete _, PVoid => True
  | RGetfh _, PGetfh _ | RGetattr _, PGetattr _ _ | RSetclientid _, PSetclientid _ _
  | RSetclientid _, PClidInuse _ _ | RRead _, PRead _ _ | RReaddir _, PReaddir _ _ _
  | RReadlink _, PReadlink _ | ROpen _, POpen _ _ _ _ _ | ROpenConfirm _, PStateid _
  | RWrite _, PWrite _ _ _ | RCommit _, PCommit _ | RClose _, PStateid _ | RCreate _, PCreate _ _
  | RRemove _, PChange _ | RRename _, PRename _ _ | RLink _, PChange _
  | RExchangeID _, PExchangeID _ _ _ _ _ _ _ _ | RCreateSession _, PCreateSession _ _ _ _ _ _ _
  | RSequence _, PSequence _ _ _ _ _ _ => True
  | _, _ => False
  end.

(** The byte arrays of a result have their length. *)
Definition res_ok (r : Res) : Prop :=
  match r with
  | RSetclientid r => sized 8 (scr_Confirm r)
  | RReaddir r => sized 8 (rddr_Cookieverf r)
  | RWrite r => sized 8 (wrr_Verf r)
  | RCommit r => sized 8 (cmr_Verf r)
  | RCreateSession r => sized 16 (csr_SessionID r)
  | RSequence r => sized 16 (sqr_SessionID r)
  | _ => True
  end.

(** [r] with another status. *)
Definition with_status (st : Z) (r : Res) : Res :=
  match r with
  | RGetfh r => RGetfh (mkGetfhRes st (gfr_FH r))
  | RGetattr r => RGetattr (mkGetattrRes st (gar_AttrMask r) (gar_AttrVals r))
  | RSetclientid r => RSetclientid (mkSetclientidRes st (scr_ClientID r) (scr_Confirm r) (scr_ClientUsingNetID r) (scr_ClientUsingAddr r))
  | RRead r => RRead (mkReadRes st (rdr_EOF r) (rdr_Data r))
  | RReaddir r => RReaddir (mkReaddirRes st (rddr_Cookieverf r) (rddr_Entries r) (rddr_EOF r))
  | RReadlink r => RReadlink (mkReadlinkRes st (rlr_Link r))
  | RStatus _ => RStatus (mkStatusRes st)
  | ROpen r => ROpen (mkOpenRes st (opr_Stateid r) (opr_RFlags r) (opr_AttrSet r))
  | ROpenConfirm r => ROpenConfirm (mkOpenConfirmRes st (ocr_Stateid r))
  | RWrite r => RWrite (mkWriteRes st (wrr_Count r) (wrr_Committed r) (wrr_Verf r))
  | RCommit r => RCommit (mkCommitRes st (cmr_Verf r))
  | RClose r => RClose (mkCloseRes st (clr_Stateid r))
  | RCreate r => RCreate (mkCreateRes st (crr_AttrSet r))
  | RRemove _ => RRemove (mkRemoveRes st)
  | RRename _ => RRename (mkRenameRes st)
  | RLink _ => RLink (mkLinkRes st)
  | RSetattr r => RSetattr (mkSetattrRes st (sar_AttrSet r))
  | RExchangeID r => RExchangeID (mkExchangeIDRes st (eir_ClientID r) (eir_SequenceID r) (eir_Flags r))
  | RCreateSession r => RCreateSession (mkCreateSessionRes st (csr_SessionID r) (csr_SequenceID r) (csr_Flags r) (csr_ForeChan r) (csr_BackChan r))
  | RDestroySession _ => RDestroySession (mkDestroySessionRes st)
  | RDestroyClientID _ => RDestroyClientID (mkDestroyClientIDRes st)
  | RReclaimComplete _ => RReclaimComplete (mkReclaimCompleteRes st)
  | RSequence r => RSequence (mkSequenceRes st (sqr_SessionID r) (sqr_SequenceID r) (sqr_SlotID r) (sqr_HighestSlotID r) (sqr_TargetHighestSlot r) (sqr_StatusFlags r))
  end.

(** The value of the result after a reply: a failure changes the status alone,
    READDIR adds its entries to those already there. *)
Definition updated (r : Res) (p : Reply) : Res :=
  match p with
  | PFail st => with_status st r
  | PVoid => with_status NFS4_OK r
  | PGetfh fh => RGetfh (mkGetfhRes NFS4_OK (Some fh))
  | PGetattr m v => RGetattr (mkGetattrRes NFS4_OK m v)
  | PSetclientid c v =>
      match r with
      | RSetclientid r => RSetclientid (mkSetclientidRes NFS4_OK c v (scr_ClientUsingNetID r) (scr_ClientUsingAddr r))
      | r => r
      end
  | PClidInuse n a =>
      match r with
      | RSetclientid r => RSetclientid (mkSetclientidRes NFS4ERR_CLID_INUSE (scr_ClientID r) (scr_Confirm r) n a)
      | r => r
      end
  | PRead eof d => RRead (mkReadRes NFS4_OK eof d)
  | PReaddir v es eof =>
      match r with
      | RReaddir r => RReaddir (mkReaddirRes NFS4_OK v (rddr_Entries r ++ es) eof)
      | r => r
      end
  | PReadlink l => RReadlink (mkReadlinkRes NFS4_OK l)
  | POpen s _ rf m _ => ROpen (mkOpenRes NFS4_OK s rf m)
  | PStateid s =>
      match r with
      | ROpenConfirm _ => ROpenConfirm (mkOpenConfirmRes NFS4_OK s)
      | RClose _ => RClose (mkCloseRes NFS4_OK s)
      | r => r
      end
  | PWrite n c v => RWrite (mkWriteRes NFS4_OK n c v)
  | PCommit v => RCommit (mkCommitRes NFS4_OK v)
  | PCreate _ m => RCreate (mkCreateRes NFS4_OK m)
  | PChange _ | PRename _ _ => with_status NFS4_OK r
  | PSetattr st m => RSetattr (mkSetattrRes st m)
  | PExchangeID c q f _ _ _ _ _ => RExchangeID (mkExchangeIDRes NFS4_OK c q f)
  | PCreateSession sid q f fc bc _ _ => RCreateSession (mkCreateSessionRes NFS4_OK sid q f fc bc)
  | PSequence sid q sl h t f => RSequence (mkSequenceRes NFS4_OK sid q sl h t f)
  end.

(** ** Laws of the parts *)

Lemma parses_change c : change_ok c -> parses discard_change_info (wire_change c) tt.
Proof. intros [??]. unfold discard_change_info, wire_change. parse. Qed.

Lemma parses_ace a : ace_ok a -> parses decodeNfsace4 (wire_ace a) tt.
Proof. intros (?&?&?&?). unfold decodeNfsace4, wire_ace. parse. Qed.

Lemma parses_limit l : limit_ok l -> parses decodeSpaceLimit (wire_limit l) tt.
Proof.
  destruct l; cbn [limit_ok wire_limit]; intros; destruct_and?; unfold decodeSpaceLimit;
    (eapply parses_bind; [by apply parses_Uint32|]); const_ifs; parse.
Qed.
#[export] Hint Resolve parses_change parses_ace parses_limit : nfs.

Lemma parses_deleg d : deleg_ok d -> parses decodeDelegation (wire_deleg d) tt.
Proof.
  destruct d; cbn [deleg_ok wire_deleg]; intros; destruct_and?; unfold decodeDelegation;
    first [ eapply parses_bind_last; [by apply parses_Uint32|]; const_ifs; apply parses_ret
          | eapply parses_bind; [by apply parses_Uint32|]; const_ifs ];
    repeat (eapply parses_bind; [by eauto with nfs|]); auto with nfs.
Qed.

Lemma parses_entry e : entry_ok e -> parses DecodeDirEntry (wire_entry e) e.
Proof. destruct e. intros (?&?&?&?). unfold DecodeDirEntry, wire_entry. cbn in *. parse. Qed.

Lemma parses_impl i : impl_ok i -> parses discard_impl_id (wire_impl i) tt.
Proof. intros (?&?&?&?). unfold discard_impl_id, wire_impl. parse. Qed.
#[export] Hint Resolve parses_deleg parses_entry parses_impl : nfs.

(** A counted loop over parts that are dropped. *)
Lemma parses_times {A} (m : Dec unit) (wire : A -> bytes) (ok : A -> Prop) l :
  (forall x, ok x -> parses m (wire x) tt) -> Forall ok l ->
  parses (times (length l) m) (concat (map wire l)) tt.
Proof.
  intros Hm. induction 1 as [|x l Hx _ IH]; [apply parses_ret|]. cbn [length times map concat].
  eapply parses_bind; [by apply Hm|exact IH].
Qed.

Lemma parses_counted {A} (m : Dec unit) (wire : A -> bytes) (ok : A -> Prop) l :
  (forall x, ok x -> parses m (wire x) tt) -> Forall ok l -> blen l < 2 ^ 32 ->
  parses (n ← D.Uint32; times (Z.to_nat n) m) (wire_u32 (blen l) ++ concat (map wire l)) tt.
Proof.
  intros Hm Hl Hn. pose proof (blen_nonneg l). eapply parses_bind; [apply parses_Uint32; split; lia|].
  unfold blen. rewrite Nat2Z.id. by eapply parses_times.
Qed.

Lemma parses_chan_ird c ird : chan_ok c -> bitmap_ok ird ->
  parses decodeChannelAttrs (wire_chan_ird c ird) c.
Proof.
  destruct c. intros (?&?&?&?&?&?) [Hl Hi]. cbn in *. pose proof (blen_nonneg ird).
  unfold wire_chan_ird, decodeChannelAttrs. cbn.
  do 6 (eapply parses_bind; [by apply parses_Uint32|]).
  eapply parses_bind; [apply parses_Uint32; split; lia|].
  eapply parses_bind_last; [|apply parses_ret].
  unfold blen. rewrite Nat2Z.id. eapply (parses_times _ wire_u32 is_u32); [|done].
  intros x Hx. eapply parses_bind_last; [by apply parses_Uint32|apply parses_ret].
Qed.
#[export] Hint Resolve parses_chan_ird : nfs.

Lemma parses_with_input {A} (f : nat -> Dec A) bs a :
  (forall n, (length bs <= n)%nat -> parses (f n) bs a) -> parses (with_input f) bs a.
Proof.
  intros H d more Hd Hr. unfold with_input. apply (H (length (rest d))); [|done..].
  rewrite Hr, length_app. lia.
Qed.

(** *** The directory listing *)

Lemma parses_readdir_loop es : Forall entry_ok es -> forall fuel acc, (length es < fuel)%nat ->
  parses (readdir_loop fuel acc) (wire_dirlist es) (Some (acc ++ es, false)).
Proof.
  unfold wire_dirlist. induction 1 as [|e es He _ IH]; intros fuel acc Hf;
    (destruct fuel as [|fuel]; [cbn in Hf; lia|]); cbn [readdir_loop map concat app].
  - eapply parses_bind_last; [apply (parses_Bool false)|].
    eapply parses_bind_nil; [apply parses_Err|]. cbn. rewrite app_nil_r. apply parses_ret.
  - rewrite <- (app_assoc (wire_bool true ++ wire_entry e)), <- (app_assoc (wire_bool true)).
    eapply parses_bind; [apply (parses_Bool true)|].
    eapply parses_bind_nil; [apply parses_Err|]. cbn [is_nil negb orb].
    eapply parses_bind; [by apply parses_entry|].
    eapply parses_bind_nil; [apply parses_Err|]. cbn beta iota.
    replace (acc ++ e :: es) with ((acc ++ [e]) ++ es) by (by rewrite <- app_assoc).
    apply IH. cbn in Hf. lia.
Qed.

Lemma wire_dirlist_length es : (length es < length (wire_dirlist es))%nat.
Proof.
  unfold wire_dirlist. induction es as [|e es IH]; cbn [map concat app length].
  - unfold wire_bool. rewrite length_be. lia.
  - rewrite !length_app in *. assert (forall b, length (wire_bool b) = 4%nat) as E by (intros; apply length_be).
    rewrite !E in *. lia.
Qed.

Lemma parses_dirlist acc es : Forall entry_ok es ->
  parses (with_input (fun n => readdir_loop (S n) acc)) (wire_dirlist es) (Some (acc ++ es, false)).
Proof.
  intros Hes. apply parses_with_input. intros n Hn. apply parses_readdir_loop; [done|].
  pose proof (wire_dirlist_length es). lia.
Qed.

(** ** One operation result *)

Lemma parses_on_ok {A} (set : Z -> A) (body : A -> Dec A) bs v :
  parses (body (set NFS4_OK)) bs v -> parses (on_ok set body) (wire_u32 NFS4_OK ++ bs) v.
Proof. intros H. eapply parses_bind; [by apply parses_Uint32|exact H]. Qed.

Lemma parses_on_ok_fail {A} (set : Z -> A) (body : A -> Dec A) st : is_u32 st -> st <> NFS4_OK ->
  parses (on_ok set body) (wire_u32 st) (set st).
Proof.
  intros. eapply parses_bind_last; [by apply parses_Uint32|]. cbn beta zeta.
  destruct (Z.eqb_spec st NFS4_OK); [done|apply parses_ret].
Qed.

Lemma parses_map {A B} (m : Dec A) (f : A -> B) bs v : parses m bs v ->
  parses (x ← m; mret (f x)) bs (f v).
Proof. intros. eapply parses_bind_last; [done|apply parses_ret]. Qed.

(** A failed operation: only its status is assigned. *)
Lemma parses_fail r st : is_u32 st -> st <> NFS4_OK -> answers r (PFail st) ->
  parses (DecodeRes r) (wire_u32 st) (with_status st r).
Proof.
  intros Hst Hne Ha. destruct r; try done; cbn [DecodeRes with_status];
    lazymatch goal with
    | |- parses (_ ← SetclientidRes_DecodeRes _; _) _ _ =>
        eapply parses_bind_last; [|apply parses_ret]; eapply parses_bind_last; [by apply parses_Uint32|];
        cbn in Ha; destruct (Z.eqb_spec st NFS4_OK); [done|];
        destruct (Z.eqb_spec st NFS4ERR_CLID_INUSE); [done|]; apply parses_ret
    | |- parses (_ ← ReaddirRes_DecodeRes _; _) _ _ =>
        eapply parses_bind_last; [|apply parses_ret]; eapply parses_bind_last; [by apply parses_Uint32|];
        destruct (Z.eqb_spec st NFS4_OK); [done|]; apply parses_ret
    | |- _ =>
        first [ eapply parses_bind_last; [by apply parses_on_ok_fail|apply parses_ret]
              | eapply parses_bind_last; [|apply parses_ret];
                eapply parses_bind_last; [by apply parses_Uint32|apply parses_ret] ]
    end.
Qed.

(** [parse] for a result: the copies into arrays replace them whole. *)
Ltac parse_res :=
  repeat first
    [ eapply parses_bind; [solve [eauto with nfs]|]; cbn beta
    | eapply parses_bind_last; [solve [eauto with nfs]|]; cbn beta ];
  cbn beta iota zeta delta [rddr_Status gfr_Status gar_Status rdr_Status rlr_Status opr_Status ocr_Status
    wrr_Status cmr_Status clr_Status crr_Status eir_Status csr_Status sqr_Status
    wrr_Verf cmr_Verf csr_SessionID sqr_SessionID];
  rewrite ?go_copy_full by (unfold sized in *; congruence);
  try solve [auto with nfs].

Lemma parses_exchange_id r c q f sp mi ma sc ims :
  reply_valid (PExchangeID c q f sp mi ma sc ims) ->
  parses (ExchangeIDRes_DecodeRes r) (wire_resop (PExchangeID c q f sp mi ma sc ims))
    (mkExchangeIDRes NFS4_OK c q f).
Proof.
  intros (?&?&?&?&?&?&?&Hl&Hi). pose proof (blen_nonneg ims). apply parses_on_ok.
  parse_res. eapply parses_bind; [apply parses_Uint32; split; lia|].
  eapply parses_bind_last; [|apply parses_ret].
  unfold blen. rewrite Nat2Z.id. by eapply (parses_times _ _ impl_ok); [apply parses_impl|].
Qed.

Lemma parses_readdir r v es eof : sized 8 (rddr_Cookieverf r) -> sized 8 v -> Forall entry_ok es ->
  parses (ReaddirRes_DecodeRes r) (wire_resop (PReaddir v es eof))
    (mkReaddirRes NFS4_OK v (rddr_Entries r ++ es) eof).
Proof.
  intros. cbn [wire_resop]. eapply parses_bind; [by apply parses_Uint32|]. const_ifs.
  eapply parses_bind; [by apply parses_FixedOpaque|]. cbn beta zeta.
  rewrite go_copy_full by (unfold sized in *; congruence).
  eapply parses_bind; [by apply parses_dirlist|]. cbn beta iota.
  eapply parses_bind_last; [apply parses_Bool|apply parses_ret].
Qed.

(** The reply to one operation is decoded whole, into the value it should give. *)
Lemma parses_reply_body r p : res_ok r -> reply_valid p -> answers r p ->
  parses (DecodeRes r) (wire_resop p) (updated r p).
Proof.
  intros Hr Hp Ha. destruct p; [destruct Hp; by apply parses_fail|..]; destruct r; try (exfalso; exact Ha);
    cbn [DecodeRes updated with_status wire_resop]; apply parses_map; cbn [reply_valid res_ok] in *;
    destruct_and?.
  all: lazymatch goal with
       | |- parses (ExchangeIDRes_DecodeRes _) _ _ => apply parses_exchange_id
       | |- parses (ReaddirRes_DecodeRes _) _ _ => by apply parses_readdir
       | |- parses (StatusRes_DecodeRes _) _ _ => eapply parses_bind_last; [by apply parses_Uint32|apply parses_ret]
       | |- parses (DestroySessionRes_DecodeRes _) _ _ => eapply parses_bind_last; [by apply parses_Uint32|apply parses_ret]
       | |- parses (DestroyClientIDRes_DecodeRes _) _ _ => eapply parses_bind_last; [by apply parses_Uint32|apply parses_ret]
       | |- parses (ReclaimCompleteRes_DecodeRes _) _ _ => eapply parses_bind_last; [by apply parses_Uint32|apply parses_ret]
       | |- parses (SetclientidRes_DecodeRes _) _ _ => eapply parses_bind; [by apply parses_Uint32|]; const_ifs; parse_res
       | |- parses (SetattrRes_DecodeRes _) _ _ => eapply parses_bind; [by apply parses_Uint32|]; parse_res
       | |- _ => apply parses_on_ok; parse_res
       end; auto with nfs.
  all: cbn [reply_valid]; split_and!; assumption.
Qed.
