(* ===== verification/CompoundCorrect.v ===== *)
(** * COMPOUND requests and replies: theorems *)

From S2P Require Import Prelude GoError GoIO Xdr XdrSpec XdrCorrect Nfs4Const Attr AttrCorrect.
From S2P Require Import Nfs4Types Nfs4Args Nfs4Res Compound Nfs4Spec Nfs4ResSpec.

(** One resop of a reply: its operation number and body. *)
Definition Resop : Type := Z * Reply.

Definition wire_resops (ps : list Resop) : bytes :=
  concat (map (fun p => wire_u32 p.1 ++ wire_resop p.2) ps).

(** A COMPOUND4res. *)
Definition wire_compound_res (status : Z) (tag : bytes) (ps : list Resop) : bytes :=
  wire_u32 status ++ wire_opaque tag ++ wire_u32 (blen ps) ++ wire_resops ps.

(** Resop [p] is one the server may send for the operation of result [r]. *)
Record resop_ok (r : Res) (p : Resop) : Prop := {
  resop_res : res_ok r;
  resop_num : is_u32 p.1;
  resop_expected : expectedOp r = 0 \/ expectedOp r = p.1;
  resop_valid : reply_valid p.2;
  resop_answers : answers r p.2
}.

(** The results after the replies: those that were answered are updated, the
    rest are as they were. *)
Definition results_after (rs : list Res) (ps : list Resop) : list Res :=
  zip_with (fun r p => updated r p.2) rs ps ++ drop (length ps) rs.

Lemma results_after_app rs1 rs2 ps : length rs1 = length ps ->
  results_after (rs1 ++ rs2) ps = zip_with (fun r p => updated r p.2) rs1 ps ++ rs2.
Proof.
  unfold results_after. revert ps. induction rs1 as [|r rs1 IH]; intros [|p ps] Hl; try done.
  - by destruct rs2.
  - cbn. f_equal. apply IH. by injection Hl.
Qed.

Lemma expected_test (got opnum : Z) : got = 0 \/ got = opnum ->
  negb (got =? 0) && negb (got =? opnum) = false.
Proof.
  intros [-> | ->]; [done|]. by rewrite Z.eqb_refl, andb_false_r.
Qed.

Lemma parses_resops rs1 ps : Forall2 resop_ok rs1 ps -> forall rs2 i,
  parses (decode_resops (length ps) i (rs1 ++ rs2)) (wire_resops ps)
    (None, zip_with (fun r p => updated r p.2) rs1 ps ++ rs2).
Proof.
  induction 1 as [|r p rs1 ps Hp _ IH]; intros rs2 i.
  - destruct rs2; apply parses_ret.
  - cbn [length decode_resops zip_with app]. unfold wire_resops. cbn [map concat].
    rewrite <- (app_assoc (wire_u32 p.1)). destruct Hp.
    eapply parses_bind; [by apply parses_Uint32|]. eapply parses_bind_nil; [apply parses_Err|].
    cbn beta iota zeta. rewrite expected_test by done.
    eapply parses_bind; [by apply parses_reply_body|]. eapply parses_bind_nil; [apply parses_Err|].
    cbn beta iota. eapply parses_bind_last; [apply IH|apply parses_ret].
Qed.

Lemma decode_header (rs : list Res) (status : Z) (tag : bytes) (n : Z) bs v :
  is_u32 status -> fits tag -> is_u32 n ->
  parses (if blen rs <? n then
            mret (inl (Errorf "nfs4: server returned %d resops but only %d expected"
                          [Fz n; Fz (blen rs)]), rs)
          else loop ← decode_resops (Z.to_nat n) 0 rs;
               match loop.1 with
               | Some e => mret (inl e, loop.2)
               | None => mret (inr (mkCompoundResult status tag n), loop.2)
               end) bs v ->
  parses (DecodeCompound rs) (wire_u32 status ++ wire_opaque tag ++ wire_u32 n ++ bs) v.
Proof.
  intros. eapply parses_bind; [by apply parses_Uint32|]. eapply parses_bind; [by apply parses_String|].
  eapply parses_bind; [by apply parses_Uint32|]. by eapply parses_bind_nil; [apply parses_Err|].
Qed.

Lemma parses_compound_res (rs1 rs2 : list Res) status tag ps :
  is_u32 status -> fits tag -> blen ps < 2 ^ 32 -> Forall2 resop_ok rs1 ps ->
  parses (DecodeCompound (rs1 ++ rs2)) (wire_compound_res status tag ps)
    (inr (mkCompoundResult status tag (blen ps)), zip_with (fun r p => updated r p.2) rs1 ps ++ rs2).
Proof.
  intros Hs Ht Hn Hf. pose proof (blen_nonneg ps). apply decode_header; [done|done|split; lia|].
  pose proof (Forall2_length _ _ _ Hf) as Hl.
  destruct (Z.ltb_spec (blen (rs1 ++ rs2)) (blen ps)) as [Hlt|].
  { unfold blen in Hlt. rewrite length_app in Hlt. lia. }
  replace (Z.to_nat (blen ps)) with (length ps) by (unfold blen; lia).
  eapply parses_bind_last; [by apply parses_resops|apply parses_ret].
Qed.

(** ** What a successful decode says, whatever was received *)

Definition compound_decoded (rs : list Res) (r : CompoundResult) (rs' : list Res) : Prop :=
  0 <= cpr_NumResults r <= blen rs /\ length rs' = length rs /\
  (forall i, cpr_NumResults r <= Z.of_nat i -> rs' !! i = rs !! i) /\
  (forall i a b, rs !! i = Some a -> rs' !! i = Some b -> expectedOp b = expectedOp a).

Lemma DecodeRes_kind r d : expectedOp (DecodeRes r d).1 = expectedOp r.
Proof.
  destruct r; cbn [DecodeRes]; unfold mbind, Dec_bind;
    lazymatch goal with |- context [let '(_, _) := ?m in _] => by destruct m end.
Qed.

Lemma decode_resops_shape n : forall i rs d res d',
  decode_resops n i rs d = (res, d') ->
  length res.2 = length rs /\ (forall j, (n <= j)%nat -> res.2 !! j = rs !! j) /\
  (forall j a b, rs !! j = Some a -> res.2 !! j = Some b -> expectedOp b = expectedOp a) /\
  (res.1 = None -> Decoder.err d = None -> Decoder.err d' = None).
Proof.
  assert (forall (rs : list Res) j a b, rs !! j = Some a -> rs !! j = Some b -> expectedOp b = expectedOp a) as Hid
    by (intros; congruence).
  induction n as [|n IH]; intros i rs d res d' E; cbn [decode_resops] in E.
  { destruct rs; injection E as <- <-; split_and!; first [done|apply Hid]. }
  destruct rs as [|r rs]; [injection E as <- <-; split_and!; first [done|apply Hid]|].
  apply Dec_bind_inv in E as (opnum & d1 & _ & E). unfold mbind at 1, Dec_bind, D.Err in E.
  destruct (Decoder.err d1) as [e|]; [injection E as <- <-; split_and!; first [done|apply Hid]|].
  match type of E with context [if ?b then _ else _] => destruct b end; [injection E as <- <-; split_and!; first [done|apply Hid]|].
  apply Dec_bind_inv in E as (r' & d2 & Er & E). pose proof (DecodeRes_kind r d1) as Hk. rewrite Er in Hk.
  unfold mbind at 1, Dec_bind, D.Err in E.
  assert (forall (rs' : list Res), length rs' = length rs ->
     (forall j, (n <= j)%nat -> rs' !! j = rs !! j) ->
     (forall j a b, rs !! j = Some a -> rs' !! j = Some b -> expectedOp b = expectedOp a) ->
     length (r' :: rs') = length (r :: rs) /\
     (forall j, (S n <= j)%nat -> (r' :: rs') !! j = (r :: rs) !! j) /\
     (forall j a b, (r :: rs) !! j = Some a -> (r' :: rs') !! j = Some b -> expectedOp b = expectedOp a)) as Hcons.
  { intros rs' Hl Hd Hx. split_and!; [cbn; lia| |].
    - intros [|j] Hj; [lia|]. apply Hd. lia.
    - intros [|j] a b; [by intros [= <-] [= <-]|apply Hx]. }
  destruct (Decoder.err d2) as [e|] eqn:He2.
  { injection E as <- <-. destruct (Hcons rs eq_refl) as (?&?&?); [done|apply Hid|]. by split_and!. }
  apply Dec_bind_inv in E as (res' & d3 & El & E). injection E as <- <-.
  destruct (IH _ _ _ _ _ El) as (H1 & H2 & H3 & H4). destruct (Hcons _ H1 H2 H3) as (?&?&?). split_and!; auto.
Qed.

Lemma Add_all ops : forall c, fold_left (fun c a => Add a c) ops c
  = mkCompound (cp_Tag c) (cp_MinorVersion c) (cp_ops c ++ ops).
Proof.
  induction ops as [|a ops IH]; intros c; cbn [fold_left]; [by destruct c; rewrite app_nil_r|].
  rewrite IH. cbn. by rewrite <- app_assoc.
Qed.

(** The resop after those that were answered is for another operation. *)
Lemma parses_mismatch rs1 ps : Forall2 resop_ok rs1 ps -> forall i r rs2 opnum k,
  is_u32 opnum -> expectedOp r <> 0 -> expectedOp r <> opnum ->
  parses (decode_resops (length ps + S k) i (rs1 ++ r :: rs2)) (wire_resops ps ++ wire_u32 opnum)
    (Some (Errorf "nfs4: resop[%d] opnum %d does not match expected %d"
             [Fz (i + blen ps); Fz opnum; Fz (expectedOp r)]),
     zip_with (fun r p => updated r p.2) rs1 ps ++ r :: rs2).
Proof.
  induction 1 as [|r1 p rs1 ps Hp _ IH]; intros i r rs2 opnum k Ho Hr Hne; cbn [length Nat.add decode_resops zip_with app].
  - change (blen []) with 0. rewrite Z.add_0_r. change (wire_resops []) with (@nil byte). cbn [app].
    eapply parses_bind_last; [by apply parses_Uint32|]. eapply parses_bind_nil; [apply parses_Err|].
    cbn beta iota zeta. destruct (Z.eqb_spec (expectedOp r) 0); [done|].
    destruct (Z.eqb_spec (expectedOp r) opnum); [done|]. apply parses_ret.
  - unfold wire_resops. cbn [map concat]. rewrite <- (app_assoc (wire_u32 p.1 ++ wire_resop p.2)).
    rewrite <- (app_assoc (wire_u32 p.1)). destruct Hp.
    eapply parses_bind; [by apply parses_Uint32|]. eapply parses_bind_nil; [apply parses_Err|].
    cbn beta iota zeta. rewrite expected_test by done.
    eapply parses_bind; [by apply parses_reply_body|]. eapply parses_bind_nil; [apply parses_Err|].
    cbn beta iota. eapply parses_bind_last; [by apply IH|]. cbn beta. cbn [fst snd].
    rewrite blen_cons, Z.add_assoc. apply parses_ret.
Qed.

(** ** Theorems *)

(** C19.  Requests.  A COMPOUND built with [NewCompound] and [Add] encodes
    without error to bytes from which a server reads the tag, the minor version
    and exactly the operations added, in order, each under its own operation
    number and with every field it was given (of OPEN and CREATE, the fields of
    the union arms that are selected); nothing is left over. *)
Theorem compound_request_roundtrip (tag : bytes) (minor : Z) (ops : list Arg) :
  let c0 := NewCompound tag in
  let c := fold_left (fun c a => Add a c) ops (mkCompound (cp_Tag c0) minor (cp_ops c0)) in
  compound_ok c ->
  let e := Compound_Encode c (Encoder.NewEncoder bytes_Buffer) in
  Encoder.Err e = None /\ Ops c = ops /\
  exists d', server_compound (Decoder.NewDecoder (bytes_NewReader (w_out (Encoder.w e))))
             = ((tag, minor, map (fun a => Some (arg_sent a)) ops), d')
             /\ Decoder.err d' = None /\ rest d' = [].
Proof.
  intros c0 c Hc e.
  assert (c = mkCompound tag minor ops) as Ec.
  { subst c c0. by rewrite Add_all. }
  subst e. rewrite Ec in *. change (Encoder.NewEncoder bytes_Buffer) with (Encoder.mk (mkWriter [] None) None).
  rewrite (emits_healthy _ _ (emits_compound _)). split_and!; [done|done|].
  by apply parses_run, (parses_compound (mkCompound tag minor ops)).
Qed.

Definition sample_open : OpenArgs :=
  mkOpenArgs 1 OpenShareAccessBoth OpenShareDenyNone 77 (bstr "owner") Open4Create CreateUnchecked
    [0; 2] [x00; x00; x01; xa4] (zero_array 8) (bstr "file").

Definition sample_ops : list Arg :=
  [APutfh (mkPutfhArgs [x01; x02; x03]); AOpen sample_open; AGetfh; AWrite (mkWriteArgs zeroStateid 0 FileSync4 (bstr "data"))].

(** Closed well-formedness of arguments. *)
Ltac closed_ok :=
  repeat match goal with
         | |- Forall _ _ => constructor
         | |- arg_ok _ => cbn [arg_ok]
         | |- open_ok _ => unfold open_ok
         | |- stateid_ok _ => split
         | |- bitmap_ok _ => split
         | |- _ /\ _ => split
         | |- _ \/ _ => first [left; reflexivity | right]
         | |- _ = _ => reflexivity
         | |- True => exact I
         | |- _ => decide_wf
         end.

Lemma compound_request_roundtrip_witness :
  let c := mkCompound (bstr "t") 0 sample_ops in
  exists d', server_compound (Decoder.NewDecoder (bytes_NewReader
      (w_out (Encoder.w (Compound_Encode c (Encoder.NewEncoder bytes_Buffer))))))
    = ((bstr "t", 0, map Some sample_ops), d') /\ Decoder.err d' = None /\ rest d' = [].
Proof.
  refine (proj2 (proj2 (compound_request_roundtrip (bstr "t") 0 sample_ops _))).
  split; [vm_compute; discriminate|]. split; [decide_wf|]. split; [reflexivity|].
  closed_ok.
Defined.

(** C20.  Replies.  When a server answers a compound of [n] operations with
    [m <= n] resops, as it does when it stops at the first failure, decoding
    consumes the reply exactly, reports the server's status, tag and [m], and
    leaves in the first [m] results what the server sent for each (a failed
    operation: its status and nothing else) and the others as they were. *)
Theorem compound_reply_roundtrip (rs1 rs2 : list Res) (status : Z) (tag : bytes) (ps : list Resop)
    (Hs : is_u32 status) (Ht : fits tag) (Hn : blen ps < 2 ^ 32) (Hps : Forall2 resop_ok rs1 ps) :
  exists d', DecodeCompound (rs1 ++ rs2)
      (Decoder.NewDecoder (bytes_NewReader (wire_compound_res status tag ps)))
    = ((inr (mkCompoundResult status tag (blen ps)), results_after (rs1 ++ rs2) ps), d')
    /\ Decoder.err d' = None /\ rest d' = [].
Proof.
  destruct (parses_run _ _ _ (parses_compound_res rs1 rs2 status tag ps Hs Ht Hn Hps)) as (d' & -> & Hd').
  exists d'. split; [|done]. by rewrite results_after_app by (by eapply Forall2_length).
Qed.

Definition sample_results : list Res :=
  [RStatus (mkStatusRes 0); RGetfh (mkGetfhRes 0 None); RRead (mkReadRes 0 false [])].

Lemma compound_reply_roundtrip_witness :
  exists d', DecodeCompound sample_results
      (Decoder.NewDecoder (bytes_NewReader
         (wire_compound_res NFS4ERR_STALE [] [(OpPutfh, PVoid); (OpGetfh, PFail NFS4ERR_STALE)])))
    = ((inr (mkCompoundResult NFS4ERR_STALE [] 2),
        [RStatus (mkStatusRes 0); RGetfh (mkGetfhRes NFS4ERR_STALE None); RRead (mkReadRes 0 false [])]), d')
    /\ Decoder.err d' = None /\ rest d' = [].
Proof.
  refine (compound_reply_roundtrip
    [RStatus (mkStatusRes 0); RGetfh (mkGetfhRes 0 None)] [RRead (mkReadRes 0 false [])]
    NFS4ERR_STALE [] [(OpPutfh, PVoid); (OpGetfh, PFail NFS4ERR_STALE)] _ _ _ _);
    [decide_wf|vm_compute; discriminate|reflexivity|].
  constructor; [|constructor; [|constructor]].
  - split; [exact I|decide_wf|left; reflexivity|exact I|exact I].
  - split; [exact I|decide_wf|right; reflexivity|decide_wf|exact I].
Defined.

(** Misordered replies.  A resop whose operation number is not the one
    its result expects stops decoding with an error that gives its index and
    both numbers; the results before it have been decoded, that one and the
    following ones are untouched.  A reply with more resops than operations is
    refused before any of them is looked at. *)
Theorem compound_mismatch (rs1 : list Res) (r : Res) (rs2 : list Res) (status : Z) (tag : bytes)
    (ps : list Resop) (opnum : Z) (n : Z) (more : bytes)
    (Hs : is_u32 status) (Ht : fits tag) (Hps : Forall2 resop_ok rs1 ps) (Hop : is_u32 opnum)
    (Hexp : expectedOp r <> 0) (Hne : expectedOp r <> opnum) (Hn : is_u32 n) :
  let rs := rs1 ++ r :: rs2 in
  let reply := wire_u32 status ++ wire_opaque tag ++ wire_u32 n ++ wire_resops ps ++ wire_u32 opnum ++ more in
  let '(res, rs') := (DecodeCompound rs (Decoder.NewDecoder (bytes_NewReader reply))).1 in
  (blen rs < n ->
     res = inl (Errorf "nfs4: server returned %d resops but only %d expected" [Fz n; Fz (blen rs)])
     /\ rs' = rs) /\
  (blen ps < n <= blen rs ->
     res = inl (Errorf "nfs4: resop[%d] opnum %d does not match expected %d"
                  [Fz (blen ps); Fz opnum; Fz (expectedOp r)])
     /\ rs' = zip_with (fun r p => updated r p.2) rs1 ps ++ r :: rs2).
Proof.
  intros rs reply. set (d := Decoder.NewDecoder (bytes_NewReader reply)).
  assert (forall bs v, parses (DecodeCompound rs) bs v ->
            (exists tl, reply = bs ++ tl) -> (DecodeCompound rs d).1 = v) as Hrun.
  { intros bs v Hp [tl E]. destruct (Hp d tl) as (d' & -> & _); [done| |done].
    subst d. cbn. by rewrite app_nil_r. }
  destruct (DecodeCompound rs d).1 as [res rs'] eqn:Eout. split.
  - intros Hlt. assert ((res, rs') = (inl (Errorf "nfs4: server returned %d resops but only %d expected"
      [Fz n; Fz (blen rs)]), rs)) as [= -> ->]; [|done].
    eapply Hrun.
    + apply (decode_header rs status tag n []); try done.
      destruct (Z.ltb_spec (blen rs) n); [apply parses_ret|lia].
    + exists (wire_resops ps ++ wire_u32 opnum ++ more). subst reply. by rewrite <- !app_assoc.
  - intros [Hlt Hle]. assert ((res, rs') = (inl (Errorf "nfs4: resop[%d] opnum %d does not match expected %d"
      [Fz (blen ps); Fz opnum; Fz (expectedOp r)]), zip_with (fun r p => updated r p.2) rs1 ps ++ r :: rs2))
      as [= -> ->]; [|done]. eapply Hrun.
    + apply (decode_header rs status tag n (wire_resops ps ++ wire_u32 opnum)); try done.
      destruct (Z.ltb_spec (blen rs) n); [lia|].
      replace (Z.to_nat n) with (length ps + S (Z.to_nat n - length ps - 1))%nat by (unfold blen in Hlt; lia).
      eapply parses_bind_last; [by apply parses_mismatch|]. cbn beta iota. apply parses_ret.
    + exists more. subst reply. by rewrite <- !app_assoc.
Qed.

Lemma compound_mismatch_witness :
  let rs := [RStatus (mkStatusRes 0); RGetfh (mkGetfhRes 0 None); RRead (mkReadRes 0 false [])] in
  (DecodeCompound rs (Decoder.NewDecoder (bytes_NewReader
     (wire_u32 0 ++ wire_opaque [] ++ wire_u32 2 ++ wire_resops [(OpPutfh, PVoid)] ++ wire_u32 OpRead ++ [])))).1
  = (inl (Errorf "nfs4: resop[%d] opnum %d does not match expected %d" [Fz 1; Fz OpRead; Fz OpGetfh]), rs).
Proof.
  intros rs.
  pose proof (compound_mismatch [RStatus (mkStatusRes 0)] (RGetfh (mkGetfhRes 0 None))
    [RRead (mkReadRes 0 false [])] 0 [] [(OpPutfh, PVoid)] OpRead 2 []
    ltac:(decide_wf) ltac:(vm_compute; discriminate)
    ltac:(constructor; [split; [exact I|decide_wf|left; reflexivity|exact I|exact I]|constructor])
    ltac:(decide_wf) ltac:(discriminate) ltac:(discriminate) ltac:(decide_wf)) as H.
  cbn zeta in H. change ([RStatus (mkStatusRes 0)] ++ RGetfh (mkGetfhRes 0 None) :: [RRead (mkReadRes 0 false [])])
    with rs in H. destruct (DecodeCompound rs _).1 as [res rs'] eqn:E.
  destruct (proj2 H) as [-> ->]; [vm_compute; split; congruence|]. reflexivity.
Defined.

(** C36.  Safety of decoding.  Whatever bytes arrive, a compound result is
    returned only when the decoder met no error, its [NumResults] is at most
    the number of results asked for, and the results beyond it are exactly as
    they were; in every case, error or not, the list of results keeps its
    length and the kind of each entry. *)
Theorem compound_sound (rs : list Res) (d : Decoder.t) :
  let '((res, rs'), d') := DecodeCompound rs d in
  length rs' = length rs /\
  (forall i a b, rs !! i = Some a -> rs' !! i = Some b -> expectedOp b = expectedOp a) /\
  (forall r, res = inr r -> Decoder.err d' = None /\ 0 <= cpr_NumResults r <= blen rs
     /\ forall i, cpr_NumResults r <= Z.of_nat i -> rs' !! i = rs !! i).
Proof.
  destruct (DecodeCompound rs d) as [[res rs'] d'] eqn:E. unfold DecodeCompound in E.
  assert (forall j a b, rs !! j = Some a -> rs !! j = Some b -> expectedOp b = expectedOp a) as Hid
    by (intros; congruence).
  apply Dec_bind_inv in E as (status & d1 & _ & E). apply Dec_bind_inv in E as (tag & d2 & _ & E).
  apply Dec_bind_inv in E as (n & d3 & En & E). unfold mbind at 1, Dec_bind, D.Err in E.
  destruct (Decoder.err d3) as [e|] eqn:He3; [by injection E as <- <- <-|].
  destruct (Uint32_inv _ _ _ En He3) as (_ & _ & Hn & _).
  destruct (Z.ltb_spec (blen rs) n); [by injection E as <- <- <-|].
  apply Dec_bind_inv in E as (loop & d4 & El & E).
  destruct (decode_resops_shape _ _ _ _ _ _ El) as (Hl & Hj & Hk & He).
  destruct loop as [[e|] rs'']; cbn [fst snd] in *; injection E as <- <- <-; split_and!; try done.
  intros r [= <-]. cbn [cpr_NumResults]. unfold is_u32 in Hn. split_and!; [auto|lia|lia|].
  intros i Hi. apply Hj. lia.
Qed.
