(* ===== verification/Session.v ===== *)
(** * NFSv4.1 sessions: the slot table (src/nfs4/session.go)

    A [Session] is shared by goroutines, so its operations are cut where another
    goroutine can run: taking a token from the channel [free], the critical
    section of [AcquireSlot], the critical section of [release], and returning
    the token.  [AcquireSlot] and [release] are their compositions, run without
    interference; the interleavings are the step relation of SessionCorrect. *)

From S2P Require Import Prelude GoError Nfs4Const Nfs4Types.

(** src/nfs4/session.go:25-25 *)
Definition DefaultSlotCount : Z := 16.

(** src/nfs4/session.go:30-33 *)
Record slot := mkSlot { seq : Z; inUse : bool }.

(** The channel [free] is its number of tokens; its capacity is the number of
    slots.  src/nfs4/session.go:40-47 *)
Record Session := mkSession {
  s_id : bytes;
  s_slots : list slot;
  s_highest : Z;
  s_free : nat
}.

(** src/nfs4/session.go:51-65 *)
Definition NewSession (id : bytes) (slotCount : Z) : Session :=
  let slotCount := if slotCount <? 1 then 1 else slotCount in
  mkSession id (replicate (Z.to_nat slotCount) (mkSlot 1 false)) 0 (Z.to_nat slotCount).

(** src/nfs4/session.go:68-68 *)
Definition Session_ID (s : Session) : bytes := s_id s.

(** src/nfs4/session.go:71-71 *)
Definition SlotCount (s : Session) : Z := blen (s_slots s).

(** The pointer to the session is left implicit: a lease is used with the
    session it came from.  src/nfs4/session.go:76-82 *)
Record slotLease := mkSlotLease {
  l_slotID : Z;
  l_seq : Z;
  l_highest : Z;
  l_released : bool
}.

(** [<-s.free]; [None] when the channel is empty, where the receiver waits. *)
Definition recv_token (s : Session) : option Session :=
  match s_free s with
  | O => None
  | S n => Some (mkSession (s_id s) (s_slots s) (s_highest s) n)
  end.

(** [s.free <- struct{}{}]; [None] when the channel is full, where the sender
    waits. *)
Definition send_token (s : Session) : option Session :=
  if bool_decide (s_free s < length (s_slots s))%nat
  then Some (mkSession (s_id s) (s_slots s) (s_highest s) (S (s_free s)))
  else None.

(** The loop of [AcquireSlot]: the index of the first slot not in use. *)
Fixpoint first_free (i : nat) (slots : list slot) : option nat :=
  match slots with
  | [] => None
  | sl :: slots => if negb (inUse sl) then Some i else first_free (S i) slots
  end.

(** The critical section of [AcquireSlot].  src/nfs4/session.go:96-111 *)
Definition claim_slot (s : Session) : option slotLease * Session :=
  match first_free 0 (s_slots s) with
  | Some i =>
      let slots := alter (fun sl => mkSlot (seq sl) true) i (s_slots s) in
      let highest := if s_highest s <? u32 (Z.of_nat i) then u32 (Z.of_nat i) else s_highest s in
      let sq := match s_slots s !! i with Some sl => seq sl | None => 0 end in
      (Some (mkSlotLease (u32 (Z.of_nat i)) sq highest false),
       mkSession (s_id s) slots highest (s_free s))
  | None => (None, s)
  end.

(** [cancelled] is the error of the context when the [select] takes its branch.
    [None]: the call waits for ever.  src/nfs4/session.go:88-116 *)
Definition AcquireSlot (cancelled : option error) (s : Session) : option (result slotLease * Session) :=
  match cancelled with
  | Some err => Some (inl err, s)
  | None =>
      match recv_token s with
      | None => None
      | Some s =>
          match claim_slot s with
          | (Some l, s) => Some (inr l, s)
          | (None, s) =>
              match send_token s with
              | Some s => Some (inl Canceled, s)
              | None => None
              end
          end
      end
  end.

(** src/nfs4/session.go:119-119 *)
Definition SlotID (l : slotLease) : Z := l_slotID l.
(** src/nfs4/session.go:122-122 *)
Definition Seq (l : slotLease) : Z := l_seq l.
(** src/nfs4/session.go:125-125 *)
Definition Highest (l : slotLease) : Z := l_highest l.

(** The critical section of [release].  src/nfs4/session.go:143-148 *)
Definition free_slot (advance : bool) (l : slotLease) (s : Session) : Session :=
  let slots := alter (fun sl => mkSlot (if advance then u32 (seq sl + 1) else seq sl) false)
                     (Z.to_nat (l_slotID l)) (s_slots s) in
  mkSession (s_id s) slots (s_highest s) (s_free s).

(** [None]: the call waits for ever to return the token.
    src/nfs4/session.go:138-151 *)
Definition release (advance : bool) (l : slotLease) (s : Session) : option (slotLease * Session) :=
  if l_released l then Some (l, s)
  else
    let l := mkSlotLease (l_slotID l) (l_seq l) (l_highest l) true in
    match send_token (free_slot advance l s) with
    | Some s => Some (l, s)
    | None => None
    end.

(** src/nfs4/session.go:128-130 *)
Definition Done (l : slotLease) (s : Session) : option (slotLease * Session) := release true l s.

(** src/nfs4/session.go:134-136 *)
Definition Retry (l : slotLease) (s : Session) : option (slotLease * Session) := release false l s.
