(* ===== verification/SessionCorrect.v ===== *)
(** * NFSv4.1 sessions: theorems

    Any number of goroutines use one session.  A state of the system is the
    session and where each goroutine is; a step is one atomic action of one of
    them, so a run of steps is an interleaving. *)

From S2P Require Import Prelude GoError Nfs4Const Nfs4Types Session.

(** Where a goroutine is. *)
Inductive phase :=
| Outside                                (* before AcquireSlot, or waiting in its select *)
| HasToken                               (* token taken, critical section not entered *)
| NoSlot                                 (* the unreachable branch: about to return the token *)
| Holding (l : slotLease)                (* AcquireSlot returned l *)
| Releasing.                             (* slot freed, token not yet returned *)

Record sys := mkSys { session : Session; threads : list phase }.

(** Events that change a slot's sequence id. *)
Inductive event := Silent | Released (slot : nat) (seq : Z) (advanced : bool).

Inductive step : sys -> event -> sys -> Prop :=
| step_token i s s' ths : ths !! i = Some Outside -> recv_token s = Some s' ->
    step (mkSys s ths) Silent (mkSys s' (<[i := HasToken]> ths))
| step_claim i s s' l ths : ths !! i = Some HasToken -> claim_slot s = (Some l, s') ->
    step (mkSys s ths) Silent (mkSys s' (<[i := Holding l]> ths))
| step_noslot i s s' ths : ths !! i = Some HasToken -> claim_slot s = (None, s') ->
    step (mkSys s ths) Silent (mkSys s' (<[i := NoSlot]> ths))
| step_giveback i s s' ths : ths !! i = Some NoSlot -> send_token s = Some s' ->
    step (mkSys s ths) Silent (mkSys s' (<[i := Outside]> ths))
| step_free i s l adv ths : ths !! i = Some (Holding l) ->
    step (mkSys s ths) (Released (Z.to_nat (l_slotID l)) (l_seq l) adv)
         (mkSys (free_slot adv l s) (<[i := Releasing]> ths))
| step_return i s s' ths : ths !! i = Some Releasing -> send_token s = Some s' ->
    step (mkSys s ths) Silent (mkSys s' (<[i := Outside]> ths)).

(** A run, with the events in the order they happened. *)
Inductive run (st0 : sys) : list event -> sys -> Prop :=
| run_nil : run st0 [] st0
| run_step es st e st' : run st0 es st -> step st e st' -> run st0 (es ++ [e]) st'.

(** A fresh session of [n] slots and [k] goroutines that have not started. *)
Definition start (id : bytes) (n : Z) (k : nat) : sys :=
  mkSys (NewSession id n) (replicate k Outside).

Definition holding (p : phase) : bool := match p with Holding _ => true | _ => false end.
Definition inside (p : phase) : bool := match p with Outside => false | _ => true end.

(** The advancing releases of slot [i]. *)
Definition advances (i : nat) (es : list event) : nat :=
  nb (fun e => match e with Released j _ true => bool_decide (i = j) | _ => false end) es.

(** ** The invariant *)

Record inv (n : nat) (es : list event) (st : sys) : Prop := {
  inv_len : length (s_slots (session st)) = n;
  inv_tokens : (s_free (session st) + nb inside (threads st) = n)%nat;
  inv_used : nb inUse (s_slots (session st)) = nb holding (threads st);
  inv_lease : forall i l, threads st !! i = Some (Holding l) ->
    exists k, l_slotID l = Z.of_nat k /\ l_released l = false
      /\ s_slots (session st) !! k = Some (mkSlot (l_seq l) true);
  inv_distinct : forall i j li lj, threads st !! i = Some (Holding li) ->
    threads st !! j = Some (Holding lj) -> l_slotID li = l_slotID lj -> i = j;
  inv_seq : forall k sl, s_slots (session st) !! k = Some sl ->
    seq sl = u32 (1 + Z.of_nat (advances k es));
  inv_noslot : forall i, threads st !! i <> Some NoSlot
}.

Lemma first_free_spec slots : forall i, match first_free i slots with
  | Some j => exists k sl, j = (i + k)%nat /\ slots !! k = Some sl /\ inUse sl = false
  | None => nb inUse slots = length slots
  end.
Proof.
  induction slots as [|sl slots IH]; intros i; cbn; [done|].
  destruct (inUse sl) eqn:E; cbn.
  - specialize (IH (S i)). destruct (first_free (S i) slots) as [j|].
    + destruct IH as (k & sl' & -> & ? & ?). exists (S k), sl'. split; [lia|done].
    + by rewrite IH.
  - exists O, sl. split; [lia|done].
Qed.

(** Entering the critical section with a token in hand: there is a slot. *)
Lemma claim_slot_some n es st i : inv n es st -> threads st !! i = Some HasToken ->
  exists k sl l s', s_slots (session st) !! k = Some sl /\ inUse sl = false /\
    claim_slot (session st) = (Some l, s') /\
    l = mkSlotLease (u32 (Z.of_nat k)) (seq sl) (s_highest s') false /\
    s_slots s' = <[k := mkSlot (seq sl) true]> (s_slots (session st)) /\
    s_free s' = s_free (session st).
Proof.
  intros Hinv Hi. pose proof (first_free_spec (s_slots (session st)) 0) as Hf. unfold claim_slot.
  destruct (first_free 0 (s_slots (session st))) as [j|].
  - destruct Hf as (k & sl & -> & Hk & Hu). cbn [Nat.add]. exists k, sl. rewrite Hk.
    eexists _, _. split_and!; try done. cbn [s_slots].
    apply list_eq. intros m. destruct (decide (m = k)) as [->|].
    + rewrite list_lookup_alter_eq, Hk, list_lookup_insert_eq by (by eapply lookup_lt_Some). done.
    + by rewrite list_lookup_alter_ne, list_lookup_insert_ne by done.
  - exfalso. destruct Hinv as [Hl Ht Hu _ _ _ _].
    assert (nb holding (threads st) < nb inside (threads st))%nat; [|lia].
    clear -Hi. revert i Hi. induction (threads st) as [|p ps IH]; intros [|i] Hi; try done.
    + injection Hi as ->. cbn. pose proof (nb_mono holding inside ps) as H.
      enough (nb holding ps <= nb inside ps)%nat by lia. apply H. by intros [].
    + specialize (IH i Hi). cbn. destruct p; cbn; lia.
Qed.

Lemma lookup_insert_Holding (ths : list phase) i p j l :
  <[i := p]> ths !! j = Some (Holding l) ->
  (j = i /\ p = Holding l) \/ (j <> i /\ ths !! j = Some (Holding l)).
Proof.
  intros H. destruct (decide (j = i)) as [->|]; [left|right].
  - by apply list_lookup_insert_Some in H as [(_ & -> & _)|[? _]].
  - by rewrite list_lookup_insert_ne in H by done.
Qed.

Lemma lookup_insert_NoSlot (ths : list phase) i p j :
  (forall k, ths !! k <> Some NoSlot) -> p <> NoSlot -> <[i := p]> ths !! j <> Some NoSlot.
Proof.
  intros H Hp E. by apply list_lookup_insert_Some in E as [(_ & ? & _)|[_ ?%H]].
Qed.

Lemma advances_app k es e : advances k (es ++ [e])
  = (advances k es + match e with Released j _ true => if decide (k = j) then 1 else 0 | _ => 0 end)%nat.
Proof.
  unfold advances. rewrite nb_app. f_equal. cbn. destruct e as [|j q []]; try done.
  case_decide; [rewrite bool_decide_true by done|rewrite bool_decide_false by done]; lia.
Qed.

(** Steps that leave the slots alone and move a goroutine between phases
    without a slot. *)
Lemma inv_quiet n es s s' ths i p p' : inv n es (mkSys s ths) -> ths !! i = Some p ->
  holding p = false -> holding p' = false -> p' <> NoSlot -> s_slots s' = s_slots s ->
  (s_free s' + (if inside p' then 1 else 0) = s_free s + (if inside p then 1 else 0))%nat ->
  inv n (es ++ [Silent]) (mkSys s' (<[i := p']> ths)).
Proof.
  intros [Hl Ht Hu Hls Hd Hq Hn] Hi Hp Hp' Hns Hs Hf. cbn [session threads] in *.
  pose proof (nb_insert inside _ _ _ p' Hi) as Hni. pose proof (nb_insert holding _ _ _ p' Hi) as Hnh.
  rewrite Hp, Hp' in Hnh.
  split; cbn [session threads]; rewrite ?Hs; [done|lia|lia| | | |].
  - intros j l [[-> E]|[_ Hj]]%lookup_insert_Holding; [by subst p'|by apply (Hls j)].
  - intros j k lj lk [[-> E]|[_ Hj]]%lookup_insert_Holding [[-> E']|[_ Hk]]%lookup_insert_Holding;
      [by subst p'..|by apply Hd].
  - intros k sl Hk. rewrite advances_app, Nat.add_0_r. by apply Hq.
  - intros j. by apply lookup_insert_NoSlot.
Qed.

Lemma inv_claim n es s s' l ths i : Z.of_nat n <= 2 ^ 32 -> inv n es (mkSys s ths) ->
  ths !! i = Some HasToken -> claim_slot s = (Some l, s') ->
  inv n (es ++ [Silent]) (mkSys s' (<[i := Holding l]> ths)).
Proof.
  intros Hn32 Hinv Hi Hc. pose proof Hinv as [Hl Ht Hu Hls Hd Hq Hn].
  destruct (claim_slot_some _ _ _ _ Hinv Hi) as (k & sl & l' & s'' & Hk & Hfree & Hc' & -> & Hs & Hf).
  cbn [session threads] in *. rewrite Hc in Hc'. injection Hc' as -> <-.
  pose proof (lookup_lt_Some _ _ _ Hk) as Hlt.
  assert (u32 (Z.of_nat k) = Z.of_nat k) as Hku by (apply u32_id; split; lia). rewrite Hku.
  assert (forall j lj, ths !! j = Some (Holding lj) -> l_slotID lj <> Z.of_nat k) as Hfresh.
  { intros j lj Hj E. destruct (Hls j lj Hj) as (m & Em & _ & Hm).
    assert (m = k) as -> by lia. rewrite Hk in Hm. by injection Hm as ->. }
  pose proof (nb_insert inside _ _ _ (Holding (mkSlotLease (Z.of_nat k) (seq sl) (s_highest s') false)) Hi).
  pose proof (nb_insert holding _ _ _ (Holding (mkSlotLease (Z.of_nat k) (seq sl) (s_highest s') false)) Hi).
  pose proof (nb_insert inUse _ _ _ (mkSlot (seq sl) true) Hk) as Hns. rewrite Hfree in Hns. cbn in *.
  split; cbn [session threads]; rewrite ?Hs, ?length_insert; [done|lia|lia| | | |].
  - intros j lj [[-> [= <-]]|[_ Hj]]%lookup_insert_Holding.
    + exists k. by rewrite list_lookup_insert_eq.
    + destruct (Hls j lj Hj) as (m & Em & Hr & Hm). exists m. split_and!; [done|done|].
      rewrite list_lookup_insert_ne; [done|]. intros <-. by apply (Hfresh j lj).
  - intros j m lj lm [[-> [= <-]]|[_ Hj]]%lookup_insert_Holding [[-> [= <-]]|[_ Hm]]%lookup_insert_Holding E;
      cbn in E; [done|by destruct (Hfresh m lm Hm)|by destruct (Hfresh j lj Hj)|by apply (Hd j m lj lm)].
  - intros m sl' Hm. rewrite advances_app, Nat.add_0_r.
    apply list_lookup_insert_Some in Hm as [(<- & <- & _)|[_ Hm]]; [exact (Hq k sl Hk)|by apply Hq].
  - intros j. by apply lookup_insert_NoSlot.
Qed.

Lemma inv_free n es s l adv ths i : inv n es (mkSys s ths) -> ths !! i = Some (Holding l) ->
  inv n (es ++ [Released (Z.to_nat (l_slotID l)) (l_seq l) adv])
    (mkSys (free_slot adv l s) (<[i := Releasing]> ths)).
Proof.
  intros [Hl Ht Hu Hls Hd Hq Hn] Hi. cbn [session threads] in *.
  destruct (Hls i l Hi) as (k & Ek & Hr & Hk). rewrite Ek, Nat2Z.id.
  pose proof (lookup_lt_Some _ _ _ Hk) as Hlt.
  set (sl' := mkSlot (if adv then u32 (l_seq l + 1) else l_seq l) false).
  assert (s_slots (free_slot adv l s) = <[k := sl']> (s_slots s)) as Hs.
  { unfold free_slot. cbn [s_slots]. rewrite Ek, Nat2Z.id. apply list_eq. intros m.
    destruct (decide (m = k)) as [->|].
    - by rewrite list_lookup_alter_eq, Hk, list_lookup_insert_eq.
    - by rewrite list_lookup_alter_ne, list_lookup_insert_ne. }
  pose proof (nb_insert inside _ _ _ Releasing Hi). pose proof (nb_insert holding _ _ _ Releasing Hi).
  pose proof (nb_insert inUse _ _ _ sl' Hk). cbn [holding inside inUse sl'] in *.
  split; cbn [session threads]; rewrite ?Hs, ?length_insert; [done|cbn; lia|lia| | | |].
  - intros j lj [[_ ?]|[Hji Hj]]%lookup_insert_Holding; [done|].
    destruct (Hls j lj Hj) as (m & Em & Hrj & Hm). exists m. split_and!; [done|done|].
    rewrite list_lookup_insert_ne; [done|]. intros <-. apply Hji, (Hd j i lj l Hj Hi). lia.
  - intros j m lj lm [[_ ?]|[_ Hj]]%lookup_insert_Holding [[_ ?]|[_ Hm]]%lookup_insert_Holding; try done.
    by apply Hd.
  - intros m sl Hm. rewrite advances_app.
    apply list_lookup_insert_Some in Hm as [(<- & <- & _)|[Hne Hm]].
    + specialize (Hq k _ Hk). cbn in Hq. subst sl'. cbn [seq]. destruct adv.
      * rewrite decide_True by done. rewrite Hq. int_lia.
      * by rewrite Nat.add_0_r.
    + rewrite (Hq m sl Hm). destruct adv; [rewrite decide_False by congruence|]; by rewrite Nat.add_0_r.
  - intros j. by apply lookup_insert_NoSlot.
Qed.

Lemma inv_step n es st e st' : Z.of_nat n <= 2 ^ 32 -> inv n es st -> step st e st' -> inv n (es ++ [e]) st'.
Proof.
  intros Hn Hinv Hstep. destruct Hstep as [i s s' ths Hi Hr|i s s' l ths Hi Hc|i s s' ths Hi Hc
    |i s s' ths Hi Hr|i s l adv ths Hi|i s s' ths Hi Hr].
  - unfold recv_token in Hr. destruct (s_free s) eqn:Ef; [done|]. injection Hr as <-.
    eapply inv_quiet; [done..|]. cbn. lia.
  - by eapply inv_claim.
  - exfalso. destruct (claim_slot_some _ _ _ _ Hinv Hi) as (k & sl & l & s'' & _ & _ & Hc' & _).
    cbn in Hc'. congruence.
  - exfalso. by apply (inv_noslot _ _ _ Hinv i).
  - by apply inv_free.
  - unfold send_token in Hr. case_bool_decide; [|done]. injection Hr as <-.
    eapply inv_quiet; [done..|]. cbn. lia.
Qed.

Lemma inv_start id n k : inv (Z.to_nat (if n <? 1 then 1 else n)) [] (start id n k).
Proof.
  unfold start, NewSession. split; cbn [session threads s_slots s_free].
  - apply length_replicate.
  - rewrite nb_replicate by done. lia.
  - by rewrite !nb_replicate.
  - by intros i l [[=] _]%lookup_replicate.
  - by intros i j li lj [[=] _]%lookup_replicate.
  - by intros i sl [-> _]%lookup_replicate.
  - by intros i [[=] _]%lookup_replicate.
Qed.

Lemma inv_run id n k es st : n <= 2 ^ 32 -> run (start id n k) es st ->
  inv (Z.to_nat (if n <? 1 then 1 else n)) es st.
Proof.
  intros Hn. remember (start id n k) as st0 eqn:E0. induction 1 as [|es st e st' _ IH Hstep].
  - subst. apply inv_start.
  - eapply inv_step; [|by apply IH|done]. bool_cases; lia.
Qed.

(** The sequence id a lease carries is the one its slot is due. *)
Lemma run_release_seq id n k es st : n <= 2 ^ 32 -> run (start id n k) es st ->
  forall es1 j q adv es2, es = es1 ++ Released j q adv :: es2 -> q = u32 (1 + Z.of_nat (advances j es1)).
Proof.
  intros Hn. remember (start id n k) as st0 eqn:E0. induction 1 as [|es st e st' Hrun IH Hstep];
    intros es1 j q adv es2 E; [by destruct es1|]. subst st0.
  destruct es2 as [|e2 es2] using rev_ind.
  - apply app_inj_tail in E as [<- ->]. inversion Hstep as [| | | |i s l adv' ths Hi|]; subst.
    pose proof (inv_run _ _ _ _ _ Hn Hrun) as [_ _ _ Hls _ Hq _]. cbn in *.
    destruct (Hls i l Hi) as (m & Em & _ & Hm). rewrite Em, Nat2Z.id. exact (Hq m _ Hm).
  - clear IHes2. rewrite app_comm_cons, app_assoc in E. apply app_inj_tail in E as [-> _].
    by eapply IH.
Qed.

(** ** Theorems *)

(** C5.  Slots are exclusive.  In every interleaving of any number of
    goroutines on a session of any size, two goroutines never hold the same
    slot; a held slot is marked in use and the lease carries its current
    sequence id; and the channel of tokens is in step with the table: tokens
    plus goroutines past the channel make up the number of slots, and slots in
    use are exactly those held. *)
Theorem session_exclusive (id : bytes) (n : Z) (k : nat) (es : list event) (st : sys)
    (Hn : n <= 2 ^ 32) (Hrun : run (start id n k) es st) :
  (forall i j li lj, threads st !! i = Some (Holding li) -> threads st !! j = Some (Holding lj) ->
     i <> j -> l_slotID li <> l_slotID lj) /\
  (forall i l, threads st !! i = Some (Holding l) ->
     s_slots (session st) !! Z.to_nat (l_slotID l) = Some (mkSlot (l_seq l) true)) /\
  (s_free (session st) + nb inside (threads st))%nat = length (s_slots (session st)) /\
  nb inUse (s_slots (session st)) = nb holding (threads st).
Proof.
  destruct (inv_run _ _ _ _ _ Hn Hrun) as [Hl Ht Hu Hls Hd _ _]. split_and!.
  - intros i j li lj Hi Hj Hne E. by apply Hne, (Hd i j li lj).
  - intros i l Hi. destruct (Hls i l Hi) as (m & -> & _ & Hm). by rewrite Nat2Z.id.
  - by rewrite Hl.
  - done.
Qed.

(** Two goroutines on a session of two slots: both hold a slot. *)
Definition two_leases : sys :=
  mkSys (mkSession [] [mkSlot 1 true; mkSlot 1 true] 1 0)
    [Holding (mkSlotLease 0 1 0 false); Holding (mkSlotLease 1 1 1 false)].

Lemma two_leases_run : run (start [] 2 2) [Silent; Silent; Silent; Silent] two_leases.
Proof.
  set (sl u := mkSlot 1 u). set (l0 := mkSlotLease 0 1 0 false). set (l1 := mkSlotLease 1 1 1 false).
  set (s1 := mkSession [] [sl false; sl false] 0 1). set (s2 := mkSession [] [sl false; sl false] 0 0).
  set (s3 := mkSession [] [sl true; sl false] 0 0).
  refine (run_step _ [Silent; Silent; Silent] (mkSys s3 [Holding l0; HasToken]) _ _ _
    (step_claim 1 s3 (session two_leases) l1 [Holding l0; HasToken] eq_refl eq_refl)).
  refine (run_step _ [Silent; Silent] (mkSys s2 [HasToken; HasToken]) _ _ _
    (step_claim 0 s2 s3 l0 [HasToken; HasToken] eq_refl eq_refl)).
  refine (run_step _ [Silent] (mkSys s1 [HasToken; Outside]) _ _ _
    (step_token 1 s1 s2 [HasToken; Outside] eq_refl eq_refl)).
  refine (run_step _ [] (start [] 2 2) _ _ (run_nil _)
    (step_token 0 (session (start [] 2 2)) s1 [Outside; Outside] eq_refl eq_refl)).
Qed.

Lemma session_exclusive_witness :
  run (start [] 2 2) [Silent; Silent; Silent; Silent] two_leases /\ 0 <> 1.
Proof.
  split; [exact two_leases_run|].
  refine (proj1 (session_exclusive [] 2 2 _ two_leases _ two_leases_run) 0%nat 1%nat
    (mkSlotLease 0 1 0 false) (mkSlotLease 1 1 1 false) _ _ _);
    [vm_compute; discriminate|reflexivity|reflexivity|discriminate].
Defined.

(** No deadlock and no dead branch.  In every interleaving the branch of
    [AcquireSlot] that the code calls unreachable is not reached, a goroutine
    that took a token finds a slot, a goroutine that returns its token never
    waits, and a goroutine waits for a token only while every slot is taken by
    another one. *)
Theorem session_progress (id : bytes) (n : Z) (k : nat) (es : list event) (st : sys)
    (Hn : n <= 2 ^ 32) (Hrun : run (start id n k) es st) :
  (forall i, threads st !! i <> Some NoSlot) /\
  (forall i, threads st !! i = Some HasToken -> exists l s', claim_slot (session st) = (Some l, s')) /\
  (forall i, threads st !! i = Some Releasing -> exists s', send_token (session st) = Some s') /\
  (recv_token (session st) = None -> nb inside (threads st) = length (s_slots (session st)) /\
     (1 <= length (s_slots (session st)))%nat).
Proof.
  pose proof (inv_run _ _ _ _ _ Hn Hrun) as Hinv. pose proof Hinv as [Hl Ht _ _ _ _ Hns]. split_and!.
  - done.
  - intros i Hi. destruct (claim_slot_some _ _ _ _ Hinv Hi) as (? & ? & l & s' & _ & _ & H & _). eauto.
  - intros i Hi. unfold send_token. pose proof (nb_pos inside _ _ _ Hi eq_refl).
    rewrite bool_decide_true by lia. eauto.
  - unfold recv_token. destruct (s_free (session st)) eqn:Ef; [|done]. intros _.
    rewrite Hl. split; [lia|]. bool_cases; lia.
Qed.

Lemma session_progress_witness :
  recv_token (session two_leases) = None /\ nb inside (threads two_leases) = 2%nat.
Proof.
  split; [reflexivity|].
  exact (proj1 (proj2 (proj2 (proj2 (session_progress [] 2 2 _ two_leases ltac:(vm_compute; discriminate)
    two_leases_run))) eq_refl)).
Defined.

(** Ending a lease with [finish] in the state [st]: the two steps of goroutine
    [i], of which the first is recorded with [advanced]; afterwards the slot is
    free with the sequence id [next], the others are as before, and ending the
    lease again, either way, does nothing. *)
Definition ends_lease (finish : slotLease -> Session -> option (slotLease * Session)) (advanced : bool) (next : Z)
    (es : list event) (st0 st : sys) (i : nat) (l : slotLease) : Prop :=
  let j := Z.to_nat (l_slotID l) in
  exists l' s', finish l (session st) = Some (l', s')
    /\ run st0 (es ++ [Released j (l_seq l) advanced; Silent]) (mkSys s' (<[i := Outside]> (threads st)))
    /\ s_slots s' = <[j := mkSlot next false]> (s_slots (session st))
    /\ forall s'', Done l' s'' = Some (l', s'') /\ Retry l' s'' = Some (l', s'').

(** What both ways of ending a lease are. *)
Lemma release_ends n es st0 st i l advance : inv n es st -> run st0 es st -> threads st !! i = Some (Holding l) ->
  ends_lease (release advance) advance (if advance then u32 (l_seq l + 1) else l_seq l) es st0 st i l.
Proof.
  intros Hinv Hrun Hi. destruct st as [s ths]. pose proof Hinv as [Hl Ht _ Hls _ _ _]. cbn [session threads] in *.
  destruct (Hls i l Hi) as (k & Ek & Hr & Hk). pose proof (lookup_lt_Some _ _ _ Hk) as Hlt.
  assert (length (s_slots (free_slot advance l s)) = length (s_slots s)) as Hlen by (cbn; apply length_alter).
  pose proof (nb_pos inside _ _ _ Hi eq_refl).
  destruct (send_token (free_slot advance l s)) as [s'|] eqn:Es.
  2: { exfalso. unfold send_token in Es. rewrite bool_decide_true in Es; [done|]. rewrite Hlen. cbn. lia. }
  eexists _, s'. split.
  { unfold release. cbn [session]. rewrite Hr. cbn zeta.
    change (free_slot advance (mkSlotLease _ _ _ true) s) with (free_slot advance l s). rewrite Es. reflexivity. }
  split; [|split; [|done]].
  - change ([Released (Z.to_nat (l_slotID l)) (l_seq l) advance; Silent])
      with ([Released (Z.to_nat (l_slotID l)) (l_seq l) advance] ++ [Silent]). rewrite app_assoc.
    eapply run_step; [eapply run_step; [exact Hrun|by apply step_free]|].
    cbn [threads]. rewrite <- (list_insert_insert_eq ths i Outside Releasing). apply step_return; [|exact Es].
    apply list_lookup_insert_eq. by eapply lookup_lt_Some.
  - unfold send_token in Es. case_bool_decide; [|done]. injection Es as <-. cbn [s_slots free_slot].
    rewrite Ek, Nat2Z.id. apply list_eq. intros m. destruct (decide (m = k)) as [->|].
    + by rewrite list_lookup_alter_eq, Hk, list_lookup_insert_eq.
    + by rewrite list_lookup_alter_ne, list_lookup_insert_ne.
Qed.

(** C13.  Sequence ids.  In every interleaving the sequence id that a slot
    carries, and a lease of it while it is held and when it is released, is one
    more, modulo 2^32, than the number of releases of that slot that advanced
    before, so no goroutine on another slot affects it.  A goroutine that holds
    a lease ends it with [Done], which is an advancing release: the slot is
    free with the next sequence id; or with [Retry], which is not: it is free
    with the same one.  A lease that was ended does nothing when it is ended
    again. *)
Theorem session_sequence (id : bytes) (n : Z) (k : nat) (es : list event) (st : sys)
    (Hn : n <= 2 ^ 32) (Hrun : run (start id n k) es st) :
  (forall m sl, s_slots (session st) !! m = Some sl -> seq sl = u32 (1 + Z.of_nat (advances m es))) /\
  (forall es1 j q advanced es2, es = es1 ++ Released j q advanced :: es2 -> q = u32 (1 + Z.of_nat (advances j es1))) /\
  (forall i l, threads st !! i = Some (Holding l) ->
     l_seq l = u32 (1 + Z.of_nat (advances (Z.to_nat (l_slotID l)) es))
     /\ ends_lease Done true (u32 (l_seq l + 1)) es (start id n k) st i l
     /\ ends_lease Retry false (l_seq l) es (start id n k) st i l).
Proof.
  pose proof (inv_run _ _ _ _ _ Hn Hrun) as Hinv. split; [exact (inv_seq _ _ _ Hinv)|].
  split; [by eapply run_release_seq|]. intros i l Hi. split.
  - destruct (inv_lease _ _ _ Hinv i l Hi) as (m & -> & _ & Hm). rewrite Nat2Z.id. by apply (inv_seq _ _ _ Hinv m _ Hm).
  - split; [apply (release_ends _ _ _ _ _ _ true Hinv Hrun Hi)|apply (release_ends _ _ _ _ _ _ false Hinv Hrun Hi)].
Qed.

(** The first goroutine of [two_leases] is done; the slot of the other stays. *)
Lemma session_sequence_witness :
  exists l' s', Done (mkSlotLease 0 1 0 false) (session two_leases) = Some (l', s')
    /\ s_slots s' = [mkSlot 2 false; mkSlot 1 true].
Proof.
  destruct (session_sequence [] 2 2 _ two_leases ltac:(vm_compute; discriminate) two_leases_run) as (_ & _ & H).
  destruct (H 0%nat (mkSlotLease 0 1 0 false) eq_refl) as (_ & (l' & s' & E & _ & Hs & _) & _).
  exists l', s'. split; [exact E|exact Hs].
Defined.
