(* ===== verification/Caller.v ===== *)
(** * Compound callers (src/nfs4/retry.go, src/nfs4/session.go, src/nfs4/transport.go)

    A [CompoundCaller] is one of three types: the base caller (an [RPCCaller], or
    the caller an application passes to [NewConn]), a [sessionCaller] and a
    [retryCaller], each of the last two holding the caller beneath it.  Sessions
    are shared through pointers, so they live in a store and a caller holds an
    index.

    Everything outside the package is the class [World]: what the base caller
    answers, what contexts and timers do, random bytes, the host name, dialling.
    The program is written in a state monad over the world, the sessions and the
    connection, with [None] for a call that waits for ever. *)

From S2P Require Import Prelude GoError Nfs4Const GoIO Xdr Rpc RpcClient Attr Nfs4Types Nfs4Args.
From S2P Require Import Nfs4Res Compound Session.

(** ** RPCCaller *)

(** The results [(r, err)] of [CallCompound]. *)
Abbreviation CallReply := (option CompoundResult * option error)%type.

(** [RPCCaller.CallCompound] on the RPC client it wraps, with the results the
    pointers hold afterwards.  src/nfs4/transport.go:91-105 *)
Definition RPCCaller_CallCompound (ctx : CallCtx) (c : Compound) (results : list Res) (cl : Client)
    : CallReply * list Res * Client :=
  let '(err, out, cl) := Call ctx Program Version4 ProcCompound
                           (Some (Compound_Encode c)) (Some (DecodeCompound results)) cl in
  let results' := match out with Some (_, rs) => rs | None => results end in
  match err with
  | Some err => ((None, Some err), results', cl)
  | None =>
      match out with
      | Some (inl decErr, _) => ((None, Some decErr), results', cl)
      | Some (inr r, _) => ((Some r, None), results', cl)
      | None => ((None, None), results', cl)
      end
  end.

(** The statuses for which [DialAuto] falls back to v4.0.
    src/nfs4/transport.go:76-87 *)
Definition isMinorVersionFallback (err : error) : bool :=
  existsb (errorHasStatus err) [NFS4ERR_MINOR_VERS_MISMATCH; NFS4ERR_NOTSUPP; NFS4ERR_OP_ILLEGAL].

(** ** The world *)

Inductive Context := Background | Ctx (n : nat).

Class World (W : Type) := {
  ctx_Err : Context -> W -> option error * W;
  (* the branch a select on ctx.Done() and another channel takes *)
  ctx_Done : Context -> W -> option error * W;
  (* the select of sleepCtx; a sleeper injected by a test *)
  timer : Context -> Z -> W -> option error * W;
  injected_sleep : Context -> Z -> W -> option error * W;
  (* the base caller *)
  base_CallCompound : Context -> Compound -> list Res -> W -> CallReply * list Res * W;
  (* rpc.Dial, which makes its client the base caller; its Close *)
  rpc_DialW : Context -> bytes -> OpaqueAuth -> W -> option error * W;
  rpc_CloseW : W -> option error * W;
  rand_Read : Z -> W -> result bytes * W;
  os_Hostname : W -> result bytes * W
}.

(** ** Retry configuration *)

(** src/nfs4/retry.go:26-26 *)
Definition DefaultRetryInitial : Z := 10 * 1000000.
(** src/nfs4/retry.go:27-27 *)
Definition DefaultRetryMax : Z := 1000 * 1000000.
(** src/nfs4/retry.go:28-28 *)
Definition DefaultRetryMaxAttempts : Z := 10.

Inductive Sleeper := sleepCtx | sleepInjected.

(** Durations are nanoseconds.  src/nfs4/retry.go:34-46 *)
Record RetryConfig := mkRetryConfig {
  rc_Initial : Z;
  rc_Max : Z;
  rc_MaxAttempts : Z;
  rc_sleep : option Sleeper
}.

(** src/nfs4/retry.go:50-64 *)
Definition withDefaults (cfg : RetryConfig) : RetryConfig :=
  mkRetryConfig
    (if rc_Initial cfg <=? 0 then DefaultRetryInitial else rc_Initial cfg)
    (if rc_Max cfg <=? 0 then DefaultRetryMax else rc_Max cfg)
    (if rc_MaxAttempts cfg <? 1 then DefaultRetryMaxAttempts else rc_MaxAttempts cfg)
    (match rc_sleep cfg with None => Some sleepCtx | Some s => Some s end).

(** src/nfs4/retry.go:82-84 *)
Definition isRetriableStatus (s : Z) : bool := (s =? NFS4ERR_DELAY) || (s =? NFS4ERR_GRACE).

(** src/nfs4/retry.go:152-162 *)
Definition retriable (r : option CompoundResult) (err : option error) : bool :=
  match r with
  | Some r => isRetriableStatus (cpr_Status r)
  | None => false
  end ||
  match err with
  | Some err => errorHasStatus err NFS4ERR_DELAY || errorHasStatus err NFS4ERR_GRACE
  | None => false
  end.

(** The implementations of [CompoundCaller] (src/nfs4/conn.go:29-31): the
    structs of src/nfs4/retry.go:91-94 and src/nfs4/session.go:157-160. *)
Inductive Caller :=
| baseCaller
| sessionCaller (base : Caller) (session : nat)
| retryCaller (base : Caller) (cfg : RetryConfig).

(** src/nfs4/session.go:163-165 *)
Definition newSessionCaller (base : Caller) (session : nat) : Caller := sessionCaller base session.

(** src/nfs4/retry.go:98-100 *)
Definition newRetryCaller (base : Caller) (cfg : RetryConfig) : Caller :=
  retryCaller base (withDefaults cfg).

(** ** Connections *)

(** src/nfs4/conn.go:34-44 *)
Record ConnConfig := mkConnConfig {
  cc_ClientName : bytes;
  cc_MinorVersion : Z;
  cc_Retry : RetryConfig
}.

(** [c_rpc] tells whether the connection owns an RPC client; [c_rootFH] is
    [None] for a nil handle.  src/nfs4/conn.go:48-69 *)
Record Conn := mkConn {
  c_caller : Caller;
  c_cfg : ConnConfig;
  c_rpc : bool;
  c_clientID : Z;
  c_confirm : bytes;
  c_rootFH : option bytes;
  c_session : option nat;
  c_eirSequence : Z;
  c_openSeqid : Z
}.

(** ** The state monad *)

Section monad.
Context {W : Type} `{World W}.

Record St := mkSt { st_world : W; st_sessions : list Session; st_conn : Conn }.

Definition M (A : Type) : Type := St -> option (A * St).

#[global] Instance M_ret : MRet M := fun A a st => Some (a, st).
#[global] Instance M_bind : MBind M := fun A B k m st =>
  match m st with Some (a, st') => k a st' | None => None end.

(** An operation of the world. *)
Definition world {A} (f : W -> A * W) : M A := fun st =>
  let '(a, w) := f (st_world st) in Some (a, mkSt w (st_sessions st) (st_conn st)).

(** Reading and writing the fields of the connection. *)
Definition get : M Conn := fun st => Some (st_conn st, st).
Definition put (c : Conn) : M unit := fun st => Some (tt, mkSt (st_world st) (st_sessions st) c).

(** An operation on the session a pointer refers to; it may wait for ever. *)
Definition on_session {A} (s : nat) (f : Session -> option (A * Session)) : M A := fun st =>
  match st_sessions st !! s with
  | Some sess =>
      match f sess with
      | Some (a, sess') => Some (a, mkSt (st_world st) (<[s := sess']> (st_sessions st)) (st_conn st))
      | None => None
      end
  | None => None
  end.

(** A new session in the store. *)
Definition alloc_session (s : Session) : M nat := fun st =>
  Some (length (st_sessions st), mkSt (st_world st) (st_sessions st ++ [s]) (st_conn st)).

(** ** CallCompound *)

Definition CallFn : Type := Context -> Compound -> list Res -> M (CallReply * list Res).

(** [var seqRes SequenceRes] *)
Definition zeroSequenceRes : SequenceRes := mkSequenceRes 0 (zero_array SessionIDLen) 0 0 0 0 0.

(** The results behind the pointers [&seqRes, results...] after a call: an entry
    keeps its kind. *)
Definition split_results (all : list Res) : SequenceRes * list Res :=
  match all with
  | RSequence s :: rs => (s, rs)
  | _ => (zeroSequenceRes, tail all)
  end.

(** src/nfs4/session.go:171-228 *)
Definition sessionCaller_CallCompound (base : CallFn) (session : nat) : CallFn := fun ctx c results =>
  cancelled ← world (ctx_Done ctx);
  acquired ← on_session session (AcquireSlot cancelled);
  match acquired with
  | inl err => mret ((None, Some err), results)
  | inr lease =>
      id ← on_session session (fun s => Some (Session_ID s, s));
      let seqArgs := mkSequenceArgs id (Seq lease) (SlotID lease) (Highest lease) false in
      let wrapped := NewCompound (cp_Tag c) in
      let wrapped := mkCompound (cp_Tag wrapped) (cp_MinorVersion c) (cp_ops wrapped) in
      let wrapped := Add (ASequence seqArgs) wrapped in
      let wrapped := fold_left (fun w op => Add op w) (Ops c) wrapped in
      called ← base ctx wrapped (RSequence zeroSequenceRes :: results);
      let '(seqRes, results) := split_results called.2 in
      match called.1 with
      | (_, Some err) =>
          _ ← on_session session (Retry lease);
          mret ((None, Some err), results)
      | (r, None) =>
          _ ← on_session session (Done lease);
          if negb (sqr_Status seqRes =? NFS4_OK) then
            mret ((None, Some (Wrapf "nfs4: SEQUENCE: %w" [] (StatusError (sqr_Status seqRes)))), results)
          else
            mret ((match r with
                   | Some r =>
                       if 0 <? cpr_NumResults r
                       then Some (mkCompoundResult (cpr_Status r) (cpr_Tag r) (cpr_NumResults r - 1))
                       else Some r
                   | None => None
                   end, None), results)
      end
  end.

(** [cfg.sleep(ctx, d)]; src/nfs4/retry.go:67-76 for [sleepCtx]. *)
Definition cfg_sleep (cfg : RetryConfig) (ctx : Context) (d : Z) : M (option error) :=
  match rc_sleep cfg with
  | Some sleepInjected => world (injected_sleep ctx d)
  | Some sleepCtx | None => world (timer ctx d)
  end.

(** What is returned once the attempts are used up.  src/nfs4/retry.go:144-147 *)
Definition exhausted (lastRes : option CompoundResult) (lastErr : option error) : CallReply :=
  match lastErr, lastRes with
  | None, Some r => (None, Status_Err (cpr_Status r))
  | _, _ => (None, lastErr)
  end.

(** The loop, with the number of attempts left; the last attempt is the one
    after which none is left.  src/nfs4/retry.go:111-147 *)
Fixpoint retry_loop (base : CallFn) (cfg : RetryConfig) (ctx : Context) (c : Compound)
    (attempts : nat) (delay : Z) (lastRes : option CompoundResult) (lastErr : option error)
    (results : list Res) : M (CallReply * list Res) :=
  match attempts with
  | O => mret (exhausted lastRes lastErr, results)
  | S attempts =>
      err ← world (ctx_Err ctx);
      match err with
      | Some err => mret ((None, match lastErr with Some lastErr => Some lastErr | None => Some err end), results)
      | None =>
          called ← base ctx c results;
          let '((r, err), results) := called in
          if negb (retriable r err) then mret ((r, err), results)
          else
            match attempts with
            | O => mret (exhausted r err, results)
            | S _ =>
                serr ← cfg_sleep cfg ctx delay;
                match serr with
                | Some serr => mret ((None, Some serr), results)
                | None =>
                    let delay := i64 (delay * 2) in
                    let delay := if rc_Max cfg <? delay then rc_Max cfg else delay in
                    retry_loop base cfg ctx c attempts delay r err results
                end
            end
      end
  end.

(** src/nfs4/retry.go:106-148 *)
Definition retryCaller_CallCompound (base : CallFn) (cfg : RetryConfig) : CallFn := fun ctx c results =>
  retry_loop base cfg ctx c (Z.to_nat (rc_MaxAttempts cfg)) (rc_Initial cfg) None None results.

(** The method call [caller.CallCompound(...)]. *)
Fixpoint CallCompound (caller : Caller) : CallFn :=
  match caller with
  | baseCaller => fun ctx c results => world (base_CallCompound ctx c results)
  | sessionCaller base s => sessionCaller_CallCompound (CallCompound base) s
  | retryCaller base cfg => retryCaller_CallCompound (CallCompound base) cfg
  end.

End monad.

Arguments St W : clear implicits.
Arguments M W A : clear implicits.
Arguments CallFn W : clear implicits.
