(* ===== verification/Conn.v ===== *)
(** * Connections (src/nfs4/conn.go, src/nfs4/conn_write.go, src/nfs4/transport.go)

    Each method issues compounds through the caller of the connection and
    inspects the compound result and the results it passed.  The connection is
    part of the state; its locks protect single fields, which the monad reads and
    writes one at a time as the code does. *)

From S2P Require Import Prelude GoError Nfs4Const GoIO Xdr Rpc RpcClient Attr Nfs4Types Nfs4Args.
From S2P Require Import Nfs4Res Compound Session Caller.

(** ** Results behind the pointers passed to a call

    [var r XRes] is the zero value; after the call the [i]-th result of the list
    is what [&r] holds (an entry keeps its kind). *)

Definition zeroGetfhRes : GetfhRes := mkGetfhRes 0 None.
Definition zeroGetattrRes : GetattrRes := mkGetattrRes 0 [] [].
Definition zeroSetclientidRes : SetclientidRes := mkSetclientidRes 0 0 (zero_array 8) [] [].
Definition zeroReadRes : ReadRes := mkReadRes 0 false [].
Definition zeroReaddirRes : ReaddirRes := mkReaddirRes 0 (zero_array 8) [] false.
Definition zeroReadlinkRes : ReadlinkRes := mkReadlinkRes 0 [].
Definition zeroStatusRes : StatusRes := mkStatusRes 0.
Definition zeroOpenRes : OpenRes := mkOpenRes 0 zeroStateid 0 [].
Definition zeroOpenConfirmRes : OpenConfirmRes := mkOpenConfirmRes 0 zeroStateid.
Definition zeroWriteRes : WriteRes := mkWriteRes 0 0 0 (zero_array 8).
Definition zeroCommitRes : CommitRes := mkCommitRes 0 (zero_array 8).
Definition zeroCloseRes : CloseRes := mkCloseRes 0 zeroStateid.
Definition zeroCreateRes : CreateRes := mkCreateRes 0 [].
Definition zeroSetattrRes : SetattrRes := mkSetattrRes 0 [].
Definition zeroExchangeIDRes : ExchangeIDRes := mkExchangeIDRes 0 0 0 0.
Definition zeroChannelAttrs : ChannelAttrs := mkChannelAttrs 0 0 0 0 0 0.
Definition zeroCreateSessionRes : CreateSessionRes :=
  mkCreateSessionRes 0 (zero_array SessionIDLen) 0 0 zeroChannelAttrs zeroChannelAttrs.

Definition as_Getfh (r : option Res) : GetfhRes := match r with Some (RGetfh r) => r | _ => zeroGetfhRes end.
Definition as_Getattr (r : option Res) : GetattrRes := match r with Some (RGetattr r) => r | _ => zeroGetattrRes end.
Definition as_Setclientid (r : option Res) : SetclientidRes :=
  match r with Some (RSetclientid r) => r | _ => zeroSetclientidRes end.
Definition as_Read (r : option Res) : ReadRes := match r with Some (RRead r) => r | _ => zeroReadRes end.
Definition as_Readdir (r : option Res) : ReaddirRes := match r with Some (RReaddir r) => r | _ => zeroReaddirRes end.
Definition as_Readlink (r : option Res) : ReadlinkRes := match r with Some (RReadlink r) => r | _ => zeroReadlinkRes end.
Definition as_Open (r : option Res) : OpenRes := match r with Some (ROpen r) => r | _ => zeroOpenRes end.
Definition as_OpenConfirm (r : option Res) : OpenConfirmRes :=
  match r with Some (ROpenConfirm r) => r | _ => zeroOpenConfirmRes end.
Definition as_Write (r : option Res) : WriteRes := match r with Some (RWrite r) => r | _ => zeroWriteRes end.
Definition as_ExchangeID (r : option Res) : ExchangeIDRes :=
  match r with Some (RExchangeID r) => r | _ => zeroExchangeIDRes end.
Definition as_CreateSession (r : option Res) : CreateSessionRes :=
  match r with Some (RCreateSession r) => r | _ => zeroCreateSessionRes end.
Definition status_at (i : nat) (rs : list Res) : Z := match rs !! i with Some r => Res_Status r | None => 0 end.

(** [r.Err()] for the result of a call that returned no error.  A nil [r] with a
    nil error, which no caller of the package returns, would be a nil
    dereference. *)
Definition r_Err (r : option CompoundResult) : option error :=
  match r with
  | Some r => CompoundResult_Err r
  | None => Some (NewError "invalid memory address or nil pointer dereference")
  end.

(** [if err != nil { return fmt.Errorf("...: %w", err) }] *)
Definition or_error (fmt : string) (args : list farg) (err : option error) : result unit :=
  match err with Some e => inl (Wrapf fmt args e) | None => inr tt end.

(** A result that is just an [error]. *)
Definition error_result (err : option error) : result unit :=
  match err with Some e => inl e | None => inr tt end.

Section conn.
Context {W : Type} `{World W}.

(** [c.caller.CallCompound(ctx, comp, results)] *)
Definition call (ctx : Context) (comp : Compound) (results : list Res) : M W (CallReply * list Res) :=
  c ← get; CallCompound (c_caller c) ctx comp results.

(** The prologue shared by the operations: a call, its error wrapped with
    [fmt], then [r.Err()]. *)
Definition checked_call (fmt : string) (args : list farg) (ctx : Context) (comp : Compound)
    (results : list Res) : M W (result (list Res)) :=
  called ← call ctx comp results;
  let '((r, err), results) := called in
  match err with
  | Some err => mret (inl (Wrapf fmt args err))
  | None =>
      match r_Err r with
      | Some err => mret (inl err)
      | None => mret (inr results)
      end
  end.

(** src/nfs4/conn.go:72-74 *)
Definition MinorVersion (c : Conn) : Z := cc_MinorVersion (c_cfg c).

(** src/nfs4/conn.go:77-81 *)
Definition Conn_Session (c : Conn) : option nat := c_session c.

(** src/nfs4/conn.go:142-146 *)
Definition Conn_ClientID (c : Conn) : Z := c_clientID c.

(** src/nfs4/conn.go:149-153 *)
Definition RootFH (c : Conn) : FileHandle := c_rootFH c.

(** src/nfs4/conn.go:156-160 *)
Definition compound (c : Conn) : Compound :=
  let cc := NewCompound [] in
  mkCompound (cp_Tag cc) (cc_MinorVersion (c_cfg c)) (cp_ops cc).

(** src/nfs4/conn.go:137-139 *)
Definition NewConn (caller : Caller) (cfg : ConnConfig) : Conn :=
  mkConn (newRetryCaller caller (cc_Retry cfg)) cfg false 0 (zero_array 8) None None 0 0.

(** Field assignments. *)
Definition set_caller (caller : Caller) (c : Conn) : Conn :=
  mkConn caller (c_cfg c) (c_rpc c) (c_clientID c) (c_confirm c) (c_rootFH c) (c_session c) (c_eirSequence c) (c_openSeqid c).
Definition set_rpc (rpc : bool) (c : Conn) : Conn :=
  mkConn (c_caller c) (c_cfg c) rpc (c_clientID c) (c_confirm c) (c_rootFH c) (c_session c) (c_eirSequence c) (c_openSeqid c).
Definition set_client (id : Z) (confirm : bytes) (c : Conn) : Conn :=
  mkConn (c_caller c) (c_cfg c) (c_rpc c) id confirm (c_rootFH c) (c_session c) (c_eirSequence c) (c_openSeqid c).
Definition set_exchanged (id seq : Z) (c : Conn) : Conn :=
  mkConn (c_caller c) (c_cfg c) (c_rpc c) id (c_confirm c) (c_rootFH c) (c_session c) seq (c_openSeqid c).
Definition set_session (caller : Caller) (s : nat) (c : Conn) : Conn :=
  mkConn caller (c_cfg c) (c_rpc c) (c_clientID c) (c_confirm c) (c_rootFH c) (Some s) (c_eirSequence c) (c_openSeqid c).
Definition set_rootFH (fh : FileHandle) (c : Conn) : Conn :=
  mkConn (c_caller c) (c_cfg c) (c_rpc c) (c_clientID c) (c_confirm c) fh (c_session c) (c_eirSequence c) (c_openSeqid c).
Definition set_openSeqid (n : Z) (c : Conn) : Conn :=
  mkConn (c_caller c) (c_cfg c) (c_rpc c) (c_clientID c) (c_confirm c) (c_rootFH c) (c_session c) (c_eirSequence c) n.

Definition modify (f : Conn -> Conn) : M W unit := c ← get; put (f c).

(** src/nfs4/conn.go:294-303 *)
Definition clientName : M W bytes :=
  c ← get;
  if negb (bool_decide (cc_ClientName (c_cfg c) = [])) then mret (cc_ClientName (c_cfg c))
  else
    host ← world os_Hostname;
    let host := match host with
                | inl _ => bstr "go-nfs-client"
                | inr host => if bool_decide (host = []) then bstr "go-nfs-client" else host
                end in
    mret (bstr "go-nfs-client/" ++ host).

(** src/nfs4/conn.go:201-224 *)
Definition exchangeID (ctx : Context) : M W (result unit) :=
  verifier ← world (rand_Read VerifierSize);
  match verifier with
  | inl err => mret (inl (Wrapf "nfs4: generating exchange-id verifier: %w" [] err))
  | inr verifier =>
      name ← clientName;
      c ← get;
      let comp := Add (AExchangeID (mkExchangeIDArgs verifier name ExchgIDFlagUseNonPNFS)) (compound c) in
      called ← call ctx comp [RExchangeID zeroExchangeIDRes];
      let '((_, err), results) := called in
      let res := as_ExchangeID (results !! 0%nat) in
      match err with
      | Some err => mret (inl (Wrapf "nfs4: EXCHANGE_ID: %w" [] err))
      | None =>
          match Status_Err (eir_Status res) with
          | Some err => mret (inl (Wrapf "nfs4: EXCHANGE_ID rejected: %w" [] err))
          | None => _ ← modify (set_exchanged (eir_ClientID res) (eir_SequenceID res)); mret (inr tt)
          end
      end
  end.

(** src/nfs4/conn.go:228-277 *)
Definition createSession (ctx : Context) : M W (result unit) :=
  c ← get;
  let clientID := c_clientID c in
  let seq := c_eirSequence c in
  let chan_ := mkChannelAttrs 0 (Z.shiftl 1 20) (Z.shiftl 1 20) (Z.shiftl 1 16) 16 DefaultSlotCount in
  let args := mkCreateSessionArgs clientID seq 0 chan_ chan_ 0 in
  let comp := Add (ACreateSession args) (compound c) in
  called ← call ctx comp [RCreateSession zeroCreateSessionRes];
  let '((_, err), results) := called in
  let res := as_CreateSession (results !! 0%nat) in
  match err with
  | Some err => mret (inl (Wrapf "nfs4: CREATE_SESSION: %w" [] err))
  | None =>
      match Status_Err (csr_Status res) with
      | Some err => mret (inl (Wrapf "nfs4: CREATE_SESSION rejected: %w" [] err))
      | None =>
          let slotCount := ca_MaxRequests (csr_ForeChan res) in
          let slotCount := if slotCount <? 1 then 1 else slotCount in
          sess ← alloc_session (NewSession (csr_SessionID res) slotCount);
          c ← get;
          let caller := match c_caller c with
                        | retryCaller base cfg => retryCaller (newSessionCaller base sess) cfg
                        | caller => newSessionCaller caller sess
                        end in
          _ ← put (set_session caller sess c);
          mret (inr tt)
      end
  end.

(** src/nfs4/conn.go:280-291 *)
Definition reclaimComplete (ctx : Context) : M W (result unit) :=
  c ← get;
  let comp := Add (AReclaimComplete (mkReclaimCompleteArgs false)) (compound c) in
  called ← call ctx comp [RReclaimComplete (mkReclaimCompleteRes 0)];
  let '((_, err), results) := called in
  match err with
  | Some err => mret (inl (Wrapf "nfs4: RECLAIM_COMPLETE: %w" [] err))
  | None =>
      let status := status_at 0 results in
      if negb (status =? NFS4_OK) && negb (status =? NFS4ERR_COMPLETE_ALREADY) then
        mret (inl (Wrapf "nfs4: RECLAIM_COMPLETE rejected: %w" [] (StatusError status)))
      else mret (inr tt)
  end.

(** src/nfs4/conn.go:307-335 *)
Definition setClientID (ctx : Context) : M W (result unit) :=
  verifier ← world (rand_Read 8);
  match verifier with
  | inl err => mret (inl (Wrapf "nfs4: generating clientid verifier: %w" [] err))
  | inr verifier =>
      name ← clientName;
      c ← get;
      let args := mkSetclientidArgs verifier name 0 (bstr "tcp") (bstr "0.0.0.0.0.0") 0 in
      let comp := Add (ASetclientid args) (compound c) in
      called ← call ctx comp [RSetclientid zeroSetclientidRes];
      let '((_, err), results) := called in
      let res := as_Setclientid (results !! 0%nat) in
      match err with
      | Some err => mret (inl (Wrapf "nfs4: SETCLIENTID: %w" [] err))
      | None =>
          match Status_Err (scr_Status res) with
          | Some err => mret (inl (Wrapf "nfs4: SETCLIENTID rejected: %w" [] err))
          | None => _ ← modify (set_client (scr_ClientID res) (scr_Confirm res)); mret (inr tt)
          end
      end
  end.

(** src/nfs4/conn.go:338-352 *)
Definition confirmClientID (ctx : Context) : M W (result unit) :=
  c ← get;
  let comp := Add (ASetclientidConfirm (mkSetclientidConfirmArgs (c_clientID c) (c_confirm c))) (compound c) in
  called ← call ctx comp [RStatus zeroStatusRes];
  let '((_, err), results) := called in
  match err with
  | Some err => mret (inl (Wrapf "nfs4: SETCLIENTID_CONFIRM: %w" [] err))
  | None => mret (or_error "nfs4: SETCLIENTID_CONFIRM rejected: %w" [] (Status_Err (status_at 0 results)))
  end.

(** src/nfs4/conn.go:355-373 *)
Definition fetchRootFH (ctx : Context) : M W (result unit) :=
  c ← get;
  let comp := Add AGetfh (Add APutrootfh (compound c)) in
  called ← call ctx comp [RStatus zeroStatusRes; RGetfh zeroGetfhRes];
  let '((r, err), results) := called in
  let getRes := as_Getfh (results !! 1%nat) in
  match err with
  | Some err => mret (inl (Wrapf "nfs4: PUTROOTFH/GETFH: %w" [] err))
  | None =>
      match r_Err r with
      | Some err => mret (inl (Wrapf "nfs4: fetching root filehandle: %w" [] err))
      | None =>
          if negb (gfr_Status getRes =? NFS4_OK) then
            mret (inl (Wrapf "nfs4: GETFH on root: %w" [] (StatusError (gfr_Status getRes))))
          else _ ← modify (set_rootFH (gfr_FH getRes)); mret (inr tt)
      end
  end.

(** [if err := m(ctx); err != nil { return err }; ...] *)
Definition and_then (m k : M W (result unit)) : M W (result unit) :=
  r ← m; match r with inl err => mret (inl err) | inr _ => k end.

(** src/nfs4/conn.go:185-198 *)
Definition mountV41 (ctx : Context) : M W (result unit) :=
  and_then (exchangeID ctx)
    (and_then (createSession ctx)
      (and_then (reclaimComplete ctx)
        (fetchRootFH ctx))).

(** src/nfs4/conn.go:168-179 *)
Definition Mount (ctx : Context) : M W (result unit) :=
  c ← get;
  if MinorV41 <=? cc_MinorVersion (c_cfg c) then mountV41 ctx
  else
    and_then (setClientID ctx)
      (and_then (confirmClientID ctx)
        (fetchRootFH ctx)).

(** src/nfs4/conn.go:102-130 *)
Definition teardownSession : M W unit :=
  c ← get;
  match c_session c with
  | None => mret tt
  | Some sess =>
      let base := c_caller c in
      let base := match base with retryCaller b _ => b | b => b end in
      let base := match base with sessionCaller b _ => b | b => b end in
      id ← on_session sess (fun s => Some (Session_ID s, s));
      _ ← CallCompound base Background (Add (ADestroySession (mkDestroySessionArgs id)) (compound c))
            [RDestroySession (mkDestroySessionRes 0)];
      _ ← CallCompound base Background (Add (ADestroyClientID (mkDestroyClientIDArgs (c_clientID c))) (compound c))
            [RDestroyClientID (mkDestroyClientIDRes 0)];
      mret tt
  end.

(** src/nfs4/conn.go:91-97 *)
Definition Conn_Close : M W (option error) :=
  _ ← teardownSession;
  c ← get;
  if c_rpc c then world rpc_CloseW else mret None.

(** ** Operations *)

(** [if res.Status != NFS4_OK { return res.Status.Err() }] *)
Definition with_ok {A} (status : Z) (a : A) : result A :=
  if negb (status =? NFS4_OK) then inl (StatusError status) else inr a.

(** The shape of every operation: a checked call whose results [k] turns into
    the operation's result. *)
Definition operation {A} (fmt : string) (args : list farg) (ctx : Context) (comp : Compound)
    (results : list Res) (k : list Res -> result A) : M W (result A) :=
  r ← checked_call fmt args ctx comp results;
  mret (match r with inl err => inl err | inr results => k results end).

(** src/nfs4/conn.go:378-396 *)
Definition Lookup (ctx : Context) (dir : FileHandle) (name : bytes) : M W (result FileHandle) :=
  c ← get;
  operation "nfs4: LOOKUP %q: %w" [Fs name] ctx
    (Add AGetfh (Add (ALookup (mkLookupArgs name)) (Add (APutfh (mkPutfhArgs (fh_bytes dir))) (compound c))))
    [RStatus zeroStatusRes; RStatus zeroStatusRes; RGetfh zeroGetfhRes]
    (fun results =>
      let getRes := as_Getfh (results !! 2%nat) in
      with_ok (gfr_Status getRes) (gfr_FH getRes)).

(** src/nfs4/conn.go:400-417 *)
Definition GetAttr (ctx : Context) (fh : FileHandle) (mask : list Z) : M W (result (list Z * bytes)) :=
  c ← get;
  operation "nfs4: GETATTR: %w" [] ctx
    (Add (AGetattr (mkGetattrArgs mask)) (Add (APutfh (mkPutfhArgs (fh_bytes fh))) (compound c)))
    [RStatus zeroStatusRes; RGetattr zeroGetattrRes]
    (fun results =>
      let getRes := as_Getattr (results !! 1%nat) in
      with_ok (gar_Status getRes) (gar_AttrMask getRes, gar_AttrVals getRes)).

(** src/nfs4/conn.go:421-421 *)
Definition AnonStateid : Stateid := zeroStateid.

(** src/nfs4/conn.go:425-442 *)
Definition Read (ctx : Context) (fh : FileHandle) (offset count : Z) : M W (result (bytes * bool)) :=
  c ← get;
  operation "nfs4: READ: %w" [] ctx
    (Add (ARead (mkReadArgs AnonStateid offset count)) (Add (APutfh (mkPutfhArgs (fh_bytes fh))) (compound c)))
    [RStatus zeroStatusRes; RRead zeroReadRes]
    (fun results =>
      let readRes := as_Read (results !! 1%nat) in
      with_ok (rdr_Status readRes) (rdr_Data readRes, rdr_EOF readRes)).

(** src/nfs4/conn.go:446-471 *)
Definition Readdir (ctx : Context) (dir : FileHandle) (cookie : Z) (cookieverf : bytes) (attrMask : list Z)
    : M W (result ReaddirRes) :=
  c ← get;
  let dircount := 8192 in
  let maxcount := 65536 in
  operation "nfs4: READDIR: %w" [] ctx
    (Add (AReaddir (mkReaddirArgs cookie cookieverf dircount maxcount attrMask))
      (Add (APutfh (mkPutfhArgs (fh_bytes dir))) (compound c)))
    [RStatus zeroStatusRes; RReaddir zeroReaddirRes]
    (fun results =>
      let ddRes := as_Readdir (results !! 1%nat) in
      with_ok (rddr_Status ddRes) ddRes).

(** src/nfs4/conn.go:474-482 *)
Definition Renew (ctx : Context) : M W (result unit) :=
  c ← get;
  called ← call ctx (Add (ARenew (mkRenewArgs (Conn_ClientID c))) (compound c)) [RStatus zeroStatusRes];
  let '((_, err), results) := called in
  match err with
  | Some err => mret (inl (Wrapf "nfs4: RENEW: %w" [] err))
  | None => mret (error_result (Status_Err (status_at 0 results)))
  end.

(** src/nfs4/conn.go:485-502 *)
Definition Readlink (ctx : Context) (fh : FileHandle) : M W (result bytes) :=
  c ← get;
  operation "nfs4: READLINK: %w" [] ctx
    (Add AReadlink (Add (APutfh (mkPutfhArgs (fh_bytes fh))) (compound c)))
    [RStatus zeroStatusRes; RReadlink zeroReadlinkRes]
    (fun results =>
      let rlRes := as_Readlink (results !! 1%nat) in
      with_ok (rlr_Status rlRes) (rlr_Link rlRes)).

(** The loop of [LookupPath].  src/nfs4/conn.go:511-520 *)
Fixpoint LookupPath_loop (ctx : Context) (cur : FileHandle) (components : list bytes)
    : M W (result FileHandle) :=
  match components with
  | [] => mret (inr cur)
  | comp :: components =>
      if bool_decide (comp = []) || bool_decide (comp = bstr ".") then LookupPath_loop ctx cur components
      else
        fh ← Lookup ctx cur comp;
        match fh with
        | inl err => mret (inl err)
        | inr fh => LookupPath_loop ctx fh components
        end
  end.

(** src/nfs4/conn.go:506-522 *)
Definition LookupPath (ctx : Context) (components : list bytes) : M W (result FileHandle) :=
  c ← get;
  match RootFH c with
  | None => mret (inl (Errorf "nfs4: not mounted (no root filehandle)" []))
  | Some fh => LookupPath_loop ctx (Some fh) components
  end.

(** *** conn_write.go *)

(** src/nfs4/conn_write.go:32-35 *)
Record OpenResult := mkOpenResult { or_FH : FileHandle; or_Stateid : Stateid }.

(** src/nfs4/conn_write.go:38-40 *)
Definition nextSeqid : M W Z :=
  c ← get;
  let n := u32 (c_openSeqid c + 1) in
  _ ← put (set_openSeqid n c);
  mret n.

(** src/nfs4/conn_write.go:43-46 *)
Definition ownerID (c : Conn) : bytes := bstr ("go-nfs-owner-" +:+ pretty (Conn_ClientID c)).

(** src/nfs4/conn_write.go:105-122 *)
Definition openConfirm (ctx : Context) (fh : FileHandle) (sid : Stateid) : M W (result Stateid) :=
  seqid ← nextSeqid;
  c ← get;
  operation "nfs4: OPEN_CONFIRM: %w" [] ctx
    (Add (AOpenConfirm (mkOpenConfirmArgs sid seqid)) (Add (APutfh (mkPutfhArgs (fh_bytes fh))) (compound c)))
    [RStatus zeroStatusRes; ROpenConfirm zeroOpenConfirmRes]
    (fun results =>
      let ocRes := as_OpenConfirm (results !! 1%nat) in
      with_ok (ocr_Status ocRes) (ocr_Stateid ocRes)).

(** src/nfs4/conn_write.go:52-102 *)
Definition Open (ctx : Context) (dir : FileHandle) (name : bytes) (share : Z) (createAttrMask : list Z)
    (createAttrVals : bytes) (doCreate excl : bool) : M W (result OpenResult) :=
  seqid ← nextSeqid;
  c ← get;
  let args :=
    if doCreate then
      mkOpenArgs seqid share OpenShareDenyNone (Conn_ClientID c) (ownerID c) Open4Create
        (if excl then CreateGuarded else CreateUnchecked) createAttrMask createAttrVals (zero_array 8) name
    else
      mkOpenArgs seqid share OpenShareDenyNone (Conn_ClientID c) (ownerID c) Open4NoCreate
        0 [] [] (zero_array 8) name in
  opened ← operation "nfs4: OPEN: %w" [] ctx
    (Add AGetfh (Add (AOpen args) (Add (APutfh (mkPutfhArgs (fh_bytes dir))) (compound c))))
    [RStatus zeroStatusRes; ROpen zeroOpenRes; RGetfh zeroGetfhRes]
    (fun results =>
      let openRes := as_Open (results !! 1%nat) in
      with_ok (opr_Status openRes) (openRes, gfr_FH (as_Getfh (results !! 2%nat))));
  match opened with
  | inl err => mret (inl err)
  | inr (openRes, fh) =>
      if NeedsConfirm openRes then
        confirmed ← openConfirm ctx fh (opr_Stateid openRes);
        mret (match confirmed with
              | inl err => inl err
              | inr sid => inr (mkOpenResult fh sid)
              end)
      else mret (inr (mkOpenResult fh (opr_Stateid openRes)))
  end.

(** src/nfs4/conn_write.go:127-144 *)
Definition Conn_Write (ctx : Context) (fh : FileHandle) (sid : Stateid) (offset : Z) (data : bytes) (stable : Z)
    : M W (result (Z * Z)) :=
  c ← get;
  operation "nfs4: WRITE: %w" [] ctx
    (Add (AWrite (mkWriteArgs sid offset stable data)) (Add (APutfh (mkPutfhArgs (fh_bytes fh))) (compound c)))
    [RStatus zeroStatusRes; RWrite zeroWriteRes]
    (fun results =>
      let wRes := as_Write (results !! 1%nat) in
      with_ok (wrr_Status wRes) (wrr_Count wRes, wrr_Committed wRes)).

(** src/nfs4/conn_write.go:147-161 *)
Definition Conn_Commit (ctx : Context) (fh : FileHandle) (offset count : Z) : M W (result unit) :=
  c ← get;
  operation "nfs4: COMMIT: %w" [] ctx
    (Add (ACommit (mkCommitArgs offset count)) (Add (APutfh (mkPutfhArgs (fh_bytes fh))) (compound c)))
    [RStatus zeroStatusRes; RCommit zeroCommitRes]
    (fun results => error_result (Status_Err (status_at 1 results))).

(** src/nfs4/conn_write.go:165-179 *)
Definition CloseFile (ctx : Context) (fh : FileHandle) (sid : Stateid) : M W (result unit) :=
  seqid ← nextSeqid;
  c ← get;
  operation "nfs4: CLOSE: %w" [] ctx
    (Add (AClose (mkCloseArgs seqid sid)) (Add (APutfh (mkPutfhArgs (fh_bytes fh))) (compound c)))
    [RStatus zeroStatusRes; RClose zeroCloseRes]
    (fun results => error_result (Status_Err (status_at 1 results))).

(** src/nfs4/conn_write.go:193-212 *)
Definition create (ctx : Context) (dir : FileHandle) (args : CreateArgs) : M W (result FileHandle) :=
  c ← get;
  operation "nfs4: CREATE: %w" [] ctx
    (Add AGetfh (Add (ACreate args) (Add (APutfh (mkPutfhArgs (fh_bytes dir))) (compound c))))
    [RStatus zeroStatusRes; RCreate zeroCreateRes; RGetfh zeroGetfhRes]
    (fun results => with_ok (status_at 1 results) (gfr_FH (as_Getfh (results !! 2%nat)))).

(** src/nfs4/conn_write.go:183-185 *)
Definition Conn_Mkdir (ctx : Context) (dir : FileHandle) (name : bytes) (attrMask : list Z) (attrVals : bytes)
    : M W (result FileHandle) :=
  create ctx dir (mkCreateArgs 2 [] name attrMask attrVals).

(** src/nfs4/conn_write.go:188-190 *)
Definition Conn_Symlink (ctx : Context) (dir : FileHandle) (name target : bytes) (attrMask : list Z)
    (attrVals : bytes) : M W (result FileHandle) :=
  create ctx dir (mkCreateArgs 5 target name attrMask attrVals).

(** src/nfs4/conn_write.go:215-229 *)
Definition Conn_Remove (ctx : Context) (dir : FileHandle) (name : bytes) : M W (result unit) :=
  c ← get;
  operation "nfs4: REMOVE: %w" [] ctx
    (Add (ARemove (mkRemoveArgs name)) (Add (APutfh (mkPutfhArgs (fh_bytes dir))) (compound c)))
    [RStatus zeroStatusRes; RRemove (mkRemoveRes 0)]
    (fun results => error_result (Status_Err (status_at 1 results))).

(** src/nfs4/conn_write.go:233-249 *)
Definition Conn_Rename (ctx : Context) (srcDir : FileHandle) (oldName : bytes) (dstDir : FileHandle)
    (newName : bytes) : M W (result unit) :=
  c ← get;
  operation "nfs4: RENAME: %w" [] ctx
    (Add (ARename (mkRenameArgs oldName newName))
      (Add (APutfh (mkPutfhArgs (fh_bytes dstDir)))
        (Add ASavefh (Add (APutfh (mkPutfhArgs (fh_bytes srcDir))) (compound c)))))
    [RStatus zeroStatusRes; RStatus zeroStatusRes; RStatus zeroStatusRes; RRename (mkRenameRes 0)]
    (fun results => error_result (Status_Err (status_at 3 results))).

(** src/nfs4/conn_write.go:252-268 *)
Definition Conn_Link (ctx : Context) (src dstDir : FileHandle) (newName : bytes) : M W (result unit) :=
  c ← get;
  operation "nfs4: LINK: %w" [] ctx
    (Add (ALink (mkLinkArgs newName))
      (Add (APutfh (mkPutfhArgs (fh_bytes dstDir)))
        (Add ASavefh (Add (APutfh (mkPutfhArgs (fh_bytes src))) (compound c)))))
    [RStatus zeroStatusRes; RStatus zeroStatusRes; RStatus zeroStatusRes; RLink (mkLinkRes 0)]
    (fun results => error_result (Status_Err (status_at 3 results))).

(** src/nfs4/conn_write.go:272-286 *)
Definition SetAttr (ctx : Context) (fh : FileHandle) (sid : Stateid) (attrMask : list Z) (attrVals : bytes)
    : M W (result unit) :=
  c ← get;
  operation "nfs4: SETATTR: %w" [] ctx
    (Add (ASetattr (mkSetattrArgs sid attrMask attrVals)) (Add (APutfh (mkPutfhArgs (fh_bytes fh))) (compound c)))
    [RStatus zeroStatusRes; RSetattr zeroSetattrRes]
    (fun results => error_result (Status_Err (status_at 1 results))).

(** ** Dialling (src/nfs4/transport.go) *)

(** src/nfs4/transport.go:40-52 *)
Definition Dial (ctx : Context) (address : bytes) (cred : OpaqueAuth) (cfg : ConnConfig) : M W (result unit) :=
  dialled ← world (rpc_DialW ctx address cred);
  match dialled with
  | Some err => mret (inl err)
  | None =>
      _ ← put (NewConn baseCaller cfg);
      mounted ← Mount ctx;
      match mounted with
      | inl err => _ ← world rpc_CloseW; mret (inl err)
      | inr _ => _ ← modify (set_rpc true); mret (inr tt)
      end
  end.

(** [v := cfg; v.MinorVersion = minor] *)
Definition with_minor (minor : Z) (cfg : ConnConfig) : ConnConfig :=
  mkConnConfig (cc_ClientName cfg) minor (cc_Retry cfg).

(** src/nfs4/transport.go:59-72 *)
Definition DialAuto (ctx : Context) (address : bytes) (cred : OpaqueAuth) (cfg : ConnConfig) : M W (result unit) :=
  dialled ← Dial ctx address cred (with_minor MinorV41 cfg);
  match dialled with
  | inr _ => mret (inr tt)
  | inl err =>
      if negb (isMinorVersionFallback err) then mret (inl err)
      else Dial ctx address cred (with_minor MinorV40 cfg)
  end.

End conn.
