(* ===== verification/CallerCorrect.v ===== *)
(** * Compound callers: theorems *)

From S2P Require Import Prelude GoError Nfs4Const GoIO Xdr XdrSpec Rpc RpcCorrect RpcClient.
From S2P Require Import RpcClientCorrect Attr Nfs4Types Nfs4Args Nfs4Res Compound Nfs4Spec.
From S2P Require Import Nfs4ResSpec CompoundCorrect Session Caller.

(** ** The RPC caller, end to end *)

(** From compound to bytes and back.  An [RPCCaller] on a healthy
    connection sends one record, a call of NFS version 4, procedure COMPOUND,
    whose arguments are the encoding of the compound; when the server's reply
    to that call carries the answers to the first operations, in any fragments
    and segments, the caller returns the server's status, tag and count, and
    the results hold exactly what the server sent for each operation. *)
Theorem rpc_compound (c : Compound) (rs1 rs2 : list Res) (status : Z) (tag : bytes) (rops : list Resop)
    (cl : Client) (verf : OpaqueAuth) (ps : list bytes) (p junk more out : bytes)
    (Hs : is_u32 status) (Ht : fits tag) (Hn : blen rops < 2 ^ 32) (Hrops : Forall2 resop_ok rs1 rops)
    (Hverf : auth_ok verf) (Hout : nc_out (cl_conn cl) = mkWriter out None)
    (Hreq : blen (request cl Program Version4 ProcCompound (wire_compound c)) < 2 ^ 31)
    (Hfrags : Forall frag_ok ps) (Hlast : frag_ok p) (Hsize : blen (concat ps ++ p) <= maxMessageSize)
    (Hin : rbytes (nc_in (cl_conn cl)) = wire_record ps p ++ more)
    (Hreply : concat ps ++ p
              = wire_reply (mkReplyHeader (allocXID cl).1 MsgAccepted verf AcceptSuccess 0 0 0 0)
                ++ wire_compound_res status tag rops ++ junk) :
  exists cl', RPCCaller_CallCompound live c (rs1 ++ rs2) cl
      = ((Some (mkCompoundResult status tag (blen rops)), None), results_after (rs1 ++ rs2) rops, cl')
    /\ nc_out (cl_conn cl')
       = mkWriter (out ++ wire_record [] (request cl Program Version4 ProcCompound (wire_compound c))) None
    /\ rbytes (nc_in (cl_conn cl')) = more.
Proof.
  destruct (Call_run cl Program Version4 ProcCompound (Compound_Encode c) (DecodeCompound (rs1 ++ rs2))
    (wire_compound c) (wire_compound_res status tag rops) junk _ verf ps p more out
    (emits_compound c) (parses_compound_res rs1 rs2 status tag rops Hs Ht Hn Hrops))
    as (cl' & E & Hm & Ho & _); try done.
  exists cl'. unfold RPCCaller_CallCompound. rewrite E.
  by rewrite results_after_app by (by eapply Forall2_length).
Qed.

Definition sample_reply : bytes :=
  wire_reply (mkReplyHeader 8 MsgAccepted AuthNull AcceptSuccess 0 0 0 0)
  ++ wire_compound_res NFS4_OK [] [(OpPutrootfh, PVoid); (OpGetfh, PGetfh [x07])].

Definition sample_rpc : Client :=
  mkClient (mkNetConn [Data (wire_record [] sample_reply)] (mkWriter [] None))
    (mkClientOptions AuthNull AuthNull) 7.

Lemma rpc_compound_witness :
  exists cl', RPCCaller_CallCompound live (Add AGetfh (Add APutrootfh (NewCompound [])))
      [RStatus (mkStatusRes 0); RGetfh (mkGetfhRes 0 None)] sample_rpc
    = ((Some (mkCompoundResult NFS4_OK [] 2), None),
       [RStatus (mkStatusRes 0); RGetfh (mkGetfhRes 0 (Some [x07]))], cl').
Proof.
  destruct (rpc_compound (Add AGetfh (Add APutrootfh (NewCompound [])))
    [RStatus (mkStatusRes 0); RGetfh (mkGetfhRes 0 None)] [] NFS4_OK []
    [(OpPutrootfh, PVoid); (OpGetfh, PGetfh [x07])] sample_rpc AuthNull [] sample_reply [] [] [])
    as (cl' & E & _);
    [decide_wf|decide_wf|reflexivity| |decide_wf|reflexivity|vm_compute; reflexivity|constructor
    |decide_wf|decide_wf|vm_compute; reflexivity|vm_compute; reflexivity|].
  - repeat constructor; try decide_wf; right; reflexivity.
  - exists cl'. exact E.
Defined.

(** ** A scripted world

    The base caller answers from a list and everything else goes well: enough to
    run the definitions, and to say which compounds were sent and which delays
    were slept. *)

Record Script := mkScript {
  sc_replies : list (CallReply * list Resop);
  sc_ctxs : list (option error);             (* what ctx.Err() says, then nil *)
  sc_sent : list Compound;
  sc_slept : list Z
}.

#[global] Instance scripted : World Script := {|
  ctx_Err _ w := match sc_ctxs w with
                 | [] => (None, w)
                 | e :: es => (e, mkScript (sc_replies w) es (sc_sent w) (sc_slept w))
                 end;
  ctx_Done _ w := (None, w);
  timer _ d w := (None, mkScript (sc_replies w) (sc_ctxs w) (sc_sent w) (sc_slept w ++ [d]));
  injected_sleep _ d w := (None, mkScript (sc_replies w) (sc_ctxs w) (sc_sent w) (sc_slept w ++ [d]));
  base_CallCompound _ c results w :=
    match sc_replies w with
    | [] => ((None, Some EOF), results, mkScript [] (sc_ctxs w) (sc_sent w ++ [c]) (sc_slept w))
    | (r, ps) :: t => (r, results_after results ps, mkScript t (sc_ctxs w) (sc_sent w ++ [c]) (sc_slept w))
    end;
  rpc_DialW _ _ _ w := (None, w);
  rpc_CloseW w := (None, w);
  rand_Read n w := (inr (zero_array n), w);
  os_Hostname w := (inr (bstr "host"), w)
|}.

(** ** Retries *)

(** The delay before attempt [i + 1]. *)
Fixpoint backoff (cfg : RetryConfig) (i : nat) : Z :=
  match i with
  | O => rc_Initial cfg
  | S i => let d := i64 (backoff cfg i * 2) in if rc_Max cfg <? d then rc_Max cfg else d
  end.

Section retry.
Context {W : Type} `{World W} (base : CallFn W) (cfg : RetryConfig) (ctx : Context) (c : Compound).
(* what attempt [i] finds and gives *)
Context (st : nat -> St W) (rs : nat -> list Res) (rep : nat -> CallReply).

(** Attempt [i] is made and answered. *)
Definition attempted (i : nat) (after : St W) : Prop :=
  exists st1, world (ctx_Err ctx) (st i) = Some (None, st1)
    /\ base ctx c (rs i) st1 = Some ((rep i, rs (S i)), after).

(** Attempt [i] is answered with a retriable status and slept off. *)
Definition retried (i : nat) : Prop :=
  exists after, attempted i after /\ retriable (rep i).1 (rep i).2 = true
    /\ cfg_sleep cfg ctx (backoff cfg i) after = Some (None, st (S i)).

Definition last_reply (i : nat) : CallReply := match i with O => (None, None) | S i => rep i end.

Definition loop_at (attempts i : nat) : option (CallReply * list Res * St W) :=
  retry_loop base cfg ctx c attempts (backoff cfg i) (last_reply i).1 (last_reply i).2 (rs i) (st i).

Lemma M_bind_Some {A B} (m : M W A) (k : A -> M W B) s a s' : m s = Some (a, s') -> (m ≫= k) s = k a s'.
Proof. intros E. unfold mbind, M_bind. by rewrite E. Qed.

Lemma loop_skip n : forall i attempts, (n < attempts)%nat ->
  (forall j, (i <= j < i + n)%nat -> retried j) -> loop_at attempts i = loop_at (attempts - n) (i + n).
Proof.
  induction n as [|n IH]; intros i attempts Hn Hr; [by rewrite Nat.sub_0_r, Nat.add_0_r|].
  destruct attempts as [|attempts]; [lia|].
  destruct (Hr i ltac:(lia)) as (after & (st1 & E1 & E2) & Hre & Es).
  rewrite <- Nat.add_succ_comm. change (S attempts - S n)%nat with (attempts - n)%nat.
  rewrite <- IH by (lia || (intros; apply Hr; lia)). unfold loop_at at 1. cbn [retry_loop].
  rewrite (M_bind_Some _ _ _ _ _ E1). cbn beta iota. rewrite (M_bind_Some _ _ _ _ _ E2). cbn beta iota.
  destruct (rep i) as [r e] eqn:Er. cbn [fst snd] in Hre. rewrite Hre. cbn [negb].
  destruct attempts as [|attempts]; [lia|]. rewrite (M_bind_Some _ _ _ _ _ Es). cbn beta iota zeta.
  unfold loop_at. cbn [last_reply backoff]. by rewrite Er.
Qed.

(** The call, once [k] attempts have been slept off and attempt [k] is made. *)
Lemma retry_reaches k : Z.of_nat k < rc_MaxAttempts cfg -> (forall j, (j < k)%nat -> retried j) ->
  retryCaller_CallCompound base cfg ctx c (rs O) (st O)
  = loop_at (S (Z.to_nat (rc_MaxAttempts cfg) - k - 1)) k.
Proof.
  intros Hk Hr. change (retryCaller_CallCompound base cfg ctx c (rs O) (st O))
    with (loop_at (Z.to_nat (rc_MaxAttempts cfg)) 0).
  rewrite (loop_skip k 0) by (lia || (intros; apply Hr; lia)). f_equal. lia.
Qed.

Lemma loop_attempt m k after : attempted k after ->
  loop_at (S m) k
  = (if negb (retriable (rep k).1 (rep k).2) then mret (rep k, rs (S k))
     else match m with
          | O => mret (exhausted (rep k).1 (rep k).2, rs (S k))
          | S _ => serr ← cfg_sleep cfg ctx (backoff cfg k);
              match serr with
              | Some serr => mret ((None, Some serr), rs (S k))
              | None => let delay := i64 (backoff cfg k * 2) in
                  let delay := if rc_Max cfg <? delay then rc_Max cfg else delay in
                  retry_loop base cfg ctx c m delay (rep k).1 (rep k).2 (rs (S k))
              end
          end : M W (CallReply * list Res)) after.
Proof.
  intros (st1 & E1 & E2). unfold loop_at. cbn [retry_loop]. rewrite (M_bind_Some _ _ _ _ _ E1). cbn beta iota.
  rewrite (M_bind_Some _ _ _ _ _ E2). cbn beta iota. by destruct (rep k).
Qed.

(** The error that stands for a retriable reply. *)
Definition retriable_error (r : CallReply) : option error :=
  match r with
  | (Some r, None) => Status_Err (cpr_Status r)
  | (_, e) => e
  end.

Lemma exhausted_retriable r : exhausted r.1 r.2 = (None, retriable_error r).
Proof. by destruct r as [[?|] [?|]]. Qed.

Lemma retriable_error_Some r : retriable r.1 r.2 = true -> exists e, retriable_error r = Some e.
Proof.
  destruct r as [[r|] [e|]]; cbn [fst snd retriable_error]; [by eauto| |by eauto|done].
  unfold retriable. rewrite orb_false_r. unfold isRetriableStatus. intros Hs.
  exists (StatusError (cpr_Status r)). unfold Status_Err.
  apply orb_true_iff in Hs as [->%Z.eqb_eq| ->%Z.eqb_eq]; done.
Qed.
End retry.

(** C37.  Retrying.  Suppose the first [k] attempts, fewer than [MaxAttempts],
    are all answered with DELAY or GRACE and slept off.  Then the call does
    what attempt [k] makes of it: an answer that is not retriable is returned
    as it is, with its results; a retriable one that was the last allowed is
    returned as a non-nil error, never as a result; a context found done before
    the attempt ends the call with the last error, or the context's when there
    is none, without another request; and so does a context that ends while
    sleeping. *)
Theorem retry_outcome {W : Type} `{World W} (base : CallFn W) (cfg : RetryConfig) (ctx : Context) (c : Compound)
    (st : nat -> St W) (rs : nat -> list Res) (rep : nat -> CallReply) (k : nat)
    (Hk : Z.of_nat k < rc_MaxAttempts cfg)
    (Hretried : forall j, (j < k)%nat -> retried base cfg ctx c st rs rep j) :
  let run := retryCaller_CallCompound base cfg ctx c (rs O) (st O) in
  (forall after, attempted base ctx c st rs rep k after -> retriable (rep k).1 (rep k).2 = false ->
     run = Some ((rep k, rs (S k)), after)) /\
  (forall after, attempted base ctx c st rs rep k after -> retriable (rep k).1 (rep k).2 = true ->
     Z.of_nat (S k) = rc_MaxAttempts cfg ->
     exists e, retriable_error (rep k) = Some e /\ run = Some ((None, Some e, rs (S k)), after)) /\
  (forall err st1, world (ctx_Err ctx) (st k) = Some (Some err, st1) ->
     run = Some ((None, Some (default err (last_reply rep k).2), rs k), st1)) /\
  (forall after serr st1, attempted base ctx c st rs rep k after -> retriable (rep k).1 (rep k).2 = true ->
     Z.of_nat (S k) < rc_MaxAttempts cfg -> cfg_sleep cfg ctx (backoff cfg k) after = Some (Some serr, st1) ->
     run = Some ((None, Some serr, rs (S k)), st1)).
Proof.
  intros run. pose proof (retry_reaches base cfg ctx c st rs rep k Hk Hretried) as Erun. fold run in Erun.
  remember (Z.to_nat (rc_MaxAttempts cfg) - k - 1)%nat as m eqn:Em.
  assert (Hat := fun after Ha => eq_trans Erun (loop_attempt base cfg ctx c st rs rep m k after Ha)).
  split_and!.
  - intros after Ha Hr. rewrite (Hat after Ha), Hr. done.
  - intros after Ha Hr Hm. rewrite (Hat after Ha), Hr, exhausted_retriable. cbn [negb].
    destruct (retriable_error_Some _ Hr) as [e Ee]. exists e. rewrite Ee.
    assert (m = O) as -> by lia. done.
  - intros err st1 E1. rewrite Erun. unfold loop_at. cbn [retry_loop]. rewrite (M_bind_Some _ _ _ _ _ E1). cbn beta iota.
    by destruct (last_reply rep k).2.
  - intros after serr st1 Ha Hr Hm Es. rewrite (Hat after Ha), Hr. cbn [negb].
    destruct m as [|m]; [lia|]. by rewrite (M_bind_Some _ _ _ _ _ Es).
Qed.

(** A connection for the witnesses, and two scripted attempts: DELAY, then OK. *)
Definition idle_conn (caller : Caller) : Conn :=
  mkConn caller (mkConnConfig [] 0 (mkRetryConfig 0 0 0 None)) false 0 [] None None 0 0.

Definition sample_cfg : RetryConfig := withDefaults (mkRetryConfig 10 15 3 None).
Definition delay_reply : CallReply := (Some (mkCompoundResult NFS4ERR_DELAY [] 1), None).
Definition ok_reply : CallReply := (Some (mkCompoundResult NFS4_OK [] 1), None).

Definition sample_st (i : nat) : St Script :=
  mkSt match i with
       | O => mkScript [(delay_reply, []); (ok_reply, [])] [] [] []
       | _ => mkScript [(ok_reply, [])] [] [NewCompound []] [10]
       end [] (idle_conn baseCaller).

Lemma retry_outcome_witness :
  retryCaller_CallCompound (CallCompound baseCaller) sample_cfg (Ctx 0) (NewCompound []) [] (sample_st 0)
  = Some ((ok_reply, []), mkSt (mkScript [] [] [NewCompound []; NewCompound []] [10]) [] (idle_conn baseCaller)).
Proof.
  refine (proj1 (retry_outcome (CallCompound baseCaller) sample_cfg (Ctx 0) (NewCompound [])
    sample_st (fun _ => []) (fun i => match i with O => delay_reply | _ => ok_reply end) 1 _ _) _ _ _).
  - reflexivity.
  - intros [|j] Hj; [|lia]. eexists. split; [eexists; split; reflexivity|]. split; reflexivity.
  - eexists. split; reflexivity.
  - reflexivity.
Defined.

(** The retry schedule.  After defaults are applied at least one attempt
    is allowed and the first delay is positive; the delay before attempt [i + 1]
    is the initial delay doubled [i] times and, from the second delay on, capped
    at [Max]; no doubling overflows a [time.Duration]. *)
Theorem retry_schedule (cfg0 : RetryConfig) (i : nat)
    (HI : rc_Initial cfg0 < 2 ^ 62) (HM : rc_Max cfg0 < 2 ^ 62) :
  let cfg := withDefaults cfg0 in
  1 <= rc_MaxAttempts cfg /\
  0 < backoff cfg i /\
  backoff cfg i = (if i is O then rc_Initial cfg else Z.min (rc_Max cfg) (rc_Initial cfg * 2 ^ Z.of_nat i)) /\
  (rc_MaxAttempts cfg0 < 1 -> rc_MaxAttempts cfg = 10).
Proof.
  intros cfg.
  assert (0 < rc_Initial cfg < 2 ^ 62 /\ 0 < rc_Max cfg < 2 ^ 62) as [HI' HM'].
  { subst cfg. unfold withDefaults, DefaultRetryInitial, DefaultRetryMax. cbn. bool_cases; lia. }
  assert (forall i, 0 < backoff cfg i < 2 ^ 62 /\
    backoff cfg i = (if i is O then rc_Initial cfg else Z.min (rc_Max cfg) (rc_Initial cfg * 2 ^ Z.of_nat i))) as Hb.
  { clear i. intros i. induction i as [|i [Hpos IH]]; [done|]. cbn [backoff].
    assert (i64 (backoff cfg i * 2) = backoff cfg i * 2) as -> by (unfold i64; lia).
    rewrite Nat2Z.inj_succ, Z.pow_succ_r by lia.
    assert (1 <= 2 ^ Z.of_nat i) by (apply (Z.pow_le_mono_r 2 0); lia).
    destruct i as [|i].
    - cbn [backoff] in *. change (2 ^ Z.of_nat 0) with 1. bool_cases; lia.
    - rewrite IH in *. assert (1 <= 2 ^ Z.of_nat (S i)) by (apply (Z.pow_le_mono_r 2 0); lia).
      generalize dependent (2 ^ Z.of_nat (S i)). intros p. intros. bool_cases; nia. }
  destruct (Hb i) as [[? _] ?]. split_and!; try done.
  - subst cfg. unfold withDefaults, DefaultRetryMaxAttempts. cbn. bool_cases; lia.
  - subst cfg. unfold withDefaults, DefaultRetryMaxAttempts. cbn. bool_cases; lia.
Qed.

Lemma retry_schedule_witness :
  backoff (withDefaults (mkRetryConfig 0 0 0 None)) 9 = 1000000000 /\
  backoff (withDefaults (mkRetryConfig 0 0 0 None)) 3 = 80000000.
Proof.
  split.
  - rewrite (proj1 (proj2 (proj2 (retry_schedule (mkRetryConfig 0 0 0 None) 9 ltac:(reflexivity) ltac:(reflexivity))))).
    reflexivity.
  - reflexivity.
Defined.

(** ** The session caller *)

(** A session no call is using. *)
Definition idle (s : Session) : Prop :=
  Forall (fun sl => inUse sl = false) (s_slots s) /\ s_free s = length (s_slots s)
  /\ (0 < length (s_slots s))%nat /\ 0 <= s_highest s.

(** The sequence id of its first slot. *)
Definition due (s : Session) : Z := match s_slots s with sl :: _ => seq sl | [] => 0 end.

(** [s] after a call that used its first slot. *)
Definition session_after (advance : bool) (s : Session) : Session :=
  mkSession (s_id s)
    (match s_slots s with
     | sl :: sls => mkSlot (if advance then u32 (seq sl + 1) else seq sl) false :: sls
     | [] => []
     end) (s_highest s) (s_free s).

Lemma idle_after advance s : idle s -> idle (session_after advance s).
Proof.
  intros (Hf & Hn & Hl & Hh). unfold session_after, idle in *. cbn [s_slots s_free s_highest].
  destruct (s_slots s) as [|sl sls]; [done|]. apply Forall_cons in Hf as [_ Hf].
  split_and!; try done. by constructor.
Qed.

Lemma due_after advance s : idle s -> due (session_after advance s) = if advance then u32 (due s + 1) else due s.
Proof. intros (_ & _ & Hl & _). unfold due, session_after. cbn. destruct (s_slots s); [cbn in Hl; lia|done]. Qed.

(** The lease and the session while the call runs. *)
Definition first_lease (s : Session) : slotLease := mkSlotLease 0 (due s) (s_highest s) false.

Lemma acquire_idle s : idle s -> exists s1, AcquireSlot None s = Some (inr (first_lease s), s1)
  /\ s_id s1 = s_id s
  /\ Done (first_lease s) s1 = Some (mkSlotLease 0 (due s) (s_highest s) true, session_after true s)
  /\ Retry (first_lease s) s1 = Some (mkSlotLease 0 (due s) (s_highest s) true, session_after false s).
Proof.
  intros (Hf & Hn & Hl & Hh). destruct s as [id [|[q u] sls] h n]; [cbn in Hl; lia|].
  cbn [s_slots s_free s_highest length] in *. apply Forall_cons in Hf as [Hu _]. cbn in Hu. subst u n.
  exists (mkSession id (mkSlot q true :: sls) h (length sls)). unfold AcquireSlot, recv_token. cbn [s_free s_slots s_id s_highest].
  unfold claim_slot. cbn [s_slots first_free inUse negb s_highest s_id s_free].
  change (u32 (Z.of_nat 0)) with 0. destruct (Z.ltb_spec h 0); [lia|].
  unfold Done, Retry, release, send_token. cbn.
  rewrite !bool_decide_true by (rewrite length_alter; cbn [length]; lia). done.
Qed.

(** The SEQUENCE that precedes the caller's operations. *)
Definition sequence_for (s : Session) : Arg :=
  ASequence (mkSequenceArgs (s_id s) (due s) 0 (s_highest s) false).

Definition with_sequence (s : Session) (c : Compound) : Compound :=
  mkCompound (cp_Tag c) (cp_MinorVersion c) (sequence_for s :: cp_ops c).

(** What the caller gets for the base's reply. *)
Definition session_reply (rep : CallReply) (status : Z) : CallReply :=
  match rep with
  | (_, Some err) => (None, Some err)
  | (r, None) =>
      if status =? NFS4_OK then
        ((fun r => if 0 <? cpr_NumResults r
                   then mkCompoundResult (cpr_Status r) (cpr_Tag r) (cpr_NumResults r - 1) else r) <$> r, None)
      else (None, Some (Wrapf "nfs4: SEQUENCE: %w" [] (StatusError status)))
  end.

Section session_call.
Context {W : Type} `{World W}.

Lemma session_call_run (s : nat) (sess : Session) (ctx : Context) (c : Compound) (results all : list Res)
    (rep : CallReply) (st : St W) (w1 w2 : W) (seqRes : SequenceRes) :
  st_sessions st !! s = Some sess -> idle sess -> ctx_Done ctx (st_world st) = (None, w1) ->
  base_CallCompound ctx (with_sequence sess c) (RSequence zeroSequenceRes :: results) w1 = (rep, RSequence seqRes :: all, w2) ->
  CallCompound (sessionCaller baseCaller s) ctx c results st
  = Some ((session_reply rep (sqr_Status seqRes), all),
          mkSt w2 (<[s := session_after (is_nil rep.2) sess]> (st_sessions st)) (st_conn st)).
Proof.
  intros Hs Hidle Hd Hb. destruct st as [w ss cn]. cbn [st_world st_sessions st_conn] in *.
  destruct (acquire_idle sess Hidle) as (s1 & Ha & Hid & HD & HR).
  pose proof (lookup_lt_Some _ _ _ Hs) as Hlt.
  cbn [CallCompound]. unfold sessionCaller_CallCompound.
  erewrite M_bind_Some by (unfold world; cbn [st_world]; by rewrite Hd). cbn [st_sessions st_conn].
  erewrite M_bind_Some by (unfold on_session; cbn [st_sessions]; by rewrite Hs, Ha). cbn beta iota.
  cbn [st_sessions st_world st_conn].
  erewrite M_bind_Some by (unfold on_session; cbn [st_sessions]; by rewrite list_lookup_insert_eq).
  cbn [st_sessions st_world st_conn]. rewrite list_insert_insert_eq. cbn beta zeta.
  replace (fold_left _ (Ops c) _) with (with_sequence sess c)
    by (rewrite Add_all; unfold with_sequence, sequence_for, Session_ID; by rewrite Hid).
  erewrite M_bind_Some by (unfold world; cbn [st_world]; by rewrite Hb).
  cbn [st_sessions st_world st_conn fst snd split_results]. destruct rep as [r [e|]]; cbn [is_nil snd session_reply].
  - erewrite M_bind_Some by (unfold on_session; cbn [st_sessions]; by rewrite list_lookup_insert_eq, HR).
    cbn [st_sessions st_world st_conn]. by rewrite list_insert_insert_eq.
  - erewrite M_bind_Some by (unfold on_session; cbn [st_sessions]; by rewrite list_lookup_insert_eq, HD).
    cbn [st_sessions st_world st_conn]. rewrite list_insert_insert_eq.
    destruct (sqr_Status seqRes =? NFS4_OK); cbn [negb]; [|done]. destruct r as [r|]; [|done]. cbn.
    by destruct (0 <? cpr_NumResults r).
Qed.
End session_call.

(** A call through a session.  On an idle session the base caller is
    given the caller's compound with one SEQUENCE in front, carrying the session
    id, the first slot and the sequence id that slot is due; the caller gets
    its own results and a count without the SEQUENCE; a failed SEQUENCE is an
    error.  Afterwards the session is idle again, with the sequence id advanced
    by one exactly when the base returned no error. *)
Theorem session_call {W : Type} `{World W} (s : nat) (sess : Session) (ctx : Context) (c : Compound)
    (results all : list Res) (rep : CallReply) (st : St W) (w1 w2 : W) (seqRes : SequenceRes)
    (Hs : st_sessions st !! s = Some sess) (Hidle : idle sess)
    (Hctx : ctx_Done ctx (st_world st) = (None, w1))
    (Hbase : base_CallCompound ctx (with_sequence sess c) (RSequence zeroSequenceRes :: results) w1
             = (rep, RSequence seqRes :: all, w2)) :
  exists sess',
    CallCompound (sessionCaller baseCaller s) ctx c results st
    = Some ((session_reply rep (sqr_Status seqRes), all), mkSt w2 (<[s := sess']> (st_sessions st)) (st_conn st))
    /\ idle sess' /\ s_id sess' = s_id sess
    /\ due sess' = (if is_nil rep.2 then u32 (due sess + 1) else due sess).
Proof.
  exists (session_after (is_nil rep.2) sess).
  split_and!; [by eapply session_call_run|by apply idle_after|done|by apply due_after].
Qed.

Definition sample_session : Session := NewSession (zero_array 16) 2.
Definition sequence_ok : Reply := PSequence (zero_array 16) 1 0 1 1 0.

Lemma session_call_witness :
  exists sess',
    CallCompound (sessionCaller baseCaller 0) (Ctx 0) (NewCompound []) []
      (mkSt (mkScript [((Some (mkCompoundResult NFS4_OK [] 1), None), [(OpSequence, sequence_ok)])] [] [] [])
         [sample_session] (idle_conn baseCaller))
    = Some (((Some (mkCompoundResult NFS4_OK [] 0), None), []),
            mkSt (mkScript [] [] [mkCompound [] 0 [ASequence (mkSequenceArgs (zero_array 16) 1 0 0 false)]] [])
              [sess'] (idle_conn baseCaller))
    /\ due sess' = 2.
Proof.
  destruct (session_call 0 sample_session (Ctx 0) (NewCompound []) [] []
    (Some (mkCompoundResult NFS4_OK [] 1), None)
    (mkSt (mkScript [((Some (mkCompoundResult NFS4_OK [] 1), None), [(OpSequence, sequence_ok)])] [] [] [])
         [sample_session] (idle_conn baseCaller)) _ _
    (mkSequenceRes 0 (zero_array 16) 1 0 1 1 0) eq_refl
    ltac:(split; [repeat constructor|split; [reflexivity|split; [vm_compute; lia|vm_compute; discriminate]]])
    eq_refl eq_refl) as (sess' & E & _ & _ & Hd).
  exists sess'. split; [exact E|exact Hd].
Defined.

(** *** Retries over a session *)

(** A reply of a server whose SEQUENCE succeeded. *)
Record Answer := mkAnswer {
  an_res : CompoundResult;
  an_seq : SequenceRes;
  an_rest : list Resop
}.

Definition scripted_answer (a : Answer) : CallReply * list Resop :=
  ((Some (an_res a), None),
   (OpSequence, PSequence (sqr_SessionID (an_seq a)) (sqr_SequenceID (an_seq a)) (sqr_SlotID (an_seq a))
      (sqr_HighestSlotID (an_seq a)) (sqr_TargetHighestSlot (an_seq a)) (sqr_StatusFlags (an_seq a))) :: an_rest a).

Lemma retriable_session_reply r :
  retriable (session_reply (Some r, None) NFS4_OK).1 (session_reply (Some r, None) NFS4_OK).2
  = isRetriableStatus (cpr_Status r).
Proof.
  unfold session_reply. change (NFS4_OK =? NFS4_OK) with true. cbn [fst snd fmap option_fmap option_map].
  unfold retriable. rewrite orb_false_r. by destruct (0 <? cpr_NumResults r).
Qed.

(** The session after [i] calls, and the results after them. *)
Definition session_n (sess : Session) (i : nat) : Session := Nat.iter i (session_after true) sess.
Definition results_n (results : list Res) (as_ : list Answer) (i : nat) : list Res :=
  fold_left (fun rs a => results_after rs (an_rest a)) (take i as_) results.

Lemma idle_n sess i : idle sess -> idle (session_n sess i).
Proof. intros Hi. induction i as [|i IH]; [done|]. by apply idle_after. Qed.

Lemma due_n sess i : idle sess -> is_u32 (due sess) -> due (session_n sess i) = u32 (due sess + Z.of_nat i).
Proof.
  intros Hi Hu. induction i as [|i IH]; [by rewrite Z.add_0_r, u32_id|].
  change (session_n sess (S i)) with (session_after true (session_n sess i)).
  rewrite due_after by (by apply idle_n). rewrite IH. int_lia.
Qed.

Lemma session_n_id sess i : s_id (session_n sess i) = s_id sess.
Proof. by induction i. Qed.
Lemma session_n_highest sess i : s_highest (session_n sess i) = s_highest sess.
Proof. by induction i. Qed.

Section fresh.
Context (cfg : RetryConfig) (ctx : Context) (c : Compound) (sess : Session) (results : list Res).
Context (answers : list Answer) (conn : Conn) (more : list (CallReply * list Resop)).
Context (Hidle : idle sess).

Definition fresh_script (i : nat) : Script :=
  mkScript (map scripted_answer (drop i answers) ++ more) []
    (map (fun j => with_sequence (session_n sess j) c) (List.seq 0 i)) (map (backoff cfg) (List.seq 0 i)).

Definition fresh_st (i : nat) : St Script := mkSt (fresh_script i) [session_n sess i] conn.

Definition fresh_rep (i : nat) : CallReply :=
  match answers !! i with
  | Some a => session_reply (Some (an_res a), None) NFS4_OK
  | None => (None, None)
  end.

(** After attempt [i], before sleeping. *)
Definition fresh_after (i : nat) : St Script :=
  mkSt (mkScript (map scripted_answer (drop (S i) answers) ++ more) []
          (map (fun j => with_sequence (session_n sess j) c) (List.seq 0 (S i))) (map (backoff cfg) (List.seq 0 i)))
    [session_n sess (S i)] conn.

Lemma fresh_attempt i : (i < length answers)%nat ->
  attempted (CallCompound (sessionCaller baseCaller 0)) ctx c fresh_st (results_n results answers) fresh_rep i
    (fresh_after i).
Proof.
  intros Hi. destruct (lookup_lt_is_Some_2 _ _ Hi) as [a Ha]. exists (fresh_st i). split; [done|].
  unfold fresh_rep. rewrite Ha.
  rewrite (session_call_run 0 (session_n sess i) ctx c (results_n results answers i)
    (results_n results answers (S i)) (Some (an_res a), None) (fresh_st i) (fresh_script i)
    (mkScript (map scripted_answer (drop (S i) answers) ++ more) []
       (map (fun j => with_sequence (session_n sess j) c) (List.seq 0 (S i))) (map (backoff cfg) (List.seq 0 i)))
    (mkSequenceRes NFS4_OK (sqr_SessionID (an_seq a)) (sqr_SequenceID (an_seq a)) (sqr_SlotID (an_seq a))
      (sqr_HighestSlotID (an_seq a)) (sqr_TargetHighestSlot (an_seq a)) (sqr_StatusFlags (an_seq a)))).
  - done.
  - done.
  - by apply idle_n.
  - done.
  - cbn [base_CallCompound scripted]. unfold fresh_script at 1. cbn [sc_replies].
    rewrite (drop_S _ _ _ Ha). cbn [map app scripted_answer]. cbn [sc_ctxs sc_sent sc_slept fresh_script].
    rewrite seq_S, map_app. cbn [map Nat.add]. f_equal. f_equal.
    cbn [results_after]. unfold results_n. rewrite (take_S_r _ _ _ Ha), fold_left_app. done.
Qed.
End fresh.

(** C6.  Retries take fresh slots.  Under the decorators as [Conn] stacks them
    (retry over session over base) every attempt of a call that the server
    answers with DELAY or GRACE, SEQUENCE itself having succeeded, is sent anew
    with its own SEQUENCE: attempt [i] carries sequence id [q + i], where [q] is
    the one the slot was due, the same operations follow, the delays follow the
    schedule, and when the call returns the session is idle and due [q + k + 1]. *)
Theorem retry_fresh_slot (cfg : RetryConfig) (ctx : Context) (c : Compound) (sess : Session)
    (results : list Res) (bad : list Answer) (good : Answer) (conn : Conn)
    (more : list (CallReply * list Resop))
    (Hidle : idle sess) (Hdue : is_u32 (due sess)) (Hsleep : rc_sleep cfg = Some sleepCtx)
    (Hbad : Forall (fun a => isRetriableStatus (cpr_Status (an_res a)) = true) bad)
    (Hgood : isRetriableStatus (cpr_Status (an_res good)) = false)
    (Hk : blen bad < rc_MaxAttempts cfg) :
  let st0 := mkSt (mkScript (map scripted_answer (bad ++ [good]) ++ more) [] [] []) [sess] conn in
  exists sess' w',
    CallCompound (retryCaller (sessionCaller baseCaller 0) cfg) ctx c results st0
    = Some ((session_reply (Some (an_res good), None) NFS4_OK,
             fold_left (fun rs a => results_after rs (an_rest a)) (bad ++ [good]) results),
            mkSt w' [sess'] conn)
    /\ sc_replies w' = more /\ length (sc_sent w') = S (length bad)
    /\ (forall i comp, sc_sent w' !! i = Some comp ->
          comp = mkCompound (cp_Tag c) (cp_MinorVersion c)
            (ASequence (mkSequenceArgs (s_id sess) (u32 (due sess + Z.of_nat i)) 0 (s_highest sess) false) :: cp_ops c))
    /\ sc_slept w' = map (backoff cfg) (List.seq 0 (length bad))
    /\ idle sess' /\ due sess' = u32 (due sess + Z.of_nat (S (length bad))).
Proof.
  intros st0. set (answers := bad ++ [good]). set (k := length bad).
  set (st := fresh_st cfg c sess answers conn more).
  set (rs := results_n results answers). set (rep := fresh_rep answers).
  assert (answers !! k = Some good) as Hgk by (by apply list_lookup_middle).
  assert (length answers = S k) as Hla by (unfold answers; rewrite length_app; cbn; lia).
  assert (forall i, i < length answers -> attempted (CallCompound (sessionCaller baseCaller 0)) ctx c st rs rep i
            (fresh_after cfg c sess answers conn more i))%nat as Hat by (intros; by apply fresh_attempt).
  assert (forall j, (j < k)%nat -> retried (CallCompound (sessionCaller baseCaller 0)) cfg ctx c st rs rep j) as Hretried.
  { intros j Hj. eexists. split; [apply Hat; lia|].
    destruct (lookup_lt_is_Some_2 bad j Hj) as [a Ha].
    assert (rep j = session_reply (Some (an_res a), None) NFS4_OK) as ->
      by (unfold rep, fresh_rep, answers; by rewrite lookup_app_l, Ha by done).
    assert (isRetriableStatus (cpr_Status (an_res a)) = true) as Hb by (rewrite Forall_lookup in Hbad; eauto).
    split.
    - by rewrite retriable_session_reply.
    - unfold cfg_sleep. rewrite Hsleep. unfold st, fresh_st, fresh_script.
      replace (map (backoff cfg) (List.seq 0 (S j))) with (map (backoff cfg) (List.seq 0 j) ++ [backoff cfg j])
        by (by rewrite seq_S, map_app). done. }
  exists (session_n sess (S k)), (st_world (fresh_after cfg c sess answers conn more k)).
  split_and!.
  - transitivity (retryCaller_CallCompound (CallCompound (sessionCaller baseCaller 0)) cfg ctx c (rs O) (st O));
      [reflexivity|].
    rewrite (retry_reaches _ cfg ctx c st rs rep k Hk Hretried).
    rewrite (loop_attempt _ _ _ _ _ _ _ _ _ _ (Hat k ltac:(lia))).
    assert (rep k = session_reply (Some (an_res good), None) NFS4_OK) as ->
      by (unfold rep, fresh_rep; by rewrite Hgk).
    rewrite retriable_session_reply, Hgood. cbn [negb]. unfold rs, results_n.
    rewrite take_ge by lia. done.
  - cbn. rewrite drop_ge by lia. done.
  - cbn [st_world fresh_after sc_sent]. by rewrite length_map, length_seq.
  - intros i comp Hi. cbn [st_world fresh_after sc_sent] in Hi. rewrite list_lookup_fmap in Hi.
    apply fmap_Some in Hi as (j & Hj & ->). apply lookup_seq in Hj as [-> _]. cbn [Nat.add].
    unfold with_sequence, sequence_for. by rewrite due_n, session_n_id, session_n_highest by done.
  - done.
  - by apply idle_n.
  - by apply due_n.
Qed.

Lemma retry_fresh_slot_witness :
  exists sess' w',
    CallCompound (retryCaller (sessionCaller baseCaller 0) sample_cfg) (Ctx 0) (NewCompound []) []
      (mkSt (mkScript (map scripted_answer
          ([mkAnswer (mkCompoundResult NFS4ERR_DELAY [] 1) zeroSequenceRes []]
           ++ [mkAnswer (mkCompoundResult NFS4_OK [] 1) zeroSequenceRes []]) ++ []) [] [] [])
        [sample_session] (idle_conn baseCaller))
    = Some ((Some (mkCompoundResult NFS4_OK [] 0), None), [], mkSt w' [sess'] (idle_conn baseCaller))
    /\ due sess' = 3 /\ sc_slept w' = [10].
Proof.
  destruct (retry_fresh_slot sample_cfg (Ctx 0) (NewCompound []) sample_session []
    [mkAnswer (mkCompoundResult NFS4ERR_DELAY [] 1) zeroSequenceRes []]
    (mkAnswer (mkCompoundResult NFS4_OK [] 1) zeroSequenceRes []) (idle_conn baseCaller) [])
    as (sess' & w' & E & _ & _ & _ & Hsl & _ & Hd).
  - split; [repeat constructor|split; [reflexivity|split; [vm_compute; lia|vm_compute; discriminate]]].
  - decide_wf.
  - reflexivity.
  - repeat constructor.
  - reflexivity.
  - reflexivity.
  - exists sess', w'. split; [exact E|]. split; [exact Hd|exact Hsl].
Defined.
