(* ===== verification/ConnSpec.v ===== *)
(** * The transport a connection relies on

    [Server] is what a connection talks to: a function from its state, the
    minor version and the operations of a compound to a status and resops.  [Transport] is the
    interface between the callers and the connection: in the states [P], a
    compound sent through the connection's caller is answered by the server and
    leaves the connection as it was.  It is implemented by the v4.0 stack (retry
    over base) and by the v4.1 stack (retry over session over base); the
    theorems about the operations are proved against the interface alone. *)

From S2P Require Import Prelude GoError Nfs4Const GoIO Xdr Rpc RpcClient Attr Nfs4Types Nfs4Args.
From S2P Require Import Nfs4Res Compound Nfs4Spec Nfs4ResSpec CompoundCorrect Session Caller.
From S2P Require Import CallerCorrect Conn.

(** The minor version and the operations of a compound, answered with a status
    and resops. *)
Definition Server (S : Type) : Type := S -> Z -> list Arg -> (Z * list Resop) * S.

Definition answer (tag : bytes) (r : Z * list Resop) : CallReply :=
  (Some (mkCompoundResult r.1 tag (blen r.2)), None).

Lemma retriable_answer tag r : retriable (answer tag r).1 (answer tag r).2 = isRetriableStatus r.1.
Proof. unfold answer, retriable. cbn [fst snd cpr_Status]. apply orb_false_r. Qed.

Class Transport {W S : Type} `{World W} (serve : Server S) (P : St W -> Prop) (abs : St W -> S) : Prop :=
  transport_call : forall ctx comp results st r s',
    P st -> serve (abs st) (cp_MinorVersion comp) (cp_ops comp) = (r, s') -> isRetriableStatus r.1 = false ->
    exists st', CallCompound (c_caller (st_conn st)) ctx comp results st
                = Some ((answer [] r, results_after results r.2), st')
      /\ P st' /\ abs st' = s' /\ st_conn st' = st_conn st.

(** A transport that carries the compounds that are [ok] with the results they
    ask for. *)
Class Carrier {W S : Type} `{World W} (serve : Server S) (P : St W -> Prop) (abs : St W -> S)
    (ok : Compound -> list Res -> Prop) : Prop :=
  carrier_call : forall ctx comp results st r s',
    P st -> ok comp results ->
    serve (abs st) (cp_MinorVersion comp) (cp_ops comp) = (r, s') -> isRetriableStatus r.1 = false ->
    exists st', CallCompound (c_caller (st_conn st)) ctx comp results st
                = Some ((answer [] r, results_after results r.2), st')
      /\ P st' /\ abs st' = s' /\ st_conn st' = st_conn st.

Definition any_compound (comp : Compound) (results : list Res) : Prop := True.

#[global] Instance transport_carrier {W S : Type} `{World W} (serve : Server S) (P : St W -> Prop) (abs : St W -> S) :
  Transport serve P abs -> Carrier serve P abs any_compound.
Proof. intros Ht ctx comp results st r s' HP _. by apply Ht. Qed.

(** Fields that no compound depends on can be assigned freely. *)
Class Assignable {W : Type} (P : St W -> Prop) {S : Type} (abs : St W -> S) : Prop :=
  assignable : forall st c, P st -> c_caller c = c_caller (st_conn st) -> c_cfg c = c_cfg (st_conn st) ->
    P (mkSt (st_world st) (st_sessions st) c) /\ abs (mkSt (st_world st) (st_sessions st) c) = abs st.

(** A retrying caller forwards an answer that is not retriable, when contexts do
    not end. *)
Lemma retry_forwards {W} `{World W} (base : CallFn W) cfg ctx c results st st' rep rs :
  (forall ctx w, ctx_Err ctx w = (None, w)) ->
  1 <= rc_MaxAttempts cfg -> base ctx c results st = Some ((rep, rs), st') ->
  retriable rep.1 rep.2 = false -> retryCaller_CallCompound base cfg ctx c results st = Some ((rep, rs), st').
Proof.
  intros Herr Hm Hb Hr. unfold retryCaller_CallCompound.
  destruct (Z.to_nat (rc_MaxAttempts cfg)) as [|n] eqn:En; [lia|]. cbn [retry_loop].
  rewrite (M_bind_Some _ _ st None st) by (unfold world; rewrite Herr; by destruct st). cbn beta iota.
  erewrite M_bind_Some by exact Hb. cbn beta iota. destruct rep as [r e].
  cbn [fst snd] in Hr. by rewrite Hr.
Qed.

(** ** A world with a server in it *)

Section served.
Context {S : Type} (serve : Server S).

#[local] Instance served : World S := {|
  ctx_Err _ w := (None, w);
  ctx_Done _ w := (None, w);
  timer _ _ w := (None, w);
  injected_sleep _ _ w := (None, w);
  base_CallCompound _ c results w :=
    let '(r, w') := serve w (cp_MinorVersion c) (cp_ops c) in (answer [] r, results_after results r.2, w');
  rpc_DialW _ _ _ w := (None, w);
  rpc_CloseW w := (None, w);
  rand_Read n w := (inr (zero_array n), w);
  os_Hostname w := (inr (bstr "host"), w)
|}.

Definition P40 (st : St S) : Prop :=
  exists cfg, c_caller (st_conn st) = retryCaller baseCaller cfg /\ 1 <= rc_MaxAttempts cfg.

(** And the sessions are [ss], which the caller does not touch. *)
Definition P40_at (ss : list Session) (st : St S) : Prop := P40 st /\ st_sessions st = ss.

#[global] Instance transport40_at ss : Transport serve (P40_at ss) st_world.
Proof.
  intros ctx comp results [w ss' cn] r s' [(cfg & Hc & Hm) Hss] Hs Hr. cbn [st_conn st_world st_sessions] in *.
  exists (mkSt s' ss' cn). rewrite Hc. split_and!; [|split; [by exists cfg|done]|done..].
  cbn [CallCompound]. apply retry_forwards; [done|done| |].
  - unfold world. cbn. by rewrite Hs.
  - by rewrite retriable_answer.
Qed.

#[global] Instance transport40 : Transport serve P40 st_world.
Proof.
  intros ctx comp results st r s' HP Hs Hr.
  destruct (transport40_at (st_sessions st) ctx comp results st r s') as (st' & E & [HP' _] & Ha & Hc); [done..|].
  by exists st'.
Qed.

#[global] Instance assignable40 : Assignable P40 (st_world (W := S)).
Proof. intros st c (cfg & Hc & Hm) E _. split; [|done]. exists cfg. cbn. by rewrite E. Qed.
End served.

(** ** The same server behind sessions *)

(** SEQUENCE, when it is first, succeeds; the rest is the server's answer. *)
Definition with_session {S} (serve : Server S) : Server S := fun s minor ops =>
  match ops with
  | ASequence a :: ops =>
      let '((st, ps), s') := serve s minor ops in
      ((st, (OpSequence, PSequence (sq_SessionID a) (sq_SequenceID a) (sq_SlotID a) (sq_HighestSlotID a)
                           (sq_HighestSlotID a) 0) :: ps), s')
  | _ => serve s minor ops
  end.

(** The caller of the connection retries over the session at [n], which is idle. *)
Definition P41_at (n : nat) {S} (st : St S) : Prop :=
  exists cfg sess, c_caller (st_conn st) = retryCaller (sessionCaller baseCaller n) cfg
    /\ 1 <= rc_MaxAttempts cfg /\ st_sessions st !! n = Some sess /\ idle sess.

Definition P41 {S} (st : St S) : Prop := exists n, P41_at n st.

(** The server and the sessions together: a compound takes the first slot of
    session [n] one step on. *)
Definition behind_session (n : nat) {S} (serve : Server S) : Server (S * list Session) := fun s minor ops =>
  let '(r, s') := serve s.1 minor ops in (r, (s', alter (session_after true) n s.2)).

Definition world_sessions {S} (st : St S) : S * list Session := (st_world st, st_sessions st).

#[global] Instance transport_behind n {S} (serve : Server S) :
  @Transport S (S * list Session) (served (with_session serve)) (behind_session n serve) (P41_at n) world_sessions.
Proof.
  intros ctx comp results [w ss cn] [status ps] s' (cfg & sess & Hc & Hm & Hn & Hi) Hs Hr.
  unfold behind_session, world_sessions in Hs. cbn [st_conn st_world st_sessions fst snd] in *.
  destruct (serve w _ _) as [r s1] eqn:Es. injection Hs as -> <-.
  set (sq := PSequence (s_id sess) (due sess) 0 (s_highest sess) (s_highest sess) 0).
  exists (mkSt s1 (<[n := session_after true sess]> ss) cn). rewrite Hc.
  pose proof (lookup_lt_Some _ _ _ Hn). split_and!; [| | |done].
  - cbn [CallCompound]. apply retry_forwards; [done|done| |by rewrite retriable_answer].
    pose proof (@session_call_run S (served (with_session serve)) n sess ctx comp results
      (results_after results ps) (answer [] (status, (OpSequence, sq) :: ps))
      (mkSt w ss cn) w s1 (mkSequenceRes NFS4_OK (s_id sess) (due sess) 0 (s_highest sess) (s_highest sess) 0)
      Hn Hi eq_refl) as Hrun.
    cbn [CallCompound st_sessions st_conn snd answer is_nil] in Hrun. rewrite Hrun.
    + do 4 f_equal. cbn. unfold answer. cbn. rewrite blen_cons. pose proof (blen_nonneg ps).
      destruct (Z.ltb_spec 0 (1 + blen ps)); [|lia]. do 3 f_equal. lia.
    + cbn. rewrite Es. done.
  - exists cfg, (session_after true sess). cbn [st_conn st_sessions].
    split_and!; [done|done|by apply list_lookup_insert_eq|by apply idle_after].
  - unfold world_sessions. cbn [st_world st_sessions]. f_equal.
    rewrite list_insert_alter. apply list_alter_ext; [|done]. intros x. rewrite Hn. by intros [= ->].
Qed.

#[global] Instance assignable_behind n {S} : Assignable (P41_at n (S := S)) world_sessions.
Proof.
  intros st c (cfg & sess & Hc & ?) E _. split; [|done]. exists cfg, sess. cbn. by rewrite E.
Qed.

#[global] Instance transport41 {S} (serve : Server S) :
  @Transport S S (served (with_session serve)) serve P41 st_world.
Proof.
  intros ctx comp results st r s' [n HP] Hs Hr.
  destruct (transport_behind n serve ctx comp results st r (s', alter (session_after true) n (st_sessions st)) HP)
    as (st' & E & HP' & Ha & Hc); [unfold behind_session; cbn [world_sessions fst snd]; by rewrite Hs|done|].
  exists st'. injection Ha as Ha _. split_and!; [exact E|by exists n|done|done].
Qed.

#[global] Instance assignable41 {S} : Assignable (P41 (S := S)) (st_world (W := S)).
Proof.
  intros st c [n HP] E E'. split; [|done]. exists n. by apply (assignable_behind n st c HP).
Qed.
