(* ===== verification/Wire.v ===== *)
(** * A world of bytes

    [wired serve] is the world in which the base caller of a connection is the
    [RPCCaller] of src/nfs4/transport.go on an RPC client, and the server at the
    other end of the byte stream reads records, call headers and compounds from
    what the client has written, and writes records back.  Its state is the
    server's and the client's. *)

From S2P Require Import Prelude GoError Nfs4Const GoIO Xdr XdrSpec Rpc RpcCorrect RpcClient RpcClientCorrect.
From S2P Require Import Attr Nfs4Types Nfs4Args Nfs4Res Compound Nfs4Spec Nfs4ResSpec CompoundCorrect.
From S2P Require Import Session Caller CallerCorrect Conn ConnSpec.

(** The client with these bytes to come from the server. *)
Definition with_input (r : Reader) (cl : Client) : Client :=
  mkClient (mkNetConn r (nc_out (cl_conn cl))) (cl_opts cl) (cl_nextID cl).

Definition written (cl : Client) : bytes := w_out (nc_out (cl_conn cl)).

Section wire.
Context {S : Type} (serve : Server S).

(** A call of procedure COMPOUND, read from its bytes, served, and answered with
    an accepted reply; [None] for any other message. *)
Definition serve_message (s : S) (msg : bytes) : option (bytes * S) :=
  let '((mtype, vers, h), d) := server_call_header (Decoder.NewDecoder (bytes_NewReader msg)) in
  let '((tag, minor, ops), d) := server_compound d in
  if (mtype =? msgCall) && (vers =? RPCVersion) && (ch_Prog h =? Program) && (ch_Vers h =? Version4)
     && (ch_Proc h =? ProcCompound) && is_nil (Decoder.Err d)
  then
    match mapM id ops with
    | Some ops =>
        let '(r, s') := serve s minor ops in
        Some (wire_reply (mkReplyHeader (ch_XID h) MsgAccepted AuthNull AcceptSuccess 0 0 0 0)
              ++ wire_compound_res r.1 tag r.2, s')
    | None => None
    end
  else None.

(** The bytes that come back for the bytes of one record. *)
Definition serve_record (s : S) (record : bytes) : option (bytes * S) :=
  match (ReadRecord [Data record]).1 with
  | inl _ => None
  | inr msg =>
      match serve_message s msg with
      | Some (reply, s') => Some (wire_record [] reply, s')
      | None => None
      end
  end.

(** One call.  The request is what the call writes, which does not depend on
    what it will read; a server that does not understand it closes the
    connection. *)
Definition exchange (c : Compound) (results : list Res) (w : S * Client) : CallReply * list Res * (S * Client) :=
  let '(s, cl) := w in
  let unanswered := RPCCaller_CallCompound live c results (with_input [] cl) in
  match serve_record s (bdrop (blen (written cl)) (written unanswered.2)) with
  | Some (reply, s') =>
      let '(rep, rs, cl') := RPCCaller_CallCompound live c results (with_input [Data reply] cl) in (rep, rs, (s', cl'))
  | None => let '(rep, rs, cl') := unanswered in (rep, rs, (s, cl'))
  end.

#[local] Instance wired : World (S * Client) := {|
  ctx_Err _ w := (None, w);
  ctx_Done _ w := (None, w);
  timer _ _ w := (None, w);
  injected_sleep _ _ w := (None, w);
  base_CallCompound _ c results w := exchange c results w;
  rpc_DialW _ _ _ w := (None, w);
  rpc_CloseW w := (None, w);
  rand_Read n w := (inr (zero_array n), w);
  os_Hostname w := (inr (bstr "host"), w)
|}.
End wire.
