(* ===== verification/WireCorrect.v ===== *)
(** * The callers on bytes: theorems *)

From S2P Require Import Prelude GoError Nfs4Const GoIO Xdr XdrSpec Rpc RpcCorrect RpcClient RpcClientCorrect.
From S2P Require Import Attr Nfs4Types Nfs4Args Nfs4Res Compound Nfs4Spec Nfs4ResSpec CompoundCorrect.
From S2P Require Import Session Caller CallerCorrect Conn ConnSpec Wire.

(** The client can write, and its credentials have a wire form. *)
Definition usable (cl : Client) : Prop :=
  (exists out, nc_out (cl_conn cl) = mkWriter out None)
  /\ auth_ok (opt_Cred (cl_opts cl)) /\ auth_ok (opt_Verf (cl_opts cl)).

(** A server sees of a compound what is on the wire. *)
Definition sees_the_wire {S} (serve : Server S) : Prop :=
  forall s minor ops, serve s minor (map arg_sent ops) = serve s minor ops.

(** The request of [c] is one a server takes, and [r] an answer to it that the
    protocol allows. *)
Record carried (cl : Client) (c : Compound) (results : list Res) (r : Z * list Resop) : Prop := {
  carried_compound : compound_ok c;
  carried_request : frag_ok (request cl Program Version4 ProcCompound (wire_compound c));
  carried_status : is_u32 r.1;
  carried_resops : exists rs1 rs2, results = rs1 ++ rs2 /\ Forall2 resop_ok rs1 r.2;
  carried_count : blen r.2 < 2 ^ 32;
  carried_reply : blen (wire_compound_res r.1 (cp_Tag c) r.2) <= maxFragmentSize - 64
}.

Section wire.
Context {S : Type} (serve : Server S).

Lemma mapM_Some {A} (l : list A) : mapM id (map Some l) = Some l.
Proof. induction l as [|a l IH]; [done|]. cbn. by rewrite IH. Qed.

(** The server reads what the client wrote. *)
Lemma serve_message_request s cl c r s' : sees_the_wire serve -> compound_ok c ->
  auth_ok (opt_Cred (cl_opts cl)) -> auth_ok (opt_Verf (cl_opts cl)) ->
  serve s (cp_MinorVersion c) (cp_ops c) = (r, s') ->
  serve_message serve s (request cl Program Version4 ProcCompound (wire_compound c))
  = Some (wire_reply (mkReplyHeader (allocXID cl).1 MsgAccepted AuthNull AcceptSuccess 0 0 0 0)
          ++ wire_compound_res r.1 (cp_Tag c) r.2, s').
Proof.
  intros Hw Hc Hcred Hverf Hs. unfold serve_message, request.
  set (h := mkCallHeader _ _ _ _ _ _).
  assert (call_header_ok h) as Hh.
  { split; [|by split_and!]. change (is_u32 (next_xid (cl_nextID cl))). pose proof (next_xid_range (cl_nextID cl)). split; lia. }
  destruct (parses_call_header h Hh (Decoder.NewDecoder (bytes_NewReader (wire_call_header h ++ wire_compound c)))
    (wire_compound c)) as (d1 & E1 & Hd1 & Hr1 & _); [done|cbn; by rewrite app_nil_r|].
  rewrite E1. destruct (parses_compound c Hc d1 [] Hd1) as (d2 & E2 & Hd2 & _); [by rewrite app_nil_r|].
  rewrite E2. unfold Decoder.Err. rewrite (healthy_err _ Hd2). cbn [h ch_Prog ch_Vers ch_Proc ch_XID].
  rewrite !Z.eqb_refl. cbn [andb is_nil]. rewrite <- map_map, mapM_Some, Hw, Hs. done.
Qed.

(** A call writes its request, whatever it will read. *)
Lemma call_writes (c : Compound) results cl out : nc_out (cl_conn cl) = mkWriter out None ->
  blen (request cl Program Version4 ProcCompound (wire_compound c)) < 2 ^ 31 ->
  written (RPCCaller_CallCompound live c results cl).2
  = out ++ wire_record [] (request cl Program Version4 ProcCompound (wire_compound c)).
Proof.
  intros Hout Hreq. pose proof (request_encoded cl Program Version4 ProcCompound _ _ (emits_compound c)) as Ee.
  rewrite allocXID_next in Ee. cbn [fst] in Ee. unfold RPCCaller_CallCompound, Call.
  cbn [ctx_entry ctx_preempt live]. rewrite allocXID_next. cbn [cl_opts cl_conn cl_nextID].
  rewrite Ee. cbn [Encoder.Err Encoder.err Encoder.w w_out]. unfold roundTrip.
  rewrite Hout, WriteRecord_buffer by done. destruct (ReadRecord _) as [[err|reply] r']; [done|].
  destruct (decodeReply _ _ _) as [[err|] [[[e|res] rs]|]]; done.
Qed.

Lemma serve_record_request s msg : frag_ok msg ->
  serve_record serve s (wire_record [] msg)
  = match serve_message serve s msg with Some (reply, s') => Some (wire_record [] reply, s') | None => None end.
Proof.
  intros Hm. unfold serve_record.
  destruct (ReadRecord_record [] msg [Data (wire_record [] msg)] []) as (r' & -> & _); try done.
  cbn [concat app]. sizes. lia.
Qed.

(** One call of the base caller. *)
Lemma exchange_run s cl c results r s' : sees_the_wire serve -> usable cl -> carried cl c results r ->
  serve s (cp_MinorVersion c) (cp_ops c) = (r, s') ->
  exists cl', exchange serve c results (s, cl) = (answer (cp_Tag c) r, results_after results r.2, (s', cl'))
    /\ usable cl' /\ cl_opts cl' = cl_opts cl
    /\ written cl' = written cl ++ wire_record [] (request cl Program Version4 ProcCompound (wire_compound c)).
Proof.
  intros Hw ((out & Hout) & Hcred & Hverf) [Hc Hreq Hst (rs1 & rs2 & -> & Hrs) Hn Hlen] Hs.
  set (req := request cl Program Version4 ProcCompound (wire_compound c)) in *.
  assert (blen req < 2 ^ 31) as Hreq' by (sizes; lia).
  set (reply := wire_reply (mkReplyHeader (allocXID cl).1 MsgAccepted AuthNull AcceptSuccess 0 0 0 0)
                ++ wire_compound_res r.1 (cp_Tag c) r.2).
  assert (blen reply <= maxFragmentSize) as Hreply.
  { unfold reply. rewrite blen_app. sizes. assert (blen (wire_reply (mkReplyHeader (allocXID cl).1 MsgAccepted AuthNull
      AcceptSuccess 0 0 0 0)) = 24) as -> by reflexivity. lia. }
  destruct (Call_run (with_input [Data (wire_record [] reply)] cl) Program Version4 ProcCompound (Compound_Encode c)
    (DecodeCompound (rs1 ++ rs2)) (wire_compound c) (wire_compound_res r.1 (cp_Tag c) r.2) [] _ AuthNull [] reply [] out
    (emits_compound c) (parses_compound_res rs1 rs2 r.1 (cp_Tag c) r.2 Hst (proj1 Hc) Hn Hrs))
    as (cl' & E & _ & Ho & _ & Hopts); try done.
  - cbn [concat app]. sizes. lia.
  - cbn [concat app]. by rewrite app_nil_r.
  - exists cl'. unfold exchange. rewrite (call_writes c (rs1 ++ rs2) (with_input [] cl) out Hout Hreq').
    change (request (with_input [] cl) Program Version4 ProcCompound (wire_compound c)) with req.
    assert (written cl = out) as Hwr by (unfold written; by rewrite Hout).
    rewrite Hwr, bdrop_app_exact by done. rewrite serve_record_request by done.
    unfold req. rewrite (serve_message_request s cl c r s' Hw Hc Hcred Hverf Hs). fold reply.
    unfold RPCCaller_CallCompound. rewrite E. cbn [fst snd]. rewrite results_after_app by (by eapply Forall2_length).
    split; [done|]. split; [|split; [exact Hopts|]].
    + split; [eexists; exact Ho|]. by rewrite Hopts.
    + unfold written. by rewrite Ho.
Qed.
End wire.

(** ** Theorem *)

Lemma with_session_sees {S} (serve : Server S) : sees_the_wire serve -> sees_the_wire (with_session serve).
Proof.
  intros Hw s minor ops. destruct ops as [|a ops]; [done|]. pose proof (Hw s minor (a :: ops)) as H.
  destruct a; try exact H. cbn. by rewrite Hw.
Qed.

(** The server's answer behind a successful SEQUENCE of [sess]. *)
Definition sequenced (sess : Session) (r : Z * list Resop) : Z * list Resop :=
  (r.1, (OpSequence, PSequence (s_id sess) (due sess) 0 (s_highest sess) (s_highest sess) 0) :: r.2).

Lemma wire_stack_run {S : Type} (serve : Server S) (n : nat) (sess : Session) (cfg : RetryConfig) (ctx : Context)
    (c : Compound) (results : list Res) (st : St (S * Client)) (s s' : S) (cl : Client) (r : Z * list Resop)
    (Hw : sees_the_wire serve) (Hworld : st_world st = (s, cl)) (Hcl : usable cl)
    (Hsess : st_sessions st !! n = Some sess) (Hidle : idle sess) (Hcfg : 1 <= rc_MaxAttempts cfg)
    (Htag : cp_Tag c = []) (Hserve : serve s (cp_MinorVersion c) (cp_ops c) = (r, s'))
    (Hstatus : isRetriableStatus r.1 = false)
    (Hc : carried cl (with_sequence sess c) (RSequence zeroSequenceRes :: results) (sequenced sess r)) :
  exists cl', @CallCompound (S * Client) (wired (with_session serve)) (retryCaller (sessionCaller baseCaller n) cfg)
      ctx c results st
    = Some ((answer [] r, results_after results r.2),
            mkSt (s', cl') (<[n := session_after true sess]> (st_sessions st)) (st_conn st))
    /\ usable cl' /\ cl_opts cl' = cl_opts cl
    /\ written cl' = written cl
         ++ wire_record [] (request cl Program Version4 ProcCompound (wire_compound (with_sequence sess c))).
Proof.
  destruct (exchange_run (with_session serve) s cl _ _ _ s' (with_session_sees serve Hw) Hcl Hc)
    as (cl' & E & Hcl' & Ho & Hwr); [cbn; by rewrite Hserve; destruct r|].
  exists cl'. split; [|done]. destruct st as [w ss cn]. cbn [st_world st_sessions st_conn] in *. subst w.
  cbn [CallCompound]. apply (@retry_forwards (S * Client) (wired (with_session serve))); [done|done| |by rewrite retriable_answer].
  pose proof (@session_call_run (S * Client) (wired (with_session serve)) n sess ctx c results
    (results_after results r.2) (answer [] (sequenced sess r)) (mkSt (s, cl) ss cn) (s, cl) (s', cl')
    (mkSequenceRes NFS4_OK (s_id sess) (due sess) 0 (s_highest sess) (s_highest sess) 0) Hsess Hidle eq_refl) as Hrun.
  cbn [CallCompound] in Hrun. rewrite Hrun.
  - do 4 f_equal. unfold answer, sequenced. cbn. rewrite blen_cons. pose proof (blen_nonneg r.2).
    destruct (Z.ltb_spec 0 (1 + blen r.2)); [|lia]. do 3 f_equal. lia.
  - cbn [base_CallCompound wired]. rewrite E. cbn. by rewrite Htag.
Qed.

(** C1.  The whole stack on bytes.  A compound sent through the retrying caller
    over a session over the RPC client reaches the server: one record goes out,
    from which the server reads the call header, SEQUENCE with the session id,
    slot and sequence id that are due, and the operations; from the bytes of its
    reply the caller gets the status, the number of answers and the results the
    server gave to the operations, as if it had called it directly, and the slot
    is one sequence id further. *)
Theorem wire_stack {S : Type} (serve : Server S) (n : nat) (sess : Session) (cfg : RetryConfig) (ctx : Context)
    (c : Compound) (results : list Res) (st : St (S * Client)) (s s' : S) (cl : Client) (r : Z * list Resop)
    (Hw : sees_the_wire serve) (Hworld : st_world st = (s, cl)) (Hcl : usable cl)
    (Hsess : st_sessions st !! n = Some sess) (Hidle : idle sess) (Hcfg : 1 <= rc_MaxAttempts cfg)
    (Htag : cp_Tag c = []) (Hserve : serve s (cp_MinorVersion c) (cp_ops c) = (r, s'))
    (Hstatus : isRetriableStatus r.1 = false)
    (Hc : carried cl (with_sequence sess c) (RSequence zeroSequenceRes :: results) (sequenced sess r)) :
  exists cl', @CallCompound (S * Client) (wired (with_session serve)) (retryCaller (sessionCaller baseCaller n) cfg)
      ctx c results st
    = Some ((answer [] r, results_after results r.2),
            mkSt (s', cl') (<[n := session_after true sess]> (st_sessions st)) (st_conn st))
    /\ usable cl'
    /\ written cl' = written cl
         ++ wire_record [] (request cl Program Version4 ProcCompound (wire_compound (with_sequence sess c))).
Proof.
  destruct (wire_stack_run serve n sess cfg ctx c results st s s' cl r) as (cl' & E & Hcl' & _ & Hwr); try done.
  by exists cl'.
Qed.
