(* ===== verification/ConnCorrect.v ===== *)
(** * Connections: theorems *)

From S2P Require Import Prelude GoError Nfs4Const GoIO Xdr Rpc RpcClient Attr Nfs4Types Nfs4Args.
From S2P Require Import Nfs4Res Compound Nfs4Spec Nfs4ResSpec CompoundCorrect Session Caller.
From S2P Require Import CallerCorrect Conn ConnSpec.

(** ** Operations against the transport interface *)

Section carrier.
Context {W S : Type} `{World W} (serve : Server S) (P : St W -> Prop) (abs : St W -> S) (ok : Compound -> list Res -> Prop).
Context `{!Carrier serve P abs ok}.

Lemma checked_call_run fmt args ctx comp results st status ps s' :
  P st -> ok comp results -> serve (abs st) (cp_MinorVersion comp) (cp_ops comp) = ((status, ps), s') ->
  isRetriableStatus status = false ->
  exists st', checked_call fmt args ctx comp results st
    = Some (if status =? NFS4_OK then inr (results_after results ps) else inl (StatusError status), st')
    /\ P st' /\ abs st' = s' /\ st_conn st' = st_conn st.
Proof.
  intros HP Hok Hs Hr. destruct (carrier_call ctx comp results st (status, ps) s' HP Hok Hs Hr) as (st' & E & HP' & Ha & Hc).
  exists st'. split_and!; try done. unfold checked_call. rewrite (M_bind_Some (call ctx comp results) _ st _ _ E).
  cbn [answer fst snd r_Err]. unfold CompoundResult_Err, Status_Err. cbn [cpr_Status].
  destruct (status =? NFS4_OK); done.
Qed.

(** Every operation: an error status is returned as it is, otherwise the
    results the server filled in are what the operation looks at. *)
Lemma carried_operation_run {A} fmt args ctx comp results (k : list Res -> result A) st status ps s' :
  P st -> ok comp results -> serve (abs st) (cp_MinorVersion comp) (cp_ops comp) = ((status, ps), s') ->
  isRetriableStatus status = false ->
  exists st', operation fmt args ctx comp results k st
    = Some (if status =? NFS4_OK then k (results_after results ps) else inl (StatusError status), st')
    /\ P st' /\ abs st' = s' /\ st_conn st' = st_conn st.
Proof.
  intros HP Hok Hs Hr. destruct (checked_call_run fmt args ctx comp results st status ps s' HP Hok Hs Hr)
    as (st' & E & ?). exists st'. split; [|done]. unfold operation. rewrite (M_bind_Some _ _ _ _ _ E).
  by destruct (status =? NFS4_OK).
Qed.
Lemma get_run (st : St W) : get st = Some (st_conn st, st).
Proof. done. Qed.

(** Runs the operation the goal is about on a server answer [Hs]. *)
Ltac carried_run HP Hok Hs Hr :=
  match goal with
  | |- context [operation ?f ?a ?c ?comp ?rs ?k ?st] =>
      destruct (carried_operation_run f a c comp rs k st _ _ _ HP Hok Hs Hr) as (st' & E & HP' & Ha' & Hc')
  end.

(** *** Names *)

(** The server resolves names as [ns] says, without changing its state. *)
Definition resolves (minor : Z) (ns : S -> bytes -> bytes -> Z + bytes) : Prop := forall s fh name,
  serve s minor [APutfh (mkPutfhArgs fh); ALookup (mkLookupArgs name); AGetfh] =
  (match ns s fh name with
   | inr fh' => (NFS4_OK, [(OpPutfh, PVoid); (OpLookup, PVoid); (OpGetfh, PGetfh fh')])
   | inl st => (st, [(OpPutfh, PVoid); (OpLookup, PFail st)])
   end, s)
  /\ (forall st, ns s fh name = inl st -> st <> NFS4_OK /\ isRetriableStatus st = false).

Lemma Lookup_carried ns ctx fh name st : resolves (MinorVersion (st_conn st)) ns -> P st ->
  ok (mkCompound [] (MinorVersion (st_conn st)) [APutfh (mkPutfhArgs fh); ALookup (mkLookupArgs name); AGetfh])
     [RStatus zeroStatusRes; RStatus zeroStatusRes; RGetfh zeroGetfhRes] ->
  exists st', Lookup ctx (Some fh) name st
    = Some (match ns (abs st) fh name with inr fh' => inr (Some fh') | inl s => inl (StatusError s) end, st')
    /\ P st' /\ abs st' = abs st /\ st_conn st' = st_conn st.
Proof.
  intros Hns HP Hok. destruct (Hns (abs st) fh name) as [Hs Hne]. unfold Lookup.
  erewrite M_bind_Some by apply get_run. cbn [fh_bytes default].
  destruct (ns (abs st) fh name) as [status|fh'].
  - destruct (Hne status eq_refl) as [Hn Hr]. carried_run HP Hok Hs Hr. exists st'. rewrite E. by destruct (Z.eqb_spec status NFS4_OK).
  - carried_run HP Hok Hs (eq_refl : isRetriableStatus NFS4_OK = false). exists st'. by rewrite E.
Qed.
End carrier.

Section transport.
Context {W S : Type} `{World W} (serve : Server S) (P : St W -> Prop) (abs : St W -> S).
Context `{!Transport serve P abs} `{!Assignable P abs}.

Lemma operation_run {A} fmt args ctx comp results (k : list Res -> result A) st status ps s' :
  P st -> serve (abs st) (cp_MinorVersion comp) (cp_ops comp) = ((status, ps), s') ->
  isRetriableStatus status = false ->
  exists st', operation fmt args ctx comp results k st
    = Some (if status =? NFS4_OK then k (results_after results ps) else inl (StatusError status), st')
    /\ P st' /\ abs st' = s' /\ st_conn st' = st_conn st.
Proof. intros HP. by apply (carried_operation_run serve P abs any_compound). Qed.

(** Runs the operation the goal is about on a server answer [Hs]. *)
Ltac op_run HP Hs Hr :=
  match goal with
  | |- context [operation ?f ?a ?c ?comp ?rs ?k ?st] =>
      destruct (operation_run f a c comp rs k st _ _ _ HP Hs Hr) as (st' & E & HP' & Ha' & Hc')
  end.

(** *** Names *)

(** Walking a path from [fh]: empty components and dots stay where they are. *)
Fixpoint walk (ns : bytes -> bytes -> Z + bytes) (fh : bytes) (path : list bytes) : Z + bytes :=
  match path with
  | [] => inr fh
  | name :: path =>
      if bool_decide (name = []) || bool_decide (name = bstr ".") then walk ns fh path
      else match ns fh name with
           | inl st => inl st
           | inr fh' => walk ns fh' path
           end
  end.

Lemma Lookup_run ns ctx fh name st : resolves serve (MinorVersion (st_conn st)) ns -> P st ->
  exists st', Lookup ctx (Some fh) name st
    = Some (match ns (abs st) fh name with inr fh' => inr (Some fh') | inl s => inl (StatusError s) end, st')
    /\ P st' /\ abs st' = abs st /\ st_conn st' = st_conn st.
Proof. intros Hns HP. by apply (Lookup_carried serve P abs any_compound). Qed.

Lemma LookupPath_loop_run ns ctx path : forall fh st, resolves serve (MinorVersion (st_conn st)) ns -> P st ->
  exists st', LookupPath_loop ctx (Some fh) path st
    = Some (match walk (ns (abs st)) fh path with inr fh' => inr (Some fh') | inl s => inl (StatusError s) end, st')
    /\ P st' /\ abs st' = abs st /\ st_conn st' = st_conn st.
Proof.
  induction path as [|name path IH]; intros fh st Hns HP; cbn [LookupPath_loop walk]; [by exists st|].
  destruct (_ || _); [by apply IH|].
  destruct (Lookup_run ns ctx fh name st Hns HP) as (st1 & E & HP1 & Ha1 & Hc1).
  rewrite (M_bind_Some _ _ _ _ _ E). destruct (ns (abs st) fh name) as [status|fh']; [by exists st1|].
  destruct (IH fh' st1) as (st2 & E2 & HP2 & Ha2 & Hc2); [by rewrite Hc1|done|].
  exists st2. rewrite E2, Ha1. split_and!; congruence || done.
Qed.

(** *** Opening files *)

Definition open_args (c : Conn) (name : bytes) (share : Z) (mask : list Z) (vals : bytes) (doCreate excl : bool)
    : OpenArgs :=
  mkOpenArgs (u32 (c_openSeqid c + 1)) share OpenShareDenyNone (c_clientID c) (ownerID c)
    (if doCreate then Open4Create else Open4NoCreate)
    (if doCreate then if excl then CreateGuarded else CreateUnchecked else 0)
    (if doCreate then mask else []) (if doCreate then vals else []) (zero_array 8) name.

Lemma nextSeqid_run st : P st -> exists st', nextSeqid st = Some (u32 (c_openSeqid (st_conn st) + 1), st')
  /\ P st' /\ abs st' = abs st /\ st_conn st' = set_openSeqid (u32 (c_openSeqid (st_conn st) + 1)) (st_conn st).
Proof.
  intros HP. exists (mkSt (st_world st) (st_sessions st)
    (set_openSeqid (u32 (c_openSeqid (st_conn st) + 1)) (st_conn st))). split; [done|]. cbn [st_conn].
  destruct (assignable st (set_openSeqid (u32 (c_openSeqid (st_conn st) + 1)) (st_conn st)) HP) as [? ?]; done.
Qed.

Lemma NeedsConfirm_bit r : NeedsConfirm r = Z.testbit (opr_RFlags r) 1.
Proof. unfold NeedsConfirm. change OpenResultConfirm with (Z.shiftl 1 1). apply land_bit. lia. Qed.

Lemma openConfirm_run ctx fh sid st status ps s' : P st ->
  serve (abs st) (MinorVersion (st_conn st)) [APutfh (mkPutfhArgs (fh_bytes fh));
    AOpenConfirm (mkOpenConfirmArgs sid (u32 (c_openSeqid (st_conn st) + 1)))] = ((status, ps), s') ->
  isRetriableStatus status = false ->
  exists st', openConfirm ctx fh sid st
    = Some (if status =? NFS4_OK then
              let r := as_OpenConfirm (results_after [RStatus zeroStatusRes; ROpenConfirm zeroOpenConfirmRes] ps !! 1%nat) in
              with_ok (ocr_Status r) (ocr_Stateid r)
            else inl (StatusError status), st')
    /\ P st' /\ abs st' = s' /\ st_conn st' = set_openSeqid (u32 (c_openSeqid (st_conn st) + 1)) (st_conn st).
Proof.
  intros HP Hs Hr. destruct (nextSeqid_run st HP) as (st1 & E1 & HP1 & Ha1 & Hc1).
  unfold openConfirm. rewrite (M_bind_Some _ _ _ _ _ E1). erewrite M_bind_Some by apply get_run.
  assert (compound (st_conn st1) = compound (st_conn st)) as Hcomp by by rewrite Hc1.
  rewrite <- Ha1 in Hs. rewrite Hcomp. op_run HP1 Hs Hr. exists st'. rewrite E. split_and!; try done. congruence.
Qed.

(** The server's answer to the OPEN compound, when it succeeds. *)
Definition opened (sid : Stateid) (ci : ChangeInfo) (rflags : Z) (attrset : list Z) (d : Delegation) (fh : bytes)
    : Z * list Resop :=
  (NFS4_OK, [(OpPutfh, PVoid); (OpOpen, POpen sid ci rflags attrset d); (OpGetfh, PGetfh fh)]).

Lemma Open_run ctx dir name share mask vals doCreate excl st r s1 : P st ->
  serve (abs st) (MinorVersion (st_conn st)) [APutfh (mkPutfhArgs (fh_bytes dir));
    AOpen (open_args (st_conn st) name share mask vals doCreate excl); AGetfh] = (r, s1) ->
  isRetriableStatus r.1 = false ->
  exists st1, P st1 /\ abs st1 = s1 /\ st_conn st1 = set_openSeqid (u32 (c_openSeqid (st_conn st) + 1)) (st_conn st) /\
  (r.1 <> NFS4_OK -> Open ctx dir name share mask vals doCreate excl st = Some (inl (StatusError r.1), st1)) /\
  (forall sid ci rflags attrset d fh, r = opened sid ci rflags attrset d fh ->
     Open ctx dir name share mask vals doCreate excl st
     = if Z.testbit rflags 1 then
         (confirmed ← openConfirm ctx (Some fh) sid;
          mret (match confirmed with inl err => inl err | inr sid => inr (mkOpenResult (Some fh) sid) end)
          : M W (result OpenResult)) st1
       else Some (inr (mkOpenResult (Some fh) sid), st1)).
Proof.
  intros HP Hs Hr. destruct (nextSeqid_run st HP) as (st0 & E0 & HP0 & Ha0 & Hc0). destruct r as [status ps].
  assert (compound (st_conn st0) = compound (st_conn st)) as Hcomp by by rewrite Hc0.
  rewrite <- Ha0 in Hs.
  set (comp := Add AGetfh (Add (AOpen (open_args (st_conn st) name share mask vals doCreate excl))
                 (Add (APutfh (mkPutfhArgs (fh_bytes dir))) (compound (st_conn st))))).
  set (k := fun results : list Res => let openRes := as_Open (results !! 1%nat) in
              with_ok (opr_Status openRes) (openRes, gfr_FH (as_Getfh (results !! 2%nat)))).
  set (rs := [RStatus zeroStatusRes; ROpen zeroOpenRes; RGetfh zeroGetfhRes]).
  destruct (operation_run "nfs4: OPEN: %w" [] ctx comp rs k st0 status ps s1 HP0 Hs Hr) as (st1 & E & HP1 & Ha1 & Hc1).
  assert (forall k2 : result (OpenRes * FileHandle) -> M W (result OpenResult),
    (opened ← operation "nfs4: OPEN: %w" [] ctx
      (Add AGetfh (Add (AOpen (if doCreate then
          mkOpenArgs (u32 (c_openSeqid (st_conn st) + 1)) share OpenShareDenyNone (Conn_ClientID (st_conn st0))
            (ownerID (st_conn st0)) Open4Create (if excl then CreateGuarded else CreateUnchecked) mask vals (zero_array 8) name
        else mkOpenArgs (u32 (c_openSeqid (st_conn st) + 1)) share OpenShareDenyNone (Conn_ClientID (st_conn st0))
            (ownerID (st_conn st0)) Open4NoCreate 0 [] [] (zero_array 8) name))
        (Add (APutfh (mkPutfhArgs (fh_bytes dir))) (compound (st_conn st0))))) rs k; k2 opened) st0
    = k2 (if status =? NFS4_OK then k (results_after rs ps) else inl (StatusError status)) st1) as Hop.
  { intros k2. assert ((if doCreate then _ else _) = open_args (st_conn st) name share mask vals doCreate excl) as ->.
    { rewrite Hc0. unfold open_args. by destruct doCreate. }
    rewrite Hcomp. by rewrite (M_bind_Some _ _ _ _ _ E). }
  exists st1. split_and!; [done|done|congruence| |].
  - cbn [fst]. intros Hne. unfold Open. rewrite (M_bind_Some _ _ _ _ _ E0). erewrite M_bind_Some by apply get_run.
    rewrite Hop. by destruct (Z.eqb_spec status NFS4_OK).
  - intros sid ci rflags attrset d fh [= -> ->]. unfold Open. rewrite (M_bind_Some _ _ _ _ _ E0).
    erewrite M_bind_Some by apply get_run. rewrite Hop.
    cbn -[Z.testbit]. rewrite NeedsConfirm_bit. cbn [opr_RFlags].
    by destruct (Z.testbit rflags 1).
Qed.
End transport.

(** ** A server for the witnesses *)

Definition demo_ns (fh name : bytes) : Z + bytes :=
  if bool_decide (fh = [x01] /\ name = bstr "a") then inr [x02]
  else if bool_decide (fh = [x02] /\ name = bstr "b") then inr [x03]
  else inl NFS4ERR_NOENT.

Definition demo_stateid : Stateid := mkStateid 1 (replicate 12 x05).
Definition demo_confirmed : Stateid := mkStateid 2 (replicate 12 x05).
Definition demo_verf : bytes := replicate 8 x09.
Definition demo_chan : ChannelAttrs := mkChannelAttrs 0 65536 65536 4096 8 4.

(** It counts the compounds it has served. *)
Definition demo_serve : Server nat := fun n minor ops =>
  (match ops with
   | [APutfh fh; ALookup name; AGetfh] =>
       match demo_ns (pf_FH fh) (lk_Name name) with
       | inr fh' => (NFS4_OK, [(OpPutfh, PVoid); (OpLookup, PVoid); (OpGetfh, PGetfh fh')])
       | inl st => (st, [(OpPutfh, PVoid); (OpLookup, PFail st)])
       end
   | [APutfh _; AOpen _; AGetfh] => opened demo_stateid (mkChangeInfo true 1 2) 2 [] DelegNone [x03]
   | [APutfh _; AOpenConfirm _] => (NFS4_OK, [(OpPutfh, PVoid); (OpOpenConfirm, PStateid demo_confirmed)])
   | [ASetclientid _] => (NFS4_OK, [(OpSetclientid, PSetclientid 77 demo_verf)])
   | [ASetclientidConfirm _] => (NFS4_OK, [(OpSetclientidConfirm, PVoid)])
   | [APutrootfh; AGetfh] => (NFS4_OK, [(OpPutrootfh, PVoid); (OpGetfh, PGetfh [x01])])
   | [AExchangeID _] => (NFS4_OK, [(OpExchangeID, PExchangeID 88 5 0 0 0 [] [] [])])
   | [ACreateSession _] =>
       (NFS4_OK, [(OpCreateSession, PCreateSession (replicate 16 x06) 5 0 demo_chan demo_chan [] [])])
   | [AReclaimComplete _] => (NFS4_OK, [(OpReclaimComplete, PVoid)])
   | _ => (NFS4ERR_NOTSUPP, [])
   end, match ops with [APutfh _; ALookup _; AGetfh] => n | _ => S n end).

Definition demo_cfg (minor : Z) : ConnConfig := mkConnConfig (bstr "me") minor (mkRetryConfig 0 0 0 None).

(** A connection that has mounted it over v4.0. *)
Definition demo_st : St nat :=
  mkSt 0%nat [] (set_rootFH (Some [x01]) (set_client 77 demo_verf (NewConn baseCaller (demo_cfg 0)))).

Lemma demo_P : P40 demo_st.
Proof. eexists. split; [reflexivity|]. vm_compute. discriminate. Qed.

(** ** Theorems *)

(** C28.  Path resolution.  Over any transport (v4.0 or a v4.1 session) to a
    server that resolves names, [LookupPath] on a mounted connection is the walk
    of the server's name space from the root handle: empty components and dots
    are skipped, the first name that does not resolve ends it with the server's
    status, and the server's state and the connection are unchanged. *)
Theorem lookup_path {W S : Type} `{World W} (serve : Server S) (P : St W -> Prop) (abs : St W -> S)
    `{!Transport serve P abs} (ns : S -> bytes -> bytes -> Z + bytes) (ctx : Context)
    (path : list bytes) (root : bytes) (st : St W)
    (Hns : resolves serve (MinorVersion (st_conn st)) ns) (HP : P st) (Hroot : RootFH (st_conn st) = Some root) :
  exists st', LookupPath ctx path st
    = Some (match walk (ns (abs st)) root path with
            | inr fh => inr (Some fh)
            | inl status => inl (StatusError status)
            end, st')
    /\ P st' /\ abs st' = abs st /\ st_conn st' = st_conn st.
Proof.
  unfold LookupPath. erewrite M_bind_Some by apply get_run. rewrite Hroot.
  by apply (LookupPath_loop_run serve P abs ns ctx path root st).
Qed.

Lemma demo_resolves minor : resolves demo_serve minor (fun _ => demo_ns).
Proof.
  intros s fh name. split; [unfold demo_serve; cbn; by destruct (demo_ns fh name)|].
  intros st. unfold demo_ns. repeat case_bool_decide; by intros [= <-].
Qed.

Lemma lookup_path_witness :
  let run path := @LookupPath nat (served demo_serve) (Ctx 0) path demo_st in
  (exists st', run [bstr "a"; []; bstr "."; bstr "b"] = Some (inr (Some [x03]), st')) /\
  (exists st', run [bstr "b"; bstr "b"] = Some (inl (StatusError NFS4ERR_NOENT), st')).
Proof.
  intros run. split.
  - destruct (@lookup_path nat nat (served demo_serve) demo_serve P40 st_world (transport40 demo_serve)
      (fun _ => demo_ns) (Ctx 0) [bstr "a"; []; bstr "."; bstr "b"] [x01] demo_st (demo_resolves _) demo_P eq_refl)
      as (st' & E & _). exists st'. exact E.
  - destruct (@lookup_path nat nat (served demo_serve) demo_serve P40 st_world (transport40 demo_serve)
      (fun _ => demo_ns) (Ctx 0) [bstr "b"; bstr "b"] [x01] demo_st (demo_resolves _) demo_P eq_refl)
      as (st' & E & _). exists st'. exact E.
Defined.

(** C22.  Opening a file.  [Open] sends PUTFH, OPEN and GETFH with the next
    open-owner sequence id, the connection's client id and owner, and the
    creation parameters that were asked for.  A server error is returned as it
    is.  When the server opens the file, the result is its handle and stateid;
    if the server set the confirm flag, OPEN_CONFIRM is sent for that handle and
    stateid with the following sequence id, and the confirmed stateid, or the
    error of the confirmation, is returned.  The sequence id moves by one for
    each of the two operations sent. *)
Theorem open_file {W S : Type} `{World W} (serve : Server S) (P : St W -> Prop) (abs : St W -> S)
    `{!Transport serve P abs} `{!Assignable P abs} (ctx : Context) (dir : FileHandle) (name : bytes)
    (share : Z) (mask : list Z) (vals : bytes) (doCreate excl : bool) (st : St W)
    (r : Z * list Resop) (s1 : S) (HP : P st) (Hnoretry : isRetriableStatus r.1 = false)
    (Hopen : serve (abs st) (MinorVersion (st_conn st)) [APutfh (mkPutfhArgs (fh_bytes dir));
       AOpen (open_args (st_conn st) name share mask vals doCreate excl); AGetfh] = (r, s1)) :
  let n := c_openSeqid (st_conn st) in
  let run := Open ctx dir name share mask vals doCreate excl st in
  (r.1 <> NFS4_OK -> exists st', run = Some (inl (StatusError r.1), st') /\ abs st' = s1
     /\ c_openSeqid (st_conn st') = u32 (n + 1)) /\
  (forall sid ci rflags attrset d fh, r = opened sid ci rflags attrset d fh -> Z.testbit rflags 1 = false ->
     exists st', run = Some (inr (mkOpenResult (Some fh) sid), st') /\ abs st' = s1
       /\ c_openSeqid (st_conn st') = u32 (n + 1)) /\
  (forall sid ci rflags attrset d fh status ps s2, r = opened sid ci rflags attrset d fh ->
     Z.testbit rflags 1 = true -> isRetriableStatus status = false ->
     serve s1 (MinorVersion (st_conn st)) [APutfh (mkPutfhArgs fh);
       AOpenConfirm (mkOpenConfirmArgs sid (u32 (u32 (n + 1) + 1)))] = ((status, ps), s2) ->
     exists st', abs st' = s2 /\ c_openSeqid (st_conn st') = u32 (u32 (n + 1) + 1) /\
       (status <> NFS4_OK -> run = Some (inl (StatusError status), st')) /\
       (forall sid', status = NFS4_OK -> ps = [(OpPutfh, PVoid); (OpOpenConfirm, PStateid sid')] ->
          run = Some (inr (mkOpenResult (Some fh) sid'), st'))).
Proof.
  intros n run.
  destruct (Open_run serve P abs ctx dir name share mask vals doCreate excl st r s1 HP Hopen Hnoretry)
    as (st1 & HP1 & Ha1 & Hc1 & Hfail & Hok).
  split_and!.
  - intros Hne. exists st1. split_and!; [by apply Hfail|done|by rewrite Hc1].
  - intros sid ci rflags attrset d fh Er Hb. exists st1. unfold run. rewrite (Hok _ _ _ _ _ _ Er), Hb.
    split_and!; [done|done|by rewrite Hc1].
  - intros sid ci rflags attrset d fh status ps s2 Er Hb Hre Hs2.
    destruct (openConfirm_run serve P abs ctx (Some fh) sid st1 status ps s2 HP1) as (st2 & E2 & HP2 & Ha2 & Hc2).
    { rewrite Ha1, Hc1. exact Hs2. } { done. }
    exists st2. rewrite Hc2, Hc1. split_and!; [done|done| |].
    + intros Hne. unfold run. rewrite (Hok _ _ _ _ _ _ Er), Hb, (M_bind_Some _ _ _ _ _ E2).
      by destruct (Z.eqb_spec status NFS4_OK).
    + intros sid' -> ->. unfold run. rewrite (Hok _ _ _ _ _ _ Er), Hb, (M_bind_Some _ _ _ _ _ E2). done.
Qed.

Lemma open_file_witness :
  exists st', @Open nat (served demo_serve) (Ctx 0) (Some [x02]) (bstr "b") OpenShareAccessRead [] [] false false demo_st
    = Some (inr (mkOpenResult (Some [x03]) demo_confirmed), st')
    /\ c_openSeqid (st_conn st') = 2.
Proof.
  destruct (@open_file nat nat (served demo_serve) demo_serve P40 st_world (transport40 demo_serve)
    assignable40 (Ctx 0) (Some [x02]) (bstr "b") OpenShareAccessRead [] [] false false demo_st
    (opened demo_stateid (mkChangeInfo true 1 2) 2 [] DelegNone [x03]) 1%nat demo_P eq_refl eq_refl)
    as (_ & _ & H).
  destruct (H demo_stateid (mkChangeInfo true 1 2) 2 [] DelegNone [x03] NFS4_OK
    [(OpPutfh, PVoid); (OpOpenConfirm, PStateid demo_confirmed)] 2%nat eq_refl eq_refl eq_refl eq_refl)
    as (st' & _ & Hn & _ & E).
  exists st'. split; [exact (E _ eq_refl eq_refl)|exact Hn].
Defined.
