(* ===== verification/OpenOwner.v ===== *)
(** * The open-owner of a connection

    A v4.0 server numbers what an open-owner asks of it: OPEN, OPEN_CONFIRM and
    CLOSE carry a sequence id, one more each time, and a server refuses a request
    that is out of step and repeats its last reply to one that it has seen.  The
    connection takes the ids from one counter (nextSeqid in
    src/nfs4/conn_write.go).  [strict serve] is [serve] behind such a check; the
    theorem is that an orderly server never has to refuse, and the lemmas after
    it show where the counter of the connection and that of a server part. *)

From S2P Require Import Prelude GoError Nfs4Const GoIO Xdr Rpc RpcClient Attr Nfs4Types Nfs4Args.
From S2P Require Import Nfs4Res Compound Nfs4Spec Nfs4ResSpec CompoundCorrect Session Caller.
From S2P Require Import CallerCorrect Conn ConnSpec ConnCorrect.

(** ** A server that checks *)

(** The sequence id in the compounds of the three operations. *)
Definition owner_seqid (ops : list Arg) : option (Z * Z) :=
  match ops with
  | [APutfh _; AOpen a; AGetfh] => Some (OpOpen, op_Seqid a)
  | [APutfh _; AOpenConfirm a] => Some (OpOpenConfirm, oc_Seqid a)
  | [APutfh _; AClose a] => Some (OpClose, cl_Seqid a)
  | _ => None
  end.

(** The errors after which an owner's sequence id stays (RFC 7530, 9.1.7). *)
Definition uncounted : list Z :=
  [NFS4ERR_STALE_CLIENTID; NFS4ERR_STALE_STATEID; NFS4ERR_BAD_STATEID; NFS4ERR_BAD_SEQID; NFS4ERR_BADXDR;
   NFS4ERR_RESOURCE; NFS4ERR_NOFILEHANDLE; NFS4ERR_MOVED].

(** Whether the operation after PUTFH was executed and counts. *)
Definition counts (r : Z * list Resop) : bool :=
  match r.2 !! 1%nat with
  | Some (_, PFail st) => bool_decide (st ∉ uncounted)
  | Some _ => true
  | None => false
  end.

(** The last sequence id that counted with its reply, how many requests were
    out of step or repeated, and the server behind. *)
Record Owner {S : Type} := mkOwner {
  ow_last : option (Z * (Z * list Resop));
  ow_astray : nat;
  ow_state : S
}.
Arguments Owner S : clear implicits.
Arguments mkOwner {S}.

Definition bad_seqid (op : Z) : Z * list Resop :=
  (NFS4ERR_BAD_SEQID, [(OpPutfh, PVoid); (op, PFail NFS4ERR_BAD_SEQID)]).

Definition strict {S} (serve : Server S) : Server (Owner S) := fun w minor ops =>
  let '(r, s') := serve (ow_state w) minor ops in
  match owner_seqid ops with
  | None => (r, mkOwner (ow_last w) (ow_astray w) s')
  | Some (op, n) =>
      let taken := (r, mkOwner (if counts r then Some (n, r) else ow_last w) (ow_astray w) s') in
      let astray := mkOwner (ow_last w) (Datatypes.S (ow_astray w)) (ow_state w) in
      match ow_last w with
      | None => taken
      | Some (m, cached) =>
          if n =? m then (cached, astray)
          else if n =? u32 (m + 1) then taken
          else (bad_seqid op, astray)
      end
  end.

(** ** What an owner does *)

Inductive owner_op :=
| OpenOp (dir : FileHandle) (name : bytes) (share : Z) (mask : list Z) (vals : bytes) (doCreate excl : bool)
| CloseOp (fh : FileHandle) (sid : Stateid).

Definition error_of {A} (r : result A) : option error := match r with inl err => Some err | inr _ => None end.

Definition run_op {W} `{World W} (ctx : Context) (op : owner_op) : M W (option error) :=
  match op with
  | OpenOp dir name share mask vals doCreate excl =>
      r ← Open ctx dir name share mask vals doCreate excl; mret (error_of r)
  | CloseOp fh sid => r ← CloseFile ctx fh sid; mret (error_of r)
  end.

Fixpoint run_ops {W} `{World W} (ctx : Context) (ops : list owner_op) : M W (list (option error)) :=
  match ops with
  | [] => mret []
  | op :: ops => err ← run_op ctx op; errs ← run_ops ctx ops; mret (err :: errs)
  end.

(** An orderly server executes what an owner asks, with an answer that counts
    and that is not one to retry. *)
Definition orderly {S} (serve : Server S) (minor : Z) : Prop :=
  forall s ops op n, owner_seqid ops = Some (op, n) ->
    counts (serve s minor ops).1 = true /\ isRetriableStatus (serve s minor ops).1.1 = false.

Section owner.
Context {W S : Type} `{World W} (serve : Server S) (P : St W -> Prop) (abs : St W -> Owner S) (minor : Z).
Context `{!Transport (strict serve) P abs} `{!Assignable P abs} (Hserve : orderly serve minor).

(** The counters agree, and [k] requests went astray. *)
Record in_step (k : nat) (st : St W) : Prop := {
  step_P : P st;
  step_minor : MinorVersion (st_conn st) = minor;
  step_last : forall m r, ow_last (abs st) = Some (m, r) -> m = c_openSeqid (st_conn st);
  step_astray : ow_astray (abs st) = k
}.

(** A request with the next sequence id is taken, and the counters agree again. *)
Lemma strict_taken k st ops op : in_step k st ->
  owner_seqid ops = Some (op, u32 (c_openSeqid (st_conn st) + 1)) ->
  exists r s', strict serve (abs st) minor ops
    = (r, mkOwner (Some (u32 (c_openSeqid (st_conn st) + 1), r)) k s') /\ isRetriableStatus r.1 = false.
Proof.
  intros [HP Hm Hl Ha] Hop. unfold strict. rewrite Hop. destruct (Hserve (ow_state (abs st)) ops _ _ Hop) as [Hc Hr].
  destruct (serve (ow_state (abs st)) minor ops) as [r s']. cbn [fst] in *. rewrite Hc, Ha. exists r, s'.
  destruct (ow_last (abs st)) as [[m cached]|] eqn:El; [|done]. rewrite (Hl _ _ eq_refl).
  destruct (Z.eqb_spec (u32 (c_openSeqid (st_conn st) + 1)) (c_openSeqid (st_conn st))); [int_lia|].
  by rewrite Z.eqb_refl.
Qed.

(** After such a request. *)
Lemma in_step_after k n r s' st' : P st' -> abs st' = mkOwner (Some (n, r)) k s' -> c_openSeqid (st_conn st') = n ->
  MinorVersion (st_conn st') = minor -> in_step k st'.
Proof. intros HP Ha Hn Hm. split; [done|done| |by rewrite Ha]. rewrite Ha. cbn. by intros m x [= <- _]. Qed.

(** Taking a number and sending a request with it. *)
Lemma numbered_run k st : in_step k st -> exists st0,
  nextSeqid st = Some (u32 (c_openSeqid (st_conn st) + 1), st0) /\ MinorVersion (st_conn st0) = minor /\
  forall A fmt args ctx comp results (f : list Res -> result A) op,
    cp_MinorVersion comp = minor -> owner_seqid (cp_ops comp) = Some (op, u32 (c_openSeqid (st_conn st) + 1)) ->
    exists r st', operation fmt args ctx comp results f st0 = Some (r, st') /\ in_step k st'.
Proof.
  intros Hst. pose proof Hst as [HP Hm _ _].
  destruct (nextSeqid_run P abs st HP) as (st0 & E0 & HP0 & Ha0 & Hc0).
  exists st0. split; [done|]. split; [by rewrite Hc0|]. intros A fmt args ctx comp results f op Hminor Hop.
  destruct (strict_taken k st _ _ Hst Hop) as ([status ps] & s' & Hs & Hr).
  rewrite <- Ha0, <- Hminor in Hs.
  destruct (operation_run (strict serve) P abs fmt args ctx comp results f st0 status ps _ HP0 Hs Hr)
    as (st' & E & HP' & Ha' & Hc'). eexists _, st'. split; [exact E|].
  eapply in_step_after; [done|exact Ha'|by rewrite Hc', Hc0|by rewrite Hc', Hc0].
Qed.

Lemma openConfirm_in_step k ctx fh sid st : in_step k st ->
  exists r st', openConfirm ctx fh sid st = Some (r, st') /\ in_step k st'.
Proof.
  intros Hst. destruct (numbered_run k st Hst) as (st0 & E0 & Hm0 & Hop). unfold openConfirm.
  rewrite (M_bind_Some _ _ _ _ _ E0). erewrite M_bind_Some by apply get_run. by apply (Hop _ _ _ _ _ _ _ OpOpenConfirm).
Qed.

Lemma Open_in_step k ctx dir name share mask vals doCreate excl st : in_step k st ->
  exists r st', Open ctx dir name share mask vals doCreate excl st = Some (r, st') /\ in_step k st'.
Proof.
  intros Hst. destruct (numbered_run k st Hst) as (st0 & E0 & Hm0 & Hop). unfold Open.
  rewrite (M_bind_Some _ _ _ _ _ E0). erewrite M_bind_Some by apply get_run.
  match goal with |- context [operation ?f ?a ?c ?cm ?rs ?g] => destruct (Hop _ f a c cm rs g OpOpen) as (opened & st1 & E1 & Hst1) end;
    [done|by destruct doCreate|]. rewrite (M_bind_Some _ _ _ _ _ E1).
  destruct opened as [err|[openRes fh]]; [by eexists _, st1|]. destruct (NeedsConfirm openRes); [|by eexists _, st1].
  destruct (openConfirm_in_step k ctx fh (opr_Stateid openRes) st1 Hst1) as (r & st2 & E2 & Hst2).
  rewrite (M_bind_Some _ _ _ _ _ E2). by eexists _, st2.
Qed.
Lemma CloseFile_in_step k ctx fh sid st : in_step k st ->
  exists r st', CloseFile ctx fh sid st = Some (r, st') /\ in_step k st'.
Proof.
  intros Hst. destruct (numbered_run k st Hst) as (st0 & E0 & Hm0 & Hop). unfold CloseFile.
  rewrite (M_bind_Some _ _ _ _ _ E0). erewrite M_bind_Some by apply get_run. by apply (Hop _ _ _ _ _ _ _ OpClose).
Qed.

Lemma run_op_in_step k ctx op st : in_step k st -> exists err st', run_op ctx op st = Some (err, st') /\ in_step k st'.
Proof.
  intros Hst. destruct op as [dir name share mask vals doCreate excl|fh sid]; cbn [run_op].
  - destruct (Open_in_step k ctx dir name share mask vals doCreate excl st Hst) as (r & st' & E & Hst').
    rewrite (M_bind_Some _ _ _ _ _ E). by eexists _, st'.
  - destruct (CloseFile_in_step k ctx fh sid st Hst) as (r & st' & E & Hst'). rewrite (M_bind_Some _ _ _ _ _ E). by eexists _, st'.
Qed.

Lemma run_ops_in_step k ctx ops : forall st, in_step k st ->
  exists errs st', run_ops ctx ops st = Some (errs, st') /\ length errs = length ops /\ in_step k st'.
Proof.
  induction ops as [|op ops IH]; intros st Hst; cbn [run_ops]; [by exists [], st|].
  destruct (run_op_in_step k ctx op st Hst) as (err & st1 & E1 & Hst1). rewrite (M_bind_Some _ _ _ _ _ E1).
  destruct (IH st1 Hst1) as (errs & st2 & E2 & Hl & Hst2). rewrite (M_bind_Some _ _ _ _ _ E2).
  exists (err :: errs), st2. split; [done|]. split; [by cbn; rewrite Hl|done].
Qed.
End owner.

(** ** Theorem *)

(** C23.  Sequence ids of the open-owner.  A connection opens, confirms and
    closes files in any order, as often as it likes, across the wrap-around of
    the counter; a server that executes the requests (with success or an error
    that counts, none to be retried) and refuses or replays those out of step
    takes every one of them, and afterwards its counter is that of the
    connection. *)
Theorem open_owner {W S : Type} `{World W} (serve : Server S) (P : St W -> Prop) (abs : St W -> Owner S)
    `{!Transport (strict serve) P abs} `{!Assignable P abs} (ctx : Context) (ops : list owner_op) (st : St W)
    (Hserve : orderly serve (MinorVersion (st_conn st))) (HP : P st)
    (Hstep : forall m r, ow_last (abs st) = Some (m, r) -> m = c_openSeqid (st_conn st)) :
  exists errs st', run_ops ctx ops st = Some (errs, st') /\ length errs = length ops
    /\ ow_astray (abs st') = ow_astray (abs st)
    /\ forall m r, ow_last (abs st') = Some (m, r) -> m = c_openSeqid (st_conn st').
Proof.
  destruct (run_ops_in_step serve P abs (MinorVersion (st_conn st)) Hserve (ow_astray (abs st)) ctx ops st)
    as (errs & st' & E & Hl & [_ _ Hs Ha]); [by split|]. by exists errs, st'.
Qed.

Definition owner_st {S} (s : S) : St (Owner S) :=
  mkSt (mkOwner None 0 s) [] (set_rootFH (Some [x01]) (set_client 77 demo_verf (NewConn baseCaller (demo_cfg 0)))).

(** It opens every name but one, asks for confirmation, and closes. *)
Definition owner_serve : Server nat := fun n minor ops =>
  (match ops with
   | [APutfh _; AOpen a; AGetfh] =>
       if bool_decide (op_Name a = bstr "secret") then (NFS4ERR_ACCESS, [(OpPutfh, PVoid); (OpOpen, PFail NFS4ERR_ACCESS)])
       else opened demo_stateid (mkChangeInfo true 1 2) 2 [] DelegNone [x03]
   | [APutfh _; AOpenConfirm _] => (NFS4_OK, [(OpPutfh, PVoid); (OpOpenConfirm, PStateid demo_confirmed)])
   | [APutfh _; AClose _] => (NFS4_OK, [(OpPutfh, PVoid); (OpClose, PStateid demo_confirmed)])
   | _ => (NFS4ERR_NOTSUPP, [])
   end, Datatypes.S n).

Lemma owner_serve_orderly minor : orderly owner_serve minor.
Proof.
  intros s ops op n E. unfold owner_seqid in E.
  destruct ops as [|[] [|[] [|[] [|]]]]; try discriminate; try done. cbn. by case_bool_decide.
Qed.

Lemma owner_P {S} (s : S) : P40 (owner_st s).
Proof. eexists. split; [reflexivity|]. vm_compute. discriminate. Qed.

Definition open_named (name : bytes) : owner_op := OpenOp (Some [x01]) name OpenShareAccessRead [] [] false false.

Lemma open_owner_witness : exists st',
  @run_ops _ (served (strict owner_serve)) (Ctx 0) [open_named (bstr "a"); open_named (bstr "secret");
    CloseOp (Some [x03]) demo_confirmed; open_named (bstr "b")] (owner_st 0%nat)
  = Some ([None; Some (StatusError NFS4ERR_ACCESS); None; None], st') /\ ow_astray (st_world st') = 0%nat
    /\ c_openSeqid (st_conn st') = 6.
Proof.
  destruct (@open_owner _ _ (served (strict owner_serve)) owner_serve P40 st_world (transport40 _) assignable40 (Ctx 0)
    [open_named (bstr "a"); open_named (bstr "secret"); CloseOp (Some [x03]) demo_confirmed; open_named (bstr "b")]
    (owner_st 0%nat) (owner_serve_orderly _) (owner_P _)) as (errs & st' & E & _ & Ha & _); [done|].
  exists st'. vm_compute in E. injection E as <- <-. split; [reflexivity|]. split; [exact Ha|reflexivity].
Defined.

(** ** Where the counters part *)

(** A server whose directory [0x09] is stale: PUTFH fails, OPEN is not executed. *)
Definition stale_serve : Server nat := fun n minor ops =>
  match ops with
  | APutfh fh :: _ => if bool_decide (pf_FH fh = [x09]) then ((NFS4ERR_STALE, [(OpPutfh, PFail NFS4ERR_STALE)]), n)
                      else owner_serve n minor ops
  | _ => owner_serve n minor ops
  end.

(** The connection has counted an OPEN that the server did not: from then on
    every request of the owner is refused, although the server by itself would
    take them. *)
Lemma stale_directory :
  let ops := [open_named (bstr "a"); OpenOp (Some [x09]) (bstr "a") OpenShareAccessRead [] [] false false;
              open_named (bstr "b"); CloseOp (Some [x03]) demo_confirmed; open_named (bstr "b")] in
  option_map fst (@run_ops _ (served (strict stale_serve)) (Ctx 0) ops (owner_st 0%nat))
  = Some [None; Some (StatusError NFS4ERR_STALE); Some (StatusError NFS4ERR_BAD_SEQID);
          Some (StatusError NFS4ERR_BAD_SEQID); Some (StatusError NFS4ERR_BAD_SEQID)]
  /\ option_map fst (@run_ops _ (served stale_serve) (Ctx 0) ops (mkSt 0%nat [] (st_conn (owner_st 0%nat))))
  = Some [None; Some (StatusError NFS4ERR_STALE); None; None; None].
Proof. split; vm_compute; reflexivity. Qed.

(** The first request is answered NFS4ERR_DELAY, which counts. *)
Definition delay_serve : Server nat := fun n minor ops =>
  match n, ops with
  | O, [APutfh _; AOpen _; AGetfh] => ((NFS4ERR_DELAY, [(OpPutfh, PVoid); (OpOpen, PFail NFS4ERR_DELAY)]), 1%nat)
  | _, _ => owner_serve n minor ops
  end.

(** The retrying caller repeats the request with the same sequence id, which is
    a retransmission to the server: it replays its NFS4ERR_DELAY until the
    attempts are used up. *)
Lemma delayed_open :
  let ops := [open_named (bstr "a")] in
  (exists err st', @run_ops _ (served (strict delay_serve)) (Ctx 0) ops (owner_st 0%nat) = Some ([Some err], st')
    /\ ow_astray (st_world st') = 9%nat)
  /\ option_map fst (@run_ops _ (served delay_serve) (Ctx 0) ops (mkSt 0%nat [] (st_conn (owner_st 0%nat)))) = Some [None].
Proof. split; [eexists _, _; split; vm_compute; reflexivity|vm_compute; reflexivity]. Qed.

(** [nextSeqid] is atomic, but a sequence id is taken before the request is
    sent: two goroutines that share a connection can send in the other order.
    After a first OPEN one goroutine takes its id and, before it sends, another
    opens a file, which is refused. *)
Lemma overtaken_open :
  let run name := @run_ops _ (served (strict owner_serve)) (Ctx 0) [open_named (bstr name)] in
  option_map fst ((_ ← run "a"; _ ← nextSeqid; run "b") (owner_st 0%nat)) = Some [Some (StatusError NFS4ERR_BAD_SEQID)].
Proof. vm_compute. reflexivity. Qed.
