(* ===== verification/MountCorrect.v ===== *)
(** * Mounting: theorems

    [Mount] against the handshake it is meant to perform.  [handshake40] and
    [handshake41] ask the server directly, compound by compound; the theorems say
    that [Mount] asks the same questions in the same order, ends where the
    handshake ends, and installs what the handshake yields. *)

From S2P Require Import Prelude GoError Nfs4Const GoIO Xdr Rpc RpcClient Attr Nfs4Types Nfs4Args.
From S2P Require Import Nfs4Res Compound Nfs4Spec Nfs4ResSpec CompoundCorrect Session Caller.
From S2P Require Import CallerCorrect Conn ConnSpec ConnCorrect.

(** ** Answers of a server that keeps to the protocol *)

Definition reply_status (p : Reply) : Z :=
  match p with
  | PFail st | PSetattr st _ => st
  | PClidInuse _ _ => NFS4ERR_CLID_INUSE
  | _ => NFS4_OK
  end.

(** One reply per operation up to the first failure, whose status is the
    compound's. *)
Fixpoint proper (rs : list Res) (status : Z) (ps : list Resop) : Prop :=
  match rs, ps with
  | [], [] => status = NFS4_OK
  | r :: rs, (_, p) :: ps =>
      answers r p /\
      if reply_status p =? NFS4_OK then p <> PFail NFS4_OK /\ proper rs status ps
      else ps = [] /\ status = reply_status p
  | _, _ => False
  end.

Lemma updated_status r p : answers r p -> Res_Status (updated r p) = reply_status p.
Proof. by destruct r, p. Qed.

Lemma proper_one r status ps : proper [r] status ps -> exists op p,
  ps = [(op, p)] /\ answers r p /\ p <> PFail NFS4_OK /\ status = reply_status p
  /\ results_after [r] ps = [updated r p].
Proof.
  destruct ps as [|[op p] ps]; [done|]. cbn [proper]. intros [Ha Hp]. exists op, p.
  destruct (Z.eqb_spec (reply_status p) NFS4_OK) as [E|E].
  - destruct Hp as [Hne Hps]. destruct ps; [|done]. cbn in Hps. split_and!; congruence || done.
  - destruct Hp as [-> ->]. split_and!; try done. by intros ->.
Qed.

(** The server answers these operations properly, and without asking to retry. *)
Definition answers_properly {S} (serve : Server S) (minor : Z) (ops : list Arg) (rs : list Res) : Prop :=
  forall s, let r := (serve s minor ops).1 in proper rs r.1 r.2 /\ isRetriableStatus r.1 = false.

(** ** The handshakes *)

Section handshakes.
Context {S : Type} (serve : Server S) (minor : Z).

Definition refused (fmt : string) (status : Z) : error := Wrapf fmt [] (StatusError status).

Definition setclientid_args (name : bytes) : SetclientidArgs :=
  mkSetclientidArgs (zero_array 8) name 0 (bstr "tcp") (bstr "0.0.0.0.0.0") 0.

(** The root handle. *)
Definition ask_root (s : S) : result bytes * S :=
  let '((status, ps), s) := serve s minor [APutrootfh; AGetfh] in
  (match ps with
   | [_; (_, PGetfh fh)] => inr fh
   | _ => inl (refused "nfs4: fetching root filehandle: %w" status)
   end, s).

(** A client id, its confirmation, the root handle. *)
Definition handshake40 (name : bytes) (s : S) : result (Z * bytes * bytes) * S :=
  let '((status, ps), s) := serve s minor [ASetclientid (setclientid_args name)] in
  match ps with
  | [(_, PSetclientid id confirm)] =>
      let '((status, _), s) := serve s minor [ASetclientidConfirm (mkSetclientidConfirmArgs id confirm)] in
      if status =? NFS4_OK then
        let '(root, s) := ask_root s in ((fun fh => (id, confirm, fh)) <$> root, s)
      else (inl (refused "nfs4: SETCLIENTID_CONFIRM rejected: %w" status), s)
  | _ => (inl (refused "nfs4: SETCLIENTID rejected: %w" status), s)
  end.

Definition channel : ChannelAttrs := mkChannelAttrs 0 1048576 1048576 65536 16 16.

(** What a v4.1 mount obtains. *)
Record Mounted41 := mkMounted41 {
  m_clientID : Z; m_eirSequence : Z; m_sessionID : bytes; m_maxRequests : Z; m_root : bytes
}.

(** A client id, a session, the end of the grace period (which may have ended
    already), the root handle. *)
Definition handshake41 (name : bytes) (s : S) : result Mounted41 * S :=
  let '((status, ps), s) := serve s minor [AExchangeID (mkExchangeIDArgs (zero_array 8) name ExchgIDFlagUseNonPNFS)] in
  match ps with
  | [(_, PExchangeID id seq _ _ _ _ _ _)] =>
      let '((status, ps), s) := serve s minor [ACreateSession (mkCreateSessionArgs id seq 0 channel channel 0)] in
      match ps with
      | [(_, PCreateSession sid _ _ fore _ _ _)] =>
          let '((status, _), s) := serve s minor [AReclaimComplete (mkReclaimCompleteArgs false)] in
          if (status =? NFS4_OK) || (status =? NFS4ERR_COMPLETE_ALREADY) then
            let '(root, s) := ask_root s in ((fun fh => mkMounted41 id seq sid (ca_MaxRequests fore) fh) <$> root, s)
          else (inl (refused "nfs4: RECLAIM_COMPLETE rejected: %w" status), s)
      | _ => (inl (refused "nfs4: CREATE_SESSION rejected: %w" status), s)
      end
  | _ => (inl (refused "nfs4: EXCHANGE_ID rejected: %w" status), s)
  end.

(** The server answers the questions of the handshakes. *)
Definition mounts_properly40 : Prop :=
  (forall name, answers_properly serve minor [ASetclientid (setclientid_args name)] [RSetclientid zeroSetclientidRes])
  /\ (forall a, answers_properly serve minor [ASetclientidConfirm a] [RStatus zeroStatusRes])
  /\ answers_properly serve minor [APutrootfh; AGetfh] [RStatus zeroStatusRes; RGetfh zeroGetfhRes].

Definition mounts_properly41 : Prop :=
  (forall a, answers_properly serve minor [AExchangeID a] [RExchangeID zeroExchangeIDRes])
  /\ (forall a, answers_properly serve minor [ACreateSession a] [RCreateSession zeroCreateSessionRes])
  /\ answers_properly serve minor [AReclaimComplete (mkReclaimCompleteArgs false)]
       [RReclaimComplete (mkReclaimCompleteRes 0)]
  /\ answers_properly serve minor [APutrootfh; AGetfh] [RStatus zeroStatusRes; RGetfh zeroGetfhRes].

(** The name the client gives itself on a host called host. *)
Definition client_name (cfg : ConnConfig) : bytes :=
  if bool_decide (cc_ClientName cfg = []) then bstr "go-nfs-client/host" else cc_ClientName cfg.
End handshakes.

(** ** The steps *)

Section steps.
Context {W S : Type} `{World W} (serve : Server S) (P : St W -> Prop) (abs : St W -> S).
Context `{!Transport serve P abs} `{!Assignable P abs}.

(** A compound of the handshake and the single result it is for. *)
Lemma call_one_run ctx comp r st :
  answers_properly serve (cp_MinorVersion comp) (cp_ops comp) [r] -> P st ->
  exists st' op p, call ctx comp [r] st = Some ((answer [] (reply_status p, [(op, p)]), [updated r p]), st')
    /\ answers r p /\ p <> PFail NFS4_OK
    /\ serve (abs st) (cp_MinorVersion comp) (cp_ops comp) = ((reply_status p, [(op, p)]), abs st')
    /\ P st' /\ st_conn st' = st_conn st.
Proof.
  intros Hp HP. specialize (Hp (abs st)).
  destruct (serve (abs st) _ _) as [[status ps] s'] eqn:Es. cbn [fst snd] in Hp. destruct Hp as [Hp Hr].
  destruct (proper_one _ _ _ Hp) as (op & p & -> & Ha & Hne & -> & E).
  destruct (transport_call ctx comp [r] st _ _ HP Es Hr) as (st' & Ec & HP' & Hs' & Hc). exists st', op, p.
  unfold call. erewrite M_bind_Some by apply get_run. rewrite Ec. cbn [snd]. rewrite E, Hs'.
  split_and!; done.
Qed.

(** The last step of both handshakes. *)
Lemma fetchRootFH_run ctx st :
  answers_properly serve (MinorVersion (st_conn st)) [APutrootfh; AGetfh] [RStatus zeroStatusRes; RGetfh zeroGetfhRes] ->
  P st ->
  exists st', fetchRootFH ctx st = Some ((fun _ => tt) <$> (ask_root serve (MinorVersion (st_conn st)) (abs st)).1, st')
    /\ P st' /\ abs st' = (ask_root serve (MinorVersion (st_conn st)) (abs st)).2
    /\ (forall fh, (ask_root serve (MinorVersion (st_conn st)) (abs st)).1 = inr fh ->
          st_conn st' = set_rootFH (Some fh) (st_conn st)).
Proof.
  intros Hp HP. specialize (Hp (abs st)). unfold ask_root.
  destruct (serve (abs st) _ _) as [[status ps] s'] eqn:Es. cbn [fst snd] in Hp. destruct Hp as [Hp Hr].
  destruct (transport_call ctx (Add AGetfh (Add APutrootfh (compound (st_conn st))))
    [RStatus zeroStatusRes; RGetfh zeroGetfhRes] st _ _ HP Es Hr) as (st' & Ec & HP' & Hs' & Hc).
  unfold fetchRootFH. erewrite M_bind_Some by apply get_run.
  erewrite M_bind_Some by (unfold call; erewrite M_bind_Some by apply get_run; exact Ec).
  cbn [answer fst snd r_Err]. unfold CompoundResult_Err, Status_Err. cbn [cpr_Status].
  destruct ps as [|[op1 p1] ps]; [done|]. cbn [proper] in Hp. destruct Hp as [Ha1 Hp].
  destruct (Z.eqb_spec (reply_status p1) NFS4_OK) as [E1|E1].
  2: { destruct Hp as [-> ->]. destruct (Z.eqb_spec (reply_status p1) NFS4_OK); [done|]. by exists st'. }
  destruct Hp as [_ Hp]. destruct (proper_one _ _ _ Hp) as (op2 & p2 & -> & Ha2 & Hne & -> & E).
  destruct (Z.eqb_spec (reply_status p2) NFS4_OK) as [E2|E2].
  - destruct p2; try done; [by cbn in E2; subst|].
    destruct (assignable st' (set_rootFH (Some fh) (st_conn st')) HP') as [HP2 Ha]; [done..|].
    eexists. split; [reflexivity|]. split_and!; [exact HP2|exact (eq_trans Ha Hs')|].
    intros fh' [= <-]. cbn [st_conn]. by rewrite Hc.
  - exists st'. destruct p2; try done; by destruct p1.
Qed.
End steps.

(** ** Mounting over v4.0 *)

Section mount40.
Context {S : Type} (serve : Server S).
#[local] Instance the_world : World S := served serve.

Lemma rand_run n (st : St S) : world (rand_Read n) st = Some (inr (zero_array n), st).
Proof. by destruct st. Qed.

Lemma clientName_run (st : St S) : clientName st = Some (client_name (c_cfg (st_conn st)), st).
Proof.
  unfold clientName, client_name. erewrite M_bind_Some by apply get_run.
  destruct (bool_decide_reflect (cc_ClientName (c_cfg (st_conn st)) = [])); by destruct st.
Qed.

Lemma setClientID_run ctx (st : St S) (m := MinorVersion (st_conn st)) (name := client_name (c_cfg (st_conn st))) :
  answers_properly serve m [ASetclientid (setclientid_args name)] [RSetclientid zeroSetclientidRes] -> P40 st ->
  exists st' status op p, serve (st_world st) m [ASetclientid (setclientid_args name)] = ((status, [(op, p)]), st_world st')
    /\ P40 st' /\
    match p with
    | PSetclientid id confirm =>
        setClientID ctx st = Some (inr tt, st') /\ st_conn st' = set_client id confirm (st_conn st)
    | _ => setClientID ctx st
           = Some (inl (refused "nfs4: SETCLIENTID rejected: %w" status), st')
    end.
Proof.
  intros Hp HP. unfold setClientID. rewrite (M_bind_Some _ _ _ _ _ (rand_run 8 st)). cbn beta iota.
  rewrite (M_bind_Some _ _ _ _ _ (clientName_run st)). erewrite M_bind_Some by apply get_run. cbn zeta.
  destruct (call_one_run serve P40 st_world ctx (Add (ASetclientid (setclientid_args name)) (compound (st_conn st)))
    (RSetclientid zeroSetclientidRes) st Hp HP) as (st1 & op & p & E & Ha & Hne & Es & HP1 & Hc).
  rewrite (M_bind_Some _ _ _ _ _ E).
  destruct p; try done.
  - exists st1, status, op, (PFail status). split_and!; [exact Es|done|].
    cbn [answer fst snd]. cbn. unfold Status_Err. by destruct (Z.eqb_spec status NFS4_OK) as [->|].
  - exists (mkSt (st_world st1) (st_sessions st1) (set_client clientid confirm (st_conn st1))), NFS4_OK, op, (PSetclientid clientid confirm).
    split_and!; [exact Es|exact HP1|reflexivity|]. cbn. by rewrite Hc.
  - exists st1, NFS4ERR_CLID_INUSE, op, (PClidInuse netid addr). split_and!; [exact Es|done|reflexivity].
Qed.

Lemma confirmClientID_run ctx (st : St S) (m := MinorVersion (st_conn st))
    (a := mkSetclientidConfirmArgs (c_clientID (st_conn st)) (c_confirm (st_conn st))) :
  answers_properly serve m [ASetclientidConfirm a] [RStatus zeroStatusRes] -> P40 st ->
  exists st' status ps, serve (st_world st) m [ASetclientidConfirm a] = ((status, ps), st_world st')
    /\ P40 st' /\ st_conn st' = st_conn st /\
    confirmClientID ctx st
    = Some (if status =? NFS4_OK then inr tt
            else inl (refused "nfs4: SETCLIENTID_CONFIRM rejected: %w" status), st').
Proof.
  intros Hp HP. unfold confirmClientID. erewrite M_bind_Some by apply get_run.
  destruct (call_one_run serve P40 st_world ctx (Add (ASetclientidConfirm a) (compound (st_conn st)))
    (RStatus zeroStatusRes) st Hp HP) as (st1 & op & p & E & Ha & Hne & Es & HP1 & Hc).
  exists st1, (reply_status p), [(op, p)]. split_and!; [exact Es|done|done|].
  rewrite (M_bind_Some _ _ _ _ _ E). cbn [answer fst snd].
  destruct p; try done. cbn. unfold Status_Err. by destruct (status =? NFS4_OK).
Qed.
End mount40.

Lemma mount40_run {S : Type} (serve : Server S) (ctx : Context) (st : St S)
    (Hv : MinorVersion (st_conn st) < MinorV41) (HP : P40 st)
    (Hserve : mounts_properly40 serve (MinorVersion (st_conn st))) :
  let '(out, s') := handshake40 serve (MinorVersion (st_conn st)) (client_name (c_cfg (st_conn st))) (st_world st) in
  exists st', @Mount S (served serve) ctx st = Some ((fun _ => tt) <$> out, st')
    /\ st_world st' = s' /\ P40 st'
    /\ forall id confirm fh, out = inr (id, confirm, fh) ->
         st_conn st' = set_rootFH (Some fh) (set_client id confirm (st_conn st)).
Proof.
  destruct Hserve as (H1 & H2 & H3). unfold Mount. erewrite M_bind_Some by apply get_run.
  change (cc_MinorVersion (c_cfg (st_conn st))) with (MinorVersion (st_conn st)).
  destruct (Z.leb_spec MinorV41 (MinorVersion (st_conn st))); [lia|]. unfold handshake40, and_then.
  destruct (setClientID_run serve ctx st (H1 _) HP) as (st1 & status & op & p & Es & HP1 & Hp). rewrite Es.
  destruct p; try (rewrite (M_bind_Some _ _ _ _ _ Hp); exists st1; split_and!; done).
  destruct Hp as [E1 Hc1]. rewrite (M_bind_Some _ _ _ _ _ E1).
  assert (MinorVersion (st_conn st1) = MinorVersion (st_conn st)) as Hm by by rewrite Hc1.
  destruct (confirmClientID_run serve ctx st1) as (st2 & status2 & ps2 & Es2 & HP2 & Hc2 & E2);
    [by rewrite Hm|done|]. rewrite Hc1 in Es2. cbn [set_client c_clientID c_confirm] in Es2.
  change (MinorVersion (set_client clientid confirm (st_conn st))) with (MinorVersion (st_conn st)) in Es2.
  rewrite Es2. rewrite (M_bind_Some _ _ _ _ _ E2). destruct (status2 =? NFS4_OK); [|by exists st2].
  destruct (@fetchRootFH_run S S (served serve) serve P40 st_world (transport40 serve) assignable40 ctx st2) as (st3 & E3 & HP3 & Hs3 & Hc3);
    [by rewrite Hc2, Hm|done|]. rewrite E3. rewrite Hc2, Hm in E3, Hs3, Hc3.
  destruct (ask_root serve _ (st_world st2)) as [root s'] eqn:Er. cbn [fst snd] in *.
  exists st3. rewrite Hc2, Hm, Er. split_and!; [by destruct root|done|done|].
  intros id c fh. destruct root as [|fh']; [done|]. intros [= <- <- <-]. rewrite (Hc3 _ eq_refl). by rewrite Hc1.
Qed.

(** Mounting over v4.0.  To a server that keeps to the protocol, [Mount]
    is the handshake SETCLIENTID, SETCLIENTID_CONFIRM with the id and verifier
    it was given, then PUTROOTFH and GETFH: a refusal ends it there and is
    returned with its status; otherwise the connection holds the client id, the
    verifier and the root handle, and nothing else of it has changed. *)
Theorem mount_v40 {S : Type} (serve : Server S) (ctx : Context) (st : St S)
    (Hv : MinorVersion (st_conn st) < MinorV41) (HP : P40 st)
    (Hserve : mounts_properly40 serve (MinorVersion (st_conn st))) :
  let '(out, s') := handshake40 serve (MinorVersion (st_conn st)) (client_name (c_cfg (st_conn st))) (st_world st) in
  exists st', @Mount S (served serve) ctx st = Some ((fun _ => tt) <$> out, st')
    /\ st_world st' = s' /\ P40 st'
    /\ forall id confirm fh, out = inr (id, confirm, fh) ->
         st_conn st' = set_rootFH (Some fh) (set_client id confirm (st_conn st)).
Proof. by apply mount40_run. Qed.

Lemma mount_v40_witness :
  exists st', @Mount nat (served demo_serve) (Ctx 0) (mkSt 0%nat [] (NewConn baseCaller (demo_cfg 0)))
    = Some (inr tt, st')
    /\ st_conn st' = set_rootFH (Some [x01]) (set_client 77 demo_verf (NewConn baseCaller (demo_cfg 0))).
Proof.
  pose proof (@mount_v40 nat demo_serve (Ctx 0) (mkSt 0%nat [] (NewConn baseCaller (demo_cfg 0)))
    ltac:(vm_compute; reflexivity)
    ltac:(eexists; split; [reflexivity|vm_compute; discriminate])
    ltac:(split_and!; intros; intros s; cbn; split_and!; done)) as (st' & E & _ & _ & Hc).
  exists st'. split; [exact E|exact (Hc _ _ _ eq_refl)].
Defined.

(** ** Mounting over v4.1 *)

Section mount41.
Context {S : Type} (serve : Server S).
#[local] Instance world41 : World S := served (with_session serve).

Lemma exchangeID_run ctx (st : St S) (m := MinorVersion (st_conn st)) (name := client_name (c_cfg (st_conn st)))
    (a := mkExchangeIDArgs (zero_array 8) name ExchgIDFlagUseNonPNFS) :
  answers_properly serve m [AExchangeID a] [RExchangeID zeroExchangeIDRes] -> P40 st ->
  exists st' status op p, serve (st_world st) m [AExchangeID a] = ((status, [(op, p)]), st_world st')
    /\ P40 st' /\ st_sessions st' = st_sessions st /\
    match p with
    | PExchangeID id seq _ _ _ _ _ _ =>
        exchangeID ctx st = Some (inr tt, st') /\ st_conn st' = set_exchanged id seq (st_conn st)
    | _ => exchangeID ctx st = Some (inl (refused "nfs4: EXCHANGE_ID rejected: %w" status), st')
    end.
Proof.
  intros Hp HP. unfold exchangeID.
  rewrite (M_bind_Some _ _ _ _ _ (rand_run (with_session serve) 8 st)). cbn beta iota.
  rewrite (M_bind_Some _ _ _ _ _ (clientName_run (with_session serve) st)).
  erewrite M_bind_Some by apply get_run. cbn zeta.
  destruct (@call_one_run S S world41 (with_session serve) (P40_at (st_sessions st)) st_world (transport40_at _ _)
    ctx (Add (AExchangeID a) (compound (st_conn st))) (RExchangeID zeroExchangeIDRes) st)
    as (st1 & op & p & E & Ha & Hne & Es & [HP1 Hss] & Hc); [exact Hp|done|].
  erewrite M_bind_Some by exact E. destruct p; try done.
  - exists st1, status, op, (PFail status). split_and!; [exact Es|done|done|].
    cbn. unfold Status_Err. by destruct (Z.eqb_spec status NFS4_OK) as [->|].
  - exists (mkSt (st_world st1) (st_sessions st1) (set_exchanged clientid seq (st_conn st1))), NFS4_OK, op,
      (PExchangeID clientid seq flags protect minor major scope impls).
    split_and!; [exact Es|exact HP1|exact Hss|reflexivity|]. cbn. by rewrite Hc.
Qed.

(** The session a mount installs. *)
Definition installed (sid : bytes) (maxRequests : Z) : Session := NewSession sid (Z.max 1 maxRequests).

Lemma NewSession_clamp sid n : NewSession sid (if n <? 1 then 1 else n) = installed sid n.
Proof. unfold installed. f_equal. destruct (Z.ltb_spec n 1); lia. Qed.

Lemma installed_idle sid n : idle (installed sid n).
Proof.
  unfold installed, NewSession, idle. destruct (Z.ltb_spec (Z.max 1 n) 1); [lia|]. cbn. rewrite length_replicate.
  split_and!; [|done|lia|lia]. by apply Forall_replicate.
Qed.

Lemma installed_due sid n : due (installed sid n) = 1.
Proof.
  unfold installed, NewSession, due. destruct (Z.ltb_spec (Z.max 1 n) 1); [lia|]. cbn.
  by destruct (Z.to_nat (Z.max 1 n)) eqn:E; [lia|].
Qed.

Lemma installed_slots sid n : SlotCount (session_after true (session_after true (installed sid n))) = Z.max 1 n.
Proof.
  unfold installed, NewSession, SlotCount, session_after, blen. destruct (Z.ltb_spec (Z.max 1 n) 1); [lia|]. cbn.
  assert (length (replicate (Z.to_nat (Z.max 1 n)) (mkSlot 1 false)) = Z.to_nat (Z.max 1 n)) as Hl
    by apply length_replicate.
  destruct (replicate _ _) eqn:E; cbn in *; lia.
Qed.

Lemma createSession_run ctx (st : St S) (m := MinorVersion (st_conn st))
    (a := mkCreateSessionArgs (c_clientID (st_conn st)) (c_eirSequence (st_conn st)) 0 channel channel 0) :
  answers_properly serve m [ACreateSession a] [RCreateSession zeroCreateSessionRes] -> P40 st ->
  exists st' status op p, serve (st_world st) m [ACreateSession a] = ((status, [(op, p)]), st_world st') /\
    match p with
    | PCreateSession sid _ _ fore _ _ _ =>
        createSession ctx st = Some (inr tt, st') /\ P41_at (length (st_sessions st)) st'
        /\ st_sessions st' = st_sessions st ++ [installed sid (ca_MaxRequests fore)]
        /\ exists cfg, c_caller (st_conn st) = retryCaller baseCaller cfg
           /\ st_conn st' = set_session (retryCaller (sessionCaller baseCaller (length (st_sessions st))) cfg)
                              (length (st_sessions st)) (st_conn st)
    | _ => createSession ctx st = Some (inl (refused "nfs4: CREATE_SESSION rejected: %w" status), st')
    end.
Proof.
  intros Hp HP. unfold createSession. erewrite M_bind_Some by apply get_run. cbn zeta.
  destruct (@call_one_run S S world41 (with_session serve) (P40_at (st_sessions st)) st_world (transport40_at _ _)
    ctx (Add (ACreateSession a) (compound (st_conn st))) (RCreateSession zeroCreateSessionRes) st)
    as (st1 & op & p & E & Ha & Hne & Es & [HP1 Hss] & Hc); [exact Hp|done|].
  erewrite M_bind_Some by exact E. destruct p; try done.
  - exists st1, status, op, (PFail status). split; [exact Es|].
    cbn. unfold Status_Err. by destruct (Z.eqb_spec status NFS4_OK) as [->|].
  - destruct HP as (cfg & Hcaller & Hmax).
    set (n := length (st_sessions st)).
    exists (mkSt (st_world st1) (st_sessions st ++ [installed sid (ca_MaxRequests fore)])
      (set_session (retryCaller (sessionCaller baseCaller n) cfg) n (st_conn st))), NFS4_OK, op,
      (PCreateSession sid seq flags fore back ird1 ird2).
    split; [exact Es|]. split_and!; [| |done|by exists cfg].
    + destruct st1 as [w1 ss1 cn1]. cbn [st_sessions st_conn] in Hss, Hc. subst ss1 cn1.
      unfold answer. cbn beta iota.
      match goal with |- context [Status_Err ?x] => change (Status_Err x) with (@None error) end. cbn iota.
      erewrite M_bind_Some by reflexivity. erewrite M_bind_Some by apply get_run.
      cbn [st_conn]. rewrite Hcaller, NewSession_clamp. reflexivity.
    + exists cfg, (installed sid (ca_MaxRequests fore)). cbn [st_conn st_sessions].
      split_and!; [done|done|by apply list_lookup_middle|by apply installed_idle].
Qed.

(** The session sees one compound more; the server sees the same ones. *)
Lemma behind_properly n minor ops rs : answers_properly serve minor ops rs ->
  answers_properly (behind_session n serve) minor ops rs.
Proof. intros Hp [s ss]. specialize (Hp s). unfold behind_session. cbn [fst snd]. by destruct (serve s minor ops). Qed.

Lemma ask_root_behind n minor s ss :
  ask_root (behind_session n serve) minor (s, ss)
  = ((ask_root serve minor s).1, ((ask_root serve minor s).2, alter (session_after true) n ss)).
Proof. unfold ask_root, behind_session. cbn [fst snd]. by destruct (serve s minor _) as [[status ps] s']. Qed.

Lemma reclaimComplete_run n ctx (st : St S) (m := MinorVersion (st_conn st)) :
  answers_properly serve m [AReclaimComplete (mkReclaimCompleteArgs false)] [RReclaimComplete (mkReclaimCompleteRes 0)] ->
  P41_at n st ->
  exists st' status ps, serve (st_world st) m [AReclaimComplete (mkReclaimCompleteArgs false)] = ((status, ps), st_world st')
    /\ P41_at n st' /\ st_conn st' = st_conn st
    /\ st_sessions st' = alter (session_after true) n (st_sessions st)
    /\ reclaimComplete ctx st
       = Some (if (status =? NFS4_OK) || (status =? NFS4ERR_COMPLETE_ALREADY) then inr tt
               else inl (refused "nfs4: RECLAIM_COMPLETE rejected: %w" status), st').
Proof.
  intros Hp HP. unfold reclaimComplete. erewrite M_bind_Some by apply get_run.
  destruct (call_one_run (behind_session n serve) (P41_at n) world_sessions ctx
    (Add (AReclaimComplete (mkReclaimCompleteArgs false)) (compound (st_conn st)))
    (RReclaimComplete (mkReclaimCompleteRes 0)) st (behind_properly _ _ _ _ Hp) HP)
    as (st1 & op & p & E & Ha & Hne & Es & HP1 & Hc).
  unfold behind_session, world_sessions in Es. cbn [fst snd] in Es.
  destruct (serve (st_world st) _ _) as [r s'] eqn:Er. injection Es as -> -> Hss.
  exists st1, (reply_status p), [(op, p)]. split_and!; [done|done|done|done|].
  rewrite (M_bind_Some _ _ _ _ _ E). cbn [answer fst snd].
  destruct p; try done. cbn.
  by destruct (status =? NFS4_OK), (status =? NFS4ERR_COMPLETE_ALREADY).
Qed.
End mount41.

(** C21.  Mounting over v4.1.  To a server that keeps to the protocol, [Mount]
    is the handshake EXCHANGE_ID, CREATE_SESSION, RECLAIM_COMPLETE, then
    PUTROOTFH and GETFH.  The first two go out bare; then a session with the id
    the server gave and one slot per request it allows, at least one, is put
    beneath the retrying caller, and the last two carry its SEQUENCE.  A refusal
    ends the mount with its status, except that RECLAIM_COMPLETE may already be
    done.  Afterwards the session is idle, its first slot is due sequence id 3,
    and the connection can call through it. *)
Theorem mount_v41 {S : Type} (serve : Server S) (ctx : Context) (st : St S)
    (Hv : MinorV41 <= MinorVersion (st_conn st)) (HP : P40 st)
    (Hserve : mounts_properly41 serve (MinorVersion (st_conn st))) :
  let '(out, s') := handshake41 serve (MinorVersion (st_conn st)) (client_name (c_cfg (st_conn st))) (st_world st) in
  exists st', @Mount S (served (with_session serve)) ctx st = Some ((fun _ => tt) <$> out, st')
    /\ st_world st' = s'
    /\ forall x, out = inr x ->
         let n := length (st_sessions st) in
         P41_at n st' /\
         exists cfg sess, c_caller (st_conn st) = retryCaller baseCaller cfg
           /\ st_sessions st' = st_sessions st ++ [sess]
           /\ s_id sess = m_sessionID x /\ SlotCount sess = Z.max 1 (m_maxRequests x) /\ due sess = 3
           /\ st_conn st' = set_rootFH (Some (m_root x))
                (set_session (retryCaller (sessionCaller baseCaller n) cfg) n
                  (set_exchanged (m_clientID x) (m_eirSequence x) (st_conn st))).
Proof.
  destruct Hserve as (H1 & H2 & H3 & H4). unfold Mount. erewrite M_bind_Some by apply get_run.
  change (cc_MinorVersion (c_cfg (st_conn st))) with (MinorVersion (st_conn st)).
  destruct (Z.leb_spec MinorV41 (MinorVersion (st_conn st))); [|lia]. unfold handshake41, mountV41, and_then.
  destruct (exchangeID_run serve ctx st (H1 _) HP) as (st1 & status & op & p & Es & HP1 & Hss1 & Hp). rewrite Es.
  destruct p; try (rewrite (M_bind_Some _ _ _ _ _ Hp); exists st1; split_and!; done).
  destruct Hp as [E1 Hc1]. rewrite (M_bind_Some _ _ _ _ _ E1).
  assert (MinorVersion (st_conn st1) = MinorVersion (st_conn st)) as Hm by by rewrite Hc1.
  destruct (createSession_run serve ctx st1) as (st2 & status2 & op2 & p2 & Es2 & Hp2); [by rewrite Hm|done|].
  rewrite Hc1 in Es2. cbn [set_exchanged c_clientID c_eirSequence] in Es2.
  change (MinorVersion (set_exchanged clientid seq (st_conn st))) with (MinorVersion (st_conn st)) in Es2.
  rewrite Es2. destruct p2; try (rewrite (M_bind_Some _ _ _ _ _ Hp2); exists st2; split_and!; done).
  destruct Hp2 as (E2 & HP2 & Hss2 & cfg & Hcfg & Hc2). rewrite (M_bind_Some _ _ _ _ _ E2). rewrite Hss1 in *.
  assert (MinorVersion (st_conn st2) = MinorVersion (st_conn st)) as Hm2 by (rewrite Hc2, Hc1; done).
  destruct (reclaimComplete_run serve (length (st_sessions st)) ctx st2) as (st3 & status3 & ps3 & Es3 & HP3 & Hc3 & Hss3 & E3);
    [by rewrite Hm2|exact HP2|]. rewrite Hm2 in Es3. rewrite Es3, (M_bind_Some _ _ _ _ _ E3).
  destruct (_ || _); [|by exists st3].
  destruct (@fetchRootFH_run S (S * list Session) (served (with_session serve))
      (behind_session (length (st_sessions st)) serve) (P41_at (length (st_sessions st))) world_sessions
      (transport_behind _ _) (assignable_behind _) ctx st3)
    as (st4 & E4 & HP4 & Hs4 & Hc4); [apply behind_properly; by rewrite Hc3, Hm2|done|].
  rewrite E4. rewrite Hc3, Hm2 in E4, Hs4, Hc4. unfold world_sessions in Hs4, Hc4.
  rewrite Hc3, Hm2. unfold world_sessions. rewrite ask_root_behind in Hs4, Hc4 |- *. cbn [fst snd] in Hs4, Hc4 |- *.
  destruct (ask_root serve _ (st_world st3)) as [root s'] eqn:Er. cbn [fst snd] in *. injection Hs4 as Hw4 Hss4.
  exists st4. split_and!; [by destruct root|done|].
  intros x Hx. destruct root as [|fh]; [done|]. injection Hx as <-. split; [done|].
  exists cfg, (session_after true (session_after true (installed sid (ca_MaxRequests fore)))).
  split_and!; [by rewrite <- Hcfg, Hc1| |done| | |by rewrite (Hc4 _ eq_refl), Hc2, Hc1].
  - rewrite Hss4, Hss3, Hss2. rewrite <- (Nat.add_0_r (length (st_sessions st))). by rewrite !alter_app_r.
  - apply installed_slots.
  - pose proof (installed_idle sid (ca_MaxRequests fore)).
    rewrite !due_after, installed_due by (repeat apply idle_after; done). done.
Qed.

Lemma mount_v41_witness :
  exists st', @Mount nat (served (with_session demo_serve)) (Ctx 0) (mkSt 0%nat [] (NewConn baseCaller (demo_cfg 1)))
    = Some (inr tt, st') /\ P41 st' /\ RootFH (st_conn st') = Some [x01]
    /\ exists sess, st_sessions st' = [sess] /\ SlotCount sess = 4.
Proof.
  pose proof (@mount_v41 nat demo_serve (Ctx 0) (mkSt 0%nat [] (NewConn baseCaller (demo_cfg 1)))
    ltac:(vm_compute; discriminate)
    ltac:(eexists; split; [reflexivity|vm_compute; discriminate])
    ltac:(split_and!; intros; intros s; cbn; split_and!; done)) as (st' & E & _ & H).
  destruct (H _ eq_refl) as (HP & cfg & sess & _ & Hss & _ & Hn & _ & Hc).
  exists st'. split; [exact E|]. split; [exists 0%nat; exact HP|]. split; [rewrite Hc; reflexivity|].
  exists sess. split; [exact Hss|exact Hn].
Defined.
