(* ===== verification/DialCorrect.v ===== *)
(** * Dialling and version negotiation: theorems (src/nfs4/transport.go) *)

From S2P Require Import Prelude GoError Nfs4Const GoIO Xdr XdrSpec Rpc RpcClient Attr Nfs4Types.
From S2P Require Import Nfs4Args Nfs4Res Compound Nfs4Spec Nfs4ResSpec CompoundCorrect Session.
From S2P Require Import Caller CallerCorrect Conn ConnSpec ConnCorrect MountCorrect.

(** ** A server that refuses v4.1 *)

Section refused41.
Context {S : Type} (serve : Server S) (e : Z).
Context (Hrefuse : forall s ops, serve s MinorV41 ops = ((e, []), s)) (He : isRetriableStatus e = false).
#[local] Instance world_refusing : World S := served serve.

Lemma call_refused ctx comp results st : P40 st -> cp_MinorVersion comp = MinorV41 ->
  exists st', call ctx comp results st = Some ((answer [] (e, []), results), st')
    /\ P40_at (st_sessions st) st' /\ st_world st' = st_world st /\ st_conn st' = st_conn st.
Proof.
  intros HP Hm.
  destruct (transport40_at serve (st_sessions st) ctx comp results st (e, []) (st_world st)) as (st' & E & HP' & Hw & Hc);
    [done|by rewrite Hm|done|].
  exists st'. split; [|done]. unfold call. erewrite M_bind_Some by apply get_run.
  etrans; [exact E|by destruct results].
Qed.

(** Through a session: the compound, SEQUENCE included, is refused as a whole,
    and the caller cannot tell that SEQUENCE was. *)
Lemma call_refused_session n ctx comp results st : P41_at n st -> cp_MinorVersion comp = MinorV41 ->
  exists st', call ctx comp results st = Some ((answer [] (e, []), results), st')
    /\ P41_at n st' /\ st_world st' = st_world st /\ st_conn st' = st_conn st.
Proof.
  intros (cfg & sess & Hc & Hmax & Hn & Hi) Hm.
  destruct st as [w ss cn]. cbn [st_conn st_sessions st_world] in *.
  exists (mkSt w (<[n := session_after true sess]> ss) cn). split_and!; [| |done..].
  - unfold call. erewrite M_bind_Some by apply get_run. cbn [st_conn]. rewrite Hc.
    cbn [CallCompound]. apply retry_forwards; [done|done| |by rewrite retriable_answer].
    apply (@session_call_run S (served serve) n sess ctx comp results results (answer [] (e, []))
      (mkSt w ss cn) w w zeroSequenceRes Hn Hi); [reflexivity|].
    cbn. by rewrite Hm, Hrefuse.
  - exists cfg, (session_after true sess). cbn [st_conn st_sessions]. pose proof (lookup_lt_Some _ _ _ Hn).
    split_and!; [done|done|by apply list_lookup_insert_eq|by apply idle_after].
Qed.

Lemma exchangeID_refused ctx st : P40 st -> MinorVersion (st_conn st) = MinorV41 ->
  exists st', exchangeID ctx st = Some (inr tt, st') /\ P40_at (st_sessions st) st'
    /\ st_world st' = st_world st /\ MinorVersion (st_conn st') = MinorV41.
Proof.
  intros HP Hv. unfold exchangeID. rewrite (M_bind_Some _ _ _ _ _ (rand_run serve VerifierSize st)). cbn beta iota.
  rewrite (M_bind_Some _ _ _ _ _ (clientName_run serve st)). erewrite M_bind_Some by apply get_run. cbn zeta.
  match goal with |- context [call ctx ?comp ?rs] => destruct (call_refused ctx comp rs st HP Hv) as (st1 & E & [HP1 Hss] & Hw & Hc) end.
  rewrite (M_bind_Some _ _ _ _ _ E).
  exists (mkSt (st_world st1) (st_sessions st1) (set_exchanged 0 0 (st_conn st1))).
  split_and!; [reflexivity|split; [exact HP1|exact Hss]|exact Hw|]. cbn. by rewrite Hc.
Qed.

Lemma createSession_refused ctx st : P40 st -> MinorVersion (st_conn st) = MinorV41 ->
  exists st', createSession ctx st = Some (inr tt, st') /\ P41_at (length (st_sessions st)) st'
    /\ st_world st' = st_world st /\ MinorVersion (st_conn st') = MinorV41.
Proof.
  intros HP Hv. unfold createSession. erewrite M_bind_Some by apply get_run. cbn zeta.
  match goal with |- context [call ctx ?comp ?rs] => destruct (call_refused ctx comp rs st HP Hv) as (st1 & E & [HP1 Hss] & Hw & Hc) end.
  rewrite (M_bind_Some _ _ _ _ _ E). unfold answer. cbn beta iota.
  match goal with |- context [Status_Err ?x] => change (Status_Err x) with (@None error) end. cbn iota.
  erewrite M_bind_Some by reflexivity. erewrite M_bind_Some by apply get_run. cbn [st_conn].
  destruct HP as (cfg & Hcaller & Hmax). rewrite Hc, Hcaller.
  eexists. split; [reflexivity|]. split_and!; [|exact Hw|exact Hv].
  exists cfg, (installed (zero_array SessionIDLen) 0). cbn [st_conn st_sessions]. rewrite Hss.
  split_and!; [done|done|by apply list_lookup_middle|by apply installed_idle].
Qed.

Lemma reclaimComplete_refused n ctx st : P41_at n st -> MinorVersion (st_conn st) = MinorV41 ->
  exists st', reclaimComplete ctx st = Some (inr tt, st') /\ P41_at n st'
    /\ st_world st' = st_world st /\ st_conn st' = st_conn st.
Proof.
  intros HP Hv. unfold reclaimComplete. erewrite M_bind_Some by apply get_run.
  match goal with |- context [call ctx ?comp ?rs] =>
    destruct (call_refused_session n ctx comp rs st HP Hv) as (st1 & E & ?) end.
  rewrite (M_bind_Some _ _ _ _ _ E). by exists st1.
Qed.

(** The v4.1 mount goes through its first three steps and fails at the root. *)
Lemma mount_refused ctx st : P40 st -> MinorVersion (st_conn st) = MinorV41 -> e <> NFS4_OK ->
  exists st', Mount ctx st = Some (inl (refused "nfs4: fetching root filehandle: %w" e), st')
    /\ st_world st' = st_world st.
Proof.
  intros HP Hv Hne. unfold Mount. erewrite M_bind_Some by apply get_run.
  change (cc_MinorVersion (c_cfg (st_conn st))) with (MinorVersion (st_conn st)). rewrite Hv.
  change (MinorV41 <=? MinorV41) with true. cbn iota. unfold mountV41, and_then.
  destruct (exchangeID_refused ctx st HP Hv) as (st1 & E1 & [HP1 _] & Hw1 & Hv1). rewrite (M_bind_Some _ _ _ _ _ E1).
  destruct (createSession_refused ctx st1 HP1 Hv1) as (st2 & E2 & HP2 & Hw2 & Hv2). rewrite (M_bind_Some _ _ _ _ _ E2).
  destruct (reclaimComplete_refused _ ctx st2 HP2 Hv2) as (st3 & E3 & HP3 & Hw3 & Hc3).
  rewrite (M_bind_Some _ _ _ _ _ E3). rewrite <- Hc3 in Hv2.
  unfold fetchRootFH. erewrite M_bind_Some by apply get_run.
  match goal with |- context [call ctx ?comp ?rs] =>
    destruct (call_refused_session _ ctx comp rs st3 HP3 Hv2) as (st4 & E4 & _ & Hw4 & _) end.
  rewrite (M_bind_Some _ _ _ _ _ E4). exists st4. split; [|congruence].
  cbn. unfold CompoundResult_Err, Status_Err. cbn. by destruct (Z.eqb_spec e NFS4_OK).
Qed.
End refused41.

Lemma withDefaults_attempts cfg : 1 <= rc_MaxAttempts (withDefaults cfg).
Proof. unfold withDefaults. cbn. destruct (Z.ltb_spec (rc_MaxAttempts cfg) 1); [|lia]. vm_compute. discriminate. Qed.

(** C38.  Negotiating down.  When the server refuses every v4.1 compound as a
    whole with a status that means it has no v4.1, [DialAuto] ends as a v4.0
    dial would have: the result is that of the v4.0 handshake, the connection is
    a fresh one of minor version 0 with the client id and root handle obtained,
    and nothing of the attempt is left in it. *)
Theorem dial_auto_fallback {S : Type} (serve : Server S) (e : Z) (ctx : Context) (address : bytes)
    (cred : OpaqueAuth) (cfg : ConnConfig) (st : St S)
    (He : In e [NFS4ERR_MINOR_VERS_MISMATCH; NFS4ERR_NOTSUPP; NFS4ERR_OP_ILLEGAL])
    (Hrefuse : forall s ops, serve s MinorV41 ops = ((e, []), s))
    (Hserve : mounts_properly40 serve MinorV40) :
  let '(out, s') := handshake40 serve MinorV40 (client_name cfg) (st_world st) in
  exists st', @DialAuto S (served serve) ctx address cred cfg st = Some ((fun _ => tt) <$> out, st')
    /\ st_world st' = s'
    /\ forall id confirm fh, out = inr (id, confirm, fh) ->
         st_conn st' = set_rpc true (set_rootFH (Some fh) (set_client id confirm
                         (NewConn baseCaller (with_minor MinorV40 cfg)))).
Proof.
  assert (isRetriableStatus e = false /\ e <> NFS4_OK
    /\ isMinorVersionFallback (refused "nfs4: fetching root filehandle: %w" e) = true) as (Hr & Hne & Hf).
  { destruct He as [<-|[<-|[<-|[]]]]; (split_and!; [reflexivity|discriminate|reflexivity]). }
  assert (forall minor (st : St S), P40 (mkSt (st_world st) (st_sessions st) (NewConn baseCaller (with_minor minor cfg)))) as HP.
  { intros minor st0. eexists. split; [reflexivity|]. apply withDefaults_attempts. }
  destruct (mount_refused serve e Hrefuse Hr ctx _ (HP MinorV41 st) eq_refl Hne) as (st1 & E1 & Hw1).
  unfold DialAuto.
  assert (@Dial S (served serve) ctx address cred (with_minor MinorV41 cfg) st
          = Some (inl (refused "nfs4: fetching root filehandle: %w" e), st1)) as E.
  { unfold Dial. destruct st as [w ss cn]. erewrite M_bind_Some by reflexivity. cbn iota.
    erewrite M_bind_Some by reflexivity. erewrite M_bind_Some by exact E1. cbn iota.
    by destruct st1. }
  rewrite (M_bind_Some _ _ _ _ _ E). cbn iota. rewrite Hf. cbn [negb]. cbn [st_world] in Hw1. rewrite <- Hw1.
  pose proof (mount40_run serve ctx
    (mkSt (st_world st1) (st_sessions st1) (NewConn baseCaller (with_minor MinorV40 cfg)))
    eq_refl (HP MinorV40 st1) Hserve) as Hm.
  cbn [st_conn st_world] in Hm.
  change (MinorVersion (NewConn baseCaller (with_minor MinorV40 cfg))) with MinorV40 in Hm.
  change (client_name (c_cfg (NewConn baseCaller (with_minor MinorV40 cfg)))) with (client_name cfg) in Hm.
  destruct (handshake40 serve MinorV40 (client_name cfg) (st_world st1)) as [out s'].
  destruct Hm as (st2 & E2 & Hw2 & _ & Hc2).
  unfold Dial. destruct st1 as [w1 ss1 cn1]. erewrite M_bind_Some by reflexivity. cbn iota.
  erewrite M_bind_Some by reflexivity. erewrite M_bind_Some by exact E2.
  destruct out as [err|[[id confirm] fh]].
  - exists st2. split_and!; [by destruct st2|done|done].
  - exists (mkSt (st_world st2) (st_sessions st2) (set_rpc true (st_conn st2))). split_and!; [done|done|].
    intros ? ? ? [= <- <- <-]. cbn [st_conn]. by rewrite (Hc2 _ _ _ eq_refl).
Qed.

(** A server that speaks v4.0 alone. *)
Definition demo_serve40 : Server nat := fun n minor ops =>
  if minor =? MinorV41 then ((NFS4ERR_MINOR_VERS_MISMATCH, []), n) else demo_serve n minor ops.

Lemma dial_auto_fallback_witness :
  exists st', @DialAuto nat (served demo_serve40) (Ctx 0) (bstr "server:2049") AuthNull (demo_cfg 0)
      (mkSt 0%nat [] (NewConn baseCaller (demo_cfg 0))) = Some (inr tt, st')
    /\ MinorVersion (st_conn st') = MinorV40 /\ RootFH (st_conn st') = Some [x01].
Proof.
  pose proof (@dial_auto_fallback nat demo_serve40 NFS4ERR_MINOR_VERS_MISMATCH (Ctx 0) (bstr "server:2049")
    AuthNull (demo_cfg 0) (mkSt 0%nat [] (NewConn baseCaller (demo_cfg 0)))
    ltac:(left; reflexivity) ltac:(intros; reflexivity)
    ltac:(split_and!; intros; intros s; cbn; split_and!; done)) as (st' & E & _ & Hc).
  exists st'. split; [exact E|]. split; rewrite (Hc _ _ _ eq_refl); reflexivity.
Defined.

(** *** What does not negotiate down *)

(** A server may also answer an operation it does not know with the operation
    number ILLEGAL, as the protocol asks; the decoder refuses that number, and
    the error it makes carries no status.  [isMinorVersionFallback], which lists
    NFS4ERR_OP_ILLEGAL, does not recognise it. *)
Lemma op_illegal_no_fallback :
  let reply := wire_compound_res NFS4ERR_OP_ILLEGAL [] [(OpIllegal, PFail NFS4ERR_OP_ILLEGAL)] in
  match (DecodeCompound [RExchangeID zeroExchangeIDRes] (Decoder.NewDecoder (bytes_NewReader reply))).1.1 with
  | inl err => isMinorVersionFallback (Wrapf "nfs4: EXCHANGE_ID: %w" [] err) = false
  | inr _ => False
  end.
Proof. vm_compute. reflexivity. Qed.
