(* ===== verification/GoPath.v ===== *)
(** * Paths and strings of the Go standard library

    [utf8.ValidString], [fs.ValidPath], [path.Base], [path.Split] and the
    functions of package strings that the client applies to paths. *)

From S2P Require Import Prelude.

Definition slash : byte := x2f.
Definition dot : bytes := [x2e].
Definition dotdot : bytes := [x2e; x2e].

(** ** utf8.ValidString *)

Definition in_range (lo hi : Z) (b : byte) : bool := (lo <=? Z_of_byte b) && (Z_of_byte b <=? hi).

(** The number of continuation bytes a first byte asks for, and the range of the
    first of them. *)
Definition utf8_first (b : byte) : option (nat * Z * Z) :=
  if in_range 0xC2 0xDF b then Some (1%nat, 0x80, 0xBF)
  else if in_range 0xE0 0xE0 b then Some (2%nat, 0xA0, 0xBF)
  else if in_range 0xE1 0xEC b then Some (2%nat, 0x80, 0xBF)
  else if in_range 0xED 0xED b then Some (2%nat, 0x80, 0x9F)
  else if in_range 0xEE 0xEF b then Some (2%nat, 0x80, 0xBF)
  else if in_range 0xF0 0xF0 b then Some (3%nat, 0x90, 0xBF)
  else if in_range 0xF1 0xF3 b then Some (3%nat, 0x80, 0xBF)
  else if in_range 0xF4 0xF4 b then Some (3%nat, 0x80, 0x8F)
  else None.

(** [k] continuation bytes are due, the next one in [lo..hi]. *)
Fixpoint utf8_valid (k : nat) (lo hi : Z) (s : bytes) : bool :=
  match s, k with
  | [], O => true
  | [], S _ => false
  | b :: s, O =>
      if in_range 0 0x7F b then utf8_valid O 0 0 s
      else match utf8_first b with
           | Some (k, lo, hi) => utf8_valid k lo hi s
           | None => false
           end
  | b :: s, S k => in_range lo hi b && utf8_valid k 0x80 0xBF s
  end.

Definition utf8_ValidString (s : bytes) : bool := utf8_valid O 0 0 s.

(** ** strings *)

(** [strings.Split(s, "/")]: [cur] is the element being read, reversed. *)
Fixpoint split_slash (cur : bytes) (s : bytes) : list bytes :=
  match s with
  | [] => [rev cur]
  | b :: s => if bool_decide (b = slash) then rev cur :: split_slash [] s else split_slash (b :: cur) s
  end.
Definition strings_Split (s : bytes) : list bytes := split_slash [] s.

Fixpoint drop_slashes (s : bytes) : bytes :=
  match s with
  | b :: s' => if bool_decide (b = slash) then drop_slashes s' else s
  | [] => []
  end.

(** [strings.TrimRight(s, "/")], [strings.Trim(s, "/")] and
    [strings.TrimSuffix(s, "/")]. *)
Definition strings_TrimRight (s : bytes) : bytes := rev (drop_slashes (rev s)).
Definition strings_Trim (s : bytes) : bytes := strings_TrimRight (drop_slashes s).
Definition strings_TrimSuffix (s : bytes) : bytes :=
  match rev s with
  | b :: r => if bool_decide (b = slash) then rev r else s
  | [] => s
  end.

(** ** path *)

(** What precedes the last slash, with it, and what follows, of a reversed
    path. *)
Fixpoint cut_slash (r : bytes) : bytes * bytes :=
  match r with
  | [] => ([], [])
  | b :: r' => if bool_decide (b = slash) then (r, []) else let '(d, f) := cut_slash r' in (d, b :: f)
  end.

Definition path_Split (p : bytes) : bytes * bytes :=
  let '(d, f) := cut_slash (rev p) in (rev d, rev f).

Definition path_Base (p : bytes) : bytes :=
  if bool_decide (p = []) then dot
  else
    let b := (path_Split (strings_TrimRight p)).2 in
    if bool_decide (b = []) then [slash] else b.

(** ** fs.ValidPath *)

Definition valid_elem (e : bytes) : bool :=
  negb (bool_decide (e = [])) && negb (bool_decide (e = dot)) && negb (bool_decide (e = dotdot)).

Definition fs_ValidPath (name : bytes) : bool :=
  utf8_ValidString name && (bool_decide (name = dot) || forallb valid_elem (strings_Split name)).

(** ** Lemmas *)

Fixpoint join_slash (l : list bytes) : bytes :=
  match l with
  | [] => []
  | [e] => e
  | e :: l => e ++ slash :: join_slash l
  end.

Definition no_slash (e : bytes) : Prop := Forall (fun b => b <> slash) e.

Lemma split_slash_spec s cur : no_slash cur ->
  Forall no_slash (split_slash cur s) /\ split_slash cur s <> [] /\ join_slash (split_slash cur s) = rev cur ++ s.
Proof.
  revert cur. induction s as [|b s IH]; intros cur Hcur; cbn [split_slash].
  - split_and!; [repeat constructor; by apply Forall_rev|done|by rewrite app_nil_r].
  - destruct (bool_decide_reflect (b = slash)) as [->|Hb].
    + destruct (IH [] ltac:(constructor)) as (H1 & H2 & H3). split_and!; [|done|].
      * constructor; [by apply Forall_rev|done].
      * cbn [join_slash]. destruct (split_slash [] s) as [|e l] eqn:E; [done|]. by rewrite H3.
    + destruct (IH (b :: cur) ltac:(by constructor)) as (H1 & H2 & H3). split_and!; [done..|].
      rewrite H3. cbn. by rewrite <- app_assoc.
Qed.

(** Splitting is the inverse of joining elements that hold no slash. *)
Lemma split_slash_elem e s cur : no_slash e ->
  split_slash cur (e ++ s) = split_slash (rev e ++ cur) s.
Proof.
  revert cur. induction e as [|b e IH]; intros cur He; [done|]. apply Forall_cons in He as [Hb He].
  cbn [app split_slash]. rewrite bool_decide_eq_false_2 by done. rewrite (IH _ He). cbn. by rewrite <- app_assoc.
Qed.

Lemma strings_Split_join l : l <> [] -> Forall no_slash l -> strings_Split (join_slash l) = l.
Proof.
  unfold strings_Split. induction l as [|e l IH]; [done|]. intros _ Hl. apply Forall_cons in Hl as [He Hl].
  destruct l as [|e' l].
  - cbn [join_slash]. rewrite <- (app_nil_r e) at 1. rewrite split_slash_elem by done. cbn.
    by rewrite app_nil_r, rev_involutive.
  - change (join_slash (e :: e' :: l)) with (e ++ slash :: join_slash (e' :: l)).
    rewrite split_slash_elem by done. cbn [split_slash]. rewrite bool_decide_eq_true_2 by done.
    rewrite app_nil_r, rev_involutive. f_equal. by apply IH.
Qed.

Lemma join_Split s : join_slash (strings_Split s) = s.
Proof. unfold strings_Split. by destruct (split_slash_spec s [] ltac:(constructor)) as (_ & _ & ->). Qed.

Lemma cut_slash_app e r : no_slash e ->
  cut_slash (e ++ slash :: r) = (slash :: r, e) /\ cut_slash e = ([], e).
Proof.
  induction 1 as [|b e Hb He [IH1 IH2]]; [done|]. cbn [app cut_slash].
  rewrite bool_decide_eq_false_2 by done. by rewrite IH1, IH2.
Qed.

Lemma path_Split_app d e : no_slash e ->
  path_Split (d ++ slash :: e) = (d ++ [slash], e) /\ path_Split e = ([], e).
Proof.
  intros He. unfold path_Split. assert (no_slash (rev e)) as Hr by (by apply Forall_rev).
  destruct (cut_slash_app (rev e) (rev d) Hr) as [H1 H2].
  rewrite rev_app_distr. cbn [rev]. rewrite <- app_assoc. cbn [app]. rewrite H1, H2. cbn [rev].
  by rewrite !rev_involutive.
Qed.

Lemma join_slash_snoc l e : l <> [] -> join_slash (l ++ [e]) = join_slash l ++ slash :: e.
Proof.
  induction l as [|e' l IH]; [done|]. intros _. destruct l as [|e'' l]; [done|].
  change (join_slash ((e' :: e'' :: l) ++ [e])) with (e' ++ slash :: join_slash ((e'' :: l) ++ [e])).
  rewrite IH by done. change (join_slash (e' :: e'' :: l)) with (e' ++ slash :: join_slash (e'' :: l)).
  by rewrite <- app_assoc.
Qed.

Lemma TrimSuffix_slash d : strings_TrimSuffix (d ++ [slash]) = d.
Proof. unfold strings_TrimSuffix. rewrite rev_app_distr. cbn. by rewrite rev_involutive. Qed.
