(* ===== verification/Fs.v ===== *)
(** * The read-only file system (src/client/fs.go)

    [Protocol] is the Go interface the file system is written against, over any
    state [X]; an operation may also wait for ever, or panic ([None]).  An [*FS] and the
    open files of it are values: their methods return the file afterwards, and a
    method that fills a buffer returns its contents afterwards.

    [readDirAll] asks for pages until the server says there are no more, which
    nothing forces it to say: [pages] bounds the number of pages the model looks
    at, and running out of it is [None]. *)

From S2P Require Import Prelude GoError Nfs4Const GoIO Xdr Attr Nfs4Types.
From S2P Require Import Nfs4Args Nfs4Res Caller GoPath.

(** ** Computations over the protocol *)

Definition Io (X A : Type) : Type := X -> option (A * X).

#[global] Instance Io_ret X : MRet (Io X) := fun A a x => Some (a, x).
#[global] Instance Io_bind X : MBind (Io X) := fun A B k m x =>
  match m x with Some (a, x') => k a x' | None => None end.

(** The monad of Caller is another one: neither is to be unfolded into the other. *)
#[global] Typeclasses Opaque Io M.

Lemma Io_bind_Some {X A B} (m : Io X A) (k : A -> Io X B) x a x' : m x = Some (a, x') ->
  (m ≫= k) x = k a x'.
Proof. intros E. unfold mbind, Io_bind. by rewrite E. Qed.

Lemma Io_bind_inv {X A B} (m : Io X A) (k : A -> Io X B) x b x' : (m ≫= k) x = Some (b, x') ->
  exists a x1, m x = Some (a, x1) /\ k a x1 = Some (b, x').
Proof. unfold mbind, Io_bind. destruct (m x) as [[a x1]|]; [|done]. intros E. by exists a, x1. Qed.

(** Takes apart [E : m x = Some _] along the computation, to its returns. *)
Ltac io_inv E :=
  repeat match type of E with
  | (_ ≫= _) _ = Some _ => let a := fresh "a" in let x := fresh "x" in apply Io_bind_inv in E as (a & x & _ & E)
  | (if ?b then _ else _) _ = Some _ => destruct b
  | (match ?o with _ => _ end) _ = Some _ => destruct o
  end;
  try (injection E; intros; subst); try done.

(** src/client/fs.go:31-38 *)
Class Protocol (X : Type) := {
  p_RootFH : X -> FileHandle;
  p_Lookup : Context -> FileHandle -> bytes -> Io X (result FileHandle);
  p_GetAttr : Context -> FileHandle -> list Z -> Io X (result (list Z * bytes));
  p_Read : Context -> FileHandle -> Z -> Z -> Io X (result (bytes * bool));
  p_Readdir : Context -> FileHandle -> Z -> bytes -> list Z -> Io X (result ReaddirRes);
  p_Readlink : Context -> FileHandle -> Io X (result bytes)
}.

(** ** Errors *)

(** src/client/fs.go:122-135 *)
Definition canonicalSentinel (err : error) : option error :=
  if errors_Is err ErrExist then Some ErrExist
  else if errors_Is err ErrNotExist then Some ErrNotExist
  else if errors_Is err ErrPermission then Some ErrPermission
  else if errors_Is err ErrInvalid then Some ErrInvalid
  else None.

(** For an error that is not nil, as every caller has made sure.
    src/client/fs.go:111-119 *)
Definition pathError (op : string) (name : bytes) (err : error) : error :=
  match canonicalSentinel err with
  | Some sentinel => PathError op name sentinel
  | None => PathError op name err
  end.

(** [return pathError(op, name, err)] when there is an error. *)
Definition or_pathError {A} (op : string) (name : bytes) (r : result A) : result A :=
  match r with inl err => inl (pathError op name err) | inr a => inr a end.

(** ** FS *)

(** src/client/fs.go:41-41 *)
Definition DefaultReadBlockSize : Z := Z.shiftl 1 20.

(** src/client/fs.go:45-53 *)
Record FS := mkFS { fs_ctx : Context; fs_ReadBlockSize : Z }.

(** src/client/fs.go:56-58 *)
Definition New : FS := mkFS Background 0.

(** src/client/fs.go:61-65 *)
Definition FS_WithContext (ctx : Context) (fsys : FS) : FS := mkFS ctx (fs_ReadBlockSize fsys).

(** src/client/fs.go:67-72 *)
Definition readBlock (fsys : FS) : Z :=
  if 0 <? fs_ReadBlockSize fsys then fs_ReadBlockSize fsys else DefaultReadBlockSize.

(** An open regular file.  src/client/fs.go:270-277 *)
Record file := mkFile {
  f_fsys : FS;
  f_fh : FileHandle;
  f_name : bytes;
  f_attrs : Attributes;
  f_offset : Z;
  f_eof : bool
}.

(** An open directory.  src/client/fs.go:310-318 *)
Record dirFile := mkDirFile {
  d_fsys : FS;
  d_fh : FileHandle;
  d_name : bytes;
  d_attrs : Attributes;
  d_entries : list fileInfo;
  d_read : bool;
  d_pos : Z
}.

(** The two implementations of [fs.File]. *)
Inductive FsFile :=
| regularFile (f : file)
| directoryFile (d : dirFile).

(** The built-in [copy(p, data)]: how much was copied, and [p] afterwards. *)
Definition copy_into (p data : bytes) : Z * bytes := (Z.min (blen p) (blen data), go_copy p data).

Section fs.
Context {X : Type} `{Protocol X} (pages : nat).

(** The loop of [resolve], which [resolveParent] and [Statvfs] repeat.
    src/client/fs.go:78-84 *)
Fixpoint lookup_all (ctx : Context) (fh : FileHandle) (comps : list bytes) : Io X (result FileHandle) :=
  match comps with
  | [] => mret (inr fh)
  | comp :: comps =>
      next ← p_Lookup ctx fh comp;
      match next with
      | inl err => mret (inl err)
      | inr next => lookup_all ctx next comps
      end
  end.

Definition rootFH : Io X FileHandle := fun x => Some (p_RootFH x, x).

(** src/client/fs.go:94-100 *)
Definition stat (fsys : FS) (fh : FileHandle) : Io X (result Attributes) :=
  got ← p_GetAttr (fs_ctx fsys) fh StandardMask;
  match got with
  | inl err => mret (inl err)
  | inr (mask, vals) => mret (attr_Decode mask vals)
  end.

(** src/client/fs.go:75-91 *)
Definition resolve (fsys : FS) (name : bytes) : Io X (result (FileHandle * Attributes)) :=
  fh ← rootFH;
  fh ← (if bool_decide (name = dot) then mret (inr fh)
        else lookup_all (fs_ctx fsys) fh (strings_Split name));
  match fh with
  | inl err => mret (inl err)
  | inr fh =>
      attrs ← stat fsys fh;
      match attrs with
      | inl err => mret (inl err)
      | inr attrs => mret (inr (fh, attrs))
      end
  end.

(** [base] of [Open], [Stat] and [Lstat]. *)
Definition base_name (name : bytes) : bytes := if bool_decide (name = dot) then dot else path_Base name.

(** src/client/fs.go:139-155 *)
Definition FS_Open (fsys : FS) (name : bytes) : Io X (result FsFile) :=
  if negb (fs_ValidPath name) then mret (inl (PathError "open" name ErrInvalid))
  else
    found ← resolve fsys name;
    match found with
    | inl err => mret (inl (pathError "open" name err))
    | inr (fh, attrs) =>
        let base := base_name name in
        if FileMode_IsDir (FileMode attrs) then
          mret (inr (directoryFile (mkDirFile fsys fh base attrs [] false 0)))
        else mret (inr (regularFile (mkFile fsys fh base attrs 0 false)))
    end.

(** src/client/fs.go:158-171 *)
Definition FS_Stat (fsys : FS) (name : bytes) : Io X (result fileInfo) :=
  if negb (fs_ValidPath name) then mret (inl (PathError "stat" name ErrInvalid))
  else
    found ← resolve fsys name;
    match found with
    | inl err => mret (inl (pathError "stat" name err))
    | inr (_, attrs) => mret (inr (FileInfo attrs (base_name name)))
    end.

(** The entries of one page: those kept so far, and the cookie reached.
    src/client/fs.go:203-214 *)
Fixpoint page_entries (es : list DirEntry) (out : list fileInfo) (cookie : Z) : result (list fileInfo * Z) :=
  match es with
  | [] => inr (out, cookie)
  | e :: es =>
      if bool_decide (de_Name e = dot) || bool_decide (de_Name e = dotdot) then page_entries es out (de_Cookie e)
      else
        match attr_Decode (de_AttrMask e) (de_AttrVals e) with
        | inl derr => inl derr
        | inr attrs => page_entries es (out ++ [FileInfo attrs (de_Name e)]) (de_Cookie e)
        end
  end.

(** The loop of [readDirAll].  src/client/fs.go:198-224 *)
Fixpoint readDir_loop (pages : nat) (fsys : FS) (fh : FileHandle) (cookie : Z) (cookieverf : bytes)
    (out : list fileInfo) : Io X (result (list fileInfo)) :=
  match pages with
  | O => fun _ => None
  | S pages =>
      res ← p_Readdir (fs_ctx fsys) fh cookie cookieverf StandardMask;
      match res with
      | inl err => mret (inl err)
      | inr res =>
          match page_entries (rddr_Entries res) out cookie with
          | inl derr => mret (inl derr)
          | inr (out, cookie) =>
              if rddr_EOF res then mret (inr out)
              else if bool_decide (rddr_Entries res = []) then mret (inr out)
              else readDir_loop pages fsys fh cookie (rddr_Cookieverf res) out
          end
      end
  end.

(** src/client/fs.go:193-226 *)
Definition readDirAll (fsys : FS) (fh : FileHandle) : Io X (result (list fileInfo)) :=
  readDir_loop pages fsys fh 0 (zero_array 8) [].

(** src/client/fs.go:174-190 *)
Definition FS_ReadDir (fsys : FS) (name : bytes) : Io X (result (list fileInfo)) :=
  if negb (fs_ValidPath name) then mret (inl (PathError "readdir" name ErrInvalid))
  else
    found ← resolve fsys name;
    match found with
    | inl err => mret (inl (pathError "readdir" name err))
    | inr (fh, attrs) =>
        if negb (FileMode_IsDir (FileMode attrs)) then
          mret (inl (PathError "readdir" name (NewError "not a directory")))
        else
          entries ← readDirAll fsys fh;
          mret (or_pathError "readdir" name entries)
    end.

(** src/client/fs.go:231-244 *)
Definition FS_ReadLink (fsys : FS) (name : bytes) : Io X (result bytes) :=
  if negb (fs_ValidPath name) then mret (inl (PathError "readlink" name ErrInvalid))
  else
    found ← resolve fsys name;
    match found with
    | inl err => mret (inl (pathError "readlink" name err))
    | inr (fh, _) =>
        target ← p_Readlink (fs_ctx fsys) fh;
        mret (or_pathError "readlink" name target)
    end.

(** src/client/fs.go:247-260 *)
Definition FS_Lstat (fsys : FS) (name : bytes) : Io X (result fileInfo) :=
  if negb (fs_ValidPath name) then mret (inl (PathError "lstat" name ErrInvalid))
  else
    found ← resolve fsys name;
    match found with
    | inl err => mret (inl (pathError "lstat" name err))
    | inr (_, attrs) => mret (inr (FileInfo attrs (base_name name)))
    end.

(** ** Open files *)

(** src/client/fs.go:279-279 *)
Definition file_Stat (f : file) : fileInfo := FileInfo (f_attrs f) (f_name f).

(** The count, the error, the buffer afterwards, the file afterwards.
    src/client/fs.go:281-304 *)
Definition file_Read (f : file) (p : bytes) : Io X (Z * option error * bytes * file) :=
  if f_eof f then mret (0, Some EOF, p, f)
  else
    let want := blen p in
    let want := if readBlock (f_fsys f) <? want then readBlock (f_fsys f) else want in
    got ← p_Read (fs_ctx (f_fsys f)) (f_fh f) (f_offset f) (u32 want);
    match got with
    | inl err => mret (0, Some (PathError "read" (f_name f) err), p, f)
    | inr (data, serverEOF) =>
        let '(n, p) := copy_into p data in
        let eof := if serverEOF && (blen data <=? n) then true else f_eof f in
        let f := mkFile (f_fsys f) (f_fh f) (f_name f) (f_attrs f) (u64 (f_offset f + n)) eof in
        if (n =? 0) && serverEOF then mret (0, Some EOF, p, f)
        else mret (n, None, p, f)
    end.

(** src/client/fs.go:320-320 *)
Definition dirFile_Stat (d : dirFile) : fileInfo := FileInfo (d_attrs d) (d_name d).

(** src/client/fs.go:322-324 *)
Definition dirFile_Read (d : dirFile) : Z * option error :=
  (0, Some (PathError "read" (d_name d) (NewError "is a directory"))).

(** What is left of [ReadDir] once the entries are there; a slice whose bounds
    are out of order panics, which is [None].  src/client/fs.go:338-352 *)
Definition next_entries (d : dirFile) (n : Z) : Io X (result (list fileInfo) * dirFile) :=
  let at_pos pos := mkDirFile (d_fsys d) (d_fh d) (d_name d) (d_attrs d) (d_entries d) (d_read d) pos in
  if n <=? 0 then mret (inr (bdrop (d_pos d) (d_entries d)), at_pos (blen (d_entries d)))
  else if blen (d_entries d) <=? d_pos d then mret (inl EOF, d)
  else
    let end_ := i64 (d_pos d + n) in
    let end_ := if blen (d_entries d) <? end_ then blen (d_entries d) else end_ in
    if end_ <? d_pos d then fun _ => None
    else mret (inr (btake (end_ - d_pos d) (bdrop (d_pos d) (d_entries d))), at_pos end_).

(** src/client/fs.go:329-353 *)
Definition dirFile_ReadDir (d : dirFile) (n : Z) : Io X (result (list fileInfo) * dirFile) :=
  if d_read d then next_entries d n
  else
    entries ← readDirAll (d_fsys d) (d_fh d);
    match entries with
    | inl err => mret (inl err, d)
    | inr entries =>
        next_entries (mkDirFile (d_fsys d) (d_fh d) (d_name d) (d_attrs d) entries true (d_pos d)) n
    end.
End fs.
