(* ===== verification/FsSpec.v ===== *)
(** * What a tree of directories promises the client

    [TreeStore] is the contract between a protocol and the read-only file
    system: handles, names beneath them, attributes, and directory listings that
    are handed out page by page, each page continuing after the cookie it is
    asked for.  The tree stays as it is while it is looked at. *)

From S2P Require Import Prelude GoError Nfs4Const GoIO Xdr Attr Nfs4Types.
From S2P Require Import Nfs4Args Nfs4Res Caller Conn GoPath Fs.

(** What follows the entry with a cookie; cookie 0 is the beginning. *)
Fixpoint after_cookie (cookie : Z) (l : list DirEntry) : list DirEntry :=
  match l with
  | [] => []
  | e :: l => if de_Cookie e =? cookie then l else after_cookie cookie l
  end.

Definition from_cookie (cookie : Z) (l : list DirEntry) : list DirEntry :=
  if cookie =? 0 then l else after_cookie cookie l.

(** A listing whose cookies tell its entries apart, and from the beginning. *)
Definition cookies_ok (l : list DirEntry) : Prop :=
  NoDup (map de_Cookie l) /\ Forall (fun e => de_Cookie e <> 0 /\ is_u64 (de_Cookie e)) l.

Record Tree := mkTree {
  t_root : bytes;
  t_names : bytes -> bytes -> Z + bytes;
  t_attrs : bytes -> Attributes;
  t_dir : bytes -> list DirEntry;
  t_verf : bytes -> bytes
}.

(** A page of a listing: not empty before the end, and the end announced only
    with it. *)
Definition page_ok (rest page : list DirEntry) (eof : bool) : Prop :=
  (exists more, rest = page ++ more /\ (eof = true -> more = [])) /\ (page = [] -> rest = []).

(** The contract holds for what can be asked: of the handles [reach], which
    contain the root and what is found from there, for names that are [sayable]. *)
Class TreeStore {X : Type} `{Protocol X} (inv : X -> Prop) (t : Tree) (reach sayable : bytes -> Prop) : Prop := {
  tree_reach : reach (t_root t) /\ forall fh name fh', reach fh -> t_names t fh name = inr fh' -> reach fh';
  tree_root x : inv x -> p_RootFH x = Some (t_root t);
  tree_lookup ctx fh name x : inv x -> reach fh -> sayable name ->
    exists x', p_Lookup ctx (Some fh) name x
      = Some (match t_names t fh name with
              | inr fh' => inr (Some fh')
              | inl status => inl (StatusError status)
              end, x') /\ inv x';
  tree_getattr ctx fh x : inv x -> reach fh ->
    exists mask vals x', p_GetAttr ctx (Some fh) StandardMask x = Some (inr (mask, vals), x') /\ inv x'
      /\ attr_Decode mask vals = inr (t_attrs t fh);
  tree_cookies fh : cookies_ok (t_dir t fh);
  tree_readdir ctx fh cookie verf x : inv x -> reach fh -> is_u64 cookie ->
    (cookie = 0 /\ verf = zero_array 8) \/ verf = t_verf t fh ->
    exists page eof x', p_Readdir ctx (Some fh) cookie verf StandardMask x
      = Some (inr (mkReaddirRes NFS4_OK (t_verf t fh) page eof), x') /\ inv x'
      /\ page_ok (from_cookie cookie (t_dir t fh)) page eof
}.
Arguments tree_reach {X _} inv t reach sayable {_}.
Arguments tree_root {X _ inv t reach sayable _} x.
Arguments tree_lookup {X _ inv t reach sayable _} ctx fh name x.
Arguments tree_getattr {X _ inv t reach sayable _} ctx fh x.
Arguments tree_cookies {X _ inv t reach sayable _} fh.
Arguments tree_readdir {X _ inv t reach sayable _} ctx fh cookie verf x.

(** ** What the client should see *)

(** The handle a path leads to, by its elements. *)
Fixpoint walk_names (names : bytes -> bytes -> Z + bytes) (fh : bytes) (elems : list bytes) : Z + bytes :=
  match elems with
  | [] => inr fh
  | e :: elems => match names fh e with inl status => inl status | inr fh' => walk_names names fh' elems end
  end.

Definition elements (name : bytes) : list bytes := if bool_decide (name = dot) then [] else strings_Split name.

Definition located (t : Tree) (name : bytes) : Z + bytes := walk_names (t_names t) (t_root t) (elements name).

(** Every handle on the way of sayable names can be asked about. *)
Lemma walk_reach {X : Type} `{Protocol X} (inv : X -> Prop) t reach sayable `{!TreeStore inv t reach sayable} elems :
  forall fh fh', reach fh -> walk_names (t_names t) fh elems = inr fh' -> reach fh'.
Proof.
  induction elems as [|e elems IH]; cbn [walk_names]; intros fh fh' Hfh E; [by injection E as <-|].
  destruct (t_names t fh e) as [|fh1] eqn:E1; [done|]. apply (IH fh1); [by eapply (tree_reach inv t reach sayable)|done].
Qed.

Lemma located_reach {X : Type} `{Protocol X} (inv : X -> Prop) t reach sayable `{!TreeStore inv t reach sayable} name fh :
  located t name = inr fh -> reach fh.
Proof. apply (walk_reach inv t reach sayable). apply (tree_reach inv t reach sayable). Qed.

(** An entry that is neither the directory nor its parent. *)
Definition proper_entry (e : DirEntry) : bool := negb (bool_decide (de_Name e = dot) || bool_decide (de_Name e = dotdot)).

(** The listing without them, decoded; the first entry that does not decode
    gives its error. *)
Fixpoint infos (l : list DirEntry) : result (list fileInfo) :=
  match l with
  | [] => inr []
  | e :: l =>
      if proper_entry e then
        match attr_Decode (de_AttrMask e) (de_AttrVals e), infos l with
        | inl err, _ => inl err
        | inr _, inl err => inl err
        | inr a, inr is_ => inr (FileInfo a (de_Name e) :: is_)
        end
      else infos l
  end.

(** ** Lemmas on pages *)

Lemma after_cookie_app l e more : NoDup (map de_Cookie (l ++ e :: more)) ->
  after_cookie (de_Cookie e) (l ++ e :: more) = more.
Proof.
  induction l as [|e' l IH]; cbn [app map after_cookie]; intros Hd; [by rewrite Z.eqb_refl|].
  apply NoDup_cons in Hd as [Hn Hd]. destruct (Z.eqb_spec (de_Cookie e') (de_Cookie e)) as [E|].
  - exfalso. apply Hn. rewrite E, map_app. apply list_elem_of_In, in_or_app. right. by left.
  - by apply IH.
Qed.

(** The cookie reached after the entries [seen]. *)
Definition cookie_after (seen : list DirEntry) : Z :=
  match last seen with Some e => de_Cookie e | None => 0 end.

Lemma from_cookie_seen seen rest : cookies_ok (seen ++ rest) ->
  from_cookie (cookie_after seen) (seen ++ rest) = rest.
Proof.
  intros [Hd Hz]. unfold cookie_after, from_cookie. destruct (last seen) as [e|] eqn:El.
  - apply last_Some in El as [l ->]. rewrite <- app_assoc in *. cbn [app] in *.
    destruct (Z.eqb_spec (de_Cookie e) 0) as [E|_]; [|by apply after_cookie_app].
    apply Forall_app in Hz as [_ Hz]. by apply Forall_cons in Hz as [[Hz _] _].
  - apply last_None in El as ->. done.
Qed.

Lemma cookie_after_u64 seen rest : cookies_ok (seen ++ rest) -> is_u64 (cookie_after seen).
Proof.
  intros [_ [Hz _]%Forall_app]. unfold cookie_after. destruct (last seen) as [e|] eqn:El; [|by split].
  apply last_Some in El as [l ->]. by apply Forall_app in Hz as [_ [[_ Hz] _]%Forall_cons].
Qed.

(** One page more, against the listing as a whole. *)
Lemma page_entries_spec page out cookie :
  page_entries page out cookie =
  match infos page with
  | inl err => inl err
  | inr is_ => inr (out ++ is_, match last page with Some e => de_Cookie e | None => cookie end)
  end.
Proof.
  revert out cookie. induction page as [|e page IH]; intros out cookie; cbn [page_entries infos].
  - by rewrite app_nil_r.
  - assert (forall c, match last (e :: page) with Some e => de_Cookie e | None => c end
             = match last page with Some e => de_Cookie e | None => de_Cookie e end) as Hlast
      by (intros; rewrite last_cons; by destruct (last page)).
    rewrite Hlast. unfold proper_entry. destruct (_ || _); cbn [negb]; [apply IH|].
    destruct (attr_Decode _ _) as [err|a]; [done|]. rewrite IH. destruct (infos page); [done|].
    by rewrite <- app_assoc.
Qed.

Lemma infos_app l1 l2 :
  infos (l1 ++ l2) = match infos l1, infos l2 with
                     | inl err, _ => inl err
                     | inr _, inl err => inl err
                     | inr i1, inr i2 => inr (i1 ++ i2)
                     end.
Proof.
  induction l1 as [|e l1 IH]; cbn [app infos]; [by destruct (infos l2)|].
  destruct (proper_entry e); [|done]. destruct (attr_Decode _ _); [done|]. rewrite IH.
  by destruct (infos l1), (infos l2).
Qed.

Lemma infos_length l : forall is_, infos l = inr is_ -> (length is_ <= length l)%nat.
Proof.
  induction l as [|e l IH]; cbn [infos]; intros is_ E; [by injection E as <-|].
  destruct (proper_entry e); [|specialize (IH _ E); cbn; lia].
  destruct (attr_Decode _ _); [done|]. destruct (infos l) as [|is1]; [done|]. injection E as <-.
  specialize (IH _ eq_refl). cbn. lia.
Qed.
