(* ===== verification/FsCorrect.v ===== *)
(** * The read-only file system: theorems *)

From S2P Require Import Prelude GoError Nfs4Const GoIO Xdr Attr Nfs4Types.
From S2P Require Import Nfs4Args Nfs4Res Caller Conn GoPath Fs FsSpec.

(** ** Errors *)

(** What a status becomes in a path error: the sentinel for it, by the numbers of
    the protocol (RFC 7530, 13.1), or itself. *)
Definition one_of (s : Z) (l : list Z) : bool := existsb (Z.eqb s) l.
Definition status_error (s : Z) : error :=
  if one_of s [17] then ErrExist                             (* EXIST *)
  else if one_of s [2; 70; 10014; 10020] then ErrNotExist    (* NOENT, STALE, FHEXPIRED, NOFILEHANDLE *)
  else if one_of s [1; 13; 30] then ErrPermission            (* PERM, ACCESS, ROFS *)
  else if one_of s [22; 10036; 10001; 10007] then ErrInvalid (* INVAL, BADXDR, BADHANDLE, BADTYPE *)
  else StatusError s.

Lemma pathError_status op name s : pathError op name (StatusError s) = PathError op name (status_error s).
Proof.
  unfold pathError, canonicalSentinel, status_error, errors_Is, one_of. cbn [errors_Is_with existsb StatusError_Is].
  rewrite !(bool_decide_eq_false_2 (StatusError s = _)) by done. cbn [orb]. rewrite !orb_false_r, !orb_assoc.
  unfold NFS4ERR_EXIST, NFS4ERR_NOENT, NFS4ERR_STALE, NFS4ERR_FHEXPIRED, NFS4ERR_NOFILEHANDLE, NFS4ERR_PERM,
    NFS4ERR_ACCESS, NFS4ERR_ROFS, NFS4ERR_INVAL, NFS4ERR_BADXDR, NFS4ERR_BADHANDLE, NFS4ERR_BADTYPE.
  repeat match goal with |- context [if ?b then _ else _] => destruct b; try done end.
Qed.

(** ** Names *)

Lemma drop_slashes_keep b s : b <> slash -> drop_slashes (b :: s) = b :: s.
Proof. intros Hb. cbn. by rewrite bool_decide_eq_false_2. Qed.

(** The last element of a path that does not end in a slash. *)
Lemma path_Base_last l e : e <> [] -> Forall no_slash (l ++ [e]) -> path_Base (join_slash (l ++ [e])) = e.
Proof.
  intros Hne Hl. apply Forall_app in Hl as [_ He]. apply Forall_cons in He as [He _].
  assert (exists p b, join_slash (l ++ [e]) = p ++ [b] /\ b <> slash
            /\ (p ++ [b] = e \/ exists d, p ++ [b] = d ++ slash :: e)) as (p & b & -> & Hb & Hp).
  { destruct (exists_last Hne) as (e0 & b & ->). apply Forall_app in He as [_ Hb]. apply Forall_cons in Hb as [Hb _].
    destruct (decide (l = [])) as [->|Hl].
    - exists e0, b. split_and!; [done|done|by left].
    - exists (join_slash l ++ slash :: e0), b. rewrite join_slash_snoc by done.
      split_and!; [by rewrite <- app_assoc|done|]. right. exists (join_slash l). by rewrite <- app_assoc. }
  unfold path_Base. rewrite bool_decide_eq_false_2 by (by destruct p).
  unfold strings_TrimRight. rewrite rev_app_distr. cbn [rev app]. rewrite drop_slashes_keep by done.
  change (b :: rev p) with (rev [b] ++ rev p). rewrite <- rev_app_distr, rev_involutive.
  destruct Hp as [->|[d ->]].
  - rewrite (proj2 (path_Split_app [] e He)). cbn [snd]. by rewrite bool_decide_eq_false_2.
  - rewrite (proj1 (path_Split_app d e He)). cbn [snd]. by rewrite bool_decide_eq_false_2.
Qed.

(** The name a file is given: the last element, or a dot for the root. *)
Lemma base_name_valid name : fs_ValidPath name = true -> base_name name = default dot (last (elements name)).
Proof.
  unfold base_name, elements, fs_ValidPath. intros H. apply andb_true_iff in H as [_ H].
  case_bool_decide as Hd; [done|]. cbn [orb] in H.
  destruct (split_slash_spec name [] ltac:(constructor)) as (Hl & Hne & Hj). fold (strings_Split name) in *.
  destruct (exists_last Hne) as (l & e & E). rewrite E in *. rewrite last_snoc. cbn [default].
  cbn [rev app] in Hj. rewrite <- Hj. apply path_Base_last; [|done].
  rewrite forallb_app in H. apply andb_true_iff in H as [_ H]. cbn in H. rewrite andb_true_r in H.
  unfold valid_elem in H. change (e <> []). intros ->. by cbn in H.
Qed.

Section tree.
Context {X : Type} `{Protocol X} (inv : X -> Prop) (t : Tree) {reach sayable : bytes -> Prop}.
Context `{!TreeStore inv t reach sayable}.

Lemma lookup_all_run ctx elems : forall fh x, inv x -> reach fh -> Forall sayable elems ->
  exists x', lookup_all ctx (Some fh) elems x
    = Some (match walk_names (t_names t) fh elems with
            | inr fh' => inr (Some fh')
            | inl s => inl (StatusError s)
            end, x') /\ inv x'.
Proof.
  induction elems as [|e elems IH]; intros fh x Hx Hfh Hsay; cbn [lookup_all walk_names]; [by exists x|].
  apply Forall_cons in Hsay as [He Hsay].
  destruct (tree_lookup ctx fh e x Hx Hfh He) as (x1 & E & Hx1). rewrite (Io_bind_Some _ _ _ _ _ E).
  destruct (t_names t fh e) as [s|fh'] eqn:En; [by exists x1|apply IH; [done|by eapply (tree_reach inv t reach sayable)|done]].
Qed.

Lemma resolve_run fsys name x : inv x -> Forall sayable (elements name) ->
  exists x', resolve fsys name x
    = Some (match located t name with
            | inr fh => inr (Some fh, t_attrs t fh)
            | inl s => inl (StatusError s)
            end, x') /\ inv x'.
Proof.
  intros Hx Hsay. unfold resolve.
  rewrite (Io_bind_Some rootFH _ x (Some (t_root t)) x) by (unfold rootFH; by rewrite tree_root).
  assert (exists x1, (if bool_decide (name = dot) then mret (inr (Some (t_root t)))
            else lookup_all (fs_ctx fsys) (Some (t_root t)) (strings_Split name)) x
          = Some (match located t name with inr fh => inr (Some fh) | inl s => inl (StatusError s) end, x1)
          /\ inv x1) as (x1 & E & Hx1).
  { unfold located, elements in *. case_bool_decide; [by exists x|apply lookup_all_run; [done|apply (tree_reach inv t reach sayable)|done]]. }
  rewrite (Io_bind_Some _ _ _ _ _ E). destruct (located t name) as [s|fh] eqn:El; [by exists x1|].
  destruct (tree_getattr (fs_ctx fsys) fh x1 Hx1 (located_reach inv t reach sayable name fh El)) as (mask & vals & x2 & E2 & Hx2 & Ha).
  exists x2. unfold stat. erewrite Io_bind_Some by (rewrite (Io_bind_Some _ _ _ _ _ E2); reflexivity).
  by rewrite Ha.
Qed.

(** ** Directories *)

Lemma readDir_loop_run fsys fh : forall pages seen rest verf out x, (length rest < pages)%nat -> inv x -> reach fh ->
  t_dir t fh = seen ++ rest -> (seen = [] /\ verf = zero_array 8) \/ verf = t_verf t fh ->
  exists x', readDir_loop pages fsys (Some fh) (cookie_after seen) verf out x
    = Some (match infos rest with inl err => inl err | inr is_ => inr (out ++ is_) end, x') /\ inv x'.
Proof.
  induction pages as [|pages IH]; intros seen rest verf out x Hp Hx Hfh Hdir Hv; [lia|]. cbn [readDir_loop].
  pose proof (tree_cookies fh) as Hck. rewrite Hdir in Hck.
  destruct (tree_readdir (fs_ctx fsys) fh (cookie_after seen) verf x Hx Hfh) as (page & eof & x1 & E & Hx1 & Hpage).
  { by eapply cookie_after_u64. }
  { destruct Hv as [[-> ->]|]; [by left|by right]. }
  rewrite Hdir, from_cookie_seen in Hpage by done. destruct Hpage as ((more & -> & Heof) & Hempty).
  rewrite (Io_bind_Some _ _ _ _ _ E). cbn [rddr_Entries rddr_EOF rddr_Cookieverf].
  rewrite page_entries_spec, infos_app. destruct (infos page) as [err|is_] eqn:Ei; [by exists x1|].
  destruct eof.
  { rewrite (Heof eq_refl). cbn [infos]. rewrite app_nil_r. by exists x1. }
  case_bool_decide as Hnil.
  { subst page. destruct (app_eq_nil _ _ (Hempty eq_refl)) as [_ ->]. injection Ei as <-.
    by exists x1. }
  replace (match last page with Some e => de_Cookie e | None => cookie_after seen end) with (cookie_after (seen ++ page)).
  2: { unfold cookie_after. rewrite last_app. by destruct (last page) eqn:El; [|apply last_None in El]. }
  destruct (IH (seen ++ page) more (t_verf t fh) (out ++ is_) x1) as (x2 & E2 & Hx2).
  - rewrite length_app in Hp. destruct page; [done|cbn in Hp; lia].
  - done.
  - done.
  - by rewrite <- app_assoc.
  - by right.
  - exists x2. rewrite E2. destruct (infos more); [done|]. by rewrite <- app_assoc.
Qed.

Lemma readDirAll_run fsys fh pages x : (length (t_dir t fh) < pages)%nat -> inv x -> reach fh ->
  exists x', readDirAll pages fsys (Some fh) x = Some (infos (t_dir t fh), x') /\ inv x'.
Proof.
  intros Hp Hx Hfh. destruct (readDir_loop_run fsys fh pages [] (t_dir t fh) (zero_array 8) [] x Hp Hx Hfh eq_refl)
    as (x' & E & Hx'); [by left|].
  exists x'. split; [|done]. unfold readDirAll. change 0 with (cookie_after []). rewrite E.
  by destruct (infos (t_dir t fh)).
Qed.
End tree.

(** ** Theorems *)

(** C24.  Looking at a name.  Over a protocol that serves a tree, for a name
    whose elements can be asked for, [Stat] and
    [Open] refuse what [fs.ValidPath] refuses without asking the server; they
    look up the elements of any other name one by one from the root; a name that
    does not resolve gives a path error that holds the sentinel of package fs
    its status stands for, and otherwise the result has the attributes of the
    object found and the last element as its name; [Open] gives a directory or a
    file as the attributes say, at its beginning. *)
Theorem fs_stat_open {X : Type} `{Protocol X} (inv : X -> Prop) (t : Tree)
    {reach sayable : bytes -> Prop} `{!TreeStore inv t reach sayable}
    (fsys : FS) (name : bytes) (x : X) (Hx : inv x) (Hname : Forall sayable (elements name)) :
  if fs_ValidPath name then
    let base := default dot (last (elements name)) in
    match located t name with
    | inl s => exists x1 x2,
        FS_Stat fsys name x = Some (inl (PathError "stat" name (status_error s)), x1) /\ inv x1 /\
        FS_Open fsys name x = Some (inl (PathError "open" name (status_error s)), x2) /\ inv x2
    | inr fh => exists x1 x2,
        FS_Stat fsys name x = Some (inr (FileInfo (t_attrs t fh) base), x1) /\ inv x1 /\
        FS_Open fsys name x
        = Some (inr (if FileMode_IsDir (FileMode (t_attrs t fh))
                     then directoryFile (mkDirFile fsys (Some fh) base (t_attrs t fh) [] false 0)
                     else regularFile (mkFile fsys (Some fh) base (t_attrs t fh) 0 false)), x2) /\ inv x2
    end
  else FS_Stat fsys name x = Some (inl (PathError "stat" name ErrInvalid), x) /\
       FS_Open fsys name x = Some (inl (PathError "open" name ErrInvalid), x).
Proof.
  unfold FS_Stat, FS_Open. destruct (fs_ValidPath name) eqn:Hv; cbn [negb]; [|done]. cbn zeta.
  destruct (resolve_run inv t fsys name x Hx Hname) as (x' & E & Hx'). rewrite !(Io_bind_Some _ _ _ _ _ E).
  destruct (located t name) as [s|fh]; exists x', x'.
  - rewrite !pathError_status. done.
  - rewrite base_name_valid by done. split_and!; try done. by destruct (FileMode_IsDir _).
Qed.

(** C9.  Listing a directory, by a name whose elements can be asked for.  Whatever the pages the server cuts a directory
    into, [ReadDir] ends after at most one page per entry and one more, and
    returns every entry once, in the server's order, without the directory and
    its parent; an entry whose attributes do not decode makes it an error, and a
    file that is not a directory is refused. *)
Theorem fs_readdir {X : Type} `{Protocol X} (inv : X -> Prop) (t : Tree)
    {reach sayable : bytes -> Prop} `{!TreeStore inv t reach sayable}
    (fsys : FS) (name fh : bytes) (pages : nat) (x : X) (Hx : inv x)
    (Hv : fs_ValidPath name = true) (Hname : Forall sayable (elements name)) (Hfh : located t name = inr fh)
    (Hpages : (length (t_dir t fh) < pages)%nat) :
  exists x', FS_ReadDir pages fsys name x
    = Some (if FileMode_IsDir (FileMode (t_attrs t fh))
            then or_pathError "readdir" name (infos (t_dir t fh))
            else inl (PathError "readdir" name (NewError "not a directory")), x')
    /\ inv x'.
Proof.
  unfold FS_ReadDir. rewrite Hv. cbn [negb].
  destruct (resolve_run inv t fsys name x Hx Hname) as (x1 & E & Hx1). rewrite (Io_bind_Some _ _ _ _ _ E), Hfh.
  destruct (FileMode_IsDir _); cbn [negb]; [|by exists x1].
  destruct (readDirAll_run inv t fsys fh pages x1 Hpages Hx1 (located_reach inv t reach sayable name fh Hfh)) as (x2 & E2 & Hx2).
  rewrite (Io_bind_Some _ _ _ _ _ E2). by exists x2.
Qed.
