(* ===== verification/DirCorrect.v ===== *)
(** * Open directories: theorems

    [dirFile.ReadDir] hands a listing out in chunks. *)

From S2P Require Import Prelude GoError Nfs4Const GoIO Xdr Attr Nfs4Types.
From S2P Require Import Nfs4Args Nfs4Res Caller Conn GoPath Fs FsSpec FsCorrect.

(** What [ReadDir(n)] answers when [rest] has not been handed out yet, and what
    is left. *)
Definition chunk (n : Z) (rest : list fileInfo) : result (list fileInfo) :=
  if n <=? 0 then inr rest else if bool_decide (rest = []) then inl EOF else inr (btake n rest).
Definition left_after (n : Z) (rest : list fileInfo) : list fileInfo := if n <=? 0 then [] else bdrop n rest.

Fixpoint chunks (ns : list Z) (rest : list fileInfo) : list (result (list fileInfo)) :=
  match ns with
  | [] => []
  | n :: ns => chunk n rest :: chunks ns (left_after n rest)
  end.

Definition handed (r : result (list fileInfo)) : list fileInfo := match r with inr is_ => is_ | inl _ => [] end.

(** The chunks are the listing in order, up to what is left. *)
Lemma chunks_concat ns : forall rest, exists more, rest = concat (map handed (chunks ns rest)) ++ more.
Proof.
  induction ns as [|n ns IH]; intros rest; cbn [chunks map concat]; [by exists rest|].
  destruct (IH (left_after n rest)) as [more E]. unfold chunk, left_after in *. destruct (n <=? 0); cbn [handed].
  - exists more. rewrite <- app_assoc, <- E. by rewrite app_nil_r.
  - exists more. case_bool_decide as Hr; cbn [handed].
    + subst rest. change (bdrop n (@nil fileInfo)) with (drop (Z.to_nat n) (@nil fileInfo)) in *.
      rewrite drop_nil in *. exact E.
    + rewrite <- app_assoc, <- E. unfold btake, bdrop. by rewrite take_drop.
Qed.

Section dir.
Context {X : Type} `{Protocol X} (pages : nat).

(** The calls [ReadDir(n)] in a row. *)
Fixpoint dirFile_reads (ns : list Z) (d : dirFile) : Io X (list (result (list fileInfo)) * dirFile) :=
  match ns with
  | [] => mret ([], d)
  | n :: ns =>
      out ← dirFile_ReadDir pages d n;
      let '(r, d) := out in
      rest ← dirFile_reads ns d;
      let '(rs, d) := rest in
      mret (r :: rs, d)
  end.

Definition at_entry (pos : Z) (d : dirFile) : dirFile :=
  mkDirFile (d_fsys d) (d_fh d) (d_name d) (d_attrs d) (d_entries d) (d_read d) pos.

Lemma next_entries_run d n x : 0 <= d_pos d <= blen (d_entries d) -> n < 2 ^ 63 - blen (d_entries d) ->
  exists pos, @next_entries X d n x = Some ((chunk n (bdrop (d_pos d) (d_entries d)), at_entry pos d), x)
    /\ d_pos d <= pos <= blen (d_entries d)
    /\ bdrop pos (d_entries d) = left_after n (bdrop (d_pos d) (d_entries d)).
Proof.
  intros Hpos Hn. unfold next_entries, chunk, left_after. destruct (Z.leb_spec n 0).
  { exists (blen (d_entries d)). split_and!; try done; [lia..|]. unfold bdrop, blen. rewrite Nat2Z.id.
    by apply drop_ge. }
  assert (bdrop (d_pos d) (d_entries d) = [] <-> blen (d_entries d) <= d_pos d) as Hnil.
  { unfold bdrop, blen in *. rewrite <- length_zero_iff_nil, length_drop. lia. }
  destruct (Z.leb_spec (blen (d_entries d)) (d_pos d)) as [Hle|Hlt].
  { rewrite bool_decide_eq_true_2 by by apply Hnil. exists (d_pos d). split_and!; try done; [by destruct d|lia..|].
    rewrite (proj2 Hnil Hle). unfold bdrop. by rewrite drop_nil. }
  rewrite bool_decide_eq_false_2 by (rewrite Hnil; lia). rewrite i64_id by (split; lia).
  set (e := if blen (d_entries d) <? d_pos d + n then blen (d_entries d) else d_pos d + n).
  assert (d_pos d <= e <= blen (d_entries d) /\ e = Z.min (blen (d_entries d)) (d_pos d + n)) as [He Hmin]
    by (unfold e; destruct (Z.ltb_spec (blen (d_entries d)) (d_pos d + n)); lia).
  destruct (Z.ltb_spec e (d_pos d)); [lia|]. clearbody e. exists e. split_and!; try done; [|lia..|].
  - assert (btake (e - d_pos d) (bdrop (d_pos d) (d_entries d)) = btake n (bdrop (d_pos d) (d_entries d))) as ->; [|done].
    unfold btake, bdrop, blen in *. destruct (decide (e = d_pos d + n)) as [->|]; [f_equal; lia|].
    rewrite !take_ge; [done|rewrite length_drop; lia..].
  - unfold bdrop, blen in *. rewrite drop_drop. destruct (decide (e = d_pos d + n)); [f_equal; lia|].
    rewrite !drop_ge by lia. done.
Qed.

Lemma dirFile_reads_run ns : forall d x, d_read d = true -> 0 <= d_pos d <= blen (d_entries d) ->
  Forall (fun n => n < 2 ^ 63 - blen (d_entries d)) ns ->
  exists d', dirFile_reads ns d x = Some ((chunks ns (bdrop (d_pos d) (d_entries d)), d'), x).
Proof.
  induction ns as [|n ns IH]; intros d x Hd Hpos Hns; cbn [dirFile_reads chunks]; [by exists d|].
  apply Forall_cons in Hns as [Hn Hns]. destruct (next_entries_run d n x Hpos Hn) as (pos & E & Hp & Hrest).
  erewrite Io_bind_Some by (unfold dirFile_ReadDir; rewrite Hd; exact E). cbn iota.
  destruct (IH (at_entry pos d) x) as [d' E']; try done; [cbn; lia|]. exists d'.
  rewrite (Io_bind_Some _ _ _ _ _ E'). cbn [at_entry d_pos d_entries]. by rewrite Hrest.
Qed.

(** When the listing fails it is asked for anew. *)
Lemma dirFile_reads_fail (inv : X -> Prop) d err : d_read d = false ->
  (forall x, inv x -> exists x', readDirAll pages (d_fsys d) (d_fh d) x = Some (inl err, x') /\ inv x') ->
  forall ns x, inv x -> exists x', dirFile_reads ns d x = Some ((map (fun _ => inl err) ns, d), x') /\ inv x'.
Proof.
  intros Hd Hfail ns. induction ns as [|n ns IH]; intros x Hx; cbn [dirFile_reads map]; [by exists x|].
  destruct (Hfail x Hx) as (x1 & E & Hx1). destruct (IH x1 Hx1) as (x2 & E2 & Hx2). exists x2. split; [|done].
  erewrite Io_bind_Some by (unfold dirFile_ReadDir; rewrite Hd, (Io_bind_Some _ _ _ _ _ E); reflexivity). cbn iota.
  by rewrite (Io_bind_Some _ _ _ _ _ E2).
Qed.
End dir.

(** ** Theorems *)

(** C26.  Reading a directory in chunks.  On a directory just opened, whatever
    numbers [ReadDir] is called with, as long as they stay below 2^63 less the
    size of the listing, its answers are the listing cut accordingly: a
    positive number gives at most so many of the entries not handed out yet and
    [io.EOF] once there are none, any other number gives all of them; together
    they are a prefix of the listing, without a gap or a repetition.  If the
    listing has an entry that does not decode every call reports that error. *)
Theorem dir_chunks {X : Type} `{Protocol X} (inv : X -> Prop) (t : Tree)
    {reach sayable : bytes -> Prop} `{!TreeStore inv t reach sayable} (fsys : FS) (fh base : bytes) (attrs : Attributes) (pages : nat) (ns : list Z) (x : X) (Hx : inv x)
    (Hfh : reach fh) (Hpages : (length (t_dir t fh) < pages)%nat)
    (Hns : Forall (fun n => n < 2 ^ 63 - Z.of_nat (length (t_dir t fh))) ns) :
  let d := mkDirFile fsys (Some fh) base attrs [] false 0 in
  exists rs d' x', dirFile_reads pages ns d x = Some ((rs, d'), x') /\
  match infos (t_dir t fh) with
  | inl err => rs = map (fun _ => inl err) ns
  | inr is_ => rs = chunks ns is_ /\ exists more, is_ = concat (map handed rs) ++ more
  end.
Proof.
  intros d.
  assert (forall x, inv x -> exists x', readDirAll pages (d_fsys d) (d_fh d) x = Some (infos (t_dir t fh), x') /\ inv x')
    as Hall by (intros; by apply (readDirAll_run inv t (reach := reach) (sayable := sayable))).
  destruct (infos (t_dir t fh)) as [err|is_] eqn:Ei.
  { destruct (dirFile_reads_fail pages inv d err eq_refl Hall ns x Hx) as (x' & E & _). by eexists _, _, _. }
  assert (blen is_ <= Z.of_nat (length (t_dir t fh))) as Hlen by (unfold blen; pose proof (infos_length _ _ Ei); lia).
  exists (chunks ns is_). setoid_rewrite (and_comm (chunks ns is_ = _)).
  destruct ns as [|n ns]; [eexists _, _; split; [reflexivity|]; split; [by exists is_|done]|].
  destruct (Hall x Hx) as (x1 & E & Hx1).
  set (d1 := mkDirFile fsys (Some fh) base attrs is_ true 0).
  assert (dirFile_reads pages (n :: ns) d x = dirFile_reads pages (n :: ns) d1 x1) as ->.
  { assert (dirFile_ReadDir pages d n x = dirFile_ReadDir pages d1 n x1) as E1
      by (unfold dirFile_ReadDir; change (d_read d) with false; cbn iota; by rewrite (Io_bind_Some _ _ _ _ _ E)).
    cbn [dirFile_reads]. unfold mbind at 1 3, Io_bind at 1 3. by rewrite E1. }
  pose proof (blen_nonneg is_).
  destruct (dirFile_reads_run pages (n :: ns) d1 x1 eq_refl) as [d' E']; [cbn; lia| |].
  { eapply Forall_impl; [exact Hns|]. cbn. intros; lia. }
  exists d', x1. split; [exact E'|]. split; [apply chunks_concat|done].
Qed.

(** The end of a chunk is computed without a bound: after a first chunk, asking
    for the rest with the largest int panics. *)
Lemma readdir_overflow {X : Type} `{Protocol X} (pages : nat) (d : dirFile) (x : X) :
  d_read d = true -> 0 < d_pos d < blen (d_entries d) -> blen (d_entries d) < 2 ^ 63 ->
  dirFile_ReadDir pages d (2 ^ 63 - 1) x = None.
Proof.
  intros Hd Hpos Hlen. unfold dirFile_ReadDir, next_entries. rewrite Hd. destruct (Z.leb_spec (2 ^ 63 - 1) 0); [lia|].
  destruct (Z.leb_spec (blen (d_entries d)) (d_pos d)); [lia|].
  assert (i64 (d_pos d + (2 ^ 63 - 1)) < 0) as Hneg by int_lia.
  destruct (Z.ltb_spec (blen (d_entries d)) (i64 (d_pos d + (2 ^ 63 - 1)))); [lia|].
  by destruct (Z.ltb_spec (i64 (d_pos d + (2 ^ 63 - 1))) (d_pos d)); [|lia].
Qed.
