(* ===== verification/File.v ===== *)
(** * The read-write file system (src/client/file.go)

    [RWProtocol] extends [Protocol] with what changes the server.  A [File] is a
    value; the methods that change its offset or close it return it afterwards.
    Here each method runs by itself, as a function of the file; FileShared has
    the lock and the goroutines that share a file. *)

From S2P Require Import Prelude GoError Nfs4Const GoIO Xdr Attr Nfs4Types.
From S2P Require Import Nfs4Args Nfs4Res Caller Conn GoPath Fs.

(** src/client/file.go:34-51 *)
Class RWProtocol (X : Type) := {
  rw_Protocol :: Protocol X;
  p_Open : Context -> FileHandle -> bytes -> Z -> list Z -> bytes -> bool -> bool -> Io X (result OpenResult);
  p_Write : Context -> FileHandle -> Stateid -> Z -> bytes -> Z -> Io X (result (Z * Z));
  p_Commit : Context -> FileHandle -> Z -> Z -> Io X (result unit);
  p_CloseFile : Context -> FileHandle -> Stateid -> Io X (result unit);
  p_SetAttr : Context -> FileHandle -> Stateid -> list Z -> bytes -> Io X (result unit)
}.

(** Its protocol is the state of the monad.  src/client/file.go:56-59 *)
Record RWFS := mkRWFS { rw_FS : FS }.

(** src/client/file.go:62-64 *)
Definition NewRW : RWFS := mkRWFS New.

(** src/client/file.go:67-69 *)
Definition RWFS_WithContext (ctx : Context) (fsys : RWFS) : RWFS := mkRWFS (FS_WithContext ctx (rw_FS fsys)).

(** ** Flags of package os (on Linux) *)

Definition O_RDONLY : Z := 0.
Definition O_WRONLY : Z := 1.
Definition O_RDWR : Z := 2.
Definition O_CREATE : Z := 64.
Definition O_EXCL : Z := 128.
Definition O_TRUNC : Z := 512.
Definition O_APPEND : Z := 1024.

(** [flag&bits != 0] *)
Definition has_flag (flag bits : Z) : bool := negb (Z.land flag bits =? 0).

(** [perm.Perm()] *)
Definition Perm (mode : Z) : Z := Z.land mode 511.

Inductive Whence := SeekStart | SeekCurrent | SeekEnd | SeekOther.

(** src/client/file.go:93-102 *)
Definition shareFor (flag : Z) : Z :=
  if has_flag flag O_WRONLY then OpenShareAccessWrite
  else if has_flag flag O_RDWR then OpenShareAccessBoth
  else OpenShareAccessRead.

(** src/client/file.go:158-171 *)
Record File := mkFileHandle {
  ff_ctx : Context;
  ff_name : bytes;
  ff_fh : FileHandle;
  ff_stateid : Stateid;
  ff_flag : Z;
  ff_share : Z;
  ff_offset : Z;
  ff_closed : bool
}.

Definition set_offset (n : Z) (f : File) : File :=
  mkFileHandle (ff_ctx f) (ff_name f) (ff_fh f) (ff_stateid f) (ff_flag f) (ff_share f) n (ff_closed f).
Definition set_closed (f : File) : File :=
  mkFileHandle (ff_ctx f) (ff_name f) (ff_fh f) (ff_stateid f) (ff_flag f) (ff_share f) (ff_offset f) true.

(** src/client/file.go:182-184 *)
Definition errClosed (f : File) (op : string) : error := PathError op (ff_name f) ErrClosed.

(** src/client/file.go:187-187 *)
Definition File_Name (f : File) : bytes := ff_name f.

(** src/client/file.go:405-414 *)
Record StatvfsInfo := mkStatvfsInfo {
  vi_BlockSize : Z;
  vi_Blocks : Z;
  vi_BlocksFree : Z;
  vi_BlocksAvail : Z;
  vi_Files : Z;
  vi_FilesFree : Z;
  vi_FilesAvail : Z;
  vi_MaxName : Z
}.

(** src/client/file.go:418-418 *)
Definition statvfsBlockSize : Z := 4096.

(** src/client/file.go:463-465 *)
Definition errIsExist (err : error) : bool := errors_Is err ErrExist.

Section file.
Context {X : Type} `{RWProtocol X}.

(** src/client/file.go:209-219 *)
Definition size (f : File) : Io X (result Z) :=
  got ← p_GetAttr (ff_ctx f) (ff_fh f) StandardMask;
  match got with
  | inl err => mret (inl err)
  | inr (mask, vals) =>
      match attr_Decode mask vals with
      | inl err => mret (inl err)
      | inr attrs => mret (inr (i64 (a_Size attrs)))
      end
  end.

(** src/client/file.go:190-206 *)
Definition File_Stat (f : File) : Io X (result fileInfo) :=
  if ff_closed f then mret (inl (errClosed f "stat"))
  else
    got ← p_GetAttr (ff_ctx f) (ff_fh f) StandardMask;
    match got with
    | inl err => mret (inl (pathError "stat" (ff_name f) err))
    | inr (mask, vals) =>
        match attr_Decode mask vals with
        | inl err => mret (inl (pathError "stat" (ff_name f) err))
        | inr attrs => mret (inr (FileInfo attrs (path_Base (ff_name f))))
        end
    end.

(** The loop of [ReadAt]: [done] is [p[:total]], already filled, and [todo] the
    rest of the buffer, which shrinks at every step; [S (length todo)] steps are
    therefore enough.  src/client/file.go:234-245 *)
Fixpoint readAt_loop (steps : nat) (f : File) (off : Z) (done todo : bytes) : Io X (Z * option error * bytes) :=
  if bool_decide (todo = []) then mret (blen done, None, done)
  else
    match steps with
    | O => fun _ => None
    | S steps =>
        got ← p_Read (ff_ctx f) (ff_fh f) (u64 (u64 off + blen done)) (u32 (blen todo));
        match got with
        | inl err => mret (blen done, Some (pathError "read" (ff_name f) err), done ++ todo)
        | inr (data, eof) =>
            let n := Z.min (blen todo) (blen data) in
            let done := done ++ btake n data in
            let todo := bdrop n todo in
            if eof || bool_decide (data = []) then mret (blen done, Some EOF, done ++ todo)
            else readAt_loop steps f off done todo
        end
    end.

(** The count, the error and the buffer afterwards.  src/client/file.go:223-246 *)
Definition ReadAt (f : File) (p : bytes) (off : Z) : Io X (Z * option error * bytes) :=
  if ff_closed f then mret (0, Some (errClosed f "read"), p)
  else if off <? 0 then mret (0, Some (PathError "read" (ff_name f) ErrInvalid), p)
  else readAt_loop (S (length p)) f off [] p.

(** src/client/file.go:249-270 *)
Definition File_Read (f : File) (p : bytes) : Io X (Z * option error * bytes * File) :=
  if ff_closed f then mret (0, Some (errClosed f "read"), p, f)
  else if bool_decide (p = []) then mret (0, None, p, f)
  else
    got ← p_Read (ff_ctx f) (ff_fh f) (u64 (ff_offset f)) (u32 (blen p));
    match got with
    | inl err => mret (0, Some (pathError "read" (ff_name f) err), p, f)
    | inr (data, eof) =>
        let len_p := blen p in
        let '(n, p) := copy_into p data in
        let f := set_offset (i64 (ff_offset f + n)) f in
        if ((n =? 0) || (eof && (n <? len_p))) && (n =? 0) then mret (0, Some EOF, p, f)
        else mret (n, None, p, f)
    end.

(** The loop of [writeAt]; every step that goes on has written a byte, so
    [S (length p)] steps are enough.  src/client/file.go:289-300 *)
Fixpoint writeAt_loop (steps : nat) (f : File) (p : bytes) (off total : Z) : Io X (Z * option error) :=
  if negb (total <? blen p) then mret (total, None)
  else
    match steps with
    | O => fun _ => None
    | S steps =>
        wrote ← p_Write (ff_ctx f) (ff_fh f) (ff_stateid f) (u64 (u64 off + total)) (bdrop total p) FileSync4;
        match wrote with
        | inl err => mret (total, Some (pathError "write" (ff_name f) err))
        | inr (n, _) =>
            if n =? 0 then mret (total, Some ErrShortWrite)
            else writeAt_loop steps f p off (total + n)
        end
    end.

(** src/client/file.go:288-301 *)
Definition writeAt (f : File) (p : bytes) (off : Z) : Io X (Z * option error) :=
  writeAt_loop (S (length p)) f p off 0.

(** src/client/file.go:275-286 *)
Definition WriteAt (f : File) (p : bytes) (off : Z) : Io X (Z * option error) :=
  if ff_closed f then mret (0, Some (errClosed f "write"))
  else if off <? 0 then mret (0, Some (PathError "write" (ff_name f) ErrInvalid))
  else writeAt f p off.

(** src/client/file.go:305-322 *)
Definition File_Write (f : File) (p : bytes) : Io X (Z * option error * File) :=
  if ff_closed f then mret (0, Some (errClosed f "write"), f)
  else
    off ← (if has_flag (ff_flag f) O_APPEND then size f else mret (inr (ff_offset f)));
    match off with
    | inl err => mret (0, Some (pathError "write" (ff_name f) err), f)
    | inr off =>
        wrote ← writeAt f p off;
        let '(n, err) := wrote in
        mret (n, err, set_offset (i64 (off + n)) f)
    end.

(** src/client/file.go:326-353 *)
Definition Seek (f : File) (offset : Z) (whence : Whence) : Io X (result Z * File) :=
  if ff_closed f then mret (inl (errClosed f "seek"), f)
  else
    base ← match whence with
           | SeekStart => mret (inr 0)
           | SeekCurrent => mret (inr (ff_offset f))
           | SeekEnd =>
               sz ← size f;
               mret (or_pathError "seek" (ff_name f) sz)
           | SeekOther => mret (inl (PathError "seek" (ff_name f) ErrInvalid))
           end;
    match base with
    | inl err => mret (inl err, f)
    | inr base =>
        let abs := i64 (base + offset) in
        if abs <? 0 then mret (inl (PathError "seek" (ff_name f) ErrInvalid), f)
        else mret (inr abs, set_offset abs f)
    end.

(** src/client/file.go:356-372 *)
Definition Truncate (f : File) (sz : Z) : Io X (result unit) :=
  if ff_closed f then mret (inl (errClosed f "truncate"))
  else if sz <? 0 then mret (inl (PathError "truncate" (ff_name f) ErrInvalid))
  else
    let '(mask, vals) := EncodeFattr (mkSettableAttrs None (Some (u64 sz)) None None) in
    r ← p_SetAttr (ff_ctx f) (ff_fh f) (ff_stateid f) mask vals;
    mret (or_pathError "truncate" (ff_name f) r).

(** src/client/file.go:375-386 *)
Definition Sync (f : File) : Io X (result unit) :=
  if ff_closed f then mret (inl (errClosed f "sync"))
  else
    r ← p_Commit (ff_ctx f) (ff_fh f) 0 0;
    mret (or_pathError "sync" (ff_name f) r).

(** src/client/file.go:389-401 *)
Definition Close (f : File) : Io X (result unit * File) :=
  if ff_closed f then mret (inl (errClosed f "close"), f)
  else
    let f := set_closed f in
    r ← p_CloseFile (ff_ctx f) (ff_fh f) (ff_stateid f);
    mret (or_pathError "close" (ff_name f) r, f).

(** [dir] and [base] of [resolveParent]. *)
Definition split_parent (name : bytes) : bytes * bytes :=
  let '(dir, base) := path_Split name in
  let dir := strings_TrimSuffix dir in
  (if bool_decide (dir = []) then dot else dir, base).

(** src/client/file.go:73-90 *)
Definition resolveParent (ctx : Context) (name : bytes) : Io X (result (FileHandle * bytes)) :=
  let '(dir, base) := split_parent name in
  parent ← rootFH;
  parent ← (if bool_decide (dir = dot) then mret (inr parent)
            else lookup_all ctx parent (strings_Split dir));
  match parent with
  | inl lerr => mret (inl lerr)
  | inr parent => mret (inr (parent, base))
  end.

(** src/client/file.go:108-153 *)
Definition OpenFile (ctx : Context) (name : bytes) (flag perm : Z) : Io X (result File) :=
  if negb (fs_ValidPath name) then mret (inl (PathError "open" name ErrInvalid))
  else
    found ← resolveParent ctx name;
    match found with
    | inl err => mret (inl (pathError "open" name err))
    | inr (parent, base) =>
        let share := shareFor flag in
        let doCreate := has_flag flag O_CREATE in
        let excl := has_flag flag O_EXCL in
        let '(createMask, createVals) :=
          if doCreate then EncodeFattr (mkSettableAttrs (Some (Perm perm)) None None None) else ([], []) in
        res ← p_Open ctx parent base share createMask createVals doCreate excl;
        match res with
        | inl err => mret (inl (pathError "open" name err))
        | inr res =>
            let f := mkFileHandle ctx name (or_FH res) (or_Stateid res) flag share 0 false in
            if has_flag flag O_TRUNC && negb (share =? OpenShareAccessRead) then
              truncated ← Truncate f 0;
              match truncated with
              | inl err => _ ← Close f; mret (inl (pathError "open" name err))
              | inr _ => mret (inr f)
              end
            else mret (inr f)
        end
    end.

(** src/client/file.go:423-459 *)
Definition RWFS_Statvfs (ctx : Context) (name : bytes) : Io X (result StatvfsInfo) :=
  if negb (fs_ValidPath name) then mret (inl (PathError "statvfs" name ErrInvalid))
  else
    fh ← rootFH;
    fh ← (if bool_decide (name = dot) then mret (inr fh) else lookup_all ctx fh (strings_Split name));
    match fh with
    | inl err => mret (inl (pathError "statvfs" name err))
    | inr fh =>
        got ← p_GetAttr ctx fh StatvfsMask;
        match got with
        | inl err => mret (inl (pathError "statvfs" name err))
        | inr (mask, vals) =>
            match DecodeStatvfs mask vals with
            | inl err => mret (inl (pathError "statvfs" name err))
            | inr sv =>
                let bs := statvfsBlockSize in
                mret (inr (mkStatvfsInfo statvfsBlockSize (s_SpaceTotal sv / bs) (s_SpaceFree sv / bs)
                             (s_SpaceAvail sv / bs) (s_FilesTotal sv) (s_FilesFree sv) (s_FilesAvail sv)
                             (s_MaxName sv)))
            end
        end
    end.
End file.
