(* ===== verification/FileSpec.v ===== *)
(** * What a file server promises the client

    Files as byte strings: [slice] is what a read at an offset sees, [overlay]
    what a write at an offset leaves.  [FileStore] is the contract between a
    protocol and the open files on top of it: a read returns some, not
    necessarily all, of the bytes asked for; a write takes some of them; either
    may fail at any time. *)

From S2P Require Import Prelude GoError Nfs4Const GoIO Xdr XdrSpec Attr Nfs4Types.
From S2P Require Import Nfs4Args Nfs4Res Caller Conn GoPath Fs File.

(** ** Slices and overlays *)

Definition slice (off n : Z) (c : bytes) : bytes := btake n (bdrop off c).

(** [c] with zeros up to [off]. *)
Definition pad (off : Z) (c : bytes) : bytes := c ++ replicate (Z.to_nat off - length c) x00.

Definition overlay (c : bytes) (off : Z) (d : bytes) : bytes :=
  if bool_decide (d = []) then c else btake off (pad off c) ++ d ++ bdrop (off + blen d) c.

Lemma bdrop_bdrop {A} n m (l : list A) : 0 <= n -> 0 <= m -> bdrop n (bdrop m l) = bdrop (m + n) l.
Proof. intros. unfold bdrop. rewrite drop_drop. f_equal. lia. Qed.

Lemma btake_app_add {A} n m (l : list A) : 0 <= n -> 0 <= m -> btake n l ++ btake m (bdrop n l) = btake (n + m) l.
Proof. intros. unfold btake, bdrop. rewrite take_take_drop. f_equal. lia. Qed.

Lemma bdrop_btake {A} n m (l : list A) : 0 <= n <= m -> bdrop n (btake m l) = btake (m - n) (bdrop n l).
Proof. intros. unfold btake, bdrop. rewrite skipn_firstn_comm. f_equal. lia. Qed.

Lemma slice_app off n m c : 0 <= off -> 0 <= n -> 0 <= m ->
  slice off n c ++ slice (off + n) m c = slice off (n + m) c.
Proof. intros. unfold slice. rewrite <- bdrop_bdrop by done. by apply btake_app_add. Qed.

Lemma blen_slice off n c : 0 <= off -> 0 <= n -> off + n <= blen c -> blen (slice off n c) = n.
Proof. intros. unfold slice. blen_lia. Qed.

Lemma overlay_nil c off : overlay c off [] = c.
Proof. done. Qed.

Lemma overlay_lookup c off d (i : nat) : 0 <= off -> d <> [] ->
  overlay c off d !! i =
  if decide (Z.of_nat i < off) then if decide (i < length c)%nat then c !! i else Some x00
  else if decide (Z.of_nat i < off + blen d) then d !! (i - Z.to_nat off)%nat
  else c !! i.
Proof.
  intros Hoff Hd. unfold overlay. rewrite bool_decide_eq_false_2 by done. unfold btake, bdrop, blen, pad.
  assert (length (take (Z.to_nat off) (c ++ replicate (Z.to_nat off - length c) x00)) = Z.to_nat off) as Hl
    by (rewrite length_take, length_app, length_replicate; lia).
  case_decide.
  - rewrite lookup_app_l by lia. rewrite lookup_take_lt by lia. case_decide.
    + by rewrite lookup_app_l.
    + rewrite lookup_app_r by lia. apply lookup_replicate_2. lia.
  - rewrite lookup_app_r by lia. rewrite Hl. case_decide.
    + by rewrite lookup_app_l by lia.
    + rewrite lookup_app_r by lia. rewrite lookup_drop. f_equal. lia.
Qed.

(** Two writes that follow each other are one. *)
Lemma overlay_app c off d1 d2 : 0 <= off ->
  overlay (overlay c off d1) (off + blen d1) d2 = overlay c off (d1 ++ d2).
Proof.
  intros Hoff. pose proof (blen_nonneg d1). pose proof (blen_nonneg d2).
  destruct (decide (d1 = [])) as [->|H1]; [cbn [app]; rewrite overlay_nil, blen_nil; f_equal; lia|].
  destruct (decide (d2 = [])) as [->|H2]; [by rewrite overlay_nil, app_nil_r|].
  apply list_eq. intros i. rewrite (overlay_lookup c off (d1 ++ d2)) by (destruct d1; done).
  rewrite overlay_lookup by (lia || done). rewrite blen_app.
  assert (length (overlay c off d1) = Z.to_nat (Z.max (off + blen d1) (blen c))) as Hlen.
  { unfold overlay. rewrite bool_decide_eq_false_2 by done.
    unfold btake, bdrop, pad, blen in *. rewrite !length_app, length_take, length_drop, length_app, length_replicate. lia. }
  rewrite overlay_lookup by done. unfold blen in *. repeat case_decide; try lia; try done.
  - by rewrite lookup_app_l by lia.
  - rewrite lookup_app_r by lia. f_equal. lia.
Qed.

Lemma blen_overlay c off d : 0 <= off -> d <> [] -> blen (overlay c off d) = Z.max (off + blen d) (blen c).
Proof.
  intros Hoff Hd. unfold overlay. rewrite bool_decide_eq_false_2 by done.
  unfold btake, bdrop, pad, blen. rewrite !length_app, length_take, length_drop, length_app, length_replicate. lia.
Qed.

(** Reading what was written. *)
Lemma slice_overlay c off d : 0 <= off -> slice off (blen d) (overlay c off d) = d.
Proof.
  intros Hoff. destruct (decide (d = [])) as [->|Hd]; [done|].
  apply list_eq. intros i. unfold slice, btake, bdrop. unfold blen. rewrite Nat2Z.id.
  destruct (decide (i < length d)%nat).
  - rewrite lookup_take_lt, lookup_drop by done. rewrite overlay_lookup by done. unfold blen.
    repeat case_decide; try lia. f_equal. lia.
  - rewrite lookup_take_ge by lia. symmetry. apply lookup_ge_None. lia.
Qed.

(** Appending. *)
Lemma overlay_end c d : overlay c (blen c) d = c ++ d.
Proof.
  unfold overlay. case_bool_decide as Hd; [by rewrite Hd, app_nil_r|].
  unfold btake, bdrop, pad, blen. rewrite Nat2Z.id, Nat.sub_diag, app_nil_r, firstn_all.
  rewrite skipn_all2 by lia. by rewrite app_nil_r.
Qed.

(** [c] cut, or extended with zeros, to [n] bytes. *)
Definition resized (n : Z) (c : bytes) : bytes := btake n (pad n c).

(** ** The contract *)

(** A reply to a read of [count] bytes at [off] of a file that holds [c]: what
    is there from [off] on, at least one byte before the end of the file, and
    the end announced only when it is reached. *)
Definition read_ok (c : bytes) (off count : Z) (data : bytes) (eof : bool) : Prop :=
  data = slice off (blen data) c /\ blen data <= count
  /\ (data = [] -> count = 0 \/ blen c <= off)
  /\ (eof = true -> blen c <= off + blen data).

Section contract.
Context {X : Type} `{RWProtocol X} (inv : X -> Prop) (content : X -> bytes -> bytes) (can : bytes -> Stateid -> Z -> Prop).

(** From [x] to [x'], file [fh] holds [c] and the others what they held. *)
Definition updates (fh c : bytes) (x x' : X) : Prop :=
  content x' fh = c /\ forall fh', fh' <> fh -> content x' fh' = content x fh'.

(** The contract holds for requests that can be made: [can fh sid n] says that
    one on file [fh], open under [sid], with [n] bytes of data can.  The theorems about
    files suppose it of the requests they make. *)
Class FileStore : Prop := {
  store_can fh sid n m : can fh sid n -> 0 <= m <= n -> can fh sid m;
  store_read ctx fh sid off count x : inv x -> can fh sid 0 -> is_u64 off -> is_u32 count ->
    exists res x', p_Read ctx (Some fh) off count x = Some (res, x') /\ inv x' /\ content x' = content x /\
      match res with
      | inl _ => True
      | inr (data, eof) => read_ok (content x fh) off count data eof
      end;
  store_write ctx fh sid off data stable x : inv x -> can fh sid (blen data) -> is_u64 off -> is_u32 stable ->
    exists res x' k, p_Write ctx (Some fh) sid off data stable x = Some (res, x') /\ inv x' /\
      0 <= k <= blen data /\ updates fh (overlay (content x fh) off (btake k data)) x x' /\
      match res with
      | inl _ => True
      | inr (n, _) => n = k
      end;
  store_size ctx fh sid x : inv x -> can fh sid 0 ->
    exists res x', p_GetAttr ctx (Some fh) StandardMask x = Some (res, x') /\ inv x' /\ content x' = content x /\
      match res with
      | inl _ => True
      | inr (mask, vals) => forall a, attr_Decode mask vals = inr a -> a_Size a = blen (content x fh)
      end
}.
End contract.
Arguments store_can {X _ inv content can _} fh sid n m.
Arguments store_read {X _ inv content can _} ctx fh sid off count x.
Arguments store_write {X _ inv content can _} ctx fh sid off data stable x.
Arguments store_size {X _ inv content can _} ctx fh sid x.
