(* ===== verification/FileCorrect.v ===== *)
(** * Open files: theorems *)

From S2P Require Import Prelude GoError Nfs4Const GoIO Xdr XdrSpec Attr Nfs4Types.
From S2P Require Import Nfs4Args Nfs4Res Caller Conn GoPath Fs File FileSpec.

(** What an operation may report: nothing, one of the expected errors, or an
    error of the protocol in a path error. *)
Definition reported (op : string) (name : bytes) (expected : error) (err : option error) : Prop :=
  err = None \/ err = Some expected \/ exists e, err = Some (pathError op name e).

Lemma pathError_not op name e t : (forall o n e', t <> PathError o n e') -> pathError op name e <> t.
Proof. unfold pathError. intros H. destruct (canonicalSentinel e); intros <-; by eapply H. Qed.

Section store.
Context {X : Type} `{RWProtocol X} (inv : X -> Prop) (content : X -> bytes -> bytes).
Context {can : bytes -> Stateid -> Z -> Prop} `{!FileStore inv content can}.

(** ** Reading *)

(** How a read at [off] of [len] bytes that counted [n] ends: the buffer is
    full; the end of the file is reached; or the READ for the rest, the last
    thing it did, was answered with an error. *)
Definition read_ends (f : File) (fh : bytes) (off len n : Z) (err : option error) (x x' : X) : Prop :=
  err = None /\ n = len
  \/ err = Some EOF /\ blen (content x fh) <= off + n
  \/ exists e y, err = Some (pathError "read" (ff_name f) e) /\ inv y /\ content y = content x
       /\ p_Read (ff_ctx f) (Some fh) (off + n) (len - n) y = Some (inl e, x').

Lemma read_ends_facts f fh off len n err x x' : read_ends f fh off len n err x x' ->
  (err = None -> n = len) /\ (err = Some EOF -> blen (content x fh) <= off + n) /\ reported "read" (ff_name f) EOF err.
Proof.
  intros [[-> ?]|[[-> ?]|(e & y & -> & _)]]; (split; [done|split]); try done; [by left|by right; left| |right; right; by exists e].
  intros [= Ep]. by apply pathError_not in Ep.
Qed.

Lemma read_ends_from f fh off len n err x1 x x' : content x1 = content x ->
  read_ends f fh off len n err x1 x' -> read_ends f fh off len n err x x'.
Proof.
  intros Hc [?|[[? ?]|(e & y & ? & ? & ? & ?)]]; [by left|right; left; by rewrite <- Hc|].
  right; right. exists e, y. split_and!; try done. congruence.
Qed.

Lemma readAt_loop_run f fh c off : ff_fh f = Some fh -> can fh (ff_stateid f) 0 -> 0 <= off ->
  forall steps done todo x, (length todo < steps)%nat -> inv x -> content x fh = c ->
  done = slice off (blen done) c -> off + blen done + blen todo < 2 ^ 64 -> blen todo < 2 ^ 32 ->
  exists n err p' x', readAt_loop steps f off done todo x = Some ((n, err, p'), x')
    /\ inv x' /\ content x' = content x
    /\ blen done <= n <= blen done + blen todo
    /\ p' = slice off n c ++ bdrop (n - blen done) todo /\ blen (slice off n c) = n
    /\ read_ends f fh off (blen done + blen todo) n err x x'.
Proof.
  intros Hfh Hcan Hoff. induction steps as [|steps IH]; intros done todo x Hs Hx Hc Hd H64 H32; [lia|].
  pose proof (blen_nonneg done) as Hn1. pose proof (blen_nonneg todo) as Hn2. cbn [readAt_loop].
  destruct (bool_decide_reflect (todo = [])) as [->|Htodo].
  { exists (blen done), None, done, x. rewrite Z.sub_diag, bdrop_0, app_nil_r, blen_nil, <- Hd.
    split_and!; try done; [lia..|left; split; [done|lia]]. }
  rewrite (u64_id off), (u64_id (off + blen done)), (u32_id (blen todo)) by (split; lia). rewrite Hfh.
  destruct (store_read (ff_ctx f) fh (ff_stateid f) (off + blen done) (blen todo) x Hx Hcan) as (res & x1 & E & Hx1 & Hc1 & Hres);
    [split; lia..|]. rewrite (Io_bind_Some _ _ _ _ _ E). destruct res as [e|[data eof]].
  { exists (blen done), (Some (pathError "read" (ff_name f) e)), (done ++ todo), x1.
    rewrite Z.sub_diag, bdrop_0, <- Hd. split_and!; try done; [lia..|]. right; right.
    exists e, x. split_and!; try done. rewrite <- E. f_equal. lia. }
  rewrite Hc in Hres. destruct Hres as (Hdata & Hle & Hempty & Heof). pose proof (blen_nonneg data) as Hn3.
  rewrite Z.min_r by lia. rewrite (btake_all (blen data) data) by lia.
  assert (done ++ data = slice off (blen done + blen data) c) as Hdd.
  { rewrite <- slice_app by lia. by rewrite <- Hd, <- Hdata. }
  destruct (eof || bool_decide (data = [])) eqn:Estop.
  - exists (blen (done ++ data)), (Some EOF), ((done ++ data) ++ bdrop (blen data) todo), x1.
    rewrite blen_app. split_and!; try done; [lia|lia| | |right; left; split; [done|rewrite Hc]].
    + rewrite Hdd. f_equal. f_equal. lia.
    + rewrite <- Hdd. apply blen_app.
    + destruct eof; [specialize (Heof eq_refl); lia|]. cbn in Estop. case_bool_decide as Hnil; [|done].
      rewrite Hnil in *. destruct (Hempty eq_refl) as [H0|H0]; [|rewrite blen_nil; lia].
      by apply blen_zero in H0.
  - apply orb_false_iff in Estop as [-> Hne]. apply bool_decide_eq_false in Hne.
    assert (0 < blen data) by (destruct data; [done|rewrite blen_cons; pose proof (blen_nonneg data); lia]).
    destruct (IH (done ++ data) (bdrop (blen data) todo) x1) as (n & err & p' & x' & E' & Hx' & Hc' & Hnr & Hp' & Hsl & Hend).
    + unfold bdrop, blen in *. rewrite length_drop. lia.
    + done.
    + by rewrite Hc1.
    + by rewrite blen_app.
    + rewrite blen_app, blen_drop by lia. lia.
    + rewrite blen_drop by lia. lia.
    + rewrite blen_app, blen_drop in * by lia. exists n, err, p', x'. split_and!; try done; [congruence|lia..| |].
      * rewrite Hp', bdrop_bdrop by lia. f_equal. f_equal. lia.
      * replace (blen done + blen data + 0 `max` (blen todo - blen data)) with (blen done + blen todo) in Hend by lia.
        by eapply read_ends_from.
Qed.

(** ** Writing *)

Lemma updates_trans fh c1 c2 x1 x2 x3 : updates content fh c1 x1 x2 -> updates content fh c2 x2 x3 ->
  updates content fh c2 x1 x3.
Proof. intros [_ H1] [H2 H3]. split; [done|]. intros fh' Hne. by rewrite H3, H1. Qed.

(** How a write of [p] at [off] that counted [n] ends: everything is written; or
    the WRITE of the rest, the last thing it did, took nothing or was answered
    with an error. *)
Definition write_ends (f : File) (fh p : bytes) (off n : Z) (err : option error) (x' : X) : Prop :=
  err = None /\ n = blen p
  \/ (exists y committed, err = Some ErrShortWrite /\ n < blen p /\ inv y
        /\ p_Write (ff_ctx f) (Some fh) (ff_stateid f) (off + n) (bdrop n p) FileSync4 y = Some (inr (0, committed), x'))
  \/ exists e y, err = Some (pathError "write" (ff_name f) e) /\ inv y
        /\ p_Write (ff_ctx f) (Some fh) (ff_stateid f) (off + n) (bdrop n p) FileSync4 y = Some (inl e, x').

Lemma write_ends_facts f fh p off n err x' : write_ends f fh p off n err x' ->
  (err = None -> n = blen p) /\ reported "write" (ff_name f) ErrShortWrite err.
Proof.
  intros [[-> ?]|[(y & comm & -> & _)|(e & y & -> & _)]]; (split; [done|]); [by left|by right; left|right; right; by exists e].
Qed.

Lemma writeAt_loop_run f fh p off : ff_fh f = Some fh -> can fh (ff_stateid f) (blen p) -> 0 <= off -> off + blen p < 2 ^ 64 ->
  forall steps total x, blen p - total < Z.of_nat steps -> 0 <= total <= blen p -> inv x ->
  exists n err x' m, writeAt_loop steps f p off total x = Some ((n, err), x') /\ inv x'
    /\ total <= n <= m /\ m <= blen p
    /\ updates content fh (overlay (content x fh) (off + total) (slice total (m - total) p)) x x'
    /\ (m <> n -> exists e, err = Some (pathError "write" (ff_name f) e)) /\ write_ends f fh p off n err x'.
Proof.
  intros Hfh Hcan Hoff H64. induction steps as [|steps IH]; intros total x Hs Ht Hx; cbn [writeAt_loop];
    destruct (Z.ltb_spec total (blen p)) as [Hlt|Hge]; cbn [negb]; try lia.
  2: exists total, None, x, total; rewrite Z.sub_diag; split_and!; try done; [lia..|left; split; [done|lia]].
  rewrite (u64_id off), (u64_id (off + total)) by (split; lia). rewrite Hfh.
  destruct (store_write (ff_ctx f) fh (ff_stateid f) (off + total) (bdrop total p) FileSync4 x Hx)
    as (res & x1 & k & E & Hx1 & Hk & Hup & Hres); [eapply store_can; [exact Hcan|blen_lia]|split; lia|done|].
  rewrite blen_drop in Hk by lia. rewrite (Io_bind_Some _ _ _ _ _ E).
  destruct res as [e|[n comm]].
  { exists total, (Some (pathError "write" (ff_name f) e)), x1, (total + k).
    replace (total + k - total) with k by lia.
    split_and!; try done; [lia..|by exists e|by right; right; exists e, x]. }
  subst n. destruct (Z.eqb_spec k 0) as [->|Hk0].
  { exists total, (Some ErrShortWrite), x1, total. rewrite Z.sub_diag. split_and!; try done; [lia..|].
    right; left. exists x, comm. by split_and!. }
  destruct (IH (total + k) x1) as (n & err & x' & m & E' & Hx' & Hn & Hm & Hup' & H2 & H3); [lia..|done|].
  exists n, err, x', m. split_and!; try done; [lia..|].
  destruct Hup as [Hup1 Hup2]. rewrite Hup1 in Hup'.
  assert (overlay (overlay (content x fh) (off + total) (btake k (bdrop total p))) (off + (total + k))
            (slice (total + k) (m - (total + k)) p)
          = overlay (content x fh) (off + total) (slice total (m - total) p)) as Ho.
  { replace (off + (total + k)) with (off + total + blen (btake k (bdrop total p))) by blen_lia.
    rewrite overlay_app by lia. f_equal. change (btake k (bdrop total p)) with (slice total k p).
    rewrite slice_app by lia. f_equal. lia. }
  rewrite Ho in Hup'. destruct Hup' as [H4 H5]. split; [done|]. intros fh' Hne. by rewrite H5, Hup2.
Qed.

(** ** Reading at the file's own offset *)

Lemma set_offset_same f : set_offset (ff_offset f) f = f.
Proof. by destruct f. Qed.

Lemma go_copy_prefix p data : blen data <= blen p ->
  btake (blen data) (go_copy p data) = data /\ bdrop (blen data) (go_copy p data) = bdrop (blen data) p.
Proof.
  intros Hle. unfold go_copy. rewrite take_ge by (unfold blen in *; lia).
  split; [by rewrite btake_app_exact|]. rewrite bdrop_app_exact by done. unfold bdrop, blen. by rewrite Nat2Z.id.
Qed.

Lemma File_Read_run f fh p x : ff_fh f = Some fh -> can fh (ff_stateid f) 0 -> ff_closed f = false -> inv x ->
  0 <= ff_offset f -> ff_offset f + blen p < 2 ^ 63 -> blen p < 2 ^ 32 ->
  exists n err p' x', File_Read f p x = Some ((n, err, p', set_offset (ff_offset f + n) f), x')
    /\ inv x' /\ content x' = content x /\ 0 <= n <= blen p
    /\ btake n p' = slice (ff_offset f) n (content x fh) /\ blen (btake n p') = n /\ bdrop n p' = bdrop n p
    /\ (n = 0 -> p <> [] -> err <> None)
    /\ (err = Some EOF -> blen (content x fh) <= ff_offset f)
    /\ reported "read" (ff_name f) EOF err.
Proof.
  intros Hfh Hcan Hcl Hx Hoff H63 H32. unfold File_Read. rewrite Hcl, Hfh. pose proof (blen_nonneg p) as Hn.
  destruct (bool_decide_reflect (p = [])) as [->|Hp].
  { exists 0, None, [], x. rewrite Z.add_0_r, set_offset_same. split_and!; try done. by left. }
  rewrite (u64_id (ff_offset f)), (u32_id (blen p)) by (split; lia).
  destruct (store_read (ff_ctx f) fh (ff_stateid f) (ff_offset f) (blen p) x Hx Hcan) as (res & x1 & E & Hx1 & Hc1 & Hres); [split; lia..|].
  rewrite (Io_bind_Some _ _ _ _ _ E). destruct res as [e|[data eof]].
  { exists 0, (Some (pathError "read" (ff_name f) e)), p, x1. rewrite Z.add_0_r, set_offset_same.
    split_and!; try done; [|right; right; by exists e]. intros [= Ep]. by apply pathError_not in Ep. }
  destruct Hres as (Hdata & Hle & Hempty & Heof). pose proof (blen_nonneg data).
  destruct (go_copy_prefix p data Hle) as [Ht Hd]. unfold copy_into. rewrite Z.min_r by done.
  rewrite (i64_id (ff_offset f + blen data)) by (split; lia).
  assert (0 < blen p) by (destruct p; [done|rewrite blen_cons; pose proof (blen_nonneg p); lia]).
  destruct (Z.eqb_spec (blen data) 0) as [Hz|Hz].
  - apply blen_zero in Hz as ->. cbn [orb andb]. exists 0, (Some EOF), (go_copy p []), x1.
    split_and!; try done; [|by right; left]. intros _. destruct (Hempty eq_refl); lia.
  - rewrite andb_false_r. exists (blen data), None, (go_copy p data), x1.
    split_and!; try done; [by rewrite Ht|by rewrite Ht|by left].
Qed.

(** Successive reads into the buffers [ps]. *)
Fixpoint File_reads (f : File) (ps : list bytes) : Io X (list (Z * option error * bytes) * File) :=
  match ps with
  | [] => mret ([], f)
  | p :: ps =>
      got ← File_Read f p;
      let '(out, f) := got in
      rest ← File_reads f ps;
      let '(outs, f) := rest in
      mret (out :: outs, f)
  end.
End store.

(** The bytes a read delivered. *)
Definition delivered (out : Z * option error * bytes) : bytes := btake out.1.1 out.2.
Definition lengths (ps : list bytes) : Z := blen (concat ps).

(** ** Sequences of reads *)

Section reads.
Context {X : Type} `{RWProtocol X} (inv : X -> Prop) (content : X -> bytes -> bytes).
Context {can : bytes -> Stateid -> Z -> Prop} `{!FileStore inv content can}.

Definition ends_only_at (size : Z) (name : bytes) (pos : Z) (out : Z * option error * bytes) : Prop :=
  (out.1.2 = Some EOF -> size <= pos) /\ reported "read" name EOF out.1.2.

Lemma File_reads_run fh sid ps : can fh sid 0 -> forall f x, ff_fh f = Some fh -> ff_stateid f = sid -> ff_closed f = false -> inv x ->
  0 <= ff_offset f -> ff_offset f + lengths ps < 2 ^ 63 -> Forall (fun p => blen p < 2 ^ 32) ps ->
  exists outs x', File_reads f ps x
      = Some ((outs, set_offset (ff_offset f + blen (concat (map delivered outs))) f), x')
    /\ inv x' /\ content x' = content x
    /\ concat (map delivered outs)
       = slice (ff_offset f) (blen (concat (map delivered outs))) (content x fh)
    /\ blen (concat (map delivered outs)) <= lengths ps
    /\ Forall2 (fun p out => 0 <= out.1.1 <= blen p /\ (out.1.1 = 0 -> p <> [] -> out.1.2 <> None)) ps outs
    /\ Forall (fun out => out.1.2 = Some EOF ->
                 blen (content x fh) <= ff_offset f + blen (concat (map delivered outs))) outs.
Proof.
  intros Hcan. induction ps as [|p ps IH]; intros f x Hfh Hsid Hcl Hx Hoff H63 H32; cbn [File_reads].
  { exists [], x. cbn. rewrite Z.add_0_r, set_offset_same. split_and!; try done; constructor. }
  apply Forall_cons in H32 as [Hp Hps]. unfold lengths in *. cbn [concat] in *. rewrite blen_app in *.
  pose proof (blen_nonneg (concat ps)) as Hn.
  subst sid.
  destruct (File_Read_run inv content f fh p x) as (n & err & p' & x1 & E & Hx1 & Hc1 & Hnr & Hdel & Hlen & _ & Hprog & Heof & _);
    try done; [lia|]. rewrite (Io_bind_Some _ _ _ _ _ E).
  destruct (IH (set_offset (ff_offset f + n) f) x1) as (outs & x2 & E2 & Hx2 & Hc2 & Hd2 & Hl2 & Hf2 & He2);
    try done; [cbn; lia..|]. rewrite (Io_bind_Some _ _ _ _ _ E2). cbn [ff_offset set_offset] in *.
  rewrite Hc1 in Hd2, He2.
  exists ((n, err, p') :: outs), x2. cbn [map concat].
  change (delivered (n, err, p')) with (btake n p'). rewrite blen_app, Hlen.
  pose proof (blen_nonneg (concat (map delivered outs))).
  split_and!; try done; [by rewrite Z.add_assoc|congruence| |lia|by constructor|].
  - rewrite <- slice_app by lia. by rewrite <- Hd2, <- Hdel.
  - constructor; [cbn; intros E0; specialize (Heof E0); lia|].
    eapply Forall_impl; [exact He2|]. cbn. intros out Ho E0. specialize (Ho E0). lia.
Qed.
End reads.

(** ** Theorems *)

(** C7.  Reading at an offset.  Into a buffer of less than 4 GiB and whatever the
    sizes of the server's replies, [ReadAt] on an open file returns: the count
    is that of the bytes it put at the front of the buffer, which are the file's
    from the offset on, and the rest of the buffer is untouched; no error means
    that the buffer was filled, [io.EOF] that the end of the file was reached,
    and any other error is the one with which the protocol answered a READ for
    exactly the bytes that are missing, the last request made, in a path
    error. *)
Theorem file_read_at {X : Type} `{RWProtocol X} (inv : X -> Prop) (content : X -> bytes -> bytes)
    {can : bytes -> Stateid -> Z -> Prop} `{!FileStore inv content can} (f : File) (fh p : bytes) (off : Z) (x : X)
    (Hfh : ff_fh f = Some fh) (Hopen : ff_closed f = false) (Hx : inv x)
    (Hoff : 0 <= off < 2 ^ 63) (Hp : blen p < 2 ^ 32) (Hcan : can fh (ff_stateid f) 0) :
  exists n err p' x', ReadAt f p off x = Some ((n, err, p'), x')
    /\ inv x' /\ content x' = content x
    /\ 0 <= n <= blen p /\ p' = slice off n (content x fh) ++ bdrop n p
    /\ blen (slice off n (content x fh)) = n
    /\ read_ends inv content f fh off (blen p) n err x x'.
Proof.
  unfold ReadAt. rewrite Hopen. destruct (Z.ltb_spec off 0); [lia|].
  destruct (readAt_loop_run inv content f fh (content x fh) off Hfh Hcan ltac:(lia) (S (length p)) [] p x)
    as (n & err & p' & x' & E & Hx' & Hc & Hn & Hp' & Hl & Hend); try done; try (rewrite ?blen_nil; lia).
  change (blen (@nil byte)) with 0 in *. rewrite Z.sub_0_r in Hp'. rewrite Z.add_0_l in Hn, Hend.
  exists n, err, p', x'. split_and!; done || lia.
Qed.

(** C15.  Reading in sequence.  Successive [Read]s of an open file, into
    buffers of less than 4 GiB and whatever the sizes of the server's replies,
    deliver the file in order from the offset on, without a gap or a repetition,
    and leave the offset behind the last byte delivered; a read that delivers
    nothing into a buffer with room reports an error, and [io.EOF] is reported
    only when everything has been delivered. *)
Theorem file_reads {X : Type} `{RWProtocol X} (inv : X -> Prop) (content : X -> bytes -> bytes)
    {can : bytes -> Stateid -> Z -> Prop} `{!FileStore inv content can} (f : File) (fh : bytes) (ps : list bytes) (x : X)
    (Hfh : ff_fh f = Some fh) (Hopen : ff_closed f = false) (Hx : inv x)
    (Hoff : 0 <= ff_offset f) (Hend : ff_offset f + lengths ps < 2 ^ 63)
    (Hps : Forall (fun p => blen p < 2 ^ 32) ps) (Hcan : can fh (ff_stateid f) 0) :
  exists outs x', let got := concat (map delivered outs) in
    File_reads f ps x = Some ((outs, set_offset (ff_offset f + blen got) f), x')
    /\ content x' = content x
    /\ got = slice (ff_offset f) (blen got) (content x fh) /\ blen got <= lengths ps
    /\ Forall2 (fun p out => 0 <= out.1.1 <= blen p /\ (out.1.1 = 0 -> p <> [] -> out.1.2 <> None)) ps outs
    /\ Forall (fun out => out.1.2 = Some EOF -> blen (content x fh) <= ff_offset f + blen got) outs.
Proof.
  destruct (File_reads_run inv content fh (ff_stateid f) ps Hcan f x) as (outs & x' & ? & _ & ?); try done. by exists outs, x'.
Qed.

(** C8.  Writing at an offset.  Whatever share of the data the server takes
    with each WRITE (what it leaves is sent again), [WriteAt] on an open file
    returns; afterwards the file is what it was with a prefix of the data over
    it at the offset (zeros in a gap behind the old end), other files are
    untouched, and the count is at most the length of that prefix, and exactly
    it unless the server failed.  No error means that all the data is there;
    [io.ErrShortWrite] that the WRITE of what was missing, the last request
    made, took nothing of it; any other error is the one with which the protocol
    answered that WRITE, in a path error. *)
Theorem file_write_at {X : Type} `{RWProtocol X} (inv : X -> Prop) (content : X -> bytes -> bytes)
    {can : bytes -> Stateid -> Z -> Prop} `{!FileStore inv content can} (f : File) (fh p : bytes) (off : Z) (x : X)
    (Hfh : ff_fh f = Some fh) (Hopen : ff_closed f = false) (Hx : inv x)
    (Hoff : 0 <= off) (Hend : off + blen p < 2 ^ 64) (Hcan : can fh (ff_stateid f) (blen p)) :
  exists n err x' m, WriteAt f p off x = Some ((n, err), x') /\ inv x'
    /\ 0 <= n <= m /\ m <= blen p
    /\ updates content fh (overlay (content x fh) off (btake m p)) x x'
    /\ (m <> n -> exists e, err = Some (pathError "write" (ff_name f) e))
    /\ write_ends inv f fh p off n err x'.
Proof.
  unfold WriteAt, writeAt. rewrite Hopen. destruct (Z.ltb_spec off 0); [lia|]. pose proof (blen_nonneg p).
  destruct (writeAt_loop_run inv content f fh p off Hfh Hcan Hoff Hend (S (length p)) 0 x)
    as (n & err & x' & m & E & Hx' & Hn & Hm & Hup & ?); try done; [unfold blen; lia|].
  rewrite Z.add_0_r, Z.sub_0_r in Hup. destruct_and!.
  exists n, err, x', m. split_and!; try done; lia.
Qed.

(** Where [Write] writes. *)
Definition write_position (f : File) (c : bytes) : Z := if has_flag (ff_flag f) O_APPEND then blen c else ff_offset f.

Section write.
Context {X : Type} `{RWProtocol X} (inv : X -> Prop) (content : X -> bytes -> bytes).
Context {can : bytes -> Stateid -> Z -> Prop} `{!FileStore inv content can}.

Lemma size_run f fh x : ff_fh f = Some fh -> can fh (ff_stateid f) 0 -> inv x -> blen (content x fh) < 2 ^ 63 ->
  exists res x', size f x = Some (res, x') /\ inv x' /\ content x' = content x
    /\ match res with inl _ => True | inr n => n = blen (content x fh) end.
Proof.
  intros Hfh Hcan Hx Hn. unfold size. rewrite Hfh.
  destruct (store_size (ff_ctx f) fh (ff_stateid f) x Hx Hcan) as (res & x' & E & Hx' & Hc & Hres).
  rewrite (Io_bind_Some _ _ _ _ _ E). pose proof (blen_nonneg (content x fh)).
  destruct res as [e|[mask vals]]; [by exists (inl e), x'|].
  destruct (attr_Decode mask vals) as [e|a] eqn:Ea; [by exists (inl e), x'|].
  exists (inr (i64 (a_Size a))), x'. split_and!; try done. rewrite (Hres a eq_refl). by rewrite i64_id by (split; lia).
Qed.
End write.


