(* ===== verification/FileOpenCorrect.v ===== *)
(** * Opening, seeking and closing files: theorems *)

From S2P Require Import Prelude GoError Nfs4Const GoIO Xdr XdrSpec Attr Nfs4Types.
From S2P Require Import Nfs4Args Nfs4Res Caller Conn GoPath Fs File FileSpec FsSpec FsCorrect FileCorrect.

(** ** The parent of a path *)

Lemma join_slash_not_dot l : l <> [] -> forallb valid_elem l = true -> join_slash l <> dot /\ join_slash l <> [].
Proof.
  destruct l as [|e l]; [done|]. intros _ H. cbn in H. apply andb_true_iff in H as [He _].
  unfold valid_elem in He. destruct l as [|e' l].
  - cbn. split; intros ->; by vm_compute in He.
  - change (join_slash (e :: e' :: l)) with (e ++ slash :: join_slash (e' :: l)).
    destruct e as [|b e]; [by vm_compute in He|]. split; [|done]. intros [= -> E]. by destruct e.
Qed.

Lemma split_parent_valid name : fs_ValidPath name = true ->
  exists dir, split_parent name = (dir, base_name name) /\
    (if bool_decide (dir = dot) then [] else strings_Split dir) = removelast (elements name).
Proof.
  intros Hv. pose proof (base_name_valid name Hv) as Hb. unfold elements in *. unfold fs_ValidPath in Hv.
  apply andb_true_iff in Hv as [_ Hv]. destruct (decide (name = dot)) as [E|Hd]; [rewrite E; by exists dot|].
  rewrite (bool_decide_eq_false_2 (name = dot)) in Hb, Hv |- * by done. cbn [orb] in Hv. destruct (split_slash_spec name [] ltac:(constructor)) as (Hl & Hne & Hj).
  fold (strings_Split name) in *. cbn [rev app] in Hj. rewrite Hb. clear Hb.
  destruct (exists_last Hne) as (l & e & E). rewrite E in *. rewrite last_snoc, removelast_last. cbn [default].
  change (id e) with e. apply Forall_app in Hl as [Hl He]. apply Forall_cons in He as [He _].
  rewrite forallb_app in Hv. apply andb_true_iff in Hv as [Hv _].
  unfold split_parent. rewrite <- Hj. destruct (decide (l = [])) as [->|Hnl].
  - change (join_slash ([] ++ [e])) with e. rewrite (proj2 (path_Split_app [] e He)). by exists dot.
  - rewrite join_slash_snoc by done. rewrite (proj1 (path_Split_app (join_slash l) e He)), TrimSuffix_slash.
    destruct (join_slash_not_dot l Hnl Hv) as [H1 H2]. rewrite bool_decide_eq_false_2 by done.
    exists (join_slash l). split; [done|]. rewrite bool_decide_eq_false_2 by done. by apply strings_Split_join.
Qed.

(** ** Theorems *)

(** What the flags ask for, and the bits OPEN4_SHARE_ACCESS_READ and
    OPEN4_SHARE_ACCESS_WRITE of it. *)
Definition reads (flag : Z) : bool := negb (has_flag flag O_WRONLY).
Definition writes (flag : Z) : bool := has_flag flag (Z.lor O_WRONLY O_RDWR).
Definition access_bits (flag : Z) : Z := (if reads flag then 1 else 0) + (if writes flag then 2 else 0).

Lemma has_flag_lor flag a b : has_flag flag (Z.lor a b) = has_flag flag a || has_flag flag b.
Proof.
  unfold has_flag. rewrite Z.land_lor_distr_r. rewrite <- negb_andb. f_equal.
  destruct (Z.eqb_spec (Z.lor (Z.land flag a) (Z.land flag b)) 0) as [E|E].
  - apply Z.lor_eq_0_iff in E as [-> ->]. done.
  - destruct (Z.eqb_spec (Z.land flag a) 0) as [Ea|], (Z.eqb_spec (Z.land flag b) 0) as [Eb|]; try done.
    by rewrite Ea, Eb in E.
Qed.

Lemma shareFor_bits flag : shareFor flag = access_bits flag.
Proof.
  unfold shareFor, access_bits, reads, writes. rewrite has_flag_lor.
  by destruct (has_flag flag O_WRONLY), (has_flag flag O_RDWR).
Qed.

(** fattr4 values on the wire: the mode (attribute 33) a file is created with,
    and the size (attribute 4) of an empty file. *)
Definition create_attrs (flag perm : Z) : list Z * bytes :=
  if has_flag flag O_CREATE then ([0; 2], wire_u32 (Z.land perm 511)) else ([], []).
Definition empty_attrs : list Z * bytes := ([16], wire_u64 0).

(** C25.  Opening, with flags that do not ask to truncate a file without
    writing it.  [OpenFile] of a valid path looks up every element but the last
    from the root, failing with the first status it meets or the sentinel for
    it, and opens the last one in the directory it reaches: with read access
    unless the flags say write only, with write access when they say write only
    or both, created and exclusively when they ask for it, with nothing of the
    mode but the permission bits.  The file it returns is at offset 0 and open.
    When it is to be truncated its size is set to zero first, and if that fails
    the open state is given back before the error is returned.  An error of the
    protocol comes back in a path error for the name. *)
Theorem file_open {X : Type} `{RWProtocol X} (inv : X -> Prop) (t : Tree)
    {reach sayable : bytes -> Prop} `{!TreeStore inv t reach sayable} (ctx : Context) (name : bytes) (flag perm : Z) (x : X)
    (Hx : inv x) (Hv : fs_ValidPath name = true) (Hname : Forall sayable (removelast (elements name)))
    (Htruncate : has_flag flag O_TRUNC = true -> writes flag = true) :
  let way := removelast (elements name) in
  let found := walk_names (t_names t) (t_root t) way in
  exists x1, inv x1 /\
  lookup_all ctx (Some (t_root t)) way x
    = Some (match found with inr dir => inr (Some dir) | inl s => inl (StatusError s) end, x1) /\
  match found with
  | inl s => OpenFile ctx name flag perm x = Some (inl (PathError "open" name (status_error s)), x1)
  | inr dir =>
      let '(mask, vals) := create_attrs flag perm in
      forall res x2, p_Open ctx (Some dir) (default dot (last (elements name))) (access_bits flag) mask vals
          (has_flag flag O_CREATE) (has_flag flag O_EXCL) x1 = Some (res, x2) ->
      match res with
      | inl e => OpenFile ctx name flag perm x = Some (inl (pathError "open" name e), x2)
      | inr o =>
          let f := mkFileHandle ctx name (or_FH o) (or_Stateid o) flag (access_bits flag) 0 false in
          if has_flag flag O_TRUNC then
            forall r x3, p_SetAttr ctx (or_FH o) (or_Stateid o) empty_attrs.1 empty_attrs.2 x2 = Some (r, x3) ->
            match r with
            | inr _ => OpenFile ctx name flag perm x = Some (inr f, x3)
            | inl e => forall c x4, p_CloseFile ctx (or_FH o) (or_Stateid o) x3 = Some (c, x4) ->
                OpenFile ctx name flag perm x
                = Some (inl (pathError "open" name (pathError "truncate" name e)), x4)
            end
          else OpenFile ctx name flag perm x = Some (inr f, x2)
      end
  end.
Proof.
  unfold OpenFile, resolveParent. rewrite Hv, shareFor_bits. cbn [negb].
  destruct (split_parent_valid name Hv) as (dir & -> & Hdir). rewrite (base_name_valid name Hv).
  set (base := default dot (last (elements name))).
  set (way := removelast (elements name)) in *. set (found := walk_names (t_names t) (t_root t) way).
  destruct (lookup_all_run inv t ctx way (t_root t) x Hx (proj1 (tree_reach inv t reach sayable)) Hname) as (x1 & El & Hx1). fold found in El.
  exists x1. split; [done|]. split; [done|].
  assert ((parent ← rootFH;
     parent ← (if bool_decide (dir = dot) then mret (inr parent) else lookup_all ctx parent (strings_Split dir));
     match parent with inl lerr => mret (inl lerr) | inr parent => mret (inr (parent, base)) end : Io X _) x
     = Some (match found with inl s => inl (StatusError s) | inr d => inr (Some d, base) end, x1)) as E.
  { rewrite (Io_bind_Some rootFH _ x (Some (t_root t)) x) by (unfold rootFH; by rewrite tree_root).
    rewrite (Io_bind_Some _ _ x (match found with inr fh => inr (Some fh) | inl s => inl (StatusError s) end) x1)
      by (rewrite <- El, <- Hdir; by case_bool_decide).
    by destruct found. }
  rewrite (Io_bind_Some _ _ _ _ _ E). clear E.
  destruct found as [s|d]; [by rewrite pathError_status|].
  assert ((if has_flag flag O_CREATE then EncodeFattr (mkSettableAttrs (Some (Perm perm)) None None None) else ([], []))
    = create_attrs flag perm) as -> by (unfold create_attrs; by destruct (has_flag flag O_CREATE)).
  destruct (create_attrs flag perm) as [mask vals].
  intros res x2 E2. rewrite (Io_bind_Some _ _ _ _ _ E2). destruct res as [e|o]; [done|]. cbn zeta.
  assert (has_flag flag O_TRUNC && negb (access_bits flag =? OpenShareAccessRead) = has_flag flag O_TRUNC) as ->.
  { destruct (has_flag flag O_TRUNC); [|done]. unfold access_bits. rewrite Htruncate by done. by destruct (reads flag). }
  destruct (has_flag flag O_TRUNC); [|done]. intros r x3 E3.
  unfold Truncate. cbn [ff_closed]. change (0 <? 0) with false. cbn iota. change (u64 0) with 0.
  change (EncodeFattr _) with empty_attrs. destruct empty_attrs as [m0 v0]. cbn [fst snd] in E3.
  erewrite Io_bind_Some by (rewrite (Io_bind_Some _ _ _ _ _ E3); reflexivity).
  destruct r as [e|[]]; [|done]. intros c x4 E4. cbn [or_pathError].
  erewrite Io_bind_Some by (unfold Close; cbn [ff_closed]; rewrite (Io_bind_Some _ _ _ _ _ E4); reflexivity).
  done.
Qed.


(** ** Histories of a file *)

Inductive file_call :=
| CallRead (p : bytes)
| CallReadAt (p : bytes) (off : Z)
| CallWrite (p : bytes)
| CallWriteAt (p : bytes) (off : Z)
| CallSeek (n : Z) (w : Whence)
| CallTruncate (n : Z)
| CallSync
| CallStat
| CallClose.

Definition call_op (c : file_call) : string :=
  match c with
  | CallRead _ | CallReadAt _ _ => "read"
  | CallWrite _ | CallWriteAt _ _ => "write"
  | CallSeek _ _ => "seek"
  | CallTruncate _ => "truncate"
  | CallSync => "sync"
  | CallStat => "stat"
  | CallClose => "close"
  end.

Definition is_close (c : file_call) : bool := match c with CallClose => true | _ => false end.

(** The error of a result. *)
Definition failure {A} (r : result A) : option error := match r with inl e => Some e | inr _ => None end.

Section history.
Context {X : Type} `{RWProtocol X}.

(** The error a call reports, and the file afterwards. *)
Definition file_step (c : file_call) (f : File) : Io X (option error * File) :=
  match c with
  | CallRead p => out ← File_Read f p; let '(_, err, _, f) := out in mret (err, f)
  | CallReadAt p off => out ← ReadAt f p off; let '(_, err, _) := out in mret (err, f)
  | CallWrite p => out ← File_Write f p; let '(_, err, f) := out in mret (err, f)
  | CallWriteAt p off => out ← WriteAt f p off; let '(_, err) := out in mret (err, f)
  | CallSeek n w => out ← Seek f n w; let '(r, f) := out in mret (failure r, f)
  | CallTruncate n => r ← Truncate f n; mret (failure r, f)
  | CallSync => r ← Sync f; mret (failure r, f)
  | CallStat => r ← File_Stat f; mret (failure r, f)
  | CallClose => out ← Close f; let '(r, f) := out in mret (failure r, f)
  end.

Fixpoint file_steps (cs : list file_call) (f : File) : Io X (list (option error) * File) :=
  match cs with
  | [] => mret ([], f)
  | c :: cs =>
      out ← file_step c f;
      let '(err, f) := out in
      rest ← file_steps cs f;
      let '(errs, f) := rest in
      mret (err :: errs, f)
  end.

(** Every call but [Close] changes the offset at most. *)
Definition moved (f f' : File) : Prop := f' = set_offset (ff_offset f') f.

Lemma file_step_moved c f x err f' x' : is_close c = false ->
  file_step c f x = Some ((err, f'), x') -> moved f f'.
Proof.
  assert (forall n, moved f (set_offset n f)) as Hs by done.
  assert (moved f f) as Hf by by destruct f.
  destruct c; try done; intros _; cbn [file_step]; intros E; apply Io_bind_inv in E as (out & x1 & E1 & E);
    try by injection E as <- <- <-.
  - destruct out as [[[n e] q] g]. injection E as <- <- <-. unfold File_Read in E1. io_inv E1.
  - destruct out as [[n e] q]. by injection E as <- <- <-.
  - destruct out as [[n e] g]. injection E as <- <- <-. unfold File_Write in E1. io_inv E1.
  - destruct out as [n e]. by injection E as <- <- <-.
  - destruct out as [r g]. injection E as <- <- <-. unfold Seek in E1. io_inv E1.
Qed.

Lemma file_steps_moved cs : forall f x errs f' x', existsb is_close cs = false ->
  file_steps cs f x = Some ((errs, f'), x') -> moved f f'.
Proof.
  induction cs as [|c cs IH]; cbn [file_steps existsb]; intros f x errs f' x' Hc E.
  { injection E as <- <- <-. by destruct f. }
  apply orb_false_iff in Hc as [Hc Hcs]. apply Io_bind_inv in E as ([err f1] & x1 & E1 & E).
  apply Io_bind_inv in E as ([errs1 f2] & x2 & E2 & E). injection E as <- <- <-.
  apply file_step_moved in E1; [|done]. apply IH in E2; [|done]. unfold moved in *. rewrite E2, E1. done.
Qed.

Lemma file_steps_app cs1 cs2 f x errs1 f1 x1 errs2 f2 x2 :
  file_steps cs1 f x = Some ((errs1, f1), x1) -> file_steps cs2 f1 x1 = Some ((errs2, f2), x2) ->
  file_steps (cs1 ++ cs2) f x = Some ((errs1 ++ errs2, f2), x2).
Proof.
  revert f x errs1. induction cs1 as [|c cs1 IH]; cbn [file_steps app]; intros f x errs1 E1 E2.
  { by injection E1 as <- <- <-. }
  apply Io_bind_inv in E1 as ([err g] & y & Ec & E1). apply Io_bind_inv in E1 as ([errs g'] & y' & E1 & E).
  injection E as <- <- <-. rewrite (Io_bind_Some _ _ _ _ _ Ec). erewrite Io_bind_Some by (by eapply IH). done.
Qed.

(** On a closed file. *)
Lemma file_steps_closed cs f x : ff_closed f = true ->
  file_steps cs f x = Some ((map (fun c => Some (errClosed f (call_op c))) cs, f), x).
Proof.
  intros Hf. induction cs as [|c cs IH]; [done|]. cbn [file_steps map].
  rewrite (Io_bind_Some _ _ x (Some (errClosed f (call_op c)), f) x).
  - by rewrite (Io_bind_Some _ _ _ _ _ IH).
  - destruct c; cbn [file_step];
      unfold File_Read, ReadAt, File_Write, WriteAt, Seek, Truncate, Sync, File_Stat, Close; by rewrite Hf.
Qed.
End history.

(** C32.  Closing.  After any history of calls on a file, the first [Close] asks
    the server to close the very handle and stateid the file was opened with,
    and closes the file whatever the server answers; every later call, a second
    [Close] too, fails with [fs.ErrClosed] and reaches the server no more. *)
Theorem file_closed {X : Type} `{RWProtocol X} (before later : list file_call) (f f1 : File)
    (errs : list (option error)) (r : result unit) (x x1 x2 : X)
    (Hopen : ff_closed f = false) (Hbefore : existsb is_close before = false)
    (Hrun : file_steps before f x = Some ((errs, f1), x1))
    (Hclose : p_CloseFile (ff_ctx f) (ff_fh f) (ff_stateid f) x1 = Some (r, x2)) :
  file_steps (before ++ CallClose :: later) f x
  = Some ((errs ++ failure (or_pathError "close" (ff_name f) r)
             :: map (fun c => Some (PathError (call_op c) (ff_name f) ErrClosed)) later,
           set_closed f1), x2).
Proof.
  pose proof (file_steps_moved before f x errs f1 x1 Hbefore Hrun) as Hm.
  assert (Close f1 x1 = Some ((or_pathError "close" (ff_name f) r, set_closed f1), x2)) as Ec.
  { unfold Close. rewrite Hm. cbn [set_offset set_closed ff_closed ff_ctx ff_fh ff_stateid ff_name]. rewrite Hopen.
    by rewrite (Io_bind_Some _ _ _ _ _ Hclose). }
  eapply file_steps_app; [exact Hrun|]. cbn [file_steps].
  erewrite Io_bind_Some by (cbn [file_step]; rewrite (Io_bind_Some _ _ _ _ _ Ec); reflexivity).
  cbn iota. rewrite (Io_bind_Some _ _ _ _ _ (file_steps_closed later (set_closed f1) x2 eq_refl)).
  do 4 f_equal. rewrite Hm. done.
Qed.
