(* ===== verification/ReadAllCorrect.v ===== *)
(** * Reading a file of the read-only file system to its end: theorems

    [io_ReadAll] is the loop of [io.ReadAll] (and of [fs.ReadFile]) over the
    [Read] of a file that [FS.Open] gave (src/client/fs.go), with buffers of any
    sizes. *)

From S2P Require Import Prelude GoError Nfs4Const GoIO Xdr XdrSpec Attr Nfs4Types.
From S2P Require Import Nfs4Args Nfs4Res Caller Conn GoPath Fs File FileSpec FileCorrect.

Section read_all.
Context {X : Type} `{RWProtocol X} (inv : X -> Prop) (content : X -> bytes -> bytes).
Context {can : bytes -> Stateid -> Z -> Prop} `{!FileStore inv content can}.

(** The bytes so far, the error unless it was [io.EOF], the file afterwards;
    [room i] is the room of the buffer at the [i]-th read. *)
Fixpoint io_ReadAll (reads : nat) (room : nat -> Z) (i : nat) (f : file) (acc : bytes)
    : Io X (bytes * option error * file) :=
  match reads with
  | O => fun _ => None
  | S reads =>
      got ← file_Read f (zero_array (room i));
      let '(n, err, p, f) := got in
      let acc := acc ++ btake n p in
      match err with
      | None => io_ReadAll reads room (S i) f acc
      | Some EOF => mret (acc, None, f)
      | Some err => mret (acc, Some err, f)
      end
  end.

(** A READ that asks for bytes and gets none says that the end is reached. *)
Class FileEnds : Prop :=
  read_ends : forall ctx fh sid off count x eof x', inv x -> can fh sid 0 -> is_u64 off -> is_u32 count -> 0 < count ->
    p_Read ctx (Some fh) off count x = Some (inr ([], eof), x') -> eof = true.

Context `{!FileEnds}.

(** A file that has delivered the first [k] bytes of what it holds. *)
Record reading (fh c : bytes) (k : Z) (f : file) : Prop := {
  rg_fh : f_fh f = Some fh;
  rg_offset : f_offset f = k;
  rg_eof : f_eof f = true -> k = blen c
}.

(** One read: the next bytes, at least one; or the end; or an error of the
    protocol. *)
Lemma file_Read_run fh sid c k f p x : reading fh c k f -> can fh sid 0 -> inv x -> content x fh = c ->
  0 <= k <= blen c -> blen c < 2 ^ 64 -> readBlock (f_fsys f) < 2 ^ 32 -> 0 < blen p ->
  exists n err p' f' x', file_Read f p x = Some ((n, err, p', f'), x') /\ inv x' /\ content x' = content x
    /\ reading fh c (k + n) f' /\ f_fsys f' = f_fsys f /\ f_name f' = f_name f
    /\ 0 <= n /\ k + n <= blen c /\ btake n p' = slice k n c
    /\ ((err = None /\ 0 < n) \/ (n = 0 /\ err = Some EOF /\ k = blen c)
        \/ (n = 0 /\ exists e, err = Some (PathError "read" (f_name f) e))).
Proof.
  intros [Hfh Hoff Heof] Hcan Hx Hc Hk H64 Hblock Hp. unfold file_Read.
  destruct (f_eof f) eqn:Ee.
  { exists 0, (Some EOF), p, f, x. rewrite Z.add_0_r. specialize (Heof eq_refl).
    split_and!; try done; [lia|auto]. }
  set (want := if readBlock (f_fsys f) <? blen p then readBlock (f_fsys f) else blen p).
  assert (0 < readBlock (f_fsys f)) as Hb by (unfold readBlock; case_match; [lia|done]).
  assert (0 < want <= blen p /\ want < 2 ^ 32) as [Hw Hw32] by (subst want; bool_cases; lia).
  rewrite (u32_id want) by (split; lia). rewrite Hfh, Hoff.
  destruct (store_read (fs_ctx (f_fsys f)) fh sid k want x Hx Hcan) as (res & x' & E & Hx' & Hc' & Hres); [split; lia..|].
  rewrite (Io_bind_Some _ _ _ _ _ E). destruct res as [e|[data eof]].
  { exists 0, (Some (PathError "read" (f_name f) e)), p, f, x'. rewrite Z.add_0_r. split_and!; try done; [by split; [..|intros; congruence]|lia|eauto 8]. }
  rewrite Hc in Hres. destruct Hres as (Hdata & Hle & Hempty & Hend). pose proof (blen_nonneg data) as Hn.
  destruct (go_copy_prefix p data ltac:(lia)) as [Ht _]. unfold copy_into. rewrite Z.min_r by lia.
  assert (k + blen data <= blen c) as Hkd.
  { rewrite Hdata. unfold slice. rewrite blen_take, blen_drop by lia. lia. }
  rewrite Z.leb_refl, andb_true_r. rewrite (u64_id (k + blen data)) by (split; lia).
  set (f' := mkFile _ _ _ _ _ _).
  assert (reading fh c (k + blen data) f') as Hr'.
  { split; [done|done|]. cbn. destruct eof; [|done]. intros _. specialize (Hend eq_refl). lia. }
  destruct (Z.eqb_spec (blen data) 0) as [Hz|Hz].
  - apply blen_zero in Hz as ->.
    assert (eof = true) as -> by (eapply (read_ends _ fh sid k want x); [done|done|split; lia|split; lia|lia|exact E]).
    change (blen (@nil byte)) with 0 in *. specialize (Hend eq_refl).
    exists 0, (Some EOF), (go_copy p []), f', x'. split_and!; try done.
    right. left. split_and!; [done|done|lia].
  - cbn [andb]. exists (blen data), None, (go_copy p data), f', x'. split_and!; try done; [by rewrite Ht|]. left. split; [done|lia].
Qed.

Lemma io_ReadAll_run fh sid c room : can fh sid 0 -> blen c < 2 ^ 64 -> (forall i, 0 < room i) ->
  forall reads i f acc x, reading fh c (blen acc) f -> inv x -> content x fh = c -> acc = btake (blen acc) c ->
  readBlock (f_fsys f) < 2 ^ 32 -> blen c - blen acc + 1 < Z.of_nat reads ->
  exists out err f' x', io_ReadAll reads room i f acc x = Some ((out, err, f'), x') /\ inv x' /\ content x' = content x
    /\ out = btake (blen out) c /\ (err = None -> out = c)
    /\ (forall e, err = Some e -> exists e', e = PathError "read" (f_name f) e').
Proof.
  intros Hcan H64 Hroom. induction reads as [|reads IH]; intros i f acc x Hf Hx Hc Hacc Hblock Hreads;
    assert (blen acc <= blen c) as Hle by (rewrite Hacc; unfold btake, blen; rewrite length_take; lia); [lia|].
  cbn [io_ReadAll]. pose proof (blen_nonneg acc) as Ha.
  destruct (file_Read_run fh sid c (blen acc) f (zero_array (room i)) x) as
    (n & err & p' & f' & x1 & E & Hx1 & Hc1 & Hf' & Hfs & Hnm & Hn & Hkn & Ht & Hcase); try done.
  { unfold zero_array, blen. rewrite length_replicate. specialize (Hroom i). lia. }
  rewrite (Io_bind_Some _ _ _ _ _ E).
  assert (acc ++ btake n p' = btake (blen acc + n) c) as Happ.
  { rewrite Ht, Hacc at 1. unfold slice. apply btake_app_add; lia. }
  assert (blen (acc ++ btake n p') = blen acc + n) as Hlen by (rewrite Happ, blen_take by lia; lia).
  destruct Hcase as [[-> Hpos]|[(-> & -> & Hend)|(-> & e & ->)]].
  - destruct (IH (S i) f' (acc ++ btake n p') x1) as (out & err & f2 & x2 & E2 & Hx2 & Hc2 & Hout & Hok & Herr).
    + by rewrite Hlen.
    + done.
    + by rewrite Hc1.
    + by rewrite Hlen.
    + by rewrite Hfs.
    + rewrite Hlen. lia.
    + exists out, err, f2, x2. rewrite Hnm in Herr. split_and!; try done. congruence.
  - exists (acc ++ btake 0 p'), None, f', x1. split_and!; try done; [by rewrite Hlen|].
    intros _. rewrite Happ. apply btake_all. lia.
  - exists (acc ++ btake 0 p'), (Some (PathError "read" (f_name f) e)), f', x1.
    split_and!; try done; [by rewrite Hlen|]. intros e' [= <-]. by eauto.
Qed.
End read_all.
Arguments FileEnds {X _} inv can.

(** ** Theorem *)

