(* ===== verification/FileShared.v ===== *)
(** * Goroutines that share an open file (src/client/file.go)

    A [File] may be used by several goroutines at once.  [Read], [Write] and
    [Seek] hold its lock from beginning to end; the other methods take it to
    look at [closed], or to set it, and make their requests without it.  Here a
    method is cut at its requests: a [body] is what a goroutine does between
    them and what it does with each reply, [call_body] is the method seen that
    way, and a lemma for each method says that run by itself it is the method of
    the file File.  A state of [sharing] is the world, the file, its lock and
    where every call is; an [action] is one atomic step of one goroutine, so a
    list of actions is an interleaving. *)

From S2P Require Import Prelude GoError Nfs4Const GoIO Xdr Attr Nfs4Types.
From S2P Require Import Nfs4Args Nfs4Res Caller Conn GoPath Fs File FileOpenCorrect.

(** ** Requests *)

(** A call of the protocol, with its arguments.  src/client/file.go:34-51 *)
Inductive request :=
| RqRead (ctx : Context) (fh : FileHandle) (offset count : Z)
| RqGetAttr (ctx : Context) (fh : FileHandle) (mask : list Z)
| RqWrite (ctx : Context) (fh : FileHandle) (sid : Stateid) (offset : Z) (data : bytes) (stable : Z)
| RqCommit (ctx : Context) (fh : FileHandle) (offset count : Z)
| RqCloseFile (ctx : Context) (fh : FileHandle) (sid : Stateid)
| RqSetAttr (ctx : Context) (fh : FileHandle) (sid : Stateid) (attrMask : list Z) (attrVals : bytes).

Definition reply (q : request) : Type :=
  match q with
  | RqRead _ _ _ _ => result (bytes * bool)
  | RqGetAttr _ _ _ => result (list Z * bytes)
  | RqWrite _ _ _ _ _ _ => result (Z * Z)
  | RqCommit _ _ _ _ | RqCloseFile _ _ _ | RqSetAttr _ _ _ _ _ => result unit
  end.

Definition is_close_request (q : request) : bool := match q with RqCloseFile _ _ _ => true | _ => false end.

(** ** Bodies *)

(** [Stuck] is a loop out of fuel. *)
Inductive body (R : Type) :=
| Return (r : R)
| Ask (q : request) (k : reply q -> body R)
| Stuck.
Arguments Return {R} r.
Arguments Ask {R} q k.
Arguments Stuck {R}.

#[global] Instance body_ret : MRet body := @Return.
#[global] Instance body_bind : MBind body :=
  fun A B (k : A -> body B) =>
    fix bind (b : body A) : body B :=
      match b with
      | Return a => k a
      | Ask q r => Ask q (fun a => bind (r a))
      | Stuck => Stuck
      end.

Definition send (q : request) : body (reply q) := Ask q Return.

(** ** The methods, cut at their requests *)

(** src/client/file.go:209-219 *)
Definition size_body (f : File) : body (result Z) :=
  got ← send (RqGetAttr (ff_ctx f) (ff_fh f) StandardMask);
  match got with
  | inl err => mret (inl err)
  | inr (mask, vals) =>
      match attr_Decode mask vals with
      | inl err => mret (inl err)
      | inr attrs => mret (inr (i64 (a_Size attrs)))
      end
  end.

(** src/client/file.go:190-206 *)
Definition Stat_body (f : File) : body (result fileInfo) :=
  if ff_closed f then mret (inl (errClosed f "stat"))
  else
    got ← send (RqGetAttr (ff_ctx f) (ff_fh f) StandardMask);
    match got with
    | inl err => mret (inl (pathError "stat" (ff_name f) err))
    | inr (mask, vals) =>
        match attr_Decode mask vals with
        | inl err => mret (inl (pathError "stat" (ff_name f) err))
        | inr attrs => mret (inr (FileInfo attrs (path_Base (ff_name f))))
        end
    end.

(** src/client/file.go:234-245 *)
Fixpoint readAt_loop_body (steps : nat) (f : File) (off : Z) (done todo : bytes) : body (Z * option error * bytes) :=
  if bool_decide (todo = []) then mret (blen done, None, done)
  else
    match steps with
    | O => Stuck
    | S steps =>
        got ← send (RqRead (ff_ctx f) (ff_fh f) (u64 (u64 off + blen done)) (u32 (blen todo)));
        match got with
        | inl err => mret (blen done, Some (pathError "read" (ff_name f) err), done ++ todo)
        | inr (data, eof) =>
            let n := Z.min (blen todo) (blen data) in
            let done := done ++ btake n data in
            let todo := bdrop n todo in
            if eof || bool_decide (data = []) then mret (blen done, Some EOF, done ++ todo)
            else readAt_loop_body steps f off done todo
        end
    end.

(** src/client/file.go:223-246 *)
Definition ReadAt_body (f : File) (p : bytes) (off : Z) : body (Z * option error * bytes) :=
  if ff_closed f then mret (0, Some (errClosed f "read"), p)
  else if off <? 0 then mret (0, Some (PathError "read" (ff_name f) ErrInvalid), p)
  else readAt_loop_body (S (length p)) f off [] p.

(** src/client/file.go:249-270 *)
Definition Read_body (f : File) (p : bytes) : body (Z * option error * bytes * File) :=
  if ff_closed f then mret (0, Some (errClosed f "read"), p, f)
  else if bool_decide (p = []) then mret (0, None, p, f)
  else
    got ← send (RqRead (ff_ctx f) (ff_fh f) (u64 (ff_offset f)) (u32 (blen p)));
    match got with
    | inl err => mret (0, Some (pathError "read" (ff_name f) err), p, f)
    | inr (data, eof) =>
        let len_p := blen p in
        let '(n, p) := copy_into p data in
        let f := set_offset (i64 (ff_offset f + n)) f in
        if ((n =? 0) || (eof && (n <? len_p))) && (n =? 0) then mret (0, Some EOF, p, f)
        else mret (n, None, p, f)
    end.

(** src/client/file.go:289-300 *)
Fixpoint writeAt_loop_body (steps : nat) (f : File) (p : bytes) (off total : Z) : body (Z * option error) :=
  if negb (total <? blen p) then mret (total, None)
  else
    match steps with
    | O => Stuck
    | S steps =>
        wrote ← send (RqWrite (ff_ctx f) (ff_fh f) (ff_stateid f) (u64 (u64 off + total)) (bdrop total p) FileSync4);
        match wrote with
        | inl err => mret (total, Some (pathError "write" (ff_name f) err))
        | inr (n, _) =>
            if n =? 0 then mret (total, Some ErrShortWrite)
            else writeAt_loop_body steps f p off (total + n)
        end
    end.

(** src/client/file.go:288-301 *)
Definition writeAt_body (f : File) (p : bytes) (off : Z) : body (Z * option error) :=
  writeAt_loop_body (S (length p)) f p off 0.

(** src/client/file.go:275-286 *)
Definition WriteAt_body (f : File) (p : bytes) (off : Z) : body (Z * option error) :=
  if ff_closed f then mret (0, Some (errClosed f "write"))
  else if off <? 0 then mret (0, Some (PathError "write" (ff_name f) ErrInvalid))
  else writeAt_body f p off.

(** src/client/file.go:305-322 *)
Definition Write_body (f : File) (p : bytes) : body (Z * option error * File) :=
  if ff_closed f then mret (0, Some (errClosed f "write"), f)
  else
    off ← (if has_flag (ff_flag f) O_APPEND then size_body f else mret (inr (ff_offset f)));
    match off with
    | inl err => mret (0, Some (pathError "write" (ff_name f) err), f)
    | inr off =>
        wrote ← writeAt_body f p off;
        let '(n, err) := wrote in
        mret (n, err, set_offset (i64 (off + n)) f)
    end.

(** src/client/file.go:326-353 *)
Definition Seek_body (f : File) (offset : Z) (whence : Whence) : body (result Z * File) :=
  if ff_closed f then mret (inl (errClosed f "seek"), f)
  else
    base ← match whence with
           | SeekStart => mret (inr 0)
           | SeekCurrent => mret (inr (ff_offset f))
           | SeekEnd =>
               sz ← size_body f;
               mret (or_pathError "seek" (ff_name f) sz)
           | SeekOther => mret (inl (PathError "seek" (ff_name f) ErrInvalid))
           end;
    match base with
    | inl err => mret (inl err, f)
    | inr base =>
        let abs := i64 (base + offset) in
        if abs <? 0 then mret (inl (PathError "seek" (ff_name f) ErrInvalid), f)
        else mret (inr abs, set_offset abs f)
    end.

(** src/client/file.go:356-372 *)
Definition Truncate_body (f : File) (sz : Z) : body (result unit) :=
  if ff_closed f then mret (inl (errClosed f "truncate"))
  else if sz <? 0 then mret (inl (PathError "truncate" (ff_name f) ErrInvalid))
  else
    let '(mask, vals) := EncodeFattr (mkSettableAttrs None (Some (u64 sz)) None None) in
    r ← send (RqSetAttr (ff_ctx f) (ff_fh f) (ff_stateid f) mask vals);
    mret (or_pathError "truncate" (ff_name f) r).

(** src/client/file.go:375-386 *)
Definition Sync_body (f : File) : body (result unit) :=
  if ff_closed f then mret (inl (errClosed f "sync"))
  else
    r ← send (RqCommit (ff_ctx f) (ff_fh f) 0 0);
    mret (or_pathError "sync" (ff_name f) r).

(** With the file as [Close] leaves it; [Close_marks] is what it does to the
    shared one while it has the lock.  src/client/file.go:389-401 *)
Definition Close_body (f : File) : body (result unit * File) :=
  if ff_closed f then mret (inl (errClosed f "close"), f)
  else
    let f := set_closed f in
    r ← send (RqCloseFile (ff_ctx f) (ff_fh f) (ff_stateid f));
    mret (or_pathError "close" (ff_name f) r, f).

(** src/client/file.go:390-396 *)
Definition Close_marks (f : File) : File := if ff_closed f then f else set_closed f.

(** ** Calls *)

Inductive file_answer :=
| AnsRead (n : Z) (err : option error) (p : bytes)
| AnsWrite (n : Z) (err : option error)
| AnsSeek (r : result Z)
| AnsDone (r : result unit)
| AnsStat (r : result fileInfo).

(** Whether a method holds the lock until it returns ([defer f.mu.Unlock()]), as
    [Read] does.  src/client/file.go:249-251 *)
Definition holds (c : file_call) : bool :=
  match c with CallRead _ | CallWrite _ | CallSeek _ _ => true | _ => false end.

(** The shared file when a method that does not hold the lock gives it back. *)
Definition marks (c : file_call) (f : File) : File := if is_close c then Close_marks f else f.

Definition call_body (c : file_call) (f : File) : body (file_answer * File) :=
  match c with
  | CallRead p => out ← Read_body f p; let '(n, err, p, f) := out in mret (AnsRead n err p, f)
  | CallReadAt p off => out ← ReadAt_body f p off; let '(n, err, p) := out in mret (AnsRead n err p, f)
  | CallWrite p => out ← Write_body f p; let '(n, err, f) := out in mret (AnsWrite n err, f)
  | CallWriteAt p off => out ← WriteAt_body f p off; let '(n, err) := out in mret (AnsWrite n err, f)
  | CallSeek n w => out ← Seek_body f n w; let '(r, f) := out in mret (AnsSeek r, f)
  | CallTruncate n => r ← Truncate_body f n; mret (AnsDone r, f)
  | CallSync => r ← Sync_body f; mret (AnsDone r, f)
  | CallStat => r ← Stat_body f; mret (AnsStat r, f)
  | CallClose => out ← Close_body f; let '(r, f) := out in mret (AnsDone r, f)
  end.

Section shared.
Context {X : Type} `{RWProtocol X}.

(** One request, answered. *)
Definition ask (q : request) : Io X (reply q) :=
  match q with
  | RqRead ctx fh offset count => p_Read ctx fh offset count
  | RqGetAttr ctx fh mask => p_GetAttr ctx fh mask
  | RqWrite ctx fh sid offset data stable => p_Write ctx fh sid offset data stable
  | RqCommit ctx fh offset count => p_Commit ctx fh offset count
  | RqCloseFile ctx fh sid => p_CloseFile ctx fh sid
  | RqSetAttr ctx fh sid attrMask attrVals => p_SetAttr ctx fh sid attrMask attrVals
  end.

(** A body that nobody interrupts. *)
Fixpoint run_body {R} (b : body R) : Io X R :=
  match b with
  | Return r => mret r
  | Ask q k => a ← ask q; run_body (k a)
  | Stuck => fun _ => None
  end.

(** A call by itself, with the methods of the file File. *)
Definition whole_call (c : file_call) (f : File) : Io X (file_answer * File) :=
  match c with
  | CallRead p => out ← File_Read f p; let '(n, err, p, f) := out in mret (AnsRead n err p, f)
  | CallReadAt p off => out ← ReadAt f p off; let '(n, err, p) := out in mret (AnsRead n err p, f)
  | CallWrite p => out ← File_Write f p; let '(n, err, f) := out in mret (AnsWrite n err, f)
  | CallWriteAt p off => out ← WriteAt f p off; let '(n, err) := out in mret (AnsWrite n err, f)
  | CallSeek n w => out ← Seek f n w; let '(r, f) := out in mret (AnsSeek r, f)
  | CallTruncate n => r ← Truncate f n; mret (AnsDone r, f)
  | CallSync => r ← Sync f; mret (AnsDone r, f)
  | CallStat => r ← File_Stat f; mret (AnsStat r, f)
  | CallClose => out ← Close f; let '(r, f) := out in mret (AnsDone r, f)
  end.

(** One after the other, each on the file the one before leaves. *)
Fixpoint in_turn {E} (one : E -> File -> Io X (file_answer * File)) (es : list E) (f : File)
  : Io X (list file_answer * File) :=
  match es with
  | [] => mret ([], f)
  | e :: es =>
      out ← one e f;
      let '(a, f) := out in
      rest ← in_turn one es f;
      let '(as_, f) := rest in
      mret (a :: as_, f)
  end.

Definition whole_calls : list file_call -> File -> Io X (list file_answer * File) := in_turn whole_call.
End shared.

(** ** Interleavings *)

(** Where a call that has taken the lock is: with its body still to run, or
    returned. *)
Inductive call_pc := Inside (b : body (file_answer * File)) | Returned (a : file_answer).

(** The lock is whether it is taken; the calls that wait for it, and those that
    have taken it, in that order; the requests made, each with the number of
    its call among the latter.  src/client/file.go:158-171 *)
Record sharing {X : Type} := mkSharing {
  sh_world : X;
  sh_file : File;
  sh_mu : bool;
  sh_waiting : list file_call;
  sh_entered : list (file_call * call_pc);
  sh_trace : list (nat * request)
}.
Arguments sharing X : clear implicits.
Arguments mkSharing {X}.

Section actions.
Context {X : Type} `{RWProtocol X}.
Implicit Types s : sharing X.

Definition sharing_of (f : File) (x : X) : sharing X := mkSharing x f false [] [] [].

(** A goroutine calls a method. *)
Definition call_method (c : file_call) s : sharing X :=
  mkSharing (sh_world s) (sh_file s) (sh_mu s) (sh_waiting s ++ [c]) (sh_entered s) (sh_trace s).

(** The [i]th of those that wait gets the lock.  A method that does not hold it
    looks at [closed], or sets it, and gives it back in the same step: nobody
    else touches the file in between.  src/client/file.go:224-226 *)
Definition take_lock (i : nat) s : option (sharing X) :=
  if sh_mu s then None
  else
    match sh_waiting s !! i with
    | None => None
    | Some c =>
        Some (mkSharing (sh_world s) (marks c (sh_file s)) (holds c) (delete i (sh_waiting s))
                (sh_entered s ++ [(c, Inside (call_body c (sh_file s)))]) (sh_trace s))
    end.

(** The [i]th makes the request it has come to. *)
Definition make_request (i : nat) s : option (sharing X) :=
  match sh_entered s !! i with
  | Some (c, Inside (Ask q k)) =>
      match ask q (sh_world s) with
      | None => None
      | Some (a, x) =>
          Some (mkSharing x (sh_file s) (sh_mu s) (sh_waiting s) (<[i := (c, Inside (k a))]> (sh_entered s))
                  (sh_trace s ++ [(i, q)]))
      end
  | _ => None
  end.

(** The [i]th returns; one that holds the lock leaves its changes in the file
    and gives the lock back.  src/client/file.go:251-251 *)
Definition return_from (i : nat) s : option (sharing X) :=
  match sh_entered s !! i with
  | Some (c, Inside (Return (a, f))) =>
      Some (mkSharing (sh_world s) (if holds c then f else sh_file s) (if holds c then false else sh_mu s)
              (sh_waiting s) (<[i := (c, Returned a)]> (sh_entered s)) (sh_trace s))
  | _ => None
  end.

Inductive file_action :=
| ActCall (c : file_call)
| ActLock (i : nat)
| ActRequest (i : nat)
| ActReturn (i : nat).

Definition file_act (a : file_action) s : option (sharing X) :=
  match a with
  | ActCall c => Some (call_method c s)
  | ActLock i => take_lock i s
  | ActRequest i => make_request i s
  | ActReturn i => return_from i s
  end.

(** [None] when one of the actions is not possible. *)
Fixpoint run_file (acts : list file_action) s : option (sharing X) :=
  match acts with
  | [] => Some s
  | a :: acts =>
      match file_act a s with
      | None => None
      | Some s => run_file acts s
      end
  end.

(** What is left of the calls that have taken the lock, one after the other in
    that order. *)
Definition finish_one (e : file_call * call_pc) (f : File) : Io X (file_answer * File) :=
  match e with
  | (c, Inside b) =>
      out ← run_body b;
      let '(a, g) := out in
      mret (a, if holds c then g else f)
  | (_, Returned a) => mret (a, f)
  end.

Definition finish_all : list (file_call * call_pc) -> File -> Io X (list file_answer * File) := in_turn finish_one.
End actions.
