(* ===== verification/FileSharedCorrect.v ===== *)
(** * Goroutines that share an open file: theorems *)

From S2P Require Import Prelude GoError Nfs4Const GoIO Xdr XdrSpec Attr Nfs4Types.
From S2P Require Import Nfs4Args Nfs4Res Caller Conn GoPath Fs File FileSpec FileCorrect FileOpenCorrect FileShared.

(** ** Bodies *)

Section run.
Context {X : Type} `{RWProtocol X}.

Lemma Io_bind_ext {A B} (m m' : Io X A) (k k' : A -> Io X B) (x y : X) :
  m x = m' y -> (forall a x', k a x' = k' a x') -> (m ≫= k) x = (m' ≫= k') y.
Proof. intros E Ek. unfold mbind, Io_bind. rewrite E. by destruct (m' y) as [[a x']|]. Qed.

Lemma Io_bind_assoc {A B C} (m : Io X A) (k : A -> Io X B) (l : B -> Io X C) (x : X) :
  ((m ≫= k) ≫= l) x = (m ≫= (fun a => k a ≫= l)) x.
Proof. unfold mbind, Io_bind. by destruct (m x) as [[a x']|]. Qed.

Lemma run_body_bind {A B} (b : body A) (k : A -> body B) (x : X) :
  run_body (b ≫= k) x = (run_body b ≫= (fun a => run_body (k a))) x.
Proof.
  revert x. induction b as [a|q r IH| ]; intros x; [done| |done].
  change (run_body (Ask q r ≫= k)) with (a ← ask q; run_body (r a ≫= k) : Io X B).
  cbn [run_body]. rewrite Io_bind_assoc. apply Io_bind_ext; [done|]. intros a x'. apply IH.
Qed.

Lemma run_body_send q (x : X) : run_body (send q) x = ask q x.
Proof. cbn. unfold mbind, Io_bind, mret, Io_ret. by destruct (ask q x) as [[a x']|]. Qed.
End run.

(** Follows a body and a method through the same branches. *)
Ltac same_run :=
  intros;
  repeat first
    [ reflexivity
    | assumption
    | rewrite run_body_bind; apply Io_bind_ext; [|intros ? ?]
    | match goal with |- run_body (send ?q) ?x = _ => exact (run_body_send q x) end
    | progress cbn iota beta
    | match goal with
      | |- run_body (match ?t with _ => _ end) _ = _ => destruct t
      | |- run_body (let '_ := ?t in _) _ = _ => destruct t
      end
    | progress auto ].

Section methods.
Context {X : Type} `{RWProtocol X}.

Lemma run_size f (x : X) : run_body (size_body f) x = size f x.
Proof. unfold size_body, size. same_run. Qed.

Lemma run_Stat f (x : X) : run_body (Stat_body f) x = File_Stat f x.
Proof. unfold Stat_body, File_Stat. same_run. Qed.

Lemma run_readAt_loop f off : forall steps done todo (x : X),
  run_body (readAt_loop_body steps f off done todo) x = readAt_loop steps f off done todo x.
Proof. induction steps; intros; cbn [readAt_loop_body readAt_loop]; same_run. Qed.

Lemma run_ReadAt f p off (x : X) : run_body (ReadAt_body f p off) x = ReadAt f p off x.
Proof. unfold ReadAt_body, ReadAt. pose proof run_readAt_loop. same_run. Qed.

Lemma run_Read f p (x : X) : run_body (Read_body f p) x = File_Read f p x.
Proof. unfold Read_body, File_Read. same_run. Qed.

Lemma run_writeAt_loop f p off : forall steps total (x : X),
  run_body (writeAt_loop_body steps f p off total) x = writeAt_loop steps f p off total x.
Proof. induction steps; intros; cbn [writeAt_loop_body writeAt_loop]; same_run. Qed.

Lemma run_WriteAt f p off (x : X) : run_body (WriteAt_body f p off) x = WriteAt f p off x.
Proof. unfold WriteAt_body, WriteAt, writeAt_body, writeAt. pose proof run_writeAt_loop. same_run. Qed.

Lemma run_Write f p (x : X) : run_body (Write_body f p) x = File_Write f p x.
Proof. unfold Write_body, File_Write, writeAt_body, writeAt. pose proof run_writeAt_loop. pose proof run_size. same_run. Qed.

Lemma run_Seek f n w (x : X) : run_body (Seek_body f n w) x = Seek f n w x.
Proof. unfold Seek_body, Seek. pose proof run_size. same_run. Qed.

Lemma run_Truncate f n (x : X) : run_body (Truncate_body f n) x = Truncate f n x.
Proof. unfold Truncate_body, Truncate. same_run. Qed.

Lemma run_Sync f (x : X) : run_body (Sync_body f) x = Sync f x.
Proof. unfold Sync_body, Sync. same_run. Qed.

Lemma run_Close f (x : X) : run_body (Close_body f) x = Close f x.
Proof. unfold Close_body, Close. same_run. Qed.

(** A body that nobody interrupts is the method. *)
Lemma run_call_body c f (x : X) : run_body (call_body c f) x = whole_call c f x.
Proof.
  destruct c; cbn [call_body whole_call]; (rewrite run_body_bind; apply Io_bind_ext; [|intros; by destruct_pairs]).
  - apply run_Read.
  - apply run_ReadAt.
  - apply run_Write.
  - apply run_WriteAt.
  - apply run_Seek.
  - apply run_Truncate.
  - apply run_Sync.
  - apply run_Stat.
  - apply run_Close.
Qed.

(** What it leaves in the file when it does not hold the lock. *)
Lemma whole_call_leaves c f (x : X) :
  whole_call c f x =
  (out ← run_body (call_body c f); let '(a, g) := out in mret (a, if holds c then g else marks c f)) x.
Proof.
  trans ((out ← whole_call c f; let '(a, g) := out in mret (a, if holds c then g else marks c f)) x);
    [|apply Io_bind_ext; [symmetry; apply run_call_body|done]].
  unfold mbind, Io_bind. destruct (whole_call c f x) as [[[a g] x']|] eqn:E; [|done].
  destruct (holds c) eqn:Hc; [done|]. enough (g = marks c f) as -> by done. destruct c; try done; cbn [whole_call] in E;
    try (apply Io_bind_inv in E as (out & x1 & _ & E); destruct_pairs; by injection E).
  apply Io_bind_inv in E as ([r h] & x1 & Ec & E). injection E as _ <- _.
  unfold marks, Close_marks, Close in *. cbn [is_close]. destruct (ff_closed f); [by injection Ec|].
  apply Io_bind_inv in Ec as (r' & x2 & _ & Ec). by injection Ec.
Qed.
End methods.

(** ** A call on a closed file, and what a call leaves *)

Lemma call_body_closed c f : ff_closed f = true -> exists a, call_body c f = Return (a, f).
Proof.
  intros Hf. destruct c; cbn [call_body];
    unfold Read_body, ReadAt_body, Write_body, WriteAt_body, Seek_body, Truncate_body, Sync_body, Stat_body, Close_body;
    rewrite Hf; by eexists.
Qed.

Lemma marks_closed c f : ff_closed f = true -> marks c f = f.
Proof. intros Hf. unfold marks, Close_marks. rewrite Hf. by destruct (is_close c). Qed.

Lemma Close_marks_closed f : ff_closed (Close_marks f) = true.
Proof. unfold Close_marks. by destruct (ff_closed f) eqn:E. Qed.

Lemma marks_open c f : ff_closed (marks c f) = false -> is_close c = false /\ ff_closed f = false.
Proof. unfold marks. destruct (is_close c); [|done]. by rewrite Close_marks_closed. Qed.

Lemma marks_holds c f : holds c = true -> marks c f = f.
Proof. by destruct c. Qed.

(** The calls whose whole work is done under the lock, and [Close]. *)
Definition in_order (c : file_call) : bool := holds c || is_close c.

Lemma marks_in_order c f : in_order c = true -> holds c = false -> ff_closed (marks c f) = true.
Proof. unfold in_order, marks. intros H E. rewrite E in H. cbn in H. rewrite H. apply Close_marks_closed. Qed.

(** ** Interleavings *)

Section interleavings.
Context {X : Type} `{RWProtocol X}.
Implicit Types s : sharing X.

Definition calls_entered s : list file_call := map fst (sh_entered s).

Lemma run_file_app acts1 acts2 s : run_file (acts1 ++ acts2) s = s' ← run_file acts1 s; run_file acts2 s'.
Proof.
  revert s. induction acts1 as [|a acts1 IH]; intros s; [done|]. cbn [run_file app].
  destruct (file_act a s); [apply IH|done].
Qed.

Lemma map_fst_insert {A B} (es : list (A * B)) i c pc pc' : es !! i = Some (c, pc) ->
  map fst (<[i := (c, pc')]> es) = map fst es.
Proof.
  intros E. apply list_eq. intros j. rewrite !list_lookup_fmap. destruct (decide (i = j)) as [<-|Hne].
  - rewrite list_lookup_insert_eq by (by eapply lookup_lt_Some). by rewrite E.
  - by rewrite list_lookup_insert_ne.
Qed.

(** The three steps of a call that has been made. *)
Lemma take_lock_inv i s s' : take_lock i s = Some s' -> exists c, sh_mu s = false /\
  s' = mkSharing (sh_world s) (marks c (sh_file s)) (holds c) (delete i (sh_waiting s))
         (sh_entered s ++ [(c, Inside (call_body c (sh_file s)))]) (sh_trace s).
Proof.
  unfold take_lock. destruct (sh_mu s) eqn:E; [done|]. destruct (_ !! i) as [c|]; [|done]. intros [= <-]. by exists c.
Qed.

Lemma make_request_inv i s s' : make_request i s = Some s' -> exists c q k a x,
  sh_entered s !! i = Some (c, Inside (Ask q k)) /\ ask q (sh_world s) = Some (a, x) /\
  s' = mkSharing x (sh_file s) (sh_mu s) (sh_waiting s) (<[i := (c, Inside (k a))]> (sh_entered s))
         (sh_trace s ++ [(i, q)]).
Proof.
  unfold make_request. destruct (_ !! i) as [[c [[|q k|]|]]|] eqn:Ei; try done.
  destruct (ask q _) as [[a x]|] eqn:Ea; [|done]. intros [= <-]. by exists c, q, k, a, x.
Qed.

Lemma return_from_inv i s s' : return_from i s = Some s' -> exists c a f,
  sh_entered s !! i = Some (c, Inside (Return (a, f))) /\
  s' = mkSharing (sh_world s) (if holds c then f else sh_file s) (if holds c then false else sh_mu s)
         (sh_waiting s) (<[i := (c, Returned a)]> (sh_entered s)) (sh_trace s).
Proof.
  unfold return_from. destruct (_ !! i) as [[c [[[a f]| |]|]]|] eqn:Ei; try done. intros [= <-]. by exists c, a, f.
Qed.

(** Calls that have the lock once stay in their order. *)
Lemma act_entered a s s' : file_act a s = Some s' -> exists l, calls_entered s' = calls_entered s ++ l.
Proof.
  unfold calls_entered. destruct a as [c|i|i|i]; cbn [file_act]; intros E.
  - injection E as <-. exists []. by rewrite app_nil_r.
  - apply take_lock_inv in E as (c & _ & ->). cbn [sh_entered]. rewrite map_app. by eexists.
  - apply make_request_inv in E as (c & q & k & a & x & Ei & _ & ->). exists []. cbn [sh_entered].
    by rewrite (map_fst_insert _ _ _ _ _ Ei), app_nil_r.
  - apply return_from_inv in E as (c & a & f & Ei & ->). exists []. cbn [sh_entered].
    by rewrite (map_fst_insert _ _ _ _ _ Ei), app_nil_r.
Qed.

(** Induction over the reachable states in which the calls that have entered
    satisfy something. *)
Lemma run_file_ind (Q : list file_call -> Prop) (P : sharing X -> Prop) f x :
  (forall cs l, Q (cs ++ l) -> Q cs) ->
  P (sharing_of f x) ->
  (forall s a s', Q (calls_entered s') -> P s -> file_act a s = Some s' -> P s') ->
  forall acts s, Q (calls_entered s) -> run_file acts (sharing_of f x) = Some s -> P s.
Proof.
  intros HQ H0 Hstep acts. induction acts as [|a acts IH] using rev_ind; intros s Hs E.
  { by injection E as <-. }
  rewrite run_file_app in E. destruct (run_file acts _) as [s1|] eqn:E1; [|done]. cbn in E.
  destruct (file_act a s1) as [s2|] eqn:Ea; [|done]. injection E as ->.
  destruct (act_entered a s1 s Ea) as [l El]. eapply Hstep; [exact Hs| |exact Ea]. apply IH; [|done].
  rewrite El in Hs. by eapply HQ.
Qed.

(** ** The lock *)

(** A method that holds the lock is the last that took it. *)
Definition lock_inv s : Prop := forall j c b,
  sh_entered s !! j = Some (c, Inside b) -> holds c = true -> sh_mu s = true /\ S j = length (sh_entered s).

Lemma lookup_new {A} (l : list A) (e e' : A) j : (l ++ [e]) !! j = Some e' ->
  l !! j = Some e' \/ (j = length l /\ e' = e).
Proof.
  intros E. apply lookup_app_Some in E as [E|[Hj E]]; [by left|]. right.
  apply list_lookup_singleton_Some in E as [Hj0 ->]. split; [lia|done].
Qed.

Lemma lookup_changed {A} (l : list A) (e e' : A) i j : <[i := e]> l !! j = Some e' ->
  (i = j /\ e' = e) \/ (i <> j /\ l !! j = Some e').
Proof.
  intros E. apply list_lookup_insert_Some in E as [(-> & -> & _)|[Hne E]]; [by left|by right].
Qed.

Lemma act_lock_inv a s s' : lock_inv s -> file_act a s = Some s' -> lock_inv s'.
Proof.
  intros Hi E. destruct a as [c|i|i|i]; cbn [file_act] in E.
  - injection E as <-. exact Hi.
  - apply take_lock_inv in E as (c & Hmu & ->). intros j c' b Ej Hh. cbn [sh_entered sh_mu] in *.
    rewrite length_app. cbn [length]. apply lookup_new in Ej as [Ej|[-> Ej]].
    + destruct (Hi _ _ _ Ej Hh). congruence.
    + injection Ej as -> _. split; [done|lia].
  - apply make_request_inv in E as (c & q & k & a & x & Ei & _ & ->). intros j c' b Ej Hh. cbn [sh_entered sh_mu] in *.
    rewrite length_insert. apply lookup_changed in Ej as [[<- Ej]|[_ Ej]]; [|by eapply Hi].
    injection Ej as -> _. by eapply Hi.
  - apply return_from_inv in E as (c & a & f & Ei & ->). intros j c' b Ej Hh. cbn [sh_entered sh_mu] in *.
    rewrite length_insert. apply lookup_changed in Ej as [[_ Ej]|[Hne Ej]]; [done|].
    destruct (Hi _ _ _ Ej Hh) as [Hmu Hj]. destruct (holds c) eqn:Hc; [|done].
    destruct (Hi _ _ _ Ei Hc) as [_ Hl]. lia.
Qed.
End interleavings.

(** ** Equivalence with the calls one after the other *)

Section serial.
Context {X : Type} `{RWProtocol X}.
Implicit Types s : sharing X.
Implicit Types e : file_call * call_pc.
Implicit Types es : list (file_call * call_pc).

(** Nothing is left of the call, and the file is as it leaves it. *)
Definition rested (f : File) e : Prop :=
  match e with
  | (_, Returned _) => True
  | (c, Inside (Return (_, g))) => holds c = true -> g = f
  | _ => False
  end.

Definition answer_of e : option file_answer :=
  match e with
  | (_, Returned a) | (_, Inside (Return (a, _))) => Some a
  | _ => None
  end.

Definition holds_none es : Prop := Forall (fun e => forall c b, e = (c, Inside b) -> holds c = false) es.

Lemma in_turn_app {E} (one : E -> File -> Io X (file_answer * File)) (es1 es2 : list E) f (x : X) :
  in_turn one (es1 ++ es2) f x =
  (out ← in_turn one es1 f; let '(as1, f1) := out in
   rest ← in_turn one es2 f1; let '(as2, f2) := rest in mret (as1 ++ as2, f2)) x.
Proof.
  revert f x. induction es1 as [|e es1 IH]; intros f x; cbn [app in_turn].
  - unfold mbind, Io_bind, mret, Io_ret. by destruct (in_turn one es2 f x) as [[[as2 f2] x2]|].
  - rewrite Io_bind_assoc. apply Io_bind_ext; [done|]. intros [a f1] x1. unfold mbind, Io_bind, mret, Io_ret.
    specialize (IH f1 x1). unfold mbind, Io_bind, mret, Io_ret in IH. rewrite IH.
    destruct (in_turn one es1 f1 x1) as [[[as1 f2] x2]|]; [|done].
    by destruct (in_turn one es2 f2 x2) as [[[as2 f3] x3]|].
Qed.

Lemma in_turn_one {E} (one : E -> File -> Io X (file_answer * File)) (es : list E) (e : E) f (x : X) :
  in_turn one (es ++ [e]) f x =
  (out ← in_turn one es f; let '(as1, f1) := out in
   last ← one e f1; let '(a, f2) := last in mret (as1 ++ [a], f2)) x.
Proof.
  rewrite in_turn_app. apply Io_bind_ext; [done|]. intros [as1 f1] x1. cbn [in_turn].
  unfold mbind, Io_bind, mret, Io_ret. by destruct (one e f1 x1) as [[[a f2] x2]|].
Qed.

Lemma finish_rested es f (x : X) : Forall (rested f) es ->
  finish_all es f x = Some ((omap answer_of es, f), x).
Proof.
  intros Hes. induction Hes as [|[c pc] es He Hes IH]; [done|]. unfold finish_all in *. cbn [in_turn].
  assert (exists a, answer_of (c, pc) = Some a /\ finish_one (c, pc) f x = Some ((a, f), x)) as (a & Ea & Ef).
  { destruct pc as [[[a g]| |]|a]; cbn in He; try done; exists a; split; try done. cbn [finish_one].
    cbn. destruct (holds c); [|done]. by rewrite He. }
  rewrite (Io_bind_Some _ _ _ _ _ Ef), (Io_bind_Some _ _ _ _ _ IH). cbn [omap list_omap]. by rewrite Ea.
Qed.

(** Without a call that holds the lock the file stays. *)
Lemma finish_file es f (x : X) as_ f' x' : holds_none es ->
  finish_all es f x = Some ((as_, f'), x') -> f' = f.
Proof.
  intros Hn. revert f x as_. induction Hn as [|[c pc] es He Hes IH]; intros f x as_ E; unfold finish_all in *; cbn [in_turn] in E.
  { by injection E as _ <-. }
  apply Io_bind_inv in E as ([a f1] & x1 & E1 & E). apply Io_bind_inv in E as ([as1 f2] & x2 & E2 & E).
  injection E as _ -> ->. apply IH in E2 as ->. destruct pc as [b|b]; cbn [finish_one] in E1.
  - rewrite (He c b eq_refl) in E1. apply Io_bind_inv in E1 as ([a' g] & x3 & _ & E1). by injection E1.
  - by injection E1.
Qed.


(** All calls but one, at most, are over; that one has the lock or is a [Close]
    whose request is under way. *)
Record serial_inv (f0 : File) (x0 : X) s : Prop := {
  serial_lock : lock_inv s;
  serial_one : exists k, (forall j e, sh_entered s !! j = Some e -> j <> k -> rested (sh_file s) e)
    /\ (forall e, sh_entered s !! k = Some e -> ~ rested (sh_file s) e -> holds e.1 = false ->
          ff_closed (sh_file s) = true);
  serial_run : whole_calls (calls_entered s) f0 x0 = finish_all (sh_entered s) (sh_file s) (sh_world s)
}.

Lemma rested_any f g e : rested f e -> (forall c b, e = (c, Inside b) -> holds c = false) -> rested g e.
Proof. destruct e as [c [[[a h]| |]|a]]; cbn; try done. intros _ H'. by rewrite (H' c _ eq_refl). Qed.

Lemma lock_free s : lock_inv s -> sh_mu s = false -> holds_none (sh_entered s).
Proof.
  intros Hi Hmu. apply Forall_lookup. intros j e Ej c b ->. destruct (holds c) eqn:Hc; [|done].
  destruct (Hi _ _ _ Ej Hc). congruence.
Qed.

Lemma holds_none_lookup es j c b : holds_none es -> es !! j = Some (c, Inside b) -> holds c = false.
Proof. intros Hn Ej. by eapply (proj1 (Forall_lookup _ _) Hn). Qed.

(** A free lock and an open file: every call is over. *)
Lemma serial_rested f0 x0 s : serial_inv f0 x0 s -> sh_mu s = false -> ff_closed (sh_file s) = false ->
  Forall (rested (sh_file s)) (sh_entered s).
Proof.
  intros [Hl (k & Hr & Hk) _] Hmu Hf. apply Forall_lookup. intros j e Ej. destruct (decide (j = k)) as [->|Hne]; [|by eapply Hr].
  pose proof (lock_free s Hl Hmu) as Hn. destruct e as [c [b|a]]; [|done].
  pose proof (holds_none_lookup _ _ _ _ Hn Ej) as Hc.
  assert (rested (sh_file s) (c, Inside b) \/ ~ rested (sh_file s) (c, Inside b)) as [?|Hnot]; [|done|].
  { cbn. destruct b as [[a g]| |]; [left; congruence|right; tauto|right; tauto]. }
  specialize (Hk _ Ej Hnot Hc). congruence.
Qed.

Lemma serial_lock_step f0 x0 s i s' : serial_inv f0 x0 s -> forallb in_order (calls_entered s') = true ->
  take_lock i s = Some s' -> serial_inv f0 x0 s'.
Proof.
  intros Hi Hord E. pose proof (act_lock_inv (ActLock i) s s' (serial_lock _ _ _ Hi) E) as Hl'.
  apply take_lock_inv in E as (c & Hmu & ->). unfold calls_entered in Hord. cbn [sh_entered] in Hord.
  rewrite map_app, forallb_app in Hord. apply andb_true_iff in Hord as [_ Hc]. cbn in Hc. rewrite andb_true_r in Hc.
  pose proof (lock_free s (serial_lock _ _ _ Hi) Hmu) as Hn.
  set (es := sh_entered s) in *. set (f := sh_file s) in *.
  destruct (ff_closed f) eqn:Hf.
  - destruct (call_body_closed c f Hf) as [a Ea]. split; [done|..]; cbn [sh_entered sh_file]; rewrite marks_closed by done.
    + destruct Hi as [_ (k & Hr & Hk) _]. exists k. split; [|by intros].
      intros j e Ej Hne. apply lookup_new in Ej as [Ej|[-> ->]]; [by eapply Hr|]. fold f. by rewrite Ea.
    + unfold calls_entered. cbn [sh_entered sh_world]. rewrite map_app. unfold whole_calls, finish_all. cbn [map].
      rewrite !in_turn_one. destruct Hi as [_ _ Hrun]. unfold whole_calls, finish_all, calls_entered in Hrun.
      fold es f in Hrun. unfold mbind at 1 3, Io_bind. fold es. cbn [fst]. rewrite Hrun.
      destruct (in_turn finish_one es f (sh_world s)) as [[[as_ f'] x']|] eqn:Ef; [|done].
      pose proof (finish_file es f _ _ _ _ Hn Ef) as ->. apply Io_bind_ext; [|done].
      rewrite <- run_call_body, Ea. cbn. by destruct (holds c).
  - pose proof (serial_rested f0 x0 s Hi Hmu Hf) as Hr. fold es f in Hr.
    assert (Forall (rested (marks c f)) es) as Hr'.
    { apply Forall_lookup. intros j e Ej. rewrite Forall_lookup in Hr. eapply rested_any; [by eapply Hr|].
      intros c' b ->. by eapply holds_none_lookup. }
    split; [done|..]; cbn [sh_entered sh_file].
    + exists (length es). split.
      * intros j e Ej Hne. apply lookup_new in Ej as [Ej|[-> _]]; [|done]. rewrite Forall_lookup in Hr'. by eapply Hr'.
      * intros e Ee _ Hh. rewrite lookup_app_r in Ee by lia. rewrite Nat.sub_diag in Ee. injection Ee as <-.
        by apply marks_in_order.
    + unfold calls_entered. cbn [sh_entered sh_world]. rewrite map_app. unfold whole_calls, finish_all. cbn [map].
      rewrite !in_turn_one. destruct Hi as [_ _ Hrun]. unfold whole_calls, finish_all, calls_entered in Hrun.
      fold es f in Hrun. rewrite (Io_bind_Some _ _ _ _ _ (finish_rested es (marks c f) (sh_world s) Hr')).
      erewrite Io_bind_Some by (fold es; etransitivity; [exact Hrun|]; exact (finish_rested es f (sh_world s) Hr)).
      apply Io_bind_ext; [|done]. cbn [fst finish_one]. fold f. apply whole_call_leaves.
Qed.

(** What only one call does to its own body. *)
Lemma finish_changed es i c b b' f (x x' : X) : es !! i = Some (c, Inside b) ->
  (forall j e, es !! j = Some e -> j <> i -> rested f e) ->
  run_body b x = run_body b' x' ->
  finish_all es f x = finish_all (<[i := (c, Inside b')]> es) f x'.
Proof.
  intros Ei Hr Eb. rewrite <- (take_drop_middle es i _ Ei).
  assert (i < length es)%nat as Hi by by eapply lookup_lt_Some.
  rewrite insert_app_r_alt by (rewrite length_take; lia). rewrite length_take, Nat.min_l, Nat.sub_diag by lia.
  assert (Forall (rested f) (take i es)) as Ht.
  { apply Forall_lookup. intros j e Ej. apply lookup_take_Some in Ej as [Ej Hj]. eapply Hr; [exact Ej|lia]. }
  unfold finish_all. cbn [list_insert]. rewrite !in_turn_app.
  rewrite (Io_bind_Some _ _ _ _ _ (finish_rested _ _ x Ht)), (Io_bind_Some _ _ _ _ _ (finish_rested _ _ x' Ht)).
  change (<[0%nat:=(c, Inside b')]> ((c, Inside b) :: drop (S i) es)) with ((c, Inside b') :: drop (S i) es).
  apply Io_bind_ext; [|done]. cbn [in_turn]. apply Io_bind_ext; [|done]. cbn [finish_one].
  unfold mbind, Io_bind. by rewrite Eb.
Qed.

Lemma serial_request_step f0 x0 s i s' : serial_inv f0 x0 s -> make_request i s = Some s' -> serial_inv f0 x0 s'.
Proof.
  intros Hi E. pose proof (act_lock_inv (ActRequest i) s s' (serial_lock _ _ _ Hi) E) as Hl'.
  apply make_request_inv in E as (c & q & k & a & x & Ei & Ea & ->).
  destruct Hi as [_ (n & Hr & Hk) Hrun]. assert (i = n) as <-.
  { destruct (decide (i = n)); [done|]. by destruct (Hr _ _ Ei). }
  split; [done|..]; cbn [sh_entered sh_file].
  - exists i. split; [|intros e Ee _ Hh; apply (Hk _ Ei)].
    + intros j e Ej Hne. apply lookup_changed in Ej as [[-> _]|[_ Ej]]; [done|by eapply Hr].
    + by intros [].
    + apply lookup_changed in Ee as [[_ ->]|[Hne _]]; done.
  - unfold calls_entered in *. cbn [sh_entered sh_world]. rewrite (map_fst_insert _ _ _ _ _ Ei), Hrun.
    apply (finish_changed _ _ _ _ _ _ _ _ Ei Hr). cbn [run_body]. by rewrite (Io_bind_Some _ _ _ _ _ Ea).
Qed.

(** Returning changes nothing of what is left. *)
Lemma finish_returned es i c a g f (x : X) : es !! i = Some (c, Inside (Return (a, g))) ->
  (holds c = true -> S i = length es /\ holds_none (take i es) /\ (g = f \/ Forall (rested f) (take i es))) ->
  finish_all es f x = finish_all (<[i := (c, Returned a)]> es) (if holds c then g else f) x.
Proof.
  intros Ei Hh. assert (i < length es)%nat as Hi by by eapply lookup_lt_Some.
  trans (finish_all (take i es ++ (c, Inside (Return (a, g))) :: drop (S i) es) f x);
    [by rewrite (take_drop_middle es i _ Ei)|].
  rewrite insert_take_drop by done. unfold finish_all. destruct (holds c) eqn:Hc.
  - destruct (Hh eq_refl) as (Hl & Hn & Hg). rewrite drop_ge by lia. rewrite !in_turn_one.
    destruct Hg as [->|Hr].
    + unfold mbind at 1 3, Io_bind. destruct (in_turn finish_one (take i es) f x) as [[[as_ f'] x']|] eqn:Ef; [|done].
      pose proof (finish_file _ _ _ _ _ _ Hn Ef) as ->. apply Io_bind_ext; [|done]. cbn. by rewrite Hc.
    + assert (Forall (rested g) (take i es)) as Hr'.
      { apply Forall_lookup. intros j e Ej. rewrite Forall_lookup in Hr. eapply rested_any; [by eapply Hr|].
        intros c' b ->. by eapply holds_none_lookup. }
      rewrite (Io_bind_Some _ _ _ _ _ (finish_rested _ f x Hr)), (Io_bind_Some _ _ _ _ _ (finish_rested _ g x Hr')).
      apply Io_bind_ext; [|done]. cbn. by rewrite Hc.
  - rewrite !in_turn_app. apply Io_bind_ext; [done|]. intros [as1 f1] x1. apply Io_bind_ext; [|done].
    cbn [in_turn]. apply Io_bind_ext; [|done]. cbn. by rewrite Hc.
Qed.

Lemma serial_return_step f0 x0 s i s' : serial_inv f0 x0 s -> return_from i s = Some s' -> serial_inv f0 x0 s'.
Proof.
  intros Hi E. pose proof (act_lock_inv (ActReturn i) s s' (serial_lock _ _ _ Hi) E) as Hl'.
  apply return_from_inv in E as (c & a & g & Ei & ->). destruct Hi as [Hl (n & Hr & Hk) Hrun].
  assert (forall j c' b, holds c = true -> sh_entered s !! j = Some (c', Inside b) -> holds c' = true -> j = i) as Hlast.
  { intros j c' b Hc Ej Hc'. destruct (Hl _ _ _ Ej Hc') as [_ H1]. destruct (Hl _ _ _ Ei Hc) as [_ H2]. lia. }
  assert (holds c = true -> i <> n -> g = sh_file s) as Hg by (intros Hc Hne; by apply (Hr _ _ Ei Hne)).
  split; [done|..]; cbn [sh_entered sh_file].
  - exists n. split.
    + intros j e Ej Hne. apply lookup_changed in Ej as [[_ ->]|[Hij Ej]]; [done|]. specialize (Hr _ _ Ej Hne).
      destruct (holds c) eqn:Hc; [|done]. eapply rested_any; [done|]. intros c' b ->.
      destruct (holds c') eqn:Hc'; [|done]. by destruct (Hlast j c' b).
    + intros e Ee Hnot Hh. apply lookup_changed in Ee as [[_ ->]|[Hij Ee]]; [by destruct Hnot|].
      destruct (holds c) eqn:Hc; [|by eapply Hk]. rewrite (Hg eq_refl Hij) in Hnot |- *. by eapply Hk.
  - unfold calls_entered in *. cbn [sh_entered sh_world]. rewrite (map_fst_insert _ _ _ _ _ Ei), Hrun.
    apply (finish_returned _ _ _ _ _ _ _ Ei). intros Hc. split_and!.
    + by apply (Hl _ _ _ Ei Hc).
    + apply Forall_lookup. intros j e Ej c' b ->. apply lookup_take_Some in Ej as [Ej Hj].
      destruct (holds c') eqn:Hc'; [|done]. specialize (Hlast j c' b Hc Ej Hc'). lia.
    + destruct (decide (i = n)) as [->|Hne]; [right|left; by apply Hg].
      apply Forall_lookup. intros j e Ej. apply lookup_take_Some in Ej as [Ej Hj]. eapply Hr; [exact Ej|lia].
Qed.

Lemma run_serial f0 (x0 : X) acts s : forallb in_order (calls_entered s) = true ->
  run_file acts (sharing_of f0 x0) = Some s -> serial_inv f0 x0 s.
Proof.
  apply (run_file_ind (fun cs => forallb in_order cs = true)).
  - intros cs l Hcs. rewrite forallb_app in Hcs. by apply andb_true_iff in Hcs as [? _].
  - split; [done| |done]. exists 0%nat. by split.
  - intros s1 [c|i|i|i] s2 Hq Hi E; cbn [file_act] in E.
    + injection E as <-. destruct Hi as [Hl H1 Hrun]. by split.
    + by eapply serial_lock_step.
    + by eapply serial_request_step.
    + by eapply serial_return_step.
Qed.
End serial.

(** ** Theorems *)

Lemma settled {X : Type} `{RWProtocol X} f0 (x0 : X) acts s answers :
  forallb in_order (calls_entered s) = true -> run_file acts (sharing_of f0 x0) = Some s ->
  map snd (sh_entered s) = map Returned answers ->
  whole_calls (calls_entered s) f0 x0 = Some ((answers, sh_file s), sh_world s).
Proof.
  intros Hcalls Hrun Ha. destruct (run_serial f0 x0 acts s Hcalls Hrun) as [_ _ ->].
  revert answers Ha. generalize (sh_entered s) as es. intros es answers Ha. rewrite finish_rested.
  - do 3 f_equal. revert answers Ha. induction es as [|[c pc] es IH]; intros [|a answers]; cbn; try done.
    intros [= -> Ha]. cbn. f_equal. by apply IH.
  - apply Forall_lookup. intros j [c pc] Ej. assert (map snd es !! j = Some pc) as Hpc by (by rewrite list_lookup_fmap, Ej).
    rewrite Ha, list_lookup_fmap in Hpc. by destruct (answers !! j) as [a|]; [injection Hpc as <-|].
Qed.

(** C11.  Sharing an open file.  However goroutines that read, write, seek and
    close one file are interleaved, their calls are as if made one after the
    other, in the order in which they got the lock: finishing now what is left
    of them leads where the whole calls lead in that order, and when all have
    returned, their answers, the file and the server are those of that order. *)
Theorem file_serialised {X : Type} `{RWProtocol X} (f0 : File) (x0 : X) (acts : list file_action) (s : sharing X)
    (Hcalls : forallb in_order (calls_entered s) = true)
    (Hrun : run_file acts (sharing_of f0 x0) = Some s) :
  whole_calls (calls_entered s) f0 x0 = finish_all (sh_entered s) (sh_file s) (sh_world s) /\
  forall answers, map snd (sh_entered s) = map Returned answers ->
    whole_calls (calls_entered s) f0 x0 = Some ((answers, sh_file s), sh_world s).
Proof.
  split; [by destruct (run_serial f0 x0 acts s Hcalls Hrun)|]. intros answers. by apply (settled f0 x0 acts s).
Qed.

(** The reads among the answers. *)
Definition read_of (a : file_answer) : option (Z * option error * bytes) :=
  match a with AnsRead n err p => Some (n, err, p) | _ => None end.

Lemma whole_reads {X : Type} `{RWProtocol X} ps f (x : X) outs f' x' :
  File_reads f ps x = Some ((outs, f'), x') ->
  whole_calls (map CallRead ps) f x = Some ((map (fun '(n, err, p) => AnsRead n err p) outs, f'), x').
Proof.
  unfold whole_calls. revert f x outs. induction ps as [|p ps IH]; intros f x outs E; cbn [map File_reads in_turn] in *.
  { by injection E as <- <- <-. }
  apply Io_bind_inv in E as ([[[n err] q] g] & x1 & E1 & E). apply Io_bind_inv in E as ([outs1 g'] & x2 & E2 & E).
  injection E as <- <- <-. apply IH in E2.
  erewrite Io_bind_Some by (cbn [whole_call]; rewrite (Io_bind_Some _ _ _ _ _ E1); reflexivity).
  cbn iota beta. by rewrite (Io_bind_Some _ _ _ _ _ E2).
Qed.

(** Sharing the work of reading.  When goroutines only [Read] one open
    file, then, once the calls that got the lock have returned, what they
    delivered in that order is the file's content from the offset on, without a
    gap or a byte delivered twice, and the offset is behind the last byte. *)
Theorem shared_reads {X : Type} `{RWProtocol X} (inv : X -> Prop) (content : X -> bytes -> bytes)
    {can : bytes -> Stateid -> Z -> Prop} `{!FileStore inv content can} (f0 : File) (fh : bytes) (ps : list bytes)
    (answers : list file_answer) (x0 : X) (acts : list file_action) (s : sharing X)
    (Hfh : ff_fh f0 = Some fh) (Hopen : ff_closed f0 = false) (Hx : inv x0)
    (Hoff : 0 <= ff_offset f0) (Hend : ff_offset f0 + lengths ps < 2 ^ 63)
    (Hps : Forall (fun p => blen p < 2 ^ 32) ps) (Hcan : can fh (ff_stateid f0) 0)
    (Hcalls : calls_entered s = map CallRead ps) (Hdone : map snd (sh_entered s) = map Returned answers)
    (Hrun : run_file acts (sharing_of f0 x0) = Some s) :
  let got := concat (map delivered (omap read_of answers)) in
  got = slice (ff_offset f0) (blen got) (content x0 fh)
  /\ sh_file s = set_offset (ff_offset f0 + blen got) f0 /\ content (sh_world s) = content x0
  /\ Forall (fun out => out.1.2 = Some EOF -> blen (content x0 fh) <= ff_offset f0 + blen got) (omap read_of answers).
Proof.
  assert (forallb in_order (calls_entered s) = true) as Hord by (rewrite Hcalls; clear; by induction ps).
  pose proof (settled f0 x0 acts s answers Hord Hrun Hdone) as E.
  destruct (File_reads_run inv content fh (ff_stateid f0) ps Hcan f0 x0) as (outs & x' & Er & _ & Hc & Hgot & _ & _ & Heof); try done.
  rewrite Hcalls, (whole_reads _ _ _ _ _ _ Er) in E. injection E as <- <- <-.
  assert (omap read_of (map (fun '(n, err, p) => AnsRead n err p) outs) = outs) as ->.
  { clear. induction outs as [|[[n err] p] outs IH]; [done|]. cbn. by f_equal. }
  by split_and!.
Qed.
