(* ===== verification/FileCloseCorrect.v ===== *)
(** * Closing a file that goroutines share

    What the methods of an open file may ask, and that whatever the interleaving
    the server is asked once to close it. *)

From S2P Require Import Prelude GoError Nfs4Const GoIO Xdr XdrSpec Attr Nfs4Types.
From S2P Require Import Nfs4Args Nfs4Res Caller Conn GoPath Fs File FileSpec FileCorrect FileOpenCorrect.
From S2P Require Import FileShared FileSharedCorrect.

(** ** What a body may ask *)

Fixpoint body_all {R} (P : request -> Prop) (Q : R -> Prop) (b : body R) : Prop :=
  match b with
  | Return r => Q r
  | Ask q k => P q /\ forall a, body_all P Q (k a)
  | Stuck => True
  end.

Lemma body_all_bind {A B} P (Q : A -> Prop) (Q' : B -> Prop) (b : body A) (k : A -> body B) :
  body_all P Q b -> (forall a, Q a -> body_all P Q' (k a)) -> body_all P Q' (b ≫= k).
Proof.
  intros Hb Hk. induction b as [a|q r IH| ]; [by apply Hk| |done]. destruct Hb as [Hq Hb].
  split; [done|]. intros a. apply IH, Hb.
Qed.

Lemma body_all_impl {R} (P P' : request -> Prop) (Q Q' : R -> Prop) (b : body R) :
  (forall q, P q -> P' q) -> (forall r, Q r -> Q' r) -> body_all P Q b -> body_all P' Q' b.
Proof.
  intros HP HQ. induction b as [r|q k IH| ]; cbn; [auto| |done]. intros [H1 H2]. split; [auto|]. intros a. apply IH, H2.
Qed.

(** What no method changes. *)
Definition handle (f : File) : Context * FileHandle * Stateid := (ff_ctx f, ff_fh f, ff_stateid f).

(** A request for an open file. *)
Definition on_handle (h : Context * FileHandle * Stateid) (q : request) : Prop :=
  match q with
  | RqRead ctx fh _ _ | RqGetAttr ctx fh _ | RqCommit ctx fh _ _ => ctx = h.1.1 /\ fh = h.1.2
  | RqWrite ctx fh sid _ _ _ | RqCloseFile ctx fh sid | RqSetAttr ctx fh sid _ _ => (ctx, fh, sid) = h
  end.

(** The requests of a method but [Close], and the file it leaves. *)
Definition asks (f : File) (q : request) : Prop := on_handle (handle f) q /\ is_close_request q = false.
Definition keeps_handle (f g : File) : Prop := handle g = handle f /\ ff_closed g = ff_closed f.

(** Follows a body through its branches. *)
Ltac every_branch :=
  repeat first
    [ done
    | match goal with
      | |- body_all _ _ (mret _) => cbn
      | |- body_all _ _ (send _ ≫= _) => split; [split; done|intros ?; cbn [mbind body_bind]]
      | |- body_all _ _ (_ ≫= _) => eapply body_all_bind; [eassumption|intros ? ?]
      | |- body_all _ _ (match ?t with _ => _ end) => destruct t
      | |- body_all _ _ (let '_ := ?t in _) => destruct t
      end
    | progress cbn iota beta
    | progress auto ].

Lemma size_asks f : body_all (asks f) (fun _ => True) (size_body f).
Proof. unfold size_body. every_branch. Qed.

Lemma readAt_asks f off steps : forall done todo, body_all (asks f) (fun _ => True) (readAt_loop_body steps f off done todo).
Proof. induction steps; intros; cbn [readAt_loop_body]; every_branch. Qed.

Lemma writeAt_asks f p off steps : forall total, body_all (asks f) (fun _ => True) (writeAt_loop_body steps f p off total).
Proof. induction steps; intros; cbn [writeAt_loop_body]; every_branch. Qed.

Lemma WriteAt_asks f p off : body_all (asks f) (fun _ => True) (writeAt_body f p off).
Proof. apply writeAt_asks. Qed.

Lemma Write_asks f p : body_all (asks f) (fun out => keeps_handle f out.2) (Write_body f p).
Proof.
  unfold Write_body. destruct (ff_closed f) eqn:Hf; [done|]. apply (body_all_bind _ (fun _ => True)).
  - destruct (has_flag _ _); [apply size_asks|done].
  - intros [e|off] _; [done|]. eapply body_all_bind; [apply WriteAt_asks|]. by intros [n err] _.
Qed.

Lemma Seek_asks f n w : body_all (asks f) (fun out => keeps_handle f out.2) (Seek_body f n w).
Proof.
  unfold Seek_body. destruct (ff_closed f) eqn:Hf; [done|]. apply (body_all_bind _ (fun _ => True)).
  - destruct w; try done. eapply body_all_bind; [apply size_asks|done].
  - intros [e|base] _; [done|]. cbn iota beta zeta. by destruct (_ <? 0).
Qed.

Lemma call_body_asks c f : is_close c = false ->
  body_all (asks f) (fun out => keeps_handle f out.2) (call_body c f).
Proof.
  intros Hc. assert (forall A (b : body A) k, body_all (asks f) (fun _ => True) b ->
    (forall a, body_all (asks f) (fun out : file_answer * File => keeps_handle f out.2) (k a)) ->
    body_all (asks f) (fun out => keeps_handle f out.2) (b ≫= k)) as Hbind.
  { intros A b k Hb Hk. eapply body_all_bind; [exact Hb|]. intros a _. apply Hk. }
  destruct c; try done; cbn [call_body].
  - apply (body_all_bind _ (fun out => keeps_handle f out.2)); [|intros [[[? ?] ?] ?] ?; done].
    unfold Read_body. every_branch.
  - apply Hbind; [|by intros [[? ?] ?]]. pose proof (readAt_asks f off). unfold ReadAt_body. every_branch.
  - eapply body_all_bind; [apply Write_asks|]. by intros [[? ?] ?].
  - apply Hbind; [|by intros [? ?]]. pose proof (WriteAt_asks f). unfold WriteAt_body. every_branch.
  - eapply body_all_bind; [apply Seek_asks|]. by intros [? ?].
  - apply Hbind; [|done]. unfold Truncate_body. every_branch.
  - apply Hbind; [|done]. unfold Sync_body. every_branch.
  - apply Hbind; [|done]. unfold Stat_body. every_branch.
Qed.

Lemma Close_body_open f : ff_closed f = false ->
  exists k, call_body CallClose f = Ask (RqCloseFile (ff_ctx f) (ff_fh f) (ff_stateid f)) k
    /\ forall a, exists out, k a = Return out.
Proof. intros Hf. cbn [call_body]. unfold Close_body. rewrite Hf. eexists. split; [reflexivity|]. intros a. by eexists. Qed.

(** ** One CLOSE *)

Section close.
Context {X : Type} `{RWProtocol X}.
Implicit Types s : sharing X.

(** Nothing is left of the call but to return. *)
Definition over (e : file_call * call_pc) : Prop :=
  match e with
  | (_, Returned _) | (_, Inside (Return _)) => True
  | _ => False
  end.

Definition earlier (k : nat) (r : nat * request) : Prop := (r.1 < k)%nat /\ is_close_request r.2 = false.

(** A request of a call that has given the lock back. *)
Definition unlocked (cs : list file_call) (r : nat * request) : Prop := exists c, cs !! r.1 = Some c /\ holds c = false.

(** A CLOSE, and nothing after it. *)
Definition sends_close (h : Context * FileHandle * Stateid) (b : body (file_answer * File)) : Prop :=
  match b with
  | Ask q r => q = RqCloseFile h.1.1 h.1.2 h.2 /\ forall a, exists out, r a = Return out
  | _ => False
  end.

(** The [k]th call is the [Close]; its request has been made, or is to be. *)
Inductive closing (h : Context * FileHandle * Stateid) s (k : nat) : Prop :=
| ToClose (b : body (file_answer * File)) (Hk : sh_entered s !! k = Some (CallClose, Inside b))
    (Hb : sends_close h b) (Htr : Forall (earlier k) (sh_trace s))
| CloseSent (pc : call_pc) (t1 t2 : list (nat * request))
    (Hk : sh_entered s !! k = Some (CallClose, pc)) (Hpc : over (CallClose, pc))
    (Htr : sh_trace s = t1 ++ (k, RqCloseFile h.1.1 h.1.2 h.2) :: t2)
    (Hbefore : Forall (earlier k) (t1 ++ t2)) (Hafter : Forall (unlocked (calls_entered s)) t2).

(** After the [k]th call none has anything to ask; before it, only those that
    do not hold the lock. *)
Definition around s (k : nat) : Prop :=
  (forall j e, sh_entered s !! j = Some e -> (k < j)%nat -> over e)
  /\ (forall j c pc, sh_entered s !! j = Some (c, pc) -> (j < k)%nat ->
        is_close c = false /\ (holds c = true -> over (c, pc))).

Record close_inv (f0 : File) s : Prop := {
  close_lock : lock_inv s;
  close_handle : handle (sh_file s) = handle f0;
  close_bodies : forall j c b, sh_entered s !! j = Some (c, Inside b) ->
    is_close c = false -> body_all (asks f0) (fun out => holds c = true -> keeps_handle (sh_file s) out.2) b;
  close_range : Forall (fun r => (r.1 < length (sh_entered s))%nat) (sh_trace s);
  close_trace : Forall (fun r => on_handle (handle f0) r.2) (sh_trace s);
  close_open : ff_closed (sh_file s) = false ->
    Forall (fun r => is_close_request r.2 = false) (sh_trace s)
    /\ forall j e, sh_entered s !! j = Some e -> is_close e.1 = false;
  close_closed : ff_closed (sh_file s) = true -> exists k, closing (handle f0) s k /\ around s k
}.

Lemma handle_marks c f : handle (marks c f) = handle f.
Proof. unfold marks, Close_marks. by destruct (is_close c), (ff_closed f). Qed.

Lemma handle_asks f g b : handle f = handle g ->
  forall Q : file_answer * File -> Prop, body_all (asks f) Q b -> body_all (asks g) Q b.
Proof. intros E Q. apply body_all_impl; [|done]. intros q [H1 H2]. split; [by rewrite <- E|done]. Qed.

Lemma holds_not_close c : holds c = true -> is_close c = false.
Proof. by destruct c. Qed.

(** Another step leaves the [Close] where it is. *)
Lemma closing_entered h s s' k : sh_trace s' = sh_trace s ->
  (forall pc, sh_entered s !! k = Some (CallClose, pc) ->
     exists pc', sh_entered s' !! k = Some (CallClose, pc') /\ (pc' = pc \/ over (CallClose, pc) /\ over (CallClose, pc'))) ->
  (exists l, calls_entered s' = calls_entered s ++ l) -> closing h s k -> closing h s' k.
Proof.
  intros Et He [l El] [b Hk Hb Htr|pc t1 t2 Hk Hpc Htr Hb Ha].
  - destruct (He _ Hk) as (pc' & Hk' & [->|[Hover _]]); [|by destruct b]. apply (ToClose _ _ _ b); try done. by rewrite Et.
  - destruct (He _ Hk) as (pc' & Hk' & Hover). apply (CloseSent _ _ _ pc' t1 t2); try done.
    + by destruct Hover as [->|[_ ?]].
    + by rewrite Et.
    + eapply Forall_impl; [exact Ha|]. intros r (c & Hc & ?). exists c. split; [|done]. rewrite El.
      by apply lookup_app_l_Some.
Qed.

(** The state in which a call has just got the lock. *)
Definition locked (i : nat) (c : file_call) s : sharing X :=
  mkSharing (sh_world s) (marks c (sh_file s)) (holds c) (delete i (sh_waiting s))
    (sh_entered s ++ [(c, Inside (call_body c (sh_file s)))]) (sh_trace s).

Lemma locked_closed f0 s i c k : ff_closed (sh_file s) = true -> closing (handle f0) s k -> around s k ->
  closing (handle f0) (locked i c s) k /\ around (locked i c s) k.
Proof.
  intros Hf Hk [Hlater Hearlier].
  assert (k < length (sh_entered s))%nat as Hlen by (destruct Hk; by eapply lookup_lt_Some). split; [|split].
  - eapply (closing_entered _ s); [reflexivity| | |exact Hk].
    + intros pc Hpc. exists pc. split; [by apply lookup_app_l_Some|by left].
    + unfold calls_entered. cbn [locked sh_entered]. rewrite map_app. by eexists.
  - intros j e Ej Hj. apply lookup_new in Ej as [Ej|[_ ->]]; [by eapply Hlater|].
    destruct (call_body_closed c _ Hf) as [a Ea]. by rewrite Ea.
  - intros j c' pc Ej Hj. apply lookup_new in Ej as [Ej|[-> _]]; [by eapply Hearlier|lia].
Qed.

Lemma locked_open f0 s i : close_inv f0 s -> sh_mu s = false -> ff_closed (sh_file s) = false ->
  let k := length (sh_entered s) in
  closing (handle f0) (locked i CallClose s) k /\ around (locked i CallClose s) k.
Proof.
  intros [Hl Hh _ Hrg _ Ho _] Hmu Hf k. destruct (Ho Hf) as [Ho1 Ho2].
  destruct (Close_body_open (sh_file s) Hf) as (r & Er & Hr). split; [|split].
  - eapply ToClose; cbn [locked sh_entered sh_trace].
    + unfold k. rewrite lookup_app_r, Nat.sub_diag, Er by lia. reflexivity.
    + rewrite <- Hh. done.
    + apply Forall_forall. intros t Hin. rewrite Forall_forall in Ho1, Hrg. split; auto.
  - intros j e Ej Hj. apply lookup_new in Ej as [Ej|[-> _]]; [|unfold k in Hj; lia]. apply lookup_lt_Some in Ej. unfold k in Hj. lia.
  - intros j c' pc Ej Hj. apply lookup_new in Ej as [Ej|[-> _]]; [|unfold k in Hj; lia]. split; [by apply (Ho2 _ _ Ej)|].
    intros Hh'. destruct pc as [b|]; [|done]. by rewrite (holds_none_lookup _ _ _ _ (lock_free s Hl Hmu) Ej) in Hh'.
Qed.

Lemma close_lock_step f0 s i s' : close_inv f0 s -> take_lock i s = Some s' -> close_inv f0 s'.
Proof.
  intros Hi E. pose proof Hi as [Hl Hh Hb Hrg Ht Ho Hc]. pose proof (act_lock_inv (ActLock i) s s' Hl E) as Hl'.
  apply take_lock_inv in E as (c & Hmu & ->). fold (locked i c s) in *.
  pose proof (holds_none_lookup (sh_entered s)) as Hn. specialize (fun j c b => Hn j c b (lock_free s Hl Hmu)).
  split; cbn [locked sh_file sh_entered sh_trace] in *; try done.
  - by rewrite handle_marks.
  - intros j c' b Ej Hcl. apply lookup_new in Ej as [Ej|[_ Ej]].
    + eapply body_all_impl; [done| |by eapply Hb]. intros out _ Hh'. by rewrite (Hn _ _ _ Ej) in Hh'.
    + injection Ej as -> ->. apply (handle_asks (sh_file s)); [done|]. eapply body_all_impl; [done| |by apply call_body_asks].
      intros out Hk Hh'. by rewrite marks_holds.
  - eapply Forall_impl; [exact Hrg|]. cbn. intros r Hr. rewrite length_app. lia.
  - intros Hm. apply marks_open in Hm as [Hcl Hm]. destruct (Ho Hm) as [Ho1 Ho2]. split; [done|].
    intros j e Ej. apply lookup_new in Ej as [Ej|[_ ->]]; [by eapply Ho2|done].
  - intros Hm. destruct (ff_closed (sh_file s)) eqn:Hf.
    + destruct (Hc eq_refl) as (k & Hk & Har). exists k. by apply locked_closed.
    + destruct (is_close c) eqn:Hcl; [|unfold marks in Hm; rewrite Hcl in Hm; congruence].
      destruct c; try done. exists (length (sh_entered s)). by apply (locked_open f0 s i).
Qed.

(** Who can make a request once the file is closed. *)
Lemma close_requests f0 s k i c q r : close_inv f0 s -> closing (handle f0) s k ->
  around s k -> sh_entered s !! i = Some (c, Inside (Ask q r)) ->
  (i < k)%nat /\ is_close c = false /\ holds c = false /\ is_close_request q = false
  \/ i = k /\ c = CallClose /\ q = RqCloseFile (handle f0).1.1 (handle f0).1.2 (handle f0).2
      /\ (forall a, exists out, r a = Return out) /\ Forall (earlier k) (sh_trace s).
Proof.
  intros Hi Hk [Hlater Hearlier] Ei. destruct (Nat.lt_trichotomy i k) as [Hlt|[->|Hgt]].
  - destruct (Hearlier _ _ _ Ei Hlt) as [Hc Hh]. left. split_and!; try done.
    + destruct (holds c); [by destruct (Hh eq_refl)|done].
    + by destruct (close_bodies _ _ Hi _ _ _ Ei Hc) as [[_ ?] _].
  - right. destruct Hk as [b Hk Hb Htr|pc t1 t2 Hk Hpc _ _ _]; rewrite Ei in Hk; [|by injection Hk as -> <-].
    injection Hk as -> <-. by destruct Hb.
  - by destruct (Hlater _ _ Ei Hgt).
Qed.

Lemma closing_request f0 s k i c q r a x : close_inv f0 s -> closing (handle f0) s k -> around s k ->
  sh_entered s !! i = Some (c, Inside (Ask q r)) ->
  closing (handle f0) (mkSharing x (sh_file s) (sh_mu s) (sh_waiting s) (<[i := (c, Inside (r a))]> (sh_entered s))
                         (sh_trace s ++ [(i, q)])) k.
Proof.
  intros Hi Hk Har Ei. assert (i < length (sh_entered s))%nat as Hlen by by eapply lookup_lt_Some.
  destruct (close_requests f0 s k i c q r Hi Hk Har Ei) as [(Hik & Hcl & Hh & Hq)|(-> & -> & -> & Hr & Htr)].
  - destruct Hk as [b Hk Hb Htr|pc t1 t2 Hk Hpc Htr Hbefore Hafter].
    + eapply ToClose; cbn [sh_entered sh_trace]; [rewrite list_lookup_insert_ne by lia; exact Hk|done|].
      apply Forall_app. split; [done|]. by repeat constructor.
    + eapply (CloseSent _ _ _ pc t1 (t2 ++ [(i, q)])); cbn [sh_entered sh_trace].
      * by rewrite list_lookup_insert_ne by lia.
      * done.
      * rewrite Htr. by rewrite <- app_assoc.
      * rewrite app_assoc. apply Forall_app. split; [done|]. by repeat constructor.
      * unfold calls_entered in *. cbn [sh_entered]. rewrite (map_fst_insert _ _ _ _ _ Ei). apply Forall_app. split; [done|].
        constructor; [|done]. exists c. split; [|done]. cbn. by rewrite list_lookup_fmap, Ei.
  - destruct (Hr a) as [out Hout].
    eapply (CloseSent _ _ _ (Inside (r a)) (sh_trace s) []); cbn [sh_entered sh_trace]; try done.
    + by apply list_lookup_insert_eq.
    + by rewrite Hout.
    + by rewrite app_nil_r.
Qed.

Lemma close_request_step f0 s i s' : close_inv f0 s -> make_request i s = Some s' -> close_inv f0 s'.
Proof.
  intros Hi E. pose proof (act_lock_inv (ActRequest i) s s' (close_lock _ _ Hi) E) as Hl'.
  destruct (act_entered (ActRequest i) s s' E) as [l El].
  apply make_request_inv in E as (c & q & r & a & x & Ei & _ & ->).
  pose proof (close_requests f0 s) as Hreq. pose proof Hi as [Hl Hh Hb Hrg Ht Ho Hc].
  split; cbn [sh_file sh_entered sh_trace] in *; try done.
  - intros j c' b Ej Hcl. apply lookup_changed in Ej as [[<- Ej]|[_ Ej]]; [|by eapply Hb].
    injection Ej as -> ->. by apply (Hb _ _ _ Ei Hcl).
  - rewrite length_insert. apply Forall_app. split; [done|]. repeat constructor. cbn. by eapply lookup_lt_Some.
  - apply Forall_app. split; [done|]. repeat constructor. cbn. destruct (is_close c) eqn:Hcl; [|by destruct (Hb _ _ _ Ei Hcl) as [[? _] _]].
    destruct (ff_closed (sh_file s)) eqn:Hf; [|destruct (Ho eq_refl) as [_ Hno]; specialize (Hno _ _ Ei); cbn in Hno; congruence].
    destruct (Hc eq_refl) as (k & Hk & Har).
    destruct (Hreq k i c q r Hi Hk Har Ei) as [(_ & ? & _)|(_ & _ & -> & _)]; [congruence|]. done.
  - intros Hf. destruct (Ho Hf) as [Ho1 Ho2]. split.
    + apply Forall_app. split; [done|]. repeat constructor. by destruct (Hb _ _ _ Ei (Ho2 _ _ Ei)) as [[_ ?] _].
    + intros j e Ej. apply lookup_changed in Ej as [[_ ->]|[_ Ej]]; [apply (Ho2 _ _ Ei)|by eapply Ho2].
  - intros Hf. destruct (Hc Hf) as (k & Hk & Har). exists k.
    pose proof (Hreq k i c q r Hi Hk Har Ei) as Hwho. split; [by eapply closing_request|].
    destruct Har as [Hlater Hearlier]. split.
    + intros j e Ej Hj. apply lookup_changed in Ej as [[<- _]|[_ Ej]]; [|by eapply Hlater]. destruct Hwho as [[? _]|[? _]]; lia.
    + intros j c' pc Ej Hj. apply lookup_changed in Ej as [[<- Ej]|[_ Ej]]; [|by eapply Hearlier].
      injection Ej as -> ->. destruct Hwho as [(_ & ? & ? & _)|[? _]]; [|lia]. split; [done|congruence].
Qed.

Lemma close_return_step f0 s i s' : close_inv f0 s -> return_from i s = Some s' -> close_inv f0 s'.
Proof.
  intros [Hl Hh Hb Hrg Ht Ho Hc] E. pose proof (act_lock_inv (ActReturn i) s s' Hl E) as Hl'.
  destruct (act_entered (ActReturn i) s s' E) as [l El].
  apply return_from_inv in E as (c & a & g & Ei & ->).
  assert (keeps_handle (sh_file s) (if holds c then g else sh_file s)) as [Hg1 Hg2].
  { destruct (holds c) eqn:Hcl; [|done]. by apply (Hb _ _ _ Ei (holds_not_close c Hcl)). }
  assert (forall j e, <[i := (c, Returned a)]> (sh_entered s) !! j = Some e ->
    exists e', sh_entered s !! j = Some e' /\ e.1 = e'.1 /\ (over e' -> over e)) as Hold.
  { intros j e Ej. apply lookup_changed in Ej as [[<- ->]|[_ Ej]]; by eexists. }
  split; cbn [sh_file sh_entered sh_trace] in *; try done.
  - by rewrite Hg1.
  - intros j c' b Ej Hcl. apply lookup_changed in Ej as [[_ Ej]|[Hne Ej]]; [done|].
    eapply body_all_impl; [done| |by eapply Hb]. intros out Hk Hh'. destruct (holds c) eqn:Hcc; [|by apply Hk].
    destruct (Hl _ _ _ Ei Hcc) as [_ H1]. destruct (Hl _ _ _ Ej Hh') as [_ H2]. lia.
  - by rewrite length_insert.
  - intros Hf. rewrite Hg2 in Hf. destruct (Ho Hf) as [Ho1 Ho2]. split; [done|]. intros j e Ej.
    destruct (Hold _ _ Ej) as (e' & Ej' & -> & _). by eapply Ho2.
  - intros Hf. rewrite Hg2 in Hf. destruct (Hc Hf) as (k & Hk & Hlater & Hearlier). exists k. split; [|split].
    + eapply (closing_entered _ s); [reflexivity| |by exists l|exact Hk]. cbn [sh_entered]. intros pc Hpc.
      destruct (decide (i = k)) as [->|Hne].
      * rewrite Ei in Hpc. injection Hpc as -> <-. exists (Returned a). split; [|by right].
        apply list_lookup_insert_eq. by eapply lookup_lt_Some.
      * exists pc. split; [by rewrite list_lookup_insert_ne|by left].
    + intros j e Ej Hj. destruct (Hold _ _ Ej) as (e' & Ej' & _ & Hover). apply Hover. by eapply Hlater.
    + intros j c' pc Ej Hj. destruct (Hold _ _ Ej) as ([c1 pc1] & Ej' & E1 & Hover). cbn in E1. subst c1.
      destruct (Hearlier _ _ _ Ej' Hj) as [H1 H2]. split; [done|]. intros Hh'. apply Hover. by apply H2.
Qed.

Lemma run_close f0 (x0 : X) acts s : ff_closed f0 = false ->
  run_file acts (sharing_of f0 x0) = Some s -> close_inv f0 s.
Proof.
  intros Hf E. apply (run_file_ind (fun _ => True) (close_inv f0) f0 x0) with (acts := acts); try done.
  - split; try done. cbn. congruence.
  - intros s1 [c|i|i|i] s2 _ Hi Ea; cbn [file_act] in Ea.
    + injection Ea as <-. destruct Hi as [Hl Hh Hb Hrg Ht Ho Hc]. split; try done. cbn. intros Hcl.
      destruct (Hc Hcl) as (k & Hk & Har). exists k. split; [|done].
      eapply (closing_entered _ s1); [reflexivity| |exists []; by rewrite app_nil_r|exact Hk]. intros pc Hpc. exists pc. auto.
    + by eapply close_lock_step.
    + by eapply close_request_step.
    + by eapply close_return_step.
Qed.
End close.

(** ** Theorem *)

(** C33.  One CLOSE.  However the calls of any methods on an open file are
    interleaved, every request they make is for the handle and stateid the file
    was opened with; at most one is a CLOSE, made by a [Close]; no call that got
    the lock after that one makes a request at all, and those made after the
    CLOSE are of calls that got the lock before and gave it back before asking. *)
Theorem file_close_once {X : Type} `{RWProtocol X} (f0 : File) (x0 : X) (acts : list file_action) (s : sharing X)
    (Hopen : ff_closed f0 = false) (Hrun : run_file acts (sharing_of f0 x0) = Some s) :
  Forall (fun r => on_handle (handle f0) r.2) (sh_trace s) /\
  (Forall (fun r => is_close_request r.2 = false) (sh_trace s)
   \/ exists k before after,
        sh_trace s = before ++ (k, RqCloseFile (ff_ctx f0) (ff_fh f0) (ff_stateid f0)) :: after
        /\ calls_entered s !! k = Some CallClose
        /\ Forall (earlier k) (before ++ after)
        /\ Forall (unlocked (calls_entered s)) after).
Proof.
  destruct (run_close f0 x0 acts s Hopen Hrun) as [_ _ _ _ Ht Ho Hc]. split; [done|].
  destruct (ff_closed (sh_file s)); [|left; by apply Ho].
  destruct (Hc eq_refl) as (k & [b Hk _ Htr|pc t1 t2 Hk _ Htr Hb Ha] & _).
  - left. eapply Forall_impl; [exact Htr|]. by intros r [_ ?].
  - right. exists k, t1, t2. split_and!; try done. unfold calls_entered. by rewrite list_lookup_fmap, Hk.
Qed.
