(* ===== verification/FileParallelCorrect.v ===== *)
(** * Parallel reads and writes at offsets

    [ReadAt] and [WriteAt] make their requests without the lock, as
    [io.ReaderAt] and [io.WriterAt] ask: several may run on one file at once.
    A body is checked by itself against what the other goroutines may do between
    its requests, its [rely]; what each of its own requests does is its
    guarantee, and one is in the rely of every other call whose bytes it leaves
    alone. *)

From S2P Require Import Prelude GoError Nfs4Const GoIO Xdr XdrSpec Attr Nfs4Types.
From S2P Require Import Nfs4Args Nfs4Res Caller Conn GoPath Fs File FileSpec FileCorrect FileOpenCorrect.
From S2P Require Import FileShared FileSharedCorrect.

(** ** Bytes at an offset *)

Definition bytes_at (c : bytes) (off : Z) (d : bytes) : Prop :=
  forall (k : nat) v, d !! k = Some v -> c !! (Z.to_nat off + k)%nat = Some v.

Lemma bytes_at_slice c off d : 0 <= off -> bytes_at c off d <-> slice off (blen d) c = d.
Proof.
  intros Hoff. unfold slice, btake, bdrop, blen. rewrite Nat2Z.id. split.
  - intros Hd. apply list_eq. intros k. destruct (decide (k < length d)%nat) as [Hk|Hk].
    + rewrite lookup_take_lt, lookup_drop by done. destruct (lookup_lt_is_Some_2 d k Hk) as [v Ev]. rewrite Ev. by apply Hd.
    + rewrite (lookup_ge_None_2 d) by lia. apply lookup_ge_None. rewrite length_take. lia.
  - intros E k v Ev. rewrite <- E in Ev. apply lookup_take_Some in Ev as [Ev _]. by rewrite lookup_drop in Ev.
Qed.

Lemma bytes_at_app c off d1 d2 : 0 <= off -> bytes_at c off d1 -> bytes_at c (off + blen d1) d2 -> bytes_at c off (d1 ++ d2).
Proof.
  intros Hoff H1 H2 k v E. apply lookup_app_Some in E as [E|[Hk E]]; [by apply H1|].
  apply H2 in E. rewrite <- E. f_equal. unfold blen. lia.
Qed.

Lemma bytes_at_nil c off : bytes_at c off [].
Proof. by intros k v E. Qed.

(** What [c] has from [lo] to [hi], [c'] has. *)
Definition preserved (lo hi : Z) (c c' : bytes) : Prop :=
  forall (k : nat) v, lo <= Z.of_nat k < hi -> c !! k = Some v -> c' !! k = Some v.

Lemma bytes_at_preserved c c' off d hi : 0 <= off -> off + blen d <= hi -> preserved off hi c c' ->
  bytes_at c off d -> bytes_at c' off d.
Proof.
  intros Hoff Hhi Hp Hd k v E. apply Hp; [|by apply Hd]. apply lookup_lt_Some in E. unfold blen in Hhi. lia.
Qed.

Lemma overlay_preserved c off d lo hi : 0 <= off -> hi <= off \/ off + blen d <= lo -> preserved lo hi c (overlay c off d).
Proof.
  intros Hoff Hapart k v Hk E. destruct (decide (d = [])) as [->|Hd]; [done|].
  rewrite overlay_lookup by done. pose proof (lookup_lt_Some _ _ _ E). repeat case_decide; try done; lia.
Qed.

Lemma overlay_bytes_at c off d : 0 <= off -> bytes_at (overlay c off d) off d.
Proof. intros Hoff. apply bytes_at_slice; [done|]. by apply slice_overlay. Qed.

(** ** Bodies among others *)

Section rely.
Context {X : Type} `{RWProtocol X} (rely guar : X -> X -> Prop).

(** Whatever the others do, the body gets its answers, keeps its guarantee and
    returns something that satisfies [Q]. *)
Fixpoint among {R} (Q : R -> X -> Prop) (b : body R) (x : X) : Prop :=
  match b with
  | Return r => forall y, rely x y -> Q r y
  | Ask q k => forall y, rely x y -> exists a y', ask q y = Some (a, y') /\ guar y y' /\ among Q (k a) y'
  | Stuck => False
  end.

Lemma among_send {R} (Q : R -> X -> Prop) q (k : reply q -> body R) x :
  (forall y, rely x y -> exists a y', ask q y = Some (a, y') /\ guar y y' /\ among Q (k a) y') ->
  among Q (send q ≫= k) x.
Proof. done. Qed.

Context `{!PreOrder rely}.

Lemma among_rely {R} (Q : R -> X -> Prop) b x y : among Q b x -> rely x y -> among Q b y.
Proof. intros Hb Hr. destruct b; cbn in *; [..|done]; intros z Hz; apply Hb; by etrans. Qed.

Lemma among_bind {A B} (Q : A -> X -> Prop) (Q' : B -> X -> Prop) (b : body A) (k : A -> body B) x :
  among Q b x -> (forall a y, (forall z, rely y z -> Q a z) -> among Q' (k a) y) -> among Q' (b ≫= k) x.
Proof.
  intros Hb Hk. revert x Hb. induction b as [a|q r IH| ]; intros x Hb; [| |done].
  - by apply Hk.
  - intros y Hy. destruct (Hb y Hy) as (a & y' & E & Hg & Ha). exists a, y'. split_and!; [done..|]. by apply IH.
Qed.
End rely.

(** ** Calls at an offset *)

(** The bytes a call is about, and whether another leaves some alone. *)
Definition call_range (c : file_call) : Z * Z :=
  match c with
  | CallReadAt p off | CallWriteAt p off => (off, off + blen p)
  | _ => (0, 0)
  end.
Definition spares (c : file_call) (range : Z * Z) : Prop :=
  match c with
  | CallWriteAt p off => range.2 <= off \/ off + blen p <= range.1
  | _ => True
  end.

Section parallel.
Context {X : Type} `{RWProtocol X} (inv : X -> Prop) (content : X -> bytes -> bytes).
Context {can : bytes -> Stateid -> Z -> Prop} `{!FileStore inv content can}.
Context (f : File) (fh : bytes) (Hfh : ff_fh f = Some fh) (Hopen : ff_closed f = false).

(** The others keep the server's invariant and, [apart], the bytes of a range. *)
Definition rely (apart : bool) (range : Z * Z) (x y : X) : Prop :=
  inv x -> inv y /\ (apart = true -> preserved range.1 range.2 (content x fh) (content y fh)).

(** A call keeps it, other files, and the bytes outside its own range. *)
Definition guar (c : file_call) (x y : X) : Prop :=
  inv y /\ (forall fh', fh' <> fh -> content y fh' = content x fh')
  /\ forall range, spares c range -> preserved range.1 range.2 (content x fh) (content y fh).

#[local] Instance rely_preorder apart range : PreOrder (rely apart range).
Proof.
  split.
  - intros x Hx. split; [done|]. by intros _ k v _.
  - intros x y z Hxy Hyz Hx. destruct (Hxy Hx) as [Hy H1]. destruct (Hyz Hy) as [Hz H2]. split; [done|].
    intros Ha k v Hk E. apply H2; [done..|]. by apply H1.
Qed.

Lemma guar_same c x y : inv y -> content y = content x -> guar c x y.
Proof. intros Hy E. split_and!; rewrite ?E; try done. by intros range _ k v _. Qed.

Lemma guar_write c p off x y k data : c = CallWriteAt p off -> inv y -> 0 <= off <= k -> k + blen data <= off + blen p ->
  updates content fh (overlay (content x fh) k data) x y -> guar c x y.
Proof.
  intros -> Hy Hk Hlen [E Ho]. split_and!; [done..|]. intros range Hs. rewrite E. cbn in Hs. apply overlay_preserved; lia.
Qed.

(** ** Reading *)

Definition read_post (apart : bool) (p : bytes) (off : Z) (out : Z * option error * bytes) (y : X) : Prop :=
  exists got err, out = (blen got, err, got ++ bdrop (blen got) p) /\ blen got <= blen p
    /\ (err = None -> blen got = blen p) /\ (apart = true -> bytes_at (content y fh) off got).

Lemma read_post_rely apart p off done err (x y : X) : 0 <= off -> inv x -> blen done <= blen p -> (err = None -> blen done = blen p) ->
  (apart = true -> bytes_at (content x fh) off done) -> rely apart (off, off + blen p) x y ->
  read_post apart p off (blen done, err, done ++ bdrop (blen done) p) y.
Proof.
  intros Hoff Hx Hle Hnone Hd Hr. exists done, err. split_and!; [done..|]. intros Ha.
  destruct (Hr Hx) as [_ Hp]. eapply bytes_at_preserved; [done| |by apply Hp|by apply Hd]. cbn. lia.
Qed.

Lemma readAt_among apart p off : can fh (ff_stateid f) 0 -> 0 <= off -> off + blen p < 2 ^ 64 -> blen p < 2 ^ 32 ->
  forall steps done x, blen p - blen done < Z.of_nat steps -> inv x -> blen done <= blen p ->
  (apart = true -> bytes_at (content x fh) off done) ->
  among (rely apart (off, off + blen p)) (guar (CallReadAt p off)) (read_post apart p off)
    (readAt_loop_body steps f off done (bdrop (blen done) p)) x.
Proof.
  intros Hcan Hoff H64 H32. induction steps as [|steps IH]; intros done x Hs Hx Hle Hd;
    pose proof (blen_nonneg done) as Hn; [lia|]. cbn [readAt_loop_body].
  assert (blen (bdrop (blen done) p) = blen p - blen done) as Htodo by (rewrite blen_drop by lia; lia).
  case_bool_decide as Hnil.
  { intros y Hy. rewrite Hnil, blen_nil in Htodo.
    replace (blen done, None, done) with (blen done, @None error, done ++ bdrop (blen done) p) by (by rewrite Hnil, app_nil_r).
    eapply read_post_rely; [done|exact Hx|..|exact Hy]; try done. lia. }
  apply among_send. intros y Hy. destruct (Hy Hx) as [Hyi Hp]. cbn [ask]. rewrite Hfh, Htodo.
  rewrite (u64_id off), (u64_id (off + blen done)), (u32_id (blen p - blen done)) by (split; lia).
  destruct (store_read (ff_ctx f) fh (ff_stateid f) (off + blen done) (blen p - blen done) y Hyi Hcan)
    as (res & y' & E & Hy' & Hc & Hres); [split; lia..|].
  exists res, y'. split_and!; [done|by apply guar_same|].
  assert (apart = true -> bytes_at (content y' fh) off done) as Hd'.
  { intros Ha. rewrite Hc. eapply bytes_at_preserved; [done| |by apply Hp|by apply Hd]. cbn. lia. }
  destruct res as [e|[data eof]].
  { intros z Hz. eapply read_post_rely; [done|exact Hy'|..|exact Hz]; done. }
  destruct Hres as (Hdata & Hlen & _ & _). pose proof (blen_nonneg data).
  cbn zeta iota beta. rewrite ?Htodo, Z.min_r by lia. rewrite (btake_all (blen data) data), bdrop_bdrop by lia.
  assert (apart = true -> bytes_at (content y' fh) off (done ++ data)) as Hdd.
  { intros Ha. apply bytes_at_app; [done|by apply Hd'|]. rewrite Hc. apply bytes_at_slice; [lia|done]. }
  rewrite <- (blen_app done data). destruct (eof || bool_decide (data = [])) eqn:Estop.
  { intros z Hz. eapply read_post_rely; [done|exact Hy'|..|exact Hz]; try done. rewrite blen_app. lia. }
  apply orb_false_iff in Estop as [_ Hne]. apply bool_decide_eq_false in Hne.
  assert (0 < blen data) by (destruct data; [done|rewrite blen_cons; pose proof (blen_nonneg data); lia]).
  apply IH; rewrite ?blen_app; try done; lia.
Qed.

(** ** Writing *)

Definition write_post (apart : bool) (p : bytes) (off : Z) (out : Z * option error) (y : X) : Prop :=
  0 <= out.1 <= blen p /\ (out.2 = None -> out.1 = blen p)
  /\ (apart = true -> bytes_at (content y fh) off (btake out.1 p)).

Lemma write_post_rely apart p off total err (x y : X) : 0 <= off -> inv x -> 0 <= total <= blen p -> (err = None -> total = blen p) ->
  (apart = true -> bytes_at (content x fh) off (btake total p)) -> rely apart (off, off + blen p) x y ->
  write_post apart p off (total, err) y.
Proof.
  intros Hoff Hx Hle Hnone Hd Hr. split; [done|]. split; [done|]. intros Ha. destruct (Hr Hx) as [_ Hp].
  eapply bytes_at_preserved; [done| |by apply Hp|by apply Hd]. cbn. rewrite blen_take; lia.
Qed.

Lemma writeAt_among apart p off : can fh (ff_stateid f) (blen p) -> 0 <= off -> off + blen p < 2 ^ 64 ->
  forall steps total x, blen p - total < Z.of_nat steps -> inv x -> 0 <= total <= blen p ->
  (apart = true -> bytes_at (content x fh) off (btake total p)) ->
  among (rely apart (off, off + blen p)) (guar (CallWriteAt p off)) (write_post apart p off)
    (writeAt_loop_body steps f p off total) x.
Proof.
  intros Hcan Hoff H64. induction steps as [|steps IH]; intros total x Hs Hx Ht Hd; cbn [writeAt_loop_body];
    destruct (Z.ltb_spec total (blen p)) as [Hlt|Hge]; cbn [negb]; try lia.
  2: intros y Hy; eapply write_post_rely; [done|exact Hx|..|exact Hy]; [lia|intros _; lia|done].
  apply among_send. intros y Hy. destruct (Hy Hx) as [Hyi Hp]. cbn [ask].
  rewrite (u64_id off), (u64_id (off + total)) by (split; lia). rewrite Hfh.
  destruct (store_write (ff_ctx f) fh (ff_stateid f) (off + total) (bdrop total p) FileSync4 y Hyi)
    as (res & y' & k & E & Hy' & Hk & Hup & Hres); [eapply store_can; [exact Hcan|blen_lia]|split; lia|done|].
  rewrite blen_drop in Hk by lia. set (data := btake k (bdrop total p)) in *.
  assert (blen data = k) as Hdata by (unfold data; blen_lia).
  exists res, y'. split; [done|]. split; [eapply guar_write; [done..| | |exact Hup]; lia|].
  assert (apart = true -> bytes_at (content y' fh) off (btake (total + k) p)) as Hd'.
  { intros Ha. rewrite <- btake_app_add by lia. destruct Hup as [-> _]. apply bytes_at_app; [done|..]; rewrite ?blen_take, ?Z.min_l by lia.
    - eapply (bytes_at_preserved (content y fh) _ _ _ (off + total)); [done|rewrite blen_take; lia|apply overlay_preserved; lia|].
      eapply bytes_at_preserved; [done| |by apply Hp|by apply Hd]. cbn. rewrite blen_take; lia.
    - apply overlay_bytes_at. lia. }
  assert (apart = true -> bytes_at (content y' fh) off (btake total p)) as Hdt.
  { intros Ha m v Em. apply Hd'; [done|]. apply lookup_take_Some in Em as [Em Hm]. apply lookup_take_Some. split; [done|lia]. }
  destruct res as [e|[n comm]].
  { intros z Hz. eapply write_post_rely; [done|exact Hy'|..|exact Hz]; done. }
  subst n. destruct (Z.eqb_spec k 0) as [->|Hk0].
  { intros z Hz. eapply write_post_rely; [done|exact Hy'|..|exact Hz]; done. }
  apply IH; [lia|done|lia|done].
Qed.

(** ** Any number of them *)

(** The arguments the theorem is about. *)
Definition at_call (c : file_call) : Prop :=
  match c with
  | CallReadAt p off => 0 <= off < 2 ^ 63 /\ blen p < 2 ^ 32 /\ can fh (ff_stateid f) 0
  | CallWriteAt p off => 0 <= off < 2 ^ 63 /\ blen p < 2 ^ 63 /\ can fh (ff_stateid f) (blen p)
  | _ => False
  end.

(** What a call has to answer when the file holds [c]; its bytes are there when
    no other call writes on them. *)
Definition at_answer (apart : bool) (call : file_call) (a : file_answer) (c : bytes) : Prop :=
  match call, a with
  | CallReadAt p off, AnsRead n err p' =>
      0 <= n <= blen p /\ (err = None -> n = blen p) /\ bdrop n p' = bdrop n p
      /\ (apart = true -> blen (slice off n c) = n /\ btake n p' = slice off n c)
  | CallWriteAt p off, AnsWrite n err =>
      0 <= n <= blen p /\ (err = None -> n = blen p) /\ (apart = true -> slice off n c = btake n p)
  | _, _ => False
  end.

Definition call_state (apart : bool) (c : file_call) (pc : call_pc) (x : X) : Prop :=
  among (rely apart (call_range c)) (guar c) (fun out y => at_answer apart c out.1 (content y fh))
    (match pc with Inside b => b | Returned a => Return (a, f) end) x.

Lemma call_body_among apart c x : at_call c -> inv x -> call_state apart c (Inside (call_body c f)) x.
Proof.
  intros Hc Hx. unfold call_state. destruct c as [|p off| |p off| | | | |]; try done; destruct Hc as (Hoff & Hp & Hcan); cbn [call_body call_range].
  - eapply (among_bind _ _ (read_post apart p off)).
    + unfold ReadAt_body. rewrite Hopen. destruct (Z.ltb_spec off 0); [lia|].
      pose proof (readAt_among apart p off Hcan ltac:(lia) ltac:(lia) Hp (S (length p)) [] x) as Hb. rewrite blen_nil, bdrop_0 in Hb.
      apply Hb; [unfold blen; lia|done|apply blen_nonneg|]. intros _. apply bytes_at_nil.
    + intros out y Hpost. destruct out as [[n err] p']. intros z Hz. destruct (Hpost z Hz) as (got & err' & [= -> -> ->] & Hle & Hnone & Hd).
      pose proof (blen_nonneg got). cbn. rewrite bdrop_app_exact, btake_app_exact by done. split; [done|]. split; [done|]. split; [done|].
      intros Ha. rewrite (proj1 (bytes_at_slice _ off got ltac:(lia)) (Hd Ha)). done.
  - eapply (among_bind _ _ (write_post apart p off)).
    + unfold WriteAt_body, writeAt_body. rewrite Hopen. destruct (Z.ltb_spec off 0); [lia|]. pose proof (blen_nonneg p).
      apply writeAt_among; [done|lia|lia|unfold blen; lia|done|lia|]. intros _. apply bytes_at_nil.
    + intros [n err] y Hpost z Hz. destruct (Hpost z Hz) as (Hn & Hnone & Hd). cbn in *. split; [done|]. split; [done|].
      intros Ha. apply Hd, bytes_at_slice in Ha; [|lia]. by rewrite blen_take, Z.min_l in Ha by lia.
Qed.

(** No other call writes on the bytes of the [i]th. *)
Definition apart_from (cs : list file_call) (i : nat) (c : file_call) : Prop :=
  forall j c', j <> i -> cs !! j = Some c' -> spares c' (call_range c).

Record parallel_inv (x0 : X) (s : sharing X) : Prop := {
  parallel_file : sh_file s = f;
  parallel_world : inv (sh_world s);
  parallel_calls : forall i c pc apart, sh_entered s !! i = Some (c, pc) ->
    (apart = true -> apart_from (calls_entered s) i c) -> call_state apart c pc (sh_world s);
  parallel_rest : forall range, (forall c, c ∈ calls_entered s -> spares c range) ->
    preserved range.1 range.2 (content x0 fh) (content (sh_world s) fh);
  parallel_others : forall fh', fh' <> fh -> content (sh_world s) fh' = content x0 fh'
}.

Lemma preserved_trans lo hi c1 c2 c3 : preserved lo hi c1 c2 -> preserved lo hi c2 c3 -> preserved lo hi c1 c3.
Proof. intros H1 H2 k v Hk E. apply H2; [done|]. by apply H1. Qed.

Lemma at_call_open c : at_call c -> holds c = false /\ is_close c = false.
Proof. by destruct c. Qed.

Lemma parallel_lock x0 s i s' : parallel_inv x0 s -> Forall at_call (calls_entered s') -> take_lock i s = Some s' ->
  parallel_inv x0 s'.
Proof.
  intros [Hf Hw Hc Hr Ho] Hat E. apply take_lock_inv in E as (c & _ & ->). unfold calls_entered in Hat. cbn [sh_entered] in Hat.
  rewrite map_app in Hat. apply Forall_app in Hat as [_ Hat]. apply Forall_cons in Hat as [Hat _]. cbn in Hat.
  destruct (at_call_open c Hat) as [_ Hcl].
  assert (forall cs, calls_entered (mkSharing (sh_world s) cs (holds c) (delete i (sh_waiting s))
            (sh_entered s ++ [(c, Inside (call_body c (sh_file s)))]) (sh_trace s)) = calls_entered s ++ [c]) as Hcs
    by (intros; unfold calls_entered; cbn; by rewrite map_app).
  split; rewrite ?Hcs; cbn [sh_file sh_world sh_entered].
  - unfold marks. by rewrite Hcl.
  - done.
  - intros j c' pc apart Ej Hap. apply lookup_new in Ej as [Ej|[_ Ej]].
    + apply (Hc j); [done|]. intros Ha k c1 Hk E1. apply (Hap Ha k); [done|]. by apply lookup_app_l_Some.
    + injection Ej as -> ->. rewrite Hf. by apply call_body_among.
  - intros range Hsp. apply Hr. intros c' Hin. apply Hsp, elem_of_app. by left.
  - done.
Qed.

Lemma parallel_request x0 s i s' : parallel_inv x0 s -> make_request i s = Some s' -> parallel_inv x0 s'.
Proof.
  intros [Hf Hw Hc Hr Ho] E. apply make_request_inv in E as (c & q & k & a & x & Ei & Ea & ->).
  assert (forall apart, (apart = true -> apart_from (calls_entered s) i c) ->
    guar c (sh_world s) x /\ call_state apart c (Inside (k a)) x) as Hi.
  { intros apart Hap. destruct (Hc i c _ apart Ei Hap (sh_world s) ltac:(done)) as (a' & x' & Ea' & Hg & Hk).
    unfold call_state in *. cbn iota in Ea'. rewrite Ea in Ea'. by injection Ea' as <- <-. }
  destruct (Hi false ltac:(done)) as [Hg _]. pose proof Hg as (Hx & Hg1 & Hg2).
  assert (calls_entered (mkSharing x (sh_file s) (sh_mu s) (sh_waiting s) (<[i := (c, Inside (k a))]> (sh_entered s))
            (sh_trace s ++ [(i, q)])) = calls_entered s) as Hcs
    by (unfold calls_entered; cbn; by eapply map_fst_insert).
  assert (calls_entered s !! i = Some c) as Hci by (unfold calls_entered; by rewrite list_lookup_fmap, Ei).
  split; rewrite ?Hcs; cbn [sh_file sh_world sh_entered]; try done.
  - intros j c' pc apart Ej Hap. apply lookup_changed in Ej as [[<- Ej]|[Hne Ej]].
    + injection Ej as -> ->. by apply Hi.
    + eapply among_rely; [apply _|by eapply Hc|]. intros _. split; [done|]. intros Ha. apply Hg2. by apply (Hap Ha i).
  - intros range Hsp. eapply preserved_trans; [by apply Hr|]. apply Hg2, Hsp. by eapply list_elem_of_lookup_2.
  - intros fh' Hne. rewrite Hg1 by done. by apply Ho.
Qed.

Lemma parallel_return x0 s i s' : parallel_inv x0 s -> Forall at_call (calls_entered s) -> return_from i s = Some s' ->
  parallel_inv x0 s'.
Proof.
  intros [Hf Hw Hc Hr Ho] Hat E. apply return_from_inv in E as (c & a & g & Ei & ->).
  assert (calls_entered s !! i = Some c) as Hci by (unfold calls_entered; by rewrite list_lookup_fmap, Ei).
  rewrite Forall_lookup in Hat. destruct (at_call_open c (Hat _ _ Hci)) as [-> _].
  assert (calls_entered (mkSharing (sh_world s) (sh_file s) (sh_mu s) (sh_waiting s) (<[i := (c, Returned a)]> (sh_entered s))
            (sh_trace s)) = calls_entered s) as Hcs
    by (unfold calls_entered; cbn; by eapply map_fst_insert).
  split; rewrite ?Hcs; cbn [sh_file sh_world sh_entered]; try done.
  intros j c' pc apart Ej Hap. apply lookup_changed in Ej as [[<- Ej]|[Hne Ej]]; [|by apply (Hc j)].
  injection Ej as -> ->. apply (Hc i c _ apart Ei Hap).
Qed.

Lemma run_parallel x0 acts s : inv x0 -> Forall at_call (calls_entered s) ->
  run_file acts (sharing_of f x0) = Some s -> parallel_inv x0 s.
Proof.
  intros Hx. apply (run_file_ind (Forall at_call)).
  - intros cs l Hcs. by apply Forall_app in Hcs as [? _].
  - split; try done. intros range _ k v _. done.
  - intros s1 [c|i|i|i] s2 Hq Hi E; cbn [file_act] in E.
    + injection E as <-. by destruct Hi as [Hf Hw Hc Hr Ho].
    + by eapply parallel_lock.
    + by eapply parallel_request.
    + eapply parallel_return; [done| |exact E]. destruct (act_entered (ActReturn i) s1 s2 E) as [l El].
      rewrite El in Hq. by apply Forall_app in Hq as [? _].
Qed.
End parallel.

(** ** Theorem *)

(** C12.  Parallel calls at offsets.  However [ReadAt]s and [WriteAt]s of one
    open file are interleaved, request by request, none is ever stuck; one that
    has returned counted at most its buffer, and all of it unless it reported an
    error; and if no other writes on its bytes, the file still holds what it
    read, or the part of its data that it counted, at its offset.  Whatever the
    calls, bytes that none of them writes on and other files are as before. *)
Theorem file_parallel_at {X : Type} `{RWProtocol X} (inv : X -> Prop) (content : X -> bytes -> bytes)
    {can : bytes -> Stateid -> Z -> Prop} `{!FileStore inv content can} (f0 : File) (fh : bytes) (x0 : X)
    (acts : list file_action) (s : sharing X)
    (Hfh : ff_fh f0 = Some fh) (Hopen : ff_closed f0 = false) (Hx : inv x0)
    (Hcalls : Forall (at_call (can := can) f0 fh) (calls_entered s))
    (Hrun : run_file acts (sharing_of f0 x0) = Some s) :
  (forall i c pc, sh_entered s !! i = Some (c, pc) ->
     match pc with
     | Inside _ => exists a s', (a = ActRequest i \/ a = ActReturn i) /\ file_act a s = Some s'
     | Returned a => at_answer false c a (content (sh_world s) fh)
         /\ (apart_from (calls_entered s) i c -> at_answer true c a (content (sh_world s) fh))
     end)
  /\ (forall range, (forall c, c ∈ calls_entered s -> spares c range) ->
        preserved range.1 range.2 (content x0 fh) (content (sh_world s) fh))
  /\ (forall fh', fh' <> fh -> content (sh_world s) fh' = content x0 fh').
Proof.
  destruct (run_parallel inv content f0 fh Hfh Hopen x0 acts s Hx Hcalls Hrun) as [_ Hw Hc Hr Ho]. split; [|done].
  assert (forall apart range, rely inv content fh apart range (sh_world s) (sh_world s)) as Hrefl by (intros; apply rely_preorder).
  intros i c [b|a] Ei.
  - pose proof (Hc i c _ false Ei ltac:(done)) as Hb. unfold call_state in Hb. destruct b as [[a g]|q k| ]; [| |done].
    + exists (ActReturn i). eexists. split; [by right|]. cbn [file_act]. unfold return_from. by rewrite Ei.
    + destruct (Hb _ (Hrefl _ _)) as (a & x' & Ea & _). exists (ActRequest i). eexists. split; [by left|].
      cbn [file_act]. unfold make_request. by rewrite Ei, Ea.
  - split; [|intros Hap].
    + by apply (Hc i c _ false Ei ltac:(done)).
    + by apply (Hc i c _ true Ei).
Qed.
