(* ===== verification/FsErrors.v ===== *)
(** * The errors of the file systems

    Whatever the protocol answers, an operation on a path fails with an
    [*fs.PathError] that names the operation and the path, and whose own error is
    one of fs.ErrExist, fs.ErrNotExist, fs.ErrPermission and fs.ErrInvalid exactly
    when [errors.Is] finds that sentinel, so that [os.IsNotExist] and its like,
    which do not look further, agree with [errors.Is].  The package's fifth
    sentinel, fs.ErrClosed, is not one of those the code looks for. *)

From S2P Require Import Prelude GoError Nfs4Const GoIO Xdr Attr Nfs4Types.
From S2P Require Import Nfs4Args Nfs4Res Caller Conn GoPath Fs File FsSpec FsCorrect.

Definition sentinels : list error := [ErrExist; ErrNotExist; ErrPermission; ErrInvalid].

Definition well_reported (op : string) (name : bytes) (e : error) : Prop :=
  exists e', e = PathError op name e' /\ forall s, s ∈ sentinels -> errors_Is e s = true <-> e' = s.

(** A sentinel, and an error that is none. *)
Lemma well_reported_intro op name e' :
  (forall s, s ∈ sentinels -> errors_Is e' s = true -> e' = s) -> well_reported op name (PathError op name e').
Proof.
  intros H. exists e'. split; [done|]. intros s Hs.
  assert (errors_Is (PathError op name e') s = errors_Is e' s) as ->.
  { unfold errors_Is. cbn [errors_Is_with]. rewrite bool_decide_eq_false_2; [done|].
    intros <-. repeat (apply elem_of_cons in Hs as [[=]|Hs]). by apply elem_of_nil in Hs. }
  split; [by apply H|]. intros <-. unfold errors_Is. destruct e'; cbn; by rewrite bool_decide_eq_true_2.
Qed.

Lemma canonicalSentinel_spec e s : canonicalSentinel e = Some s -> s ∈ sentinels.
Proof.
  unfold canonicalSentinel, sentinels.
  repeat (case_match; [intros [= <-]; set_solver|]). done.
Qed.

Lemma canonicalSentinel_None e s : canonicalSentinel e = None -> s ∈ sentinels -> errors_Is e s = false.
Proof.
  unfold canonicalSentinel, sentinels.
  repeat match goal with |- context [if ?b then _ else _] => destruct b eqn:?; [done|] end.
  intros _ Hs. repeat (apply elem_of_cons in Hs as [->|Hs]; [done|]). by apply elem_of_nil in Hs.
Qed.

Lemma sentinel_only s s' : s ∈ sentinels -> errors_Is s s' = true -> s = s'.
Proof.
  intros Hs. repeat (apply elem_of_cons in Hs as [->|Hs]; [unfold errors_Is; cbn; rewrite orb_false_r; apply bool_decide_eq_true_1|]).
  by apply elem_of_nil in Hs.
Qed.

Lemma pathError_reported op name e : well_reported op name (pathError op name e).
Proof.
  unfold pathError. destruct (canonicalSentinel e) as [s|] eqn:E; apply well_reported_intro.
  - intros s' _. by eapply sentinel_only, canonicalSentinel_spec.
  - intros s Hs H. by rewrite (canonicalSentinel_None e s) in H.
Qed.

Lemma invalid_reported op name : well_reported op name (PathError op name ErrInvalid).
Proof. apply well_reported_intro. intros s _. apply sentinel_only. unfold sentinels. set_solver. Qed.

(** Errors that are nothing else. *)
Lemma plain_reported op name e : Unwrap e = None -> AsStatusError e = None -> well_reported op name (PathError op name e).
Proof.
  intros Hu Ha. apply well_reported_intro. intros s Hs. unfold errors_Is.
  destruct e; try done; cbn; rewrite orb_false_r; apply bool_decide_eq_true_1.
Qed.

(** ** Computations that report their errors *)

Section reports.
Context {X : Type}.

Definition reports {A} (op : string) (name : bytes) (m : Io X (result A)) : Prop :=
  forall x e x', m x = Some (inl e, x') -> well_reported op name e.

Lemma reports_inr {A} op name (a : A) : reports op name (mret (inr a)).
Proof. by intros x e x' [=]. Qed.

Lemma reports_inl {A} op name e : well_reported op name e -> reports (A := A) op name (mret (inl e)).
Proof. by intros H x e' x' [= <- <-]. Qed.

Lemma reports_or {A} op name (r : result A) : reports op name (mret (or_pathError op name r)).
Proof. destruct r as [e|a]; [apply reports_inl, pathError_reported|apply reports_inr]. Qed.

Lemma reports_bind {A B} op name (m : Io X A) (k : A -> Io X (result B)) :
  (forall a, reports op name (k a)) -> reports op name (m ≫= k).
Proof. intros H x e x' E. apply Io_bind_inv in E as (a & x1 & _ & E). by eapply H. Qed.

Lemma reports_if {A} op name (b : bool) (m1 m2 : Io X (result A)) :
  reports op name m1 -> reports op name m2 -> reports op name (if b then m1 else m2).
Proof. by destruct b. Qed.

Lemma reports_match {A B} op name (r : result A) (m1 : error -> Io X (result B)) (m2 : A -> Io X (result B)) :
  (forall e, reports op name (m1 e)) -> (forall a, reports op name (m2 a)) ->
  reports op name (match r with inl e => m1 e | inr a => m2 a end).
Proof. by destruct r. Qed.
End reports.

Create HintDb reports.
#[export] Hint Resolve pathError_reported invalid_reported reports_inr reports_inl reports_or reports_bind reports_if
  reports_match : reports.
#[export] Hint Extern 2 (well_reported _ _ _) => (by apply plain_reported) : reports.
#[export] Hint Extern 3 (reports _ _ (match ?p with (_, _) => _ end)) => destruct p : reports.
#[export] Hint Extern 4 (forall _, reports _ _ _) => intros ? : reports.

(** ** Theorem *)

(** C18.  Errors of paths.  Whatever state the protocol is in and whatever it
    answers, an error of [Open], [Stat], [ReadDir], [ReadLink], [Lstat],
    [OpenFile], [Statvfs], [Truncate] or [Sync] is an [*fs.PathError] with the
    name of that operation and the path that was given; and for each of
    fs.ErrExist, fs.ErrNotExist, fs.ErrPermission and fs.ErrInvalid, the error in
    it is that sentinel, bare, exactly when [errors.Is] finds it in the whole. *)
Theorem fs_errors {X : Type} `{RWProtocol X} (pages : nat) (fsys : FS) (ctx : Context) (name : bytes)
    (flag perm sz : Z) (f : File) :
  reports "open" name (FS_Open fsys name) /\ reports "stat" name (FS_Stat fsys name) /\
  reports "readdir" name (FS_ReadDir pages fsys name) /\ reports "readlink" name (FS_ReadLink fsys name) /\
  reports "lstat" name (FS_Lstat fsys name) /\ reports "open" name (OpenFile ctx name flag perm) /\
  reports "statvfs" name (RWFS_Statvfs ctx name) /\
  reports "truncate" (ff_name f) (Truncate f sz) /\ reports "sync" (ff_name f) (Sync f).
Proof.
  unfold FS_Open, FS_Stat, FS_ReadDir, FS_ReadLink, FS_Lstat, OpenFile, RWFS_Statvfs, Sync, errClosed.
  split_and!; eauto 20 with reports.
Qed.
