(* ===== verification/Lease.v ===== *)
(** * Leases (src/client/lease.go)

    The manager's configuration holds two functions, [Renew] and [Recover], over
    the state [X] of what they work on.  The background loop is its sequence of
    [select] outcomes; the stateids it tracks are a map from handles. *)

From S2P Require Import Prelude GoError Nfs4Const GoIO Xdr Attr Nfs4Types.
From S2P Require Import Caller Fs.

(** Durations are nanoseconds; the clock is the choice of when the timer fires.
    src/client/lease.go:42-53 *)
Record LeaseConfig {X : Type} := mkLeaseConfig {
  lc_LeasePeriod : Z;
  lc_Renew : Context -> Io X (option error);
  lc_Recover : Context -> Io X (option error)
}.
Arguments LeaseConfig X : clear implicits.
Arguments mkLeaseConfig {X}.

(** src/client/lease.go:71-74 *)
Record trackedStateid := mkTracked { ts_key : bytes; ts_sid : Stateid }.

(** Its channels and its Once are in LeaseStop.  src/client/lease.go:58-69 *)
Record LeaseManager {X : Type} := mkLeaseManager {
  lm_cfg : LeaseConfig X;
  lm_nextH : Z;
  lm_stateids : gmap Z trackedStateid
}.
Arguments LeaseManager X : clear implicits.
Arguments mkLeaseManager {X}.

(** src/client/lease.go:196-209 *)
Definition isClientStateLost (err : error) : bool :=
  match AsStatusError err with
  | None => false
  | Some s =>
      (s =? NFS4ERR_STALE_CLIENTID) || (s =? NFS4ERR_STALE_STATEID)
      || (s =? NFS4ERR_BAD_STATEID) || (s =? NFS4ERR_EXPIRED)
  end.

Section lease.
Context {X : Type}.

(** src/client/lease.go:77-92 *)
Definition NewLeaseManager (cfg : LeaseConfig X) : LeaseManager X :=
  let period := if lc_LeasePeriod cfg <=? 0 then 90 * 1000000000 else lc_LeasePeriod cfg in
  mkLeaseManager (mkLeaseConfig period (lc_Renew cfg) (lc_Recover cfg)) 0 ∅.

(** src/client/lease.go:96-98 *)
Definition renewInterval (lm : LeaseManager X) : Z := Z.quot (i64 (lc_LeasePeriod (lm_cfg lm) * 2)) 3.

(** The branches of the [select]. *)
Inductive selected := StopClosed | TimerFired.

(** The timer's branch.  src/client/lease.go:112-118 *)
Definition on_timer (lm : LeaseManager X) : Io X unit :=
  err ← lc_Renew (lm_cfg lm) Background;
  match err with
  | Some err =>
      if isClientStateLost err then _ ← lc_Recover (lm_cfg lm) Background; mret tt else mret tt
  | None => mret tt
  end.

(** The loop along the branches its [select] takes; whether it has returned.
    src/client/lease.go:106-121 *)
Fixpoint loop (lm : LeaseManager X) (ss : list selected) : Io X bool :=
  match ss with
  | [] => mret false
  | StopClosed :: _ => mret true
  | TimerFired :: ss => _ ← on_timer lm; loop lm ss
  end.

(** src/client/lease.go:137-146 *)
Definition WithRetry (lm : LeaseManager X) (ctx : Context) (fn : Context -> Io X (option error))
    : Io X (option error) :=
  err ← fn ctx;
  match err with
  | None => mret None
  | Some e =>
      if negb (isClientStateLost e) then mret err
      else
        rerr ← lc_Recover (lm_cfg lm) ctx;
        match rerr with
        | Some rerr => mret (Some rerr)
        | None => fn ctx
        end
  end.

Definition with_table (next : Z) (m : gmap Z trackedStateid) (lm : LeaseManager X) : LeaseManager X :=
  mkLeaseManager (lm_cfg lm) next m.

(** src/client/lease.go:149-156 *)
Definition TrackStateid (key : bytes) (sid : Stateid) (lm : LeaseManager X) : Z * LeaseManager X :=
  let h := u64 (lm_nextH lm + 1) in
  (h, with_table h (<[h := mkTracked key sid]> (lm_stateids lm)) lm).

(** A missing entry of a Go map is the zero value.  src/client/lease.go:159-163 *)
Definition lm_Stateid (h : Z) (lm : LeaseManager X) : Stateid :=
  match lm_stateids lm !! h with Some t => ts_sid t | None => zeroStateid end.

(** src/client/lease.go:167-174 *)
Definition ReissueStateid (h : Z) (sid : Stateid) (lm : LeaseManager X) : LeaseManager X :=
  match lm_stateids lm !! h with
  | Some t => with_table (lm_nextH lm) (<[h := mkTracked (ts_key t) sid]> (lm_stateids lm)) lm
  | None => lm
  end.

(** src/client/lease.go:177-181 *)
Definition ForgetStateid (h : Z) (lm : LeaseManager X) : LeaseManager X :=
  with_table (lm_nextH lm) (delete h (lm_stateids lm)) lm.

(** In the order of the map, which Go leaves open.  src/client/lease.go:184-192 *)
Definition TrackedKeys (lm : LeaseManager X) : list bytes :=
  map (fun t => ts_key t.2) (map_to_list (lm_stateids lm)).
End lease.
