(* ===== verification/LeaseCorrect.v ===== *)
(** * Leases: theorems *)

From S2P Require Import Prelude GoError Nfs4Const GoIO Xdr Attr Nfs4Types.
From S2P Require Import Caller Fs Lease.

(** ** The background loop *)

Section loop.
Context {X : Type} (lm : LeaseManager X).

(** What one firing of the timer does: a renewal, and a recovery exactly when the
    renewal says that the server has lost the client's state. *)
Definition renewed (x x' : X) : Prop :=
  exists err x1, lc_Renew (lm_cfg lm) Background x = Some (err, x1) /\
    match err with
    | Some e => if isClientStateLost e
                then exists rerr, lc_Recover (lm_cfg lm) Background x1 = Some (rerr, x')
                else x' = x1
    | None => x' = x1
    end.

Lemma on_timer_renewed x u x' : on_timer lm x = Some (u, x') <-> renewed x x'.
Proof.
  unfold on_timer, renewed, mbind, Io_bind. destruct (lc_Renew (lm_cfg lm) Background x) as [[err x1]|] eqn:E.
  2: split; [done|by intros (? & ? & ? & _)].
  destruct err as [e|].
  - destruct (isClientStateLost e) eqn:El.
    + destruct (lc_Recover (lm_cfg lm) Background x1) as [[rerr x2]|] eqn:Er; split.
      * intros [= <- <-]. exists (Some e), x1. rewrite El. split; [done|by exists rerr].
      * intros (err & y & [= <- <-] & H). rewrite El in H. destruct H as [r Hr]. rewrite Er in Hr.
        injection Hr as <- <-. by destruct u.
      * done.
      * intros (err & y & [= <- <-] & H). rewrite El in H. destruct H as [r Hr]. by rewrite Er in Hr.
    + split.
      * intros [= <- <-]. exists (Some e), x1. by rewrite El.
      * intros (err & y & [= <- <-] & H). rewrite El in H. subst. by destruct u.
  - split.
    + intros [= <- <-]. by exists None, x1.
    + intros (err & y & [= <- <-] & ->). by destruct u.
Qed.

(** [n] firings in a row. *)
Inductive renewals : nat -> X -> X -> Prop :=
| renewals_0 x : renewals 0 x x
| renewals_S n x x1 x' : renewed x x1 -> renewals n x1 x' -> renewals (S n) x x'.

(** The firings before the loop is told to stop, and whether it is. *)
Fixpoint firings (ss : list selected) : nat :=
  match ss with
  | TimerFired :: ss => S (firings ss)
  | _ => 0
  end.
Definition stopped (ss : list selected) : bool := bool_decide (firings ss < length ss)%nat.

Lemma loop_renewals ss : forall x b x',
  loop lm ss x = Some (b, x') <-> b = stopped ss /\ renewals (firings ss) x x'.
Proof.
  induction ss as [|[|] ss IH]; intros x b x'; cbn [loop firings].
  - split; [intros [= <- <-]; split; [done|constructor]|]. intros [-> H]. by inversion H.
  - split; [intros [= <- <-]; split; [done|constructor]|]. intros [-> H]. by inversion H.
  - assert (stopped (TimerFired :: ss) = stopped ss) as ->.
    { unfold stopped. cbn [firings length]. apply bool_decide_ext. lia. }
    unfold mbind, Io_bind. split.
    + destruct (on_timer lm x) as [[u x1]|] eqn:E; [|done]. intros Hl. apply IH in Hl as [-> Hr].
      split; [done|]. econstructor; [by eapply on_timer_renewed|done].
    + intros [-> H]. inversion H as [|n y x1 y' Hr Hn]; subst. apply (on_timer_renewed _ tt) in Hr as ->. by apply IH.
Qed.
End loop.

(** ** The table of stateids *)

Inductive lease_op :=
| OpTrack (key : bytes) (sid : Stateid)
| OpReissue (h : Z) (sid : Stateid)
| OpForget (h : Z).

Section table.
Context {X : Type}.

(** Running operations; the handles that were given out, in order. *)
Fixpoint run_ops (ops : list lease_op) (lm : LeaseManager X) : list Z * LeaseManager X :=
  match ops with
  | [] => ([], lm)
  | OpTrack key sid :: ops =>
      let '(h, lm) := TrackStateid key sid lm in
      let '(hs, lm) := run_ops ops lm in (h :: hs, lm)
  | OpReissue h sid :: ops => run_ops ops (ReissueStateid h sid lm)
  | OpForget h :: ops => run_ops ops (ForgetStateid h lm)
  end.

(** What a handle stands for after a history, given what it stood for before:
    what it was tracked with when its turn came, with the last stateid issued
    for it since, until it was forgotten.  [next] is the last handle given
    out. *)
Fixpoint history (ops : list lease_op) (next : Z) (h : Z) (t : option trackedStateid) : option trackedStateid :=
  match ops with
  | [] => t
  | OpTrack key sid :: ops => history ops (next + 1) h (if h =? next + 1 then Some (mkTracked key sid) else t)
  | OpReissue h' sid :: ops =>
      history ops next h (if h =? h' then (fun t => mkTracked (ts_key t) sid) <$> t else t)
  | OpForget h' :: ops => history ops next h (if h =? h' then None else t)
  end.

Definition tracks (ops : list lease_op) : nat :=
  length (filter (fun op => match op with OpTrack _ _ => true | _ => false end = true) ops).

Lemma run_ops_run ops : forall lm, 0 <= lm_nextH lm -> lm_nextH lm + Z.of_nat (tracks ops) < 2 ^ 64 ->
  let '(hs, lm') := run_ops ops lm in
  hs = map (fun i => lm_nextH lm + 1 + Z.of_nat i) (List.seq 0 (tracks ops))
  /\ forall h, lm_stateids lm' !! h = history ops (lm_nextH lm) h (lm_stateids lm !! h).
Proof.
  induction ops as [|op ops IH]; intros lm H0 Hn; [done|]. destruct op as [key sid|h sid|h]; cbn [run_ops history].
  - unfold TrackStateid. change (tracks (OpTrack key sid :: ops)) with (S (tracks ops)) in *.
    rewrite u64_id by (split; lia).
    specialize (IH (with_table (lm_nextH lm + 1) (<[lm_nextH lm + 1 := mkTracked key sid]> (lm_stateids lm)) lm)).
    cbn [with_table lm_nextH lm_stateids] in IH. specialize (IH ltac:(lia) ltac:(lia)).
    destruct (run_ops ops _) as [hs lm']. destruct IH as [-> IH]. split.
    + cbn [List.seq map]. f_equal; [lia|]. rewrite <- seq_shift, map_map. apply map_ext. lia.
    + intros h. rewrite IH. f_equal. destruct (Z.eqb_spec h (lm_nextH lm + 1)) as [->|Hne].
      * by rewrite lookup_insert_eq.
      * by rewrite lookup_insert_ne.
  - change (tracks (OpReissue h sid :: ops)) with (tracks ops) in *.
    assert (lm_nextH (ReissueStateid h sid lm) = lm_nextH lm) as Hx
      by (unfold ReissueStateid; by destruct (lm_stateids lm !! h)).
    specialize (IH (ReissueStateid h sid lm)). rewrite Hx in IH. specialize (IH H0 Hn).
    destruct (run_ops ops _) as [hs lm']. destruct IH as [-> IH]. split; [done|]. intros h'. rewrite IH. f_equal.
    unfold ReissueStateid. destruct (Z.eqb_spec h' h) as [->|Hne]; destruct (lm_stateids lm !! h) as [t|] eqn:E;
      cbn [with_table lm_stateids]; rewrite ?E; try done; [by rewrite lookup_insert_eq|by rewrite lookup_insert_ne].
  - change (tracks (OpForget h :: ops)) with (tracks ops) in *.
    specialize (IH (ForgetStateid h lm) H0 Hn). cbn [ForgetStateid with_table lm_nextH lm_stateids] in IH.
    destruct (run_ops ops _) as [hs lm']. destruct IH as [-> IH]. split; [done|]. intros h'. rewrite IH. f_equal.
    destruct (Z.eqb_spec h' h) as [->|Hne]; [by rewrite lookup_delete_eq|by rewrite lookup_delete_ne].
Qed.
End table.

(** ** Theorems *)

Lemma renewInterval_bounds {X} (cfg : LeaseConfig X) (lm := NewLeaseManager cfg)
    (period := lc_LeasePeriod (lm_cfg lm)) : lc_LeasePeriod cfg < 2 ^ 62 ->
  0 < period /\ renewInterval lm = 2 * period / 3.
Proof.
  intros Hc. assert (0 < period < 2 ^ 62) as Hp.
  { unfold period, lm, NewLeaseManager. cbn. destruct (Z.leb_spec (lc_LeasePeriod cfg) 0); lia. }
  unfold renewInterval. fold period. rewrite i64_id by (split; lia). rewrite Z.quot_div_nonneg by lia. split; [lia|]. f_equal. lia.
Qed.

(** C29.  The renewal loop.  For any configured lease period below 2^62 ns (the
    default one included) the timer is set to two thirds of a positive period,
    rounded down, without overflow; along any outcomes of its [select] the loop
    renews once for every firing of the timer, recovers exactly after the
    renewals that found the client's state lost, ends when it is told to stop
    and not before, and if renewing and recovering return it does too. *)
Theorem lease_loop {X : Type} (cfg : LeaseConfig X) (ss : list selected) (x : X)
    (Hperiod : lc_LeasePeriod cfg < 2 ^ 62) :
  let lm := NewLeaseManager cfg in
  let period := lc_LeasePeriod (lm_cfg lm) in
  (0 < period /\ renewInterval lm = 2 * period / 3) /\
  (forall b x', loop lm ss x = Some (b, x') <-> b = stopped ss /\ renewals lm (firings ss) x x') /\
  ((forall y, lc_Renew cfg Background y <> None) -> (forall y, lc_Recover cfg Background y <> None) ->
     loop lm ss x <> None).
Proof.
  intros lm period. split_and!; try (apply renewInterval_bounds; exact Hperiod).
  - apply loop_renewals.
  - intros Hrenew Hrecover. revert x. induction ss as [|[|] ss IH]; intros x; cbn [loop]; try done.
    unfold mbind, Io_bind. assert (on_timer lm x <> None) as Ht.
    { unfold on_timer, mbind, Io_bind. cbn. destruct (lc_Renew cfg Background x) as [[[e|] x1]|] eqn:E; try done;
        [|by destruct (Hrenew x)]. destruct (isClientStateLost e); [|done]. specialize (Hrecover x1).
      by destruct (lc_Recover cfg Background x1) as [[? ?]|]. }
    destruct (on_timer lm x) as [[u x1]|]; [apply IH|done].
Qed.

(** Tracked stateids.  While fewer than 2^64 stateids have been tracked,
    the handles given out are 1, 2, 3 and so on, never one twice; and at any
    moment a handle stands for what its history says: the key it was tracked
    with and the last stateid issued for it, nothing before it was given out or
    after it was forgotten, when reissuing it has no effect. *)
Theorem lease_table {X : Type} (cfg : LeaseConfig X) (ops : list lease_op)
    (Hops : Z.of_nat (tracks ops) < 2 ^ 64) :
  let '(hs, lm) := run_ops ops (NewLeaseManager cfg) in
  hs = map (fun i => 1 + Z.of_nat i) (List.seq 0 (tracks ops)) /\ NoDup hs /\
  forall h, lm_stateids lm !! h = history ops 0 h None
    /\ lm_Stateid h lm = match history ops 0 h None with Some t => ts_sid t | None => zeroStateid end.
Proof.
  pose proof (run_ops_run ops (NewLeaseManager cfg) ltac:(done) Hops) as H.
  destruct (run_ops ops (NewLeaseManager cfg)) as [hs lm]. destruct H as [-> H].
  cbn [NewLeaseManager lm_nextH lm_stateids] in H. setoid_rewrite lookup_empty in H. split; [done|]. split.
  - assert (Inj (=) (=) (fun i : nat => 1 + Z.of_nat i)) by (intros i j; lia).
    apply (NoDup_fmap_2 (fun i : nat => 1 + Z.of_nat i)), NoDup_ListNoDup, seq_NoDup.
  - intros h. unfold lm_Stateid. by rewrite H.
Qed.

(** ** Witnesses

    The server loses the client's state before every third renewal; the state
    counts the renewals and the recoveries. *)

Definition sample_lease : LeaseConfig (nat * nat) := {|
  lc_LeasePeriod := 0;
  lc_Renew _ x := Some (if bool_decide (x.1 mod 3 = 2)%nat then Some (StatusError NFS4ERR_STALE_CLIENTID) else None,
                        (S x.1, x.2));
  lc_Recover _ x := Some (None, (x.1, S x.2))
|}.

Lemma lease_loop_witness :
  loop (NewLeaseManager sample_lease) [TimerFired; TimerFired; TimerFired; TimerFired; StopClosed; TimerFired]
    (0%nat, 0%nat) = Some (true, (4%nat, 1%nat))
  /\ renewInterval (NewLeaseManager sample_lease) = 60 * 1000000000.
Proof.
  destruct (lease_loop sample_lease [TimerFired; TimerFired; TimerFired; TimerFired; StopClosed; TimerFired]
    (0%nat, 0%nat) ltac:(done)) as (_ & _ & Ht).
  split; [|reflexivity]. specialize (Ht ltac:(done) ltac:(done)). revert Ht. vm_compute. by intros.
Defined.

Lemma lease_table_witness :
  let sid n := mkStateid n (replicate 12 x05) in
  let '(hs, lm) := run_ops [OpTrack (bstr "a") (sid 1); OpTrack (bstr "b") (sid 2); OpReissue 1 (sid 9); OpForget 2]
                     (NewLeaseManager sample_lease) in
  hs = [1; 2] /\ lm_Stateid 1 lm = sid 9 /\ lm_Stateid 2 lm = zeroStateid.
Proof.
  set (sid := fun n => mkStateid n (replicate 12 x05)).
  pose proof (lease_table sample_lease
    [OpTrack (bstr "a") (sid 1); OpTrack (bstr "b") (sid 2); OpReissue 1 (sid 9); OpForget 2] ltac:(done)) as H.
  cbn zeta. destruct (run_ops _ _) as [hs lm]. destruct H as (-> & _ & H). split; [reflexivity|].
  split; [exact (proj2 (H 1))|exact (proj2 (H 2))].
Defined.
