(* ===== verification/LeaseStop.v ===== *)
(** * Starting and stopping the renewal loop (src/client/lease.go)

    [Start] runs the loop in a goroutine of its own and [Stop] may be called from
    any number of others; they meet in two channels that are only ever closed
    and in a [sync.Once].  A state is the channels, where every goroutine is and
    the world the loop works on; an [action] is one atomic step of one goroutine,
    so a list of actions is an interleaving. *)

From S2P Require Import Prelude GoError Nfs4Const GoIO Xdr Attr Nfs4Types.
From S2P Require Import Caller Fs Lease LeaseCorrect.

(** Where a loop is: in its [select], with a fired timer, about to recover,
    returned. *)
Inductive loop_pc := Selecting | Renewing | Recovering | Exited.

(** Where a [Stop] is: before [stopOnce.Do], in its [select], returned, having
    seen [doneCh] closed or not. *)
Inductive stop_pc := Entering | Waiting | StopReturned (sawDone : bool).

#[global] Instance loop_pc_eq_dec : EqDecision loop_pc.
Proof. solve_decision. Defined.
#[global] Instance stop_pc_eq_dec : EqDecision stop_pc.
Proof. solve_decision. Defined.

(** The channels, the Once and the goroutines; a channel is whether it is
    closed.  src/client/lease.go:62-64 *)
Record background {X : Type} := mkBackground {
  b_world : X;
  b_stopOnce : bool;
  b_stopCh : bool;
  b_doneCh : bool;
  b_loops : list loop_pc;
  b_stops : list stop_pc
}.
Arguments background X : clear implicits.
Arguments mkBackground {X}.

(** Closing a closed channel panics. *)
Inductive outcome (A : Type) := Running (a : A) | Panicked.
Arguments Running {A} a.
Arguments Panicked {A}.

Section actions.
Context {X : Type} (lm : LeaseManager X).
Implicit Types b : background X.

Definition idle_background (x : X) : background X := mkBackground x false false false [] [].

Definition set_world (x : X) b : background X :=
  mkBackground x (b_stopOnce b) (b_stopCh b) (b_doneCh b) (b_loops b) (b_stops b).
Definition loop_at (i : nat) (pc : loop_pc) b : background X :=
  mkBackground (b_world b) (b_stopOnce b) (b_stopCh b) (b_doneCh b) (<[i := pc]> (b_loops b)) (b_stops b).
Definition stop_at (i : nat) (pc : stop_pc) b : background X :=
  mkBackground (b_world b) (b_stopOnce b) (b_stopCh b) (b_doneCh b) (b_loops b) (<[i := pc]> (b_stops b)).

Definition close_doneCh b : outcome (background X) :=
  if b_doneCh b then Panicked
  else Running (mkBackground (b_world b) (b_stopOnce b) (b_stopCh b) true (b_loops b) (b_stops b)).
Definition close_stopCh b : outcome (background X) :=
  if b_stopCh b then Panicked
  else Running (mkBackground (b_world b) (b_stopOnce b) true (b_doneCh b) (b_loops b) (b_stops b)).

(** src/client/lease.go:101-103 *)
Definition Start b : background X :=
  mkBackground (b_world b) (b_stopOnce b) (b_stopCh b) (b_doneCh b) (b_loops b ++ [Selecting]) (b_stops b).

(** The branch of a closed [stopCh], with the deferred close.
    src/client/lease.go:107-110 *)
Definition loop_stopped (i : nat) b : option (outcome (background X)) :=
  if bool_decide (b_loops b !! i = Some Selecting) && b_stopCh b then Some (close_doneCh (loop_at i Exited b)) else None.

(** The timer can fire whenever the loop is in its [select], also when [stopCh]
    is closed: with both ready Go chooses freely.  src/client/lease.go:111-112 *)
Definition loop_fired (i : nat) b : option (outcome (background X)) :=
  if bool_decide (b_loops b !! i = Some Selecting) then Some (Running (loop_at i Renewing b)) else None.

(** src/client/lease.go:113-114 *)
Definition loop_renew (i : nat) b : option (outcome (background X)) :=
  if bool_decide (b_loops b !! i = Some Renewing) then
    match lc_Renew (lm_cfg lm) Background (b_world b) with
    | None => None
    | Some (err, x) =>
        let lost := match err with Some e => isClientStateLost e | None => false end in
        Some (Running (loop_at i (if lost then Recovering else Selecting) (set_world x b)))
    end
  else None.

(** src/client/lease.go:115-115 *)
Definition loop_recover (i : nat) b : option (outcome (background X)) :=
  if bool_decide (b_loops b !! i = Some Recovering) then
    match lc_Recover (lm_cfg lm) Background (b_world b) with
    | None => None
    | Some (_, x) => Some (Running (loop_at i Selecting (set_world x b)))
    end
  else None.

(** A goroutine calls [Stop]. *)
Definition Stop_call b : background X :=
  mkBackground (b_world b) (b_stopOnce b) (b_stopCh b) (b_doneCh b) (b_loops b) (b_stops b ++ [Entering]).

(** [Do] runs its function once; nothing in it waits, so a concurrent [Do]
    never sees it half done.  src/client/lease.go:125-127 *)
Definition Stop_once (i : nat) b : option (outcome (background X)) :=
  if bool_decide (b_stops b !! i = Some Entering) then
    let b := stop_at i Waiting b in
    if b_stopOnce b then Some (Running b)
    else Some (close_stopCh (mkBackground (b_world b) true (b_stopCh b) (b_doneCh b) (b_loops b) (b_stops b)))
  else None.

(** The two branches of its [select].  src/client/lease.go:128-132 *)
Definition Stop_wait (i : nat) (timeout : bool) b : option (outcome (background X)) :=
  if bool_decide (b_stops b !! i = Some Waiting) && (timeout || b_doneCh b)
  then Some (Running (stop_at i (StopReturned (negb timeout)) b)) else None.

Inductive action :=
| ActStart
| ActStopped (i : nat)
| ActFired (i : nat)
| ActRenew (i : nat)
| ActRecover (i : nat)
| ActStop
| ActOnce (i : nat)
| ActWait (i : nat) (timeout : bool).

Definition act (a : action) b : option (outcome (background X)) :=
  match a with
  | ActStart => Some (Running (Start b))
  | ActStopped i => loop_stopped i b
  | ActFired i => loop_fired i b
  | ActRenew i => loop_renew i b
  | ActRecover i => loop_recover i b
  | ActStop => Some (Running (Stop_call b))
  | ActOnce i => Stop_once i b
  | ActWait i timeout => Stop_wait i timeout b
  end.

(** An interleaving; [None] when one of its actions is not possible. *)
Fixpoint run_actions (acts : list action) b : option (outcome (background X)) :=
  match acts with
  | [] => Some (Running b)
  | a :: acts =>
      match act a b with
      | None => None
      | Some Panicked => Some Panicked
      | Some (Running b) => run_actions acts b
      end
  end.

Definition is_start (a : action) : bool := match a with ActStart => true | _ => false end.
Definition starts (acts : list action) : nat := nb is_start acts.
End actions.
