(* ===== verification/LeaseStopCorrect.v ===== *)
(** * Starting and stopping the renewal loop: theorems *)

From S2P Require Import Prelude GoError Nfs4Const GoIO Xdr Attr Nfs4Types.
From S2P Require Import Caller Fs Lease LeaseCorrect LeaseStop.

Section stop.
Context {X : Type} (lm : LeaseManager X) (x0 : X).
Implicit Types b : background X.

Lemma renewals_snoc n x x1 x' : renewals lm n x x1 -> renewed lm x1 x' -> renewals lm (S n) x x'.
Proof. induction 1; intros Hr; econstructor; eauto using renewals_0. Qed.

(** ** The invariant, when the loop is started once at most *)

(** What the loop has done to the world after [n] rounds, the one it is in not
    counted. *)
Definition worked (n : nat) b : Prop :=
  match b_loops b with
  | [Recovering] => exists x1 e, renewals lm n x0 x1 /\
      lc_Renew (lm_cfg lm) Background x1 = Some (Some e, b_world b) /\ isClientStateLost e = true
  | _ => renewals lm n x0 (b_world b)
  end.

Record stop_inv (k : nat) b : Prop := {
  inv_loops : b_loops b = [] /\ k = 0%nat \/ exists pc, b_loops b = [pc] /\ k = 1%nat;
  inv_once : b_stopCh b = b_stopOnce b;
  inv_done : b_doneCh b = true <-> b_loops b = [Exited];
  inv_exited : b_doneCh b = true -> b_stopCh b = true;
  inv_seen : StopReturned true ∈ b_stops b -> b_doneCh b = true;
  inv_called : b_stopCh b = true -> exists pc, pc ∈ b_stops b /\ pc <> Entering;
  inv_work : exists n, worked n b
}.

Lemma idle_inv : stop_inv 0 (idle_background x0).
Proof.
  split; cbn; try done.
  - by left.
  - by intros ?%elem_of_nil.
  - exists 0%nat. constructor.
Qed.

Lemma the_loop (l : list loop_pc) pc0 pc i : l = [pc0] -> l !! i = Some pc -> i = 0%nat /\ pc = pc0.
Proof. intros ->. destruct i as [|i]; [by intros [= ->]|]. by rewrite lookup_cons, lookup_nil. Qed.

(** The loop moves, not to [Exited], and leaves the channels. *)
Lemma loop_moves k b i pc pc' x : stop_inv k b -> b_loops b !! i = Some pc -> pc <> Exited -> pc' <> Exited ->
  (exists n, worked n (loop_at i pc' (set_world x b))) -> stop_inv k (loop_at i pc' (set_world x b)).
Proof.
  intros [Hl Ho Hd He Hs Hc _] Hi Hpc Hpc' Hw. destruct Hl as [[Hl _]|(pc0 & Hl & Hk)]; [by rewrite Hl in Hi|].
  destruct (the_loop _ _ _ _ Hl Hi) as [-> ->]. split; cbn; try done; rewrite ?Hl in *; cbn.
  - right. by exists pc'.
  - rewrite Hd. split; intros [=]; congruence.
Qed.

(** Renewing one round further. *)
Lemma worked_renew n b i err x : b_loops b = [Renewing] -> i = 0%nat -> worked n b ->
  lc_Renew (lm_cfg lm) Background (b_world b) = Some (err, x) ->
  exists m, worked m (loop_at i (if match err with Some e => isClientStateLost e | None => false end
                                then Recovering else Selecting) (set_world x b)).
Proof.
  intros Hl -> Hw E. unfold worked in *. cbn. rewrite Hl in *. cbn.
  destruct err as [e|]; [destruct (isClientStateLost e) eqn:El|].
  - exists n, (b_world b), e. done.
  - exists (S n). eapply renewals_snoc; [done|]. exists (Some e), x. by rewrite El.
  - exists (S n). eapply renewals_snoc; [done|]. by exists None, x.
Qed.

Lemma worked_recover n b i rerr x : b_loops b = [Recovering] -> i = 0%nat -> worked n b ->
  lc_Recover (lm_cfg lm) Background (b_world b) = Some (rerr, x) ->
  exists m, worked m (loop_at i Selecting (set_world x b)).
Proof.
  intros Hl -> Hw E. unfold worked in *. cbn. rewrite Hl in *. cbn. destruct Hw as (x1 & e & Hr & Hx & He).
  exists (S n). eapply renewals_snoc; [done|]. exists (Some e), (b_world b). rewrite He. split; [done|]. by exists rerr.
Qed.

(** A [Stop] moves on. *)
Lemma stop_moves k b i pc pc' once : stop_inv k b -> b_stops b !! i = Some pc -> pc' <> Entering ->
  (pc' = StopReturned true -> b_doneCh b = true) -> (b_stopCh b = true -> once = true) ->
  stop_inv k (mkBackground (b_world b) once once (b_doneCh b) (b_loops b) (<[i := pc']> (b_stops b))).
Proof.
  intros [Hl Ho Hd He Hs Hc Hw] Hi Hpc' Hseen Honce.
  assert (pc' ∈ <[i := pc']> (b_stops b)) as Hin.
  { eapply list_elem_of_lookup_2, list_lookup_insert_eq, lookup_lt_Some, Hi. }
  split; cbn; try done.
  - intros E. auto.
  - intros [j Hj]%list_elem_of_lookup_1. destruct (decide (i = j)) as [<-|Hij].
    + rewrite list_lookup_insert_eq in Hj by (by eapply lookup_lt_Some). injection Hj as E. auto.
    + rewrite list_lookup_insert_ne in Hj by done. apply Hs. by eapply list_elem_of_lookup_2.
  - intros _. by exists pc'.
Qed.

Lemma loop_stopped_inv k b i o : stop_inv k b -> loop_stopped i b = Some o ->
  exists b', o = Running b' /\ stop_inv k b' /\ b_world b' = b_world b.
Proof.
  intros Hi E. unfold loop_stopped in E. case_bool_decide as Hsel; [|done].
  destruct (b_stopCh b) eqn:Hst; [|done]. injection E as <-.
  destruct Hi as [Hl Ho Hd He Hs Hc [n Hw]]. destruct Hl as [[Hl _]|(pc0 & Hl & ->)]; [by rewrite Hl in Hsel|].
  destruct (the_loop _ _ _ _ Hl Hsel) as [-> <-]. unfold close_doneCh. cbn.
  destruct (b_doneCh b) eqn:Edone; [by rewrite (proj1 Hd eq_refl) in Hl|].
  eexists. split; [done|]. split; [|done]. split; cbn; try done; rewrite ?Hl in *; cbn.
  - right. by exists Exited.
  - by split.
  - exists n. unfold worked in Hw. by rewrite Hl in Hw.
Qed.

(** The loop there is. *)
Lemma loop_of k b i pc : stop_inv k b -> b_loops b !! i = Some pc ->
  b_loops b = [pc] /\ i = 0%nat /\ exists n, worked n b.
Proof.
  intros [Hl _ _ _ _ _ Hw] Hi. destruct Hl as [[Hl _]|(pc0 & Hl & _)]; [by rewrite Hl in Hi|].
  by destruct (the_loop _ _ _ _ Hl Hi) as [-> ->].
Qed.

Lemma not_done k b i pc : stop_inv k b -> b_loops b !! i = Some pc -> pc <> Exited -> b_doneCh b = true -> False.
Proof.
  intros Hi Hpc Hne Hd. apply (inv_done k b Hi) in Hd. destruct (loop_of k b i pc Hi Hpc) as [Hl _]. congruence.
Qed.

(** Every action keeps the invariant, does not panic, and once the loop has
    returned leaves the world alone. *)
Definition keeps (k : nat) b (o : outcome (background X)) : Prop :=
  exists b', o = Running b' /\ stop_inv k b' /\ (b_doneCh b = true -> b_doneCh b' = true /\ b_world b' = b_world b).

Lemma start_inv b : stop_inv 0 b -> keeps 1 b (Running (Start b)).
Proof.
  intros [Hl Ho Hd He Hs Hc [n Hw]]. destruct Hl as [[Hl _]|(? & _ & [=])]. eexists. split; [done|].
  split; [|done]. split; cbn; try done.
  - right. exists Selecting. by rewrite Hl.
  - rewrite Hd, Hl. done.
  - exists n. unfold worked in *. cbn. rewrite Hl in *. done.
Qed.

Lemma loop_inv k b a i o : stop_inv k b -> a = ActFired i \/ a = ActRenew i \/ a = ActRecover i ->
  act lm a b = Some o -> keeps k b o.
Proof.
  intros Hi [->|[->| ->]] E; cbn [act] in E.
  - unfold loop_fired in E. case_bool_decide as Hsel; [|done]. injection E as <-.
    destruct (loop_of _ _ _ _ Hi Hsel) as (Hl & -> & n & Hw). eexists. split; [done|]. split.
    + apply (loop_moves k b 0 Selecting Renewing (b_world b)); try done.
      exists n. unfold worked in *. cbn. rewrite Hl in *. done.
    + intros Hd. by destruct (not_done _ _ _ _ Hi Hsel).
  - unfold loop_renew in E. case_bool_decide as Hsel; [|done].
    destruct (lc_Renew _ _ _) as [[err x]|] eqn:Er; [|done]. injection E as <-.
    destruct (loop_of _ _ _ _ Hi Hsel) as (Hl & Hi0 & n & Hw). eexists. split; [done|]. split.
    + apply (loop_moves k b i Renewing); try done; [by repeat case_match|]. by eapply worked_renew.
    + intros Hd. by destruct (not_done _ _ _ _ Hi Hsel).
  - unfold loop_recover in E. case_bool_decide as Hsel; [|done].
    destruct (lc_Recover _ _ _) as [[err x]|] eqn:Er; [|done]. injection E as <-.
    destruct (loop_of _ _ _ _ Hi Hsel) as (Hl & Hi0 & n & Hw). eexists. split; [done|]. split.
    + apply (loop_moves k b i Recovering); try done. by eapply worked_recover.
    + intros Hd. by destruct (not_done _ _ _ _ Hi Hsel).
Qed.

Lemma stops_inv k b a i timeout o : stop_inv k b -> a = ActStop \/ a = ActOnce i \/ a = ActWait i timeout ->
  act lm a b = Some o -> keeps k b o.
Proof.
  intros Hi [->|[->| ->]] E; cbn [act] in E; pose proof (inv_once k b Hi) as Ho.
  - injection E as <-. eexists. split; [done|]. split; [|done]. destruct Hi as [Hl _ Hd He Hs Hc Hw].
    split; cbn; try done.
    + intros [?|H%list_elem_of_singleton]%elem_of_app; [auto|done].
    + intros H. destruct (Hc H) as (pc & Hp & Hne). exists pc. split; [|done]. apply elem_of_app. by left.
  - unfold Stop_once in E. case_bool_decide as Hent; [|done]. unfold close_stopCh in E. cbn in E.
    destruct (b_stopOnce b) eqn:Eo; rewrite ?Ho in E; injection E as <-; (eexists; split; [done|]; split; [|done]).
    + unfold stop_at. rewrite Ho, Eo. by apply (stop_moves k b i Entering Waiting true).
    + by apply (stop_moves k b i Entering Waiting true).
  - unfold Stop_wait in E. case_bool_decide as Hent; [|done]. destruct (timeout || b_doneCh b) eqn:Ed; [|done].
    injection E as <-. eexists. split; [done|]. split; [|done]. unfold stop_at. rewrite <- Ho.
    apply (stop_moves k b i Waiting (StopReturned (negb timeout)) (b_stopCh b)); try done.
    destruct timeout; [done|]. by intros _.
Qed.

Lemma act_inv k b a o : stop_inv k b -> act lm a b = Some o -> (k + nb is_start [a] <= 1)%nat ->
  keeps (k + nb is_start [a]) b o.
Proof.
  intros Hi E Hk. destruct a as [ |i|i|i|i| |i|i timeout]; cbn [nb is_start] in *; rewrite ?Nat.add_0_r in *;
    try (eapply loop_inv; [exact Hi| |exact E]; by auto);
    try (eapply (stops_inv k b _ 0 false); [exact Hi| |exact E]; by auto);
    try (eapply (stops_inv k b _ i false); [exact Hi| |exact E]; by auto).
  - injection E as <-. assert (k = 0%nat) as -> by lia. by apply start_inv.
  - destruct (loop_stopped_inv k b i o Hi E) as (b' & -> & Hi' & Hw). exists b'. split_and!; [done..|].
    intros Hd. exfalso. cbn in E. unfold loop_stopped in E. case_bool_decide as Hsel; [|done].
    by destruct (not_done _ _ _ _ Hi Hsel).
  - eapply (stops_inv k b _ i timeout); [exact Hi| |exact E]. by auto.
Qed.

Lemma run_inv acts : forall k b o, stop_inv k b -> run_actions lm acts b = Some o -> (k + starts acts <= 1)%nat ->
  keeps (k + starts acts) b o.
Proof.
  induction acts as [|a acts IH]; intros k b o Hi E Hk; cbn [run_actions] in E.
  { injection E as <-. exists b. unfold starts. cbn. by rewrite Nat.add_0_r. }
  unfold starts in *. change (a :: acts) with ([a] ++ acts) in *. rewrite nb_app in *.
  destruct (act lm a b) as [o1|] eqn:Ea; [|done].
  destruct (act_inv k b a o1 Hi Ea ltac:(lia)) as (b1 & -> & Hi1 & Hd1).
  destruct (IH _ b1 o Hi1 E ltac:(lia)) as (b2 & -> & Hi2 & Hd2). exists b2. rewrite Nat.add_assoc. split_and!; [done..|].
  intros Hdone. destruct (Hd1 Hdone) as [H1 <-]. by apply Hd2.
Qed.

(** ** The loop can stop *)

Definition of_loop (a : action) : bool :=
  match a with ActStopped _ | ActRenew _ | ActRecover _ => true | _ => false end.

(** Within [n] of its own actions. *)
Definition stops_within (n : nat) b : Prop :=
  exists own b', (length own <= n)%nat /\ forallb of_loop own = true
    /\ run_actions lm own b = Some (Running b') /\ b_doneCh b' = true.

Lemma stops_one_later n a b b1 : of_loop a = true -> act lm a b = Some (Running b1) -> stops_within n b1 ->
  stops_within (S n) b.
Proof.
  intros Ha E (own & b' & Hn & Hown & Hr & Hd). exists (a :: own), b'. cbn [length forallb run_actions].
  rewrite Ha, E. split_and!; [lia|done..].
Qed.

Lemma stops_selecting b : b_loops b = [Selecting] -> b_stopCh b = true -> b_doneCh b = false -> stops_within 1 b.
Proof.
  intros Hl Hs Hd. eexists [ActStopped 0], _. split; [done|]. split; [done|].
  cbn [run_actions act]. unfold loop_stopped, close_doneCh. rewrite Hl, Hs. cbn. by rewrite Hd.
Qed.

Lemma stops_recovering b : (forall y, lc_Recover (lm_cfg lm) Background y <> None) ->
  b_loops b = [Recovering] -> b_stopCh b = true -> b_doneCh b = false -> stops_within 2 b.
Proof.
  intros Hrec Hl Hs Hd. destruct (lc_Recover (lm_cfg lm) Background (b_world b)) as [[err x]|] eqn:E;
    [|by destruct (Hrec (b_world b))].
  eapply (stops_one_later 1 (ActRecover 0)); [done|cbn [act]; unfold loop_recover; by rewrite Hl, E|].
  apply stops_selecting; [by cbn; rewrite Hl|done..].
Qed.

Lemma can_stop k b pc : stop_inv k b -> b_loops b = [pc] -> b_stopCh b = true ->
  (forall y, lc_Renew (lm_cfg lm) Background y <> None) -> (forall y, lc_Recover (lm_cfg lm) Background y <> None) ->
  stops_within 3 b.
Proof.
  intros Hi Hl Hs Hren Hrec. assert (pc <> Exited -> b_doneCh b = false) as Hd.
  { intros Hne. destruct (b_doneCh b) eqn:Ed; [|done]. apply (inv_done _ _ Hi) in Ed. congruence. }
  assert (forall n m b, (n <= m)%nat -> stops_within n b -> stops_within m b) as Hmono.
  { intros n m b1 Hnm (own & b' & Hn & H). exists own, b'. split; [lia|done]. }
  destruct pc.
  - eapply (Hmono 1%nat); [lia|]. apply stops_selecting; auto.
  - destruct (lc_Renew (lm_cfg lm) Background (b_world b)) as [[err x]|] eqn:E; [|by destruct (Hren (b_world b))].
    eapply (stops_one_later 2 (ActRenew 0)); [done|cbn [act]; unfold loop_renew; by rewrite Hl, E|].
    destruct (match err with Some e => isClientStateLost e | None => false end).
    + apply stops_recovering; try done; [by cbn; rewrite Hl|by apply Hd].
    + eapply (Hmono 1%nat); [lia|]. apply stops_selecting; [by cbn; rewrite Hl|done|by apply Hd].
  - eapply (Hmono 2%nat); [lia|]. apply stops_recovering; auto.
  - exists [], b. split_and!; [cbn; lia|done..|]. by apply (inv_done _ _ Hi).
Qed.
End stop.

(** ** Theorems *)

(** Some goroutines' [Stop]s that have returned because the loop had. *)
Definition stopped_for_good {X} (b : background X) : Prop := StopReturned true ∈ b_stops b.

(** C30.  Starting and stopping.  However the loop, started once at most, and
    any number of concurrent [Stop]s interleave: no channel is closed twice; the
    world has seen whole rounds of renewal and recovery and the one in progress,
    in order; the loop returns only after a [Stop] was called; when a [Stop] has
    returned because the loop had, nothing that runs later renews or recovers
    any more; and if renewing and recovering return, a loop that was told to
    stop can do so within three steps of its own. *)
Theorem lease_stop {X : Type} (cfg : LeaseConfig X) (x0 : X) (acts later : list action)
    (o o' : outcome (background X)) (lm := NewLeaseManager cfg)
    (Hstart : (starts (acts ++ later) <= 1)%nat)
    (Hrun : run_actions lm acts (idle_background x0) = Some o) :
  exists b, o = Running b /\ (exists n, worked lm x0 n b)
    /\ (b_doneCh b = true -> exists pc, pc ∈ b_stops b /\ pc <> Entering)
    /\ (stopped_for_good b -> run_actions lm later b = Some o' ->
         exists b', o' = Running b' /\ b_world b' = b_world b)
    /\ (b_stopCh b = true -> b_loops b <> [] ->
         (forall y, lc_Renew cfg Background y <> None) -> (forall y, lc_Recover cfg Background y <> None) ->
         stops_within lm 3 b).
Proof.
  unfold starts in Hstart. rewrite nb_app in Hstart. fold (starts acts) in Hstart. fold (starts later) in Hstart.
  destruct (run_inv lm x0 acts 0 _ o (idle_inv lm x0) Hrun ltac:(lia)) as (b & -> & Hi & _). exists b.
  split; [done|]. split; [apply (inv_work _ _ _ _ Hi)|]. split_and!.
  - intros Hd. apply (inv_called _ _ _ _ Hi), (inv_exited _ _ _ _ Hi), Hd.
  - intros Hgood Hlater. destruct (run_inv lm x0 later _ b o' Hi Hlater ltac:(lia)) as (b' & -> & _ & Hd).
    exists b'. split; [done|]. apply Hd, (inv_seen _ _ _ _ Hi), Hgood.
  - intros Hst Hl Hrenew Hrecover.
    destruct (inv_loops _ _ _ _ Hi) as [[? _]|(pc & Hpc & _)]; [done|].
    by apply (can_stop lm x0 _ b pc Hi Hpc Hst).
Qed.

Lemma lease_stop_witness :
  exists b, run_actions (NewLeaseManager sample_lease)
      [ActStart; ActFired 0; ActRenew 0; ActStop; ActFired 0; ActStop; ActOnce 1; ActRenew 0; ActOnce 0; ActStopped 0;
       ActWait 1 false] (idle_background (0%nat, 0%nat)) = Some (Running b)
    /\ b_world b = (2%nat, 0%nat) /\ b_stops b = [Waiting; StopReturned true] /\ b_doneCh b = true.
Proof.
  set (acts := [ActStart; ActFired 0; ActRenew 0; ActStop; ActFired 0; ActStop; ActOnce 1; ActRenew 0; ActOnce 0;
    ActStopped 0; ActWait 1 false]).
  destruct (run_actions (NewLeaseManager sample_lease) acts (idle_background (0%nat, 0%nat))) as [o|] eqn:E;
    [|vm_compute in E; discriminate].
  destruct (lease_stop sample_lease (0%nat, 0%nat) acts [ActWait 0 false] o o ltac:(vm_compute; lia) E) as (b & -> & _).
  exists b. split; [reflexivity|]. vm_compute in E. injection E as <-. split_and!; reflexivity.
Defined.

(** [Stop] does not always wait for the loop: it gives up after a second, while a
    renewal may still be on its way. *)
Lemma stop_gives_up {X : Type} (lm : LeaseManager X) (x0 : X) :
  run_actions lm [ActStart; ActFired 0; ActStop; ActOnce 0; ActWait 0 true] (idle_background x0)
  = Some (Running (mkBackground x0 true true false [Renewing] [StopReturned false])).
Proof. done. Qed.

(** Started twice, the second loop to return closes [doneCh] again and panics. *)
Lemma start_twice {X : Type} (lm : LeaseManager X) (x0 : X) :
  run_actions lm [ActStart; ActStart; ActStop; ActOnce 0; ActStopped 0; ActStopped 1] (idle_background x0)
  = Some Panicked.
Proof. done. Qed.
