(* ===== verification/Client.v ===== *)
(** * The client (src/client/client.go)

    A mounted [Client] is its connection, which is the state of the monad; the
    connection is the protocol its file systems run on. *)

From S2P Require Import Prelude GoError Nfs4Const GoIO Xdr Rpc RpcClient Attr Nfs4Types.
From S2P Require Import Nfs4Args Nfs4Res Compound Session Caller Conn GoPath Fs File.

(** src/client/client.go:38-38 *)
Inductive MountOption :=
| WithMinorVersion (v : Z)
| WithAutoMinorVersion.

(** src/client/client.go:40-43 *)
Record mountConfig := mkMountConfig { mc_minorVersion : Z; mc_auto : bool }.

(** What each option does to the configuration.  src/client/client.go:47-55 *)
Definition apply_option (mc : mountConfig) (o : MountOption) : mountConfig :=
  match o with
  | WithMinorVersion v => mkMountConfig v false
  | WithAutoMinorVersion => mkMountConfig (mc_minorVersion mc) true
  end.

(** [nfs4.ConnConfig{MinorVersion: v}] *)
Definition config_of (v : Z) : ConnConfig := mkConnConfig [] v (mkRetryConfig 0 0 0 None).

Section client.
Context {W : Type} `{World W}.

(** A connection is a protocol.  src/client/client.go:27-30 *)
#[global] Instance conn_protocol : Protocol (St W) := {|
  p_RootFH st := RootFH (st_conn st);
  p_Lookup ctx dir name := Lookup ctx dir name;
  p_GetAttr ctx fh mask := GetAttr ctx fh mask;
  p_Read ctx fh offset count := Read ctx fh offset count;
  p_Readdir ctx dir cookie verf mask := Readdir ctx dir cookie verf mask;
  p_Readlink ctx fh := Readlink ctx fh
|}.

#[global] Instance conn_rwprotocol : RWProtocol (St W) := {|
  rw_Protocol := conn_protocol;
  p_Open ctx dir name share mask vals doCreate excl := Open ctx dir name share mask vals doCreate excl;
  p_Write ctx fh sid offset data stable := Conn_Write ctx fh sid offset data stable;
  p_Commit ctx fh offset count := Conn_Commit ctx fh offset count;
  p_CloseFile ctx fh sid := CloseFile ctx fh sid;
  p_SetAttr ctx fh sid mask vals := SetAttr ctx fh sid mask vals
|}.

(** src/client/client.go:61-86 *)
Definition Client_Mount (ctx : Context) (server export : bytes) (cred : OpaqueAuth) (opts : list MountOption)
    : M W (result unit) :=
  let mc := fold_left apply_option opts (mkMountConfig 0 false) in
  dialled ← (if mc_auto mc then DialAuto ctx server cred (config_of 0)
             else Dial ctx server cred (config_of (mc_minorVersion mc)));
  match dialled with
  | inl err => mret (inl err)
  | inr _ =>
      if negb (bool_decide (export = [])) && negb (bool_decide (export = [slash])) then
        let comps := strings_Split (strings_Trim export) in
        found ← LookupPath ctx comps;
        match found with
        | inl err => _ ← Conn_Close; mret (inl err)
        | inr _ => mret (inr tt)
        end
      else mret (inr tt)
  end.

(** src/client/client.go:89-91 *)
Definition NfsClient_Close : M W (option error) := Conn_Close.

(** src/client/client.go:99-101 *)
Definition Client_FS (ctx : Context) : FS := FS_WithContext ctx New.

(** src/client/client.go:106-108 *)
Definition Client_RWFS (ctx : Context) : RWFS := RWFS_WithContext ctx NewRW.
End client.
