(* ===== verification/ClientSpec.v ===== *)
(** * A connection keeps the file contract

    [NfsFiles] is what an NFS server promises of its files, compound by
    compound; over any transport to such a server a connection is a [FileStore],
    so that what is proved of open files against the contract holds of them on
    a connection, over v4.0 and over a v4.1 session. *)

From S2P Require Import Prelude GoError Nfs4Const GoIO Xdr XdrSpec Rpc RpcClient.
From S2P Require Import Attr Nfs4Types Nfs4Args Nfs4Res Compound Nfs4Spec Nfs4ResSpec CompoundCorrect.
From S2P Require Import Session Caller CallerCorrect Conn ConnSpec ConnCorrect GoPath Fs File FileSpec.
From S2P Require Import ReadAllCorrect FsSpec Client.

(** An answer is an error, or [ps] with status OK and a property. *)
Definition answered (r : Z * list Resop) (ok : list Reply -> Prop) : Prop :=
  isRetriableStatus r.1 = false /\
  (r.1 <> NFS4_OK \/ (r.1 = NFS4_OK /\ ok (map snd r.2))).

Class NfsFiles {S : Type} (serve : Server S) (minor : Z) (content : S -> bytes -> bytes) : Prop := {
  nfs_read s fh a : is_u64 (rd_Offset a) -> is_u32 (rd_Count a) ->
    let '(r, s') := serve s minor [APutfh (mkPutfhArgs fh); ARead a] in
    content s' = content s /\
    answered r (fun ps => exists data eof, ps = [PVoid; PRead eof data]
                            /\ read_ok (content s fh) (rd_Offset a) (rd_Count a) data eof);
  nfs_write s fh a : is_u64 (wr_Offset a) ->
    let '(r, s') := serve s minor [APutfh (mkPutfhArgs fh); AWrite a] in
    exists k, 0 <= k <= blen (wr_Data a)
      /\ content s' fh = overlay (content s fh) (wr_Offset a) (btake k (wr_Data a))
      /\ (forall fh', fh' <> fh -> content s' fh' = content s fh')
      /\ answered r (fun ps => exists c v, ps = [PVoid; PWrite k c v]);
  nfs_size s fh :
    let '(r, s') := serve s minor [APutfh (mkPutfhArgs fh); AGetattr (mkGetattrArgs StandardMask)] in
    content s' = content s /\
    answered r (fun ps => exists mask vals, ps = [PVoid; PGetattr mask vals]
                            /\ forall a, attr_Decode mask vals = inr a -> a_Size a = blen (content s fh))
}.

(** A READ that asks for bytes and gets none is at the end. *)
Class NfsEnds {S : Type} (serve : Server S) (minor : Z) : Prop :=
  nfs_ends s fh a eof : is_u64 (rd_Offset a) -> is_u32 (rd_Count a) -> 0 < rd_Count a ->
    map snd (serve s minor [APutfh (mkPutfhArgs fh); ARead a]).1.2 = [PVoid; PRead eof []] -> eof = true.

Section conn_store.
Context {W S : Type} `{World W} (serve : Server S) (P : St W -> Prop) (abs : St W -> S) (minor : Z).
Context (content : S -> bytes -> bytes) (ok : Compound -> list Res -> Prop) (can : bytes -> Stateid -> Z -> Prop).
Context `{!Carrier serve P abs ok} `{!NfsFiles serve minor content}.

(** The states from which the connection keeps the contract. *)
Definition connected (st : St W) : Prop := P st /\ MinorVersion (st_conn st) = minor.
Definition conn_content (st : St W) : bytes -> bytes := content (abs st).

(** One operation: an error of the server, or what the operation makes of the
    two results. *)
Lemma operation_answered {A} fmt args ctx ops r1 r2 (k : list Res -> result A) st :
  connected st -> ok (mkCompound [] minor ops) [r1; r2] ->
  let '(r, s') := serve (abs st) minor ops in
  isRetriableStatus r.1 = false ->
  exists st', (c ← get; operation fmt args ctx (mkCompound [] (MinorVersion c) ops) [r1; r2] k) st
    = Some (if r.1 =? NFS4_OK then k (results_after [r1; r2] r.2) else inl (StatusError r.1), st')
    /\ connected st' /\ abs st' = s' /\ st_conn st' = st_conn st.
Proof.
  intros [HP Hm] Hok. destruct (serve (abs st) minor ops) as [[status ps] s'] eqn:Es. intros Hr.
  destruct (carried_operation_run serve P abs ok fmt args ctx (mkCompound [] (MinorVersion (st_conn st)) ops) [r1; r2] k st
    status ps s' HP) as (st' & E & HP' & Ha & Hc); [by rewrite Hm|cbn; by rewrite Hm|done|].
  exists st'. erewrite M_bind_Some by apply get_run. split_and!; [exact E|split; [done|by rewrite Hc]|done|done].
Qed.

(** The requests on files are among those that are carried. *)
Record carries_files : Prop := {
  carries_less fh sid n m : can fh sid n -> 0 <= m <= n -> can fh sid m;
  carries_read fh sid off count : can fh sid 0 -> is_u64 off -> is_u32 count ->
    ok (mkCompound [] minor [APutfh (mkPutfhArgs fh); ARead (mkReadArgs AnonStateid off count)])
       [RStatus zeroStatusRes; RRead zeroReadRes];
  carries_write fh sid off data stable : can fh sid (blen data) -> is_u64 off -> is_u32 stable ->
    ok (mkCompound [] minor [APutfh (mkPutfhArgs fh); AWrite (mkWriteArgs sid off stable data)])
       [RStatus zeroStatusRes; RWrite zeroWriteRes];
  carries_size fh sid : can fh sid 0 ->
    ok (mkCompound [] minor [APutfh (mkPutfhArgs fh); AGetattr (mkGetattrArgs StandardMask)])
       [RStatus zeroStatusRes; RGetattr zeroGetattrRes]
}.

(** A READ: an error, or what the server sent and the contract says of it. *)
Lemma Read_answered (Hcar : carries_files) ctx fh sid off count st : connected st -> can fh sid 0 -> is_u64 off -> is_u32 count ->
  exists res st', p_Read ctx (Some fh) off count st = Some (res, st') /\ connected st' /\ conn_content st' = conn_content st /\
  match res with
  | inl _ => True
  | inr (data, eof) =>
      read_ok (conn_content st fh) off count data eof
      /\ map snd (serve (abs st) minor [APutfh (mkPutfhArgs fh); ARead (mkReadArgs AnonStateid off count)]).1.2
         = [PVoid; PRead eof data]
  end.
Proof.
  intros Hst Hcan Hoff Hcount.
  pose proof (operation_answered "nfs4: READ: %w" [] ctx
    [APutfh (mkPutfhArgs fh); ARead (mkReadArgs AnonStateid off count)] (RStatus zeroStatusRes) (RRead zeroReadRes)
    (fun results => let readRes := as_Read (results !! 1%nat) in
       with_ok (rdr_Status readRes) (rdr_Data readRes, rdr_EOF readRes)) st Hst
    (carries_read Hcar _ _ _ _ Hcan Hoff Hcount)) as Hop.
  pose proof (nfs_read (abs st) fh (mkReadArgs AnonStateid off count) Hoff Hcount) as Hn.
  destruct (serve (abs st) minor _) as [[status ps] s']. destruct Hn as (Hc & Hr & Hok).
  destruct (Hop Hr) as (st' & E & Hst' & Ha & _). cbn [fst snd] in *. eexists _, st'. split; [exact E|].
  split; [done|]. split; [unfold conn_content; by rewrite Ha|].
  destruct Hok as [Hne|[-> (data & eof & Hps & Hok)]]; [by destruct (Z.eqb_spec status NFS4_OK)|].
  destruct ps as [|[o1 p1] [|[o2 p2] [|]]]; try discriminate. injection Hps as -> ->. done.
Qed.

Lemma carried_store : carries_files -> FileStore connected conn_content can.
Proof.
  intros Hcar. split; [apply (carries_less Hcar)| | |].
  - intros ctx fh sid off count st Hst Hcan Hoff Hcount.
    destruct (Read_answered Hcar ctx fh sid off count st Hst Hcan Hoff Hcount) as (res & st' & E & Hst' & Hc & Hres).
    exists res, st'. split_and!; try done. destruct res as [|[data eof]]; [done|apply Hres].
  - intros ctx fh sid off data stable st Hst Hcan Hoff Hstable.
    pose proof (operation_answered "nfs4: WRITE: %w" [] ctx
      [APutfh (mkPutfhArgs fh); AWrite (mkWriteArgs sid off stable data)] (RStatus zeroStatusRes) (RWrite zeroWriteRes)
      (fun results => let wRes := as_Write (results !! 1%nat) in
         with_ok (wrr_Status wRes) (wrr_Count wRes, wrr_Committed wRes)) st Hst
      (carries_write Hcar _ _ _ _ _ Hcan Hoff Hstable)) as Hop.
    pose proof (nfs_write (abs st) fh (mkWriteArgs sid off stable data) Hoff) as Hn.
    destruct (serve (abs st) minor _) as [[status ps] s']. destruct Hn as (k & Hk & Hc & Ho & Hr & Hok).
    destruct (Hop Hr) as (st' & E & Hst' & Ha & _). cbn [fst snd] in *. eexists _, st', k. split; [exact E|].
    split; [done|]. split; [done|]. split.
    { unfold updates, conn_content. by rewrite Ha. }
    destruct Hok as [Hne|[-> (c & v & Hps)]]; [by destruct (Z.eqb_spec status NFS4_OK)|].
    destruct ps as [|[o1 p1] [|[o2 p2] [|]]]; try discriminate. injection Hps as -> ->. done.
  - intros ctx fh sid st Hst Hcan.
    pose proof (operation_answered "nfs4: GETATTR: %w" [] ctx
      [APutfh (mkPutfhArgs fh); AGetattr (mkGetattrArgs StandardMask)] (RStatus zeroStatusRes) (RGetattr zeroGetattrRes)
      (fun results => let getRes := as_Getattr (results !! 1%nat) in
         with_ok (gar_Status getRes) (gar_AttrMask getRes, gar_AttrVals getRes)) st Hst
      (carries_size Hcar _ _ Hcan)) as Hop.
    pose proof (nfs_size (abs st) fh) as Hn.
    destruct (serve (abs st) minor _) as [[status ps] s']. destruct Hn as (Hc & Hr & Hok).
    destruct (Hop Hr) as (st' & E & Hst' & Ha & _). cbn [fst snd] in *. eexists _, st'. split; [exact E|].
    split; [done|]. split; [unfold conn_content; by rewrite Ha|].
    destruct Hok as [Hne|[-> (mask & vals & Hps & Hok)]]; [by destruct (Z.eqb_spec status NFS4_OK)|].
    destruct ps as [|[o1 p1] [|[o2 p2] [|]]]; try discriminate. injection Hps as -> ->. exact Hok.
Qed.

Lemma carried_ends : NfsEnds serve minor -> carries_files -> FileEnds connected can.
Proof.
  intros Hends Hcar ctx fh sid off count st eof st' Hst Hcan Hoff Hcount Hpos Hread.
  destruct (Read_answered Hcar ctx fh sid off count st Hst Hcan Hoff Hcount) as (res & st1 & E & _ & _ & Hres).
  pose proof (eq_trans (eq_sym Hread) E) as E1. injection E1 as <- <-. destruct Hres as [_ Hres].
  by apply (nfs_ends (abs st) fh (mkReadArgs AnonStateid off count) eof Hoff Hcount Hpos).
Qed.
End conn_store.

(** Over a transport, every request can be made. *)
Definition any_request (fh : bytes) (sid : Stateid) (n : Z) : Prop := True.

#[global] Instance conn_store {W S : Type} `{World W} (serve : Server S) (P : St W -> Prop) (abs : St W -> S) (minor : Z)
    (content : S -> bytes -> bytes) :
  Transport serve P abs -> NfsFiles serve minor content ->
  FileStore (connected P minor) (conn_content abs content) any_request.
Proof. intros Ht Hn. apply (carried_store serve P abs minor content any_compound); [apply _|done|constructor; intros; exact I]. Qed.

#[global] Instance conn_ends {W S : Type} `{World W} (serve : Server S) (P : St W -> Prop) (abs : St W -> S) (minor : Z)
    (content : S -> bytes -> bytes) :
  Transport serve P abs -> NfsFiles serve minor content -> NfsEnds serve minor -> FileEnds (connected P minor) any_request.
Proof.
  intros Ht Hn He. apply (carried_ends serve P abs minor content any_compound any_request); [done|constructor; intros; exact I].
Qed.

(** ** Trees *)

Class NfsTree {S : Type} (serve : Server S) (minor : Z) (t : Tree) : Prop := {
  nfs_names : resolves serve minor (fun _ => t_names t);
  nfs_attrs s fh : exists mask vals,
    serve s minor [APutfh (mkPutfhArgs fh); AGetattr (mkGetattrArgs StandardMask)]
    = ((NFS4_OK, [(OpPutfh, PVoid); (OpGetattr, PGetattr mask vals)]), s)
    /\ attr_Decode mask vals = inr (t_attrs t fh);
  nfs_cookies fh : cookies_ok (t_dir t fh);
  nfs_readdir s fh a : rdd_Cookie a = 0 \/ rdd_Cookieverf a = t_verf t fh -> exists page eof,
    serve s minor [APutfh (mkPutfhArgs fh); AReaddir a]
    = ((NFS4_OK, [(OpPutfh, PVoid); (OpReaddir, PReaddir (t_verf t fh) page eof)]), s)
    /\ page_ok (from_cookie (rdd_Cookie a) (t_dir t fh)) page eof
}.

Section conn_tree.
Context {W S : Type} `{World W} (serve : Server S) (P : St W -> Prop) (abs : St W -> S) (minor : Z) (t : Tree).
Context (ok : Compound -> list Res -> Prop) (reach sayable : bytes -> Prop).
Context `{!Carrier serve P abs ok} `{!NfsTree serve minor t}.

(** Connected, with the root of the tree for its root handle. *)
Definition rooted (st : St W) : Prop := connected P minor st /\ RootFH (st_conn st) = Some (t_root t).

(** The requests on trees are among those that are carried. *)
Record carries_trees : Prop := {
  carries_reach : reach (t_root t) /\ forall fh name fh', reach fh -> t_names t fh name = inr fh' -> reach fh';
  carries_lookup fh name : reach fh -> sayable name ->
    ok (mkCompound [] minor [APutfh (mkPutfhArgs fh); ALookup (mkLookupArgs name); AGetfh])
       [RStatus zeroStatusRes; RStatus zeroStatusRes; RGetfh zeroGetfhRes];
  carries_getattr fh : reach fh ->
    ok (mkCompound [] minor [APutfh (mkPutfhArgs fh); AGetattr (mkGetattrArgs StandardMask)])
       [RStatus zeroStatusRes; RGetattr zeroGetattrRes];
  carries_readdir fh cookie verf : reach fh -> is_u64 cookie -> verf = zero_array 8 \/ verf = t_verf t fh ->
    ok (mkCompound [] minor [APutfh (mkPutfhArgs fh); AReaddir (mkReaddirArgs cookie verf 8192 65536 StandardMask)])
       [RStatus zeroStatusRes; RReaddir zeroReaddirRes]
}.

Lemma carried_tree : carries_trees -> TreeStore rooted t reach sayable.
Proof.
  intros Hcar. split.
  - apply Hcar.
  - by intros st [_ Hr].
  - intros ctx fh name st [[HP Hm] Hr] Hfh Hsay.
    destruct (Lookup_carried serve P abs ok (fun _ => t_names t) ctx fh name st) as (st' & E & HP' & _ & Hc);
      [rewrite Hm; apply nfs_names|done|rewrite Hm; by apply Hcar|].
    exists st'. split; [exact E|]. split; [split; [done|by rewrite Hc]|by rewrite Hc].
  - intros ctx fh st [Hst Hr] Hfh.
    pose proof (operation_answered serve P abs minor ok "nfs4: GETATTR: %w" [] ctx
      [APutfh (mkPutfhArgs fh); AGetattr (mkGetattrArgs StandardMask)] (RStatus zeroStatusRes) (RGetattr zeroGetattrRes)
      (fun results => let getRes := as_Getattr (results !! 1%nat) in
         with_ok (gar_Status getRes) (gar_AttrMask getRes, gar_AttrVals getRes)) st Hst (carries_getattr Hcar fh Hfh)) as Hop.
    destruct (nfs_attrs (abs st) fh) as (mask & vals & Es & Ha). rewrite Es in Hop.
    destruct (Hop eq_refl) as (st' & E & Hst' & _ & Hc). exists mask, vals, st'.
    split; [exact E|]. split; [|done]. split; [done|by rewrite Hc].
  - apply nfs_cookies.
  - intros ctx fh cookie verf st [Hst Hr] Hfh Hcookie Hv.
    assert (verf = zero_array 8 \/ verf = t_verf t fh) as Hv1 by (destruct Hv as [[_ ?]|?]; auto).
    pose proof (operation_answered serve P abs minor ok "nfs4: READDIR: %w" [] ctx
      [APutfh (mkPutfhArgs fh); AReaddir (mkReaddirArgs cookie verf 8192 65536 StandardMask)]
      (RStatus zeroStatusRes) (RReaddir zeroReaddirRes)
      (fun results => let ddRes := as_Readdir (results !! 1%nat) in with_ok (rddr_Status ddRes) ddRes) st Hst
      (carries_readdir Hcar fh cookie verf Hfh Hcookie Hv1)) as Hop.
    destruct (nfs_readdir (abs st) fh (mkReaddirArgs cookie verf 8192 65536 StandardMask)) as (page & eof & Es & Hpage).
    { destruct Hv as [[? _]| ?]; auto. }
    rewrite Es in Hop. destruct (Hop eq_refl) as (st' & E & Hst' & _ & Hc). exists page, eof, st'.
    split; [exact E|]. split; [|done]. split; [done|by rewrite Hc].
Qed.
End conn_tree.

(** Over a transport, everything can be asked. *)
Definition anything (b : bytes) : Prop := True.

#[global] Instance conn_tree {W S : Type} `{World W} (serve : Server S) (P : St W -> Prop) (abs : St W -> S) (minor : Z)
    (t : Tree) :
  Transport serve P abs -> NfsTree serve minor t -> TreeStore (rooted P minor t) t anything anything.
Proof. intros Ht Hn. apply (carried_tree serve P abs minor t any_compound); [apply _|done|constructor; intros; try split; by intros]. Qed.
