(* ===== verification/WireStore.v ===== *)
(** * A connection on bytes keeps the contracts of files and trees

    [WireServer] is a server whose answers have a wire form: the numbers, kinds
    and sizes of its resops are what the protocol allows for the operations it
    was sent.  In the world of bytes over such a server both stacks of callers,
    v4.0 and a v4.1 session, carry the compounds of bounded size; so a connection
    is a [FileStore] and a [TreeStore] for them, and what is proved of open files
    and of directories holds when every READ, WRITE, LOOKUP and READDIR is a
    record on a byte stream. *)

From S2P Require Import Prelude GoError Nfs4Const GoIO Xdr XdrSpec Rpc RpcCorrect RpcClient RpcClientCorrect.
From S2P Require Import Attr AttrCorrect Nfs4Types Nfs4Args Nfs4Res Compound Nfs4Spec Nfs4ResSpec CompoundCorrect.
From S2P Require Import Session Caller CallerCorrect Conn ConnSpec ConnCorrect Wire WireCorrect GoPath Fs File FileSpec.
From S2P Require Import FsSpec Client ClientSpec.

(** ** Sizes *)

Lemma blen_wire_u32 v : blen (wire_u32 v) = 4.
Proof. apply blen_be. Qed.
Lemma blen_wire_u64 v : blen (wire_u64 v) = 8.
Proof. apply blen_be. Qed.
Lemma blen_wire_bool b : blen (wire_bool b) = 4.
Proof. apply blen_be. Qed.

Lemma blen_wire_fixed p : blen p <= blen (wire_fixed p) <= blen p + 3.
Proof.
  pose proof (pad4_range (blen p) (blen_nonneg p)). unfold wire_fixed, zeros. rewrite blen_app.
  assert (forall n, blen (replicate n x00) = Z.of_nat n) as -> by (intros; unfold blen; by rewrite length_replicate). lia.
Qed.

Lemma blen_wire_opaque p : blen p + 4 <= blen (wire_opaque p) <= blen p + 7.
Proof. unfold wire_opaque. rewrite blen_app, blen_wire_u32. pose proof (blen_wire_fixed p). lia. Qed.

Lemma blen_wire_stateid sid : stateid_ok sid -> blen (wire_stateid sid) <= 19.
Proof.
  intros [_ Hs]. unfold wire_stateid. rewrite blen_app, blen_wire_u32. pose proof (blen_wire_fixed (st_Other sid)).
  unfold sized in Hs. lia.
Qed.

(** Bounds the size of a wire form by those of its fields. *)
Ltac wire_size :=
  repeat rewrite blen_app; rewrite ?blen_wire_u32, ?blen_wire_u64, ?blen_wire_bool;
  repeat match goal with
         | |- context [blen (wire_opaque ?p)] => lazymatch goal with
             | _ : _ <= blen (wire_opaque p) <= _ |- _ => fail
             | |- _ => pose proof (blen_wire_opaque p) end
         | |- context [blen (wire_fixed ?p)] => lazymatch goal with
             | _ : _ <= blen (wire_fixed p) <= _ |- _ => fail
             | |- _ => pose proof (blen_wire_fixed p) end
         end.

Lemma blen_wire_auth (a : OpaqueAuth) : blen (wire a) <= blen (oa_Body a) + 11.
Proof. change (wire a) with (wire_u32 (oa_Flavor a) ++ wire_opaque (oa_Body a)). wire_size. lia. Qed.

(** Credentials as the client of the program makes them: AUTH_NULL or AUTH_SYS. *)
Definition small_credentials (cl : Client) : Prop :=
  blen (oa_Body (opt_Cred (cl_opts cl))) <= 400 /\ blen (oa_Body (opt_Verf (cl_opts cl))) <= 400.

Lemma blen_request cl prog vers proc w : small_credentials cl -> blen (request cl prog vers proc w) <= blen w + 846.
Proof.
  intros [H1 H2]. unfold request. rewrite blen_app. unfold wire_call_header. cbn [ch_XID ch_Prog ch_Vers ch_Proc ch_Cred ch_Verf].
  pose proof (blen_wire_auth (opt_Cred (cl_opts cl))). pose proof (blen_wire_auth (opt_Verf (cl_opts cl))). wire_size. lia.
Qed.

(** ** What is carried *)

(** The empty result for an operation. *)
Definition res_for (a : Arg) : Res :=
  match a with
  | APutrootfh | APutfh _ | ALookup _ | ASetclientidConfirm _ | ARenew _ | ASavefh | ARestorefh => RStatus zeroStatusRes
  | AGetfh => RGetfh zeroGetfhRes
  | AGetattr _ => RGetattr zeroGetattrRes
  | ASetclientid _ => RSetclientid zeroSetclientidRes
  | ARead _ => RRead zeroReadRes
  | AReaddir _ => RReaddir zeroReaddirRes
  | AReadlink => RReadlink zeroReadlinkRes
  | AOpen _ => ROpen zeroOpenRes
  | AOpenConfirm _ => ROpenConfirm zeroOpenConfirmRes
  | AWrite _ => RWrite zeroWriteRes
  | ACommit _ => RCommit zeroCommitRes
  | AClose _ => RClose zeroCloseRes
  | ACreate _ => RCreate zeroCreateRes
  | ARemove _ => RRemove (mkRemoveRes 0)
  | ARename _ => RRename (mkRenameRes 0)
  | ALink _ => RLink (mkLinkRes 0)
  | ASetattr _ => RSetattr zeroSetattrRes
  | AExchangeID _ => RExchangeID zeroExchangeIDRes
  | ACreateSession _ => RCreateSession zeroCreateSessionRes
  | ADestroySession _ => RDestroySession (mkDestroySessionRes 0)
  | ADestroyClientID _ => RDestroyClientID (mkDestroyClientIDRes 0)
  | AReclaimComplete _ => RReclaimComplete (mkReclaimCompleteRes 0)
  | ASequence _ => RSequence zeroSequenceRes
  end.

(** An answer that the protocol allows to these operations, of a size that a
    record carries. *)
Record answer_ok (ops : list Arg) (r : Z * list Resop) : Prop := {
  ans_status : is_u32 r.1;
  ans_resops : exists rs1 rs2, map res_for ops = rs1 ++ rs2 /\ Forall2 resop_ok rs1 r.2;
  ans_size : blen (wire_compound_res r.1 [] r.2) <= maxFragmentSize - 1024
}.

Class WireServer {S : Type} (serve : Server S) : Prop := {
  ws_sees : sees_the_wire serve;
  ws_answers s minor ops : Forall arg_ok ops -> answer_ok ops (serve s minor ops).1
}.

(** A compound of bounded size with the results its operations have. *)
Record carryable (comp : Compound) (results : list Res) : Prop := {
  cy_ok : compound_ok comp;
  cy_tag : cp_Tag comp = [];
  cy_results : results = map res_for (cp_ops comp);
  cy_size : blen (wire_compound comp) <= maxFragmentSize - 2048
}.

(** Every operation takes room. *)
Lemma wire_args_count ops : blen ops * 4 <= blen (concat (map wire_arg ops)).
Proof.
  induction ops as [|a ops IH]; [done|]. cbn [map concat]. rewrite blen_cons, blen_app.
  assert (4 <= blen (wire_arg a)); [|lia]. unfold wire_arg. rewrite blen_app, blen_wire_u32.
  match goal with |- 4 <= 4 + ?n => assert (0 <= n) by apply blen_nonneg; lia end.
Qed.

Lemma carryable_count comp results : carryable comp results -> blen (cp_ops comp) <= maxFragmentSize.
Proof.
  intros [_ _ _ Hs]. unfold wire_compound in Hs. rewrite !blen_app in Hs. pose proof (wire_args_count (cp_ops comp)).
  pose proof (blen_nonneg (wire_opaque (cp_Tag comp))). rewrite !blen_wire_u32 in Hs. pose proof (blen_nonneg (cp_ops comp)).
  sizes. lia.
Qed.

(** Answers that a server gives: a refusal without resops, a failure, two resops. *)

Lemma refused_ok ops st : is_u32 st -> st <> NFS4_OK -> answer_ok ops (st, []).
Proof.
  intros Hst Hne. split; [done|exists [], (map res_for ops); split; [done|constructor]|].
  unfold wire_compound_res. cbn [fst snd]. wire_size. change (blen (@nil byte)) with 0 in *. change (blen (wire_resops [])) with 0.
  sizes. lia.
Qed.

(** Two resops, each right for its operation. *)
Lemma two_resops_ok a1 a2 st p1 p2 : is_u32 st -> resop_ok (res_for a1) p1 -> resop_ok (res_for a2) p2 ->
  blen (wire_resop p1.2) + blen (wire_resop p2.2) <= maxFragmentSize - 2048 -> answer_ok [a1; a2] (st, [p1; p2]).
Proof.
  intros Hst H1 H2 Hlen. split; [done|exists [res_for a1; res_for a2], []; split; [done|]|].
  { constructor; [done|]. by constructor. }
  unfold wire_compound_res, wire_resops. cbn [fst snd map concat]. wire_size. change (blen (@nil byte)) with 0 in *. sizes. lia.
Qed.

(** The resops are right for the first operations. *)
Lemma some_resops_ok ops st ps : is_u32 st -> Forall2 resop_ok (take (length ps) (map res_for ops)) ps ->
  blen (wire_compound_res st [] ps) <= maxFragmentSize - 1024 -> answer_ok ops (st, ps).
Proof. intros Hst Hps Hs. split; [done| |done]. exists (take (length ps) (map res_for ops)), (drop (length ps) (map res_for ops)). by rewrite take_drop. Qed.

Lemma putfh_ok fh : resop_ok (res_for (APutfh fh)) (OpPutfh, PVoid).
Proof. split; cbn; try done. by left. Qed.

(** The compound by itself. *)
Lemma carryable_carried cl comp results r : small_credentials cl -> carryable comp results -> answer_ok (cp_ops comp) r ->
  carried cl comp results r.
Proof.
  intros Hcl Hcy [Hst (rs1 & rs2 & Hrs & Hf) Hsize]. pose proof (carryable_count _ _ Hcy) as Hn. destruct Hcy as [Hok Htag Hres Hlen].
  split.
  - done.
  - unfold frag_ok. pose proof (blen_request cl Program Version4 ProcCompound (wire_compound comp) Hcl). sizes. lia.
  - done.
  - exists rs1, rs2. by rewrite Hres.
  - apply Forall2_length in Hf. apply (f_equal length) in Hrs. rewrite length_map, length_app in Hrs. unfold blen in *. sizes. lia.
  - rewrite Htag. sizes. lia.
Qed.

(** ** The two stacks of callers *)

(** The session has a session id, and its numbers are words. *)
Definition session_ok (sess : Session) : Prop := sized 16 (s_id sess) /\ is_u32 (s_highest sess) /\ is_u32 (due sess).

Lemma session_ok_after sess : idle sess -> session_ok sess -> session_ok (session_after true sess).
Proof. intros Hi (Hid & Hh & Hd). split; [done|]. split; [done|]. rewrite due_after by done. apply u32_range. Qed.

(** Behind SEQUENCE. *)
Lemma carryable_sequenced cl sess comp results r : small_credentials cl -> session_ok sess -> carryable comp results ->
  answer_ok (cp_ops comp) r ->
  carried cl (with_sequence sess comp) (RSequence zeroSequenceRes :: results) (sequenced sess r).
Proof.
  intros Hcl (Hid & Hh & Hd) Hcy [Hst (rs1 & rs2 & Hrs & Hf) Hsize].
  pose proof (carryable_count _ _ Hcy) as Hn. destruct Hcy as [(Htag' & Hminor & _ & Hargs) Htag Hres Hlen].
  assert (blen (wire_compound (with_sequence sess comp)) <= blen (wire_compound comp) + 64) as Hw.
  { unfold wire_compound, with_sequence. cbn [cp_Tag cp_MinorVersion cp_ops map concat]. rewrite blen_cons.
    unfold sequence_for at 1. unfold wire_arg at 1. cbn [sq_SessionID sq_SequenceID sq_SlotID sq_HighestSlotID sq_CacheThis].
    unfold sized in Hid. wire_size. lia. }
  pose proof (Forall2_length _ _ _ Hf) as Hl. apply (f_equal length) in Hrs as Hlen'.
  rewrite length_map, length_app in Hlen'. unfold sequenced. split; cbn [fst snd].
  - split; [done|]. split; [done|]. cbn [with_sequence cp_ops]. split; [rewrite blen_cons; sizes; lia|].
    constructor; [|done]. unfold sequence_for. cbn [arg_ok sq_SessionID sq_SequenceID sq_SlotID sq_HighestSlotID]. done.
  - unfold frag_ok. pose proof (blen_request cl Program Version4 ProcCompound (wire_compound (with_sequence sess comp)) Hcl).
    sizes. lia.
  - done.
  - exists (RSequence zeroSequenceRes :: rs1), rs2. rewrite Hres, Hrs. split; [done|]. constructor; [|done].
    split; cbn; try done. by right.
  - rewrite blen_cons. unfold blen in *. sizes. lia.
  - unfold with_sequence. cbn [cp_Tag]. rewrite Htag. unfold wire_compound_res, wire_resops in *.
    cbn [map concat fst snd] in *. rewrite blen_cons. unfold wire_resop at 1. unfold sized in Hid. revert Hsize. wire_size. sizes. lia.
Qed.

Definition wire_ready (cl : Client) : Prop := usable cl /\ small_credentials cl.

Lemma wire_ready_after cl cl' : usable cl' -> cl_opts cl' = cl_opts cl -> small_credentials cl -> wire_ready cl'.
Proof. intros Hu Ho Hs. split; [done|]. unfold small_credentials. by rewrite Ho. Qed.

Section stacks.
Context {S : Type} (serve : Server S) `{!WireServer serve}.

Definition server_state (st : St (S * Client)) : S := (st_world st).1.

(** The caller of the connection retries over the RPC client. *)
Definition P40w (st : St (S * Client)) : Prop :=
  exists cfg, c_caller (st_conn st) = retryCaller baseCaller cfg /\ 1 <= rc_MaxAttempts cfg /\ wire_ready (st_world st).2.

(** It retries over an idle session over the RPC client. *)
Definition P41w (st : St (S * Client)) : Prop :=
  exists n cfg sess, c_caller (st_conn st) = retryCaller (sessionCaller baseCaller n) cfg
    /\ 1 <= rc_MaxAttempts cfg /\ st_sessions st !! n = Some sess /\ idle sess /\ session_ok sess
    /\ wire_ready (st_world st).2.

#[global] Instance carrier40 : @Carrier (S * Client) S (wired serve) serve P40w server_state carryable.
Proof.
  intros ctx comp results [[s cl] ss cn] r s' (cfg & Hc & Hm & Hu & Hcr) Hok Hs Hr.
  unfold server_state in *. cbn [st_conn st_world st_sessions fst snd] in *.
  assert (answer_ok (cp_ops comp) r) as Ha.
  { change r with (r, s').1. rewrite <- Hs. apply ws_answers. apply Hok. }
  destruct (exchange_run serve s cl comp results r s' ws_sees Hu (carryable_carried cl comp results r Hcr Hok Ha) Hs)
    as (cl' & E & Hu' & Ho & _). exists (mkSt (s', cl') ss cn). rewrite Hc. cbn [CallCompound].
  split; [|split; [exists cfg; split; [done|]; split; [done|by eapply wire_ready_after]|done]].
  apply retry_forwards; [done|done| |by rewrite retriable_answer].
  unfold world. cbn [base_CallCompound wired st_world st_sessions st_conn]. by rewrite E, (cy_tag _ _ Hok).
Qed.

#[global] Instance carrier41 : @Carrier (S * Client) S (wired (with_session serve)) serve P41w server_state carryable.
Proof.
  intros ctx comp results [[s cl] ss cn] r s' (n & cfg & sess & Hc & Hm & Hn & Hi & Hse & Hu & Hcr) Hok Hs Hr.
  unfold server_state in *. cbn [st_conn st_world st_sessions fst snd] in *.
  assert (answer_ok (cp_ops comp) r) as Ha.
  { change r with (r, s').1. rewrite <- Hs. apply ws_answers. apply Hok. }
  pose proof (carryable_sequenced cl sess comp results r Hcr Hse Hok Ha) as Hcar.
  destruct (wire_stack_run serve n sess cfg ctx comp results (mkSt (s, cl) ss cn) s s' cl r ws_sees eq_refl Hu Hn Hi Hm
    (cy_tag _ _ Hok) Hs Hr Hcar) as (cl' & E & Hu' & Ho & _).
  eexists. rewrite Hc. split; [exact E|]. split; [|done].
  exists n, cfg, (session_after true sess). cbn [st_conn st_world st_sessions snd]. split; [done|]. split; [done|].
  split; [by apply list_lookup_insert_eq, (lookup_lt_Some _ _ _ Hn)|]. split; [by apply idle_after|].
  split; [by apply session_ok_after|by eapply wire_ready_after].
Qed.
End stacks.

(** ** Files *)

Lemma blen_wire_mask : blen (wire_bitmap StandardMask) <= 64.
Proof. vm_compute. discriminate. Qed.

Lemma StandardMask_ok : bitmap_ok StandardMask.
Proof. split; [by vm_compute|]. let m := eval vm_compute in StandardMask in change StandardMask with m. by repeat constructor. Qed.

(** The requests on files that are of bounded size. *)
Definition small_request (fh : bytes) (sid : Stateid) (n : Z) : Prop :=
  blen fh <= 128 /\ stateid_ok sid /\ 0 <= n <= 67108864.

Lemma files_carried minor : is_u32 minor -> carries_files minor carryable small_request.
Proof.
  intros Hminor. assert (fits []) as Hnil by (by vm_compute).
  assert (forall fh, blen fh <= 128 -> fits fh) as Hfh by (unfold fits; lia).
  split.
  - intros fh sid n m (? & ? & ?) ?. split_and!; try done; lia.
  - intros fh sid off count (Hf & _ & _) Hoff Hcount. split; [|done|done|].
    + split; [done|]. split; [done|]. split; [done|]. constructor; [by apply Hfh|]. constructor; [|constructor].
      cbn [arg_ok rd_Stateid rd_Offset rd_Count]. split; [decide_wf|done].
    + unfold wire_compound, wire_arg. cbn [cp_Tag cp_MinorVersion cp_ops map concat pf_FH rd_Stateid rd_Offset rd_Count].
      pose proof (blen_wire_stateid AnonStateid ltac:(decide_wf)). wire_size. change (blen (@nil byte)) with 0 in *. sizes. lia.
  - intros fh sid off data stable (Hf & Hsid & Hn) Hoff Hst. split; [|done|done|].
    + split; [done|]. split; [done|]. split; [done|]. constructor; [by apply Hfh|]. constructor; [|constructor].
      cbn [arg_ok wr_Stateid wr_Offset wr_Stable wr_Data]. split; [done|]. split; [done|]. split; [done|]. unfold fits. lia.
    + unfold wire_compound, wire_arg.
      cbn [cp_Tag cp_MinorVersion cp_ops map concat pf_FH wr_Stateid wr_Offset wr_Stable wr_Data].
      pose proof (blen_wire_stateid sid Hsid). wire_size. change (blen (@nil byte)) with 0 in *. sizes. lia.
  - intros fh sid (Hf & _ & _). split; [|done|done|].
    + split; [done|]. split; [done|]. split; [done|]. constructor; [by apply Hfh|]. constructor; [|constructor].
      exact StandardMask_ok.
    + unfold wire_compound, wire_arg. cbn [cp_Tag cp_MinorVersion cp_ops map concat pf_FH ga_AttrRequest].
      pose proof blen_wire_mask.
      wire_size. change (blen (@nil byte)) with 0 in *. sizes. lia.
Qed.

(** C2.  A connection on bytes keeps the file contract.  Over a byte stream to
    a server that keeps the promises of NFS files, whose answers are those the
    protocol allows, a connection is a file store for requests of bounded size
    (handles of at most 128 bytes, at most 64 MiB of data in one WRITE): over
    v4.0, retrying over the RPC client, and over a v4.1 session.  Each READ,
    WRITE and GETATTR is a record from which the server reads the operation, and
    what comes back is decoded from the bytes of its reply. *)
Theorem wire_files {S : Type} (serve : Server S) `{!WireServer serve} (minor : Z) (content : S -> bytes -> bytes)
    `{!NfsFiles serve minor content} (Hminor : is_u32 minor) :
  @FileStore _ (@conn_rwprotocol _ (wired serve)) (connected P40w minor) (conn_content server_state content) small_request
  /\ @FileStore _ (@conn_rwprotocol _ (wired (with_session serve))) (connected P41w minor)
       (conn_content server_state content) small_request.
Proof.
  split.
  - apply (@carried_store _ _ (wired serve) serve P40w server_state minor content carryable); [apply _..|by apply files_carried].
  - apply (@carried_store _ _ (wired (with_session serve)) serve P41w server_state minor content carryable);
      [apply _..|by apply files_carried].
Qed.

(** ** Trees *)

Definition small_handle (fh : bytes) : Prop := blen fh <= 128.
Definition small_name (name : bytes) : Prop := blen name <= 4096.

(** The handles of a tree and its verifiers have the sizes of the protocol. *)
Record small_tree (t : Tree) : Prop := {
  small_root : small_handle (t_root t);
  small_names fh name fh' : t_names t fh name = inr fh' -> small_handle fh';
  small_verf fh : sized 8 (t_verf t fh)
}.

Lemma trees_carried t minor : is_u32 minor -> small_tree t -> carries_trees minor t carryable small_handle small_name.
Proof.
  intros Hminor [Hroot Hnames Hverf]. assert (fits []) as Hnil by (by vm_compute). pose proof blen_wire_mask.
  pose proof StandardMask_ok as Hmask.
  assert (forall fh, small_handle fh -> fits fh) as Hfh by (unfold fits, small_handle; lia).
  split.
  - split; [done|]. intros. by eapply Hnames.
  - intros fh name Hf Hn. unfold small_handle, small_name in *. split; [|done|done|].
    + split; [done|]. split; [done|]. split; [done|]. repeat constructor; [by apply Hfh|]. cbn. unfold fits. lia.
    + unfold wire_compound, wire_arg. cbn [cp_Tag cp_MinorVersion cp_ops map concat pf_FH lk_Name].
      wire_size. rewrite ?blen_nil in *. sizes. lia.
  - intros fh Hf. unfold small_handle in *. split; [|done|done|].
    + split; [done|]. split; [done|]. split; [done|]. by repeat constructor; [apply Hfh|..].
    + unfold wire_compound, wire_arg. cbn [cp_Tag cp_MinorVersion cp_ops map concat pf_FH ga_AttrRequest].
      wire_size. rewrite ?blen_nil in *. sizes. lia.
  - intros fh cookie verf Hf Hcookie Hv. assert (sized 8 verf) as Hs by (by destruct Hv as [->| ->]).
    unfold small_handle in *. split; [|done|done|].
    + split; [done|]. split; [done|]. split; [done|]. constructor; [by apply Hfh|]. constructor; [|done].
      cbn [arg_ok rdd_Cookie rdd_Cookieverf rdd_Dircount rdd_Maxcount rdd_AttrRequest]. by split_and!.
    + unfold wire_compound, wire_arg.
      cbn [cp_Tag cp_MinorVersion cp_ops map concat pf_FH rdd_Cookie rdd_Cookieverf rdd_Dircount rdd_Maxcount rdd_AttrRequest].
      unfold sized in Hs. wire_size. rewrite ?blen_nil in *. sizes. lia.
Qed.

(** C3.  A connection on bytes serves a tree.  Over a byte stream to a server
    of a tree whose handles and verifiers have the sizes of the protocol, whose
    answers are those the protocol allows, a connection keeps the contract of
    the read-only file system, for handles of at most 128 bytes and names of at
    most 4096: over v4.0, retrying over the RPC client, and over a v4.1 session.
    Names, attributes and pages of listings are decoded from the bytes of the
    replies. *)
Theorem wire_trees {S : Type} (serve : Server S) `{!WireServer serve} (minor : Z) (t : Tree) `{!NfsTree serve minor t}
    (Hminor : is_u32 minor) (Htree : small_tree t) :
  @TreeStore _ (@conn_protocol _ (wired serve)) (rooted P40w minor t) t small_handle small_name
  /\ @TreeStore _ (@conn_protocol _ (wired (with_session serve))) (rooted P41w minor t) t small_handle small_name.
Proof.
  split.
  - apply (@carried_tree _ _ (wired serve) serve P40w server_state minor t carryable); [apply _..|by apply trees_carried].
  - apply (@carried_tree _ _ (wired (with_session serve)) serve P41w server_state minor t carryable);
      [apply _..|by apply trees_carried].
Qed.
