(* ===== verification/DemoServer.v ===== *)
(** * Servers for the witnesses

    A file server with one file, which reads at most two bytes and writes at most
    three bytes at a time, and a server with a small tree that it lists one entry
    a page.  Both keep their contracts. *)

From S2P Require Import Prelude GoError Nfs4Const GoIO Xdr XdrSpec Rpc RpcClient.
From S2P Require Import Attr AttrCorrect Nfs4Types Nfs4Args Nfs4Res Compound Nfs4Spec Nfs4ResSpec CompoundCorrect.
From S2P Require Import Session Caller CallerCorrect Conn ConnSpec ConnCorrect MountCorrect GoPath Fs File FileSpec.
From S2P Require Import FsSpec Client ClientSpec.

(** ** One file *)

Definition the_file : bytes := [x03].
Definition file_content (s fh : bytes) : bytes := if bool_decide (fh = the_file) then s else [].
Definition sized_attrs (n : Z) : Attributes := set_a_Size n (newAttributes []).

Definition serve_read (s fh : bytes) (a : ReadArgs) : Z * list Resop :=
  let data := slice (rd_Offset a) (Z.min (rd_Count a) 2) (file_content s fh) in
  (NFS4_OK, [(OpPutfh, PVoid); (OpRead, PRead (blen (file_content s fh) <=? rd_Offset a + blen data) data)]).

Definition serve_write (s fh : bytes) (a : WriteArgs) : (Z * list Resop) * bytes :=
  if bool_decide (fh = the_file) && (wr_Offset a + blen (wr_Data a) <? 2 ^ 40) then
    let data := btake 3 (wr_Data a) in
    ((NFS4_OK, [(OpPutfh, PVoid); (OpWrite, PWrite (blen data) FileSync4 demo_verf)]), overlay s (wr_Offset a) data)
  else ((NFS4ERR_NOSPC, [(OpPutfh, PVoid); (OpWrite, PFail NFS4ERR_NOSPC)]), s).

Definition serve_size (s fh : bytes) : Z * list Resop :=
  if blen (file_content s fh) <? 2 ^ 64
  then (NFS4_OK, [(OpPutfh, PVoid);
                  (OpGetattr, PGetattr [16] (fattr_vals [16] (sized_attrs (blen (file_content s fh)))))])
  else (NFS4ERR_SERVERFAULT, [(OpPutfh, PVoid); (OpGetattr, PFail NFS4ERR_SERVERFAULT)]).

Definition file_serve : Server bytes := fun s minor ops =>
  match ops with
  | [APutfh fh; ARead a] => (serve_read s (pf_FH fh) a, s)
  | [APutfh fh; AWrite a] => serve_write s (pf_FH fh) a
  | [APutfh fh; AGetattr _] => (serve_size s (pf_FH fh), s)
  | [APutrootfh; AGetfh] => ((NFS4_OK, [(OpPutrootfh, PVoid); (OpGetfh, PGetfh [x01])]), s)
  | [APutfh _; AOpen _; AGetfh] => (opened demo_stateid (mkChangeInfo true 1 2) 0 [] DelegNone the_file, s)
  | [APutfh _; AClose _] => ((NFS4_OK, [(OpPutfh, PVoid); (OpClose, PStateid demo_confirmed)]), s)
  | _ => ((NFS4ERR_NOTSUPP, []), s)
  end.

Lemma sized_attrs_decode n : is_u64 n -> attr_Decode [16] (fattr_vals [16] (sized_attrs n)) = inr (project [16] (sized_attrs n)).
Proof.
  intros Hn. apply attr_decode_vals.
  - vm_compute. discriminate.
  - intros k Hk H. assert (k ∈ SetAttrs [16]) as Hin by (by apply SetAttrs_elem).
    change (SetAttrs [16]) with [4] in Hin. apply list_elem_of_singleton in Hin as ->. set_solver.
  - split; cbn; try done; try (split; [lia|reflexivity]); split; cbn; lia.
Qed.

#[global] Instance file_server minor : NfsFiles file_serve minor file_content.
Proof.
  split.
  - intros s fh a Hoff Hcount. cbn [file_serve pf_FH]. split; [done|]. split; [done|]. right. split; [done|].
    unfold serve_read. cbn [snd map]. set (c := file_content s fh). set (off := rd_Offset a) in *.
    set (data := slice off (Z.min (rd_Count a) 2) c). exists data, (blen c <=? off + blen data).
    pose proof (blen_nonneg c). assert (0 <= off /\ 0 <= rd_Count a) as [H1 H2] by (destruct Hoff, Hcount; done).
    assert (blen data = Z.min (Z.min (rd_Count a) 2) (Z.max 0 (blen c - off))) as Hl
      by (unfold data, slice; rewrite blen_take, blen_drop by lia; lia).
    split; [done|]. split_and!.
    + unfold data at 1, slice. unfold btake. rewrite Hl.
      destruct (decide (blen c - off <= Z.min (rd_Count a) 2)).
      * rewrite !take_ge; [done|..]; unfold bdrop, blen in *; rewrite length_drop; lia.
      * do 2 f_equal. lia.
    + lia.
    + intros E. rewrite E, blen_nil in Hl. lia.
    + intros E. apply Z.leb_le in E. exact E.
  - intros s fh a Hoff. cbn [file_serve pf_FH]. unfold serve_write.
    destruct (bool_decide_reflect (fh = the_file)) as [->|Hfh]; cbn [andb];
      [destruct (Z.ltb_spec (wr_Offset a + blen (wr_Data a)) (2 ^ 40))|].
    2,3: exists 0; pose proof (blen_nonneg (wr_Data a)); split_and!; try done; split; [done|left; discriminate].
    pose proof (blen_nonneg (wr_Data a)). exists (blen (btake 3 (wr_Data a))).
    assert (btake (blen (btake 3 (wr_Data a))) (wr_Data a) = btake 3 (wr_Data a)) as Ht.
    { unfold btake at 1 3. rewrite blen_take by lia. unfold blen.
      destruct (decide (Z.of_nat (length (wr_Data a)) <= 3)); [rewrite !take_ge by lia; done|f_equal; lia]. }
    split_and!.
    + apply blen_nonneg.
    + rewrite blen_take by lia. lia.
    + by rewrite Ht.
    + intros fh' Hne. unfold file_content. by rewrite !bool_decide_eq_false_2.
    + split; [done|]. right. split; [done|]. eexists _, _. done.
  - intros s fh. cbn [file_serve pf_FH]. split; [done|]. unfold serve_size.
    destruct (Z.ltb_spec (blen (file_content s fh)) (2 ^ 64)) as [Hlt|Hge]; split; try done; [right|left; discriminate].
    split; [done|]. eexists _, _. split; [done|]. intros a E.
    rewrite sized_attrs_decode in E by (split; [apply blen_nonneg|done]). injection E as <-. done.
Qed.

#[global] Instance file_server_ends minor : NfsEnds file_serve minor.
Proof.
  intros s fh a eof Hoff Hcount Hpos. cbn [file_serve pf_FH]. unfold serve_read. cbn [fst snd map].
  set (c := file_content s fh). intros [= <- E]. rewrite E. apply (f_equal blen) in E. unfold slice in E.
  destruct Hoff. pose proof (blen_nonneg c). rewrite blen_take, blen_drop in E by lia. change (blen (@nil byte)) with 0 in *.
  apply Z.leb_le. lia.
Qed.

(** ** A tree *)

Definition dir_attrs : Attributes := set_a_Type FtypeDir (newAttributes []).
Definition reg_attrs : Attributes := set_a_Type FtypeReg (sized_attrs 5).
Definition demo_attrs (fh : bytes) : Attributes := if bool_decide (fh = [x03]) then reg_attrs else dir_attrs.

Definition demo_entry (cookie : Z) (name : bytes) (a : Attributes) : DirEntry :=
  mkDirEntry cookie name StandardMask (fattr_vals StandardMask a).

Definition demo_tree : Tree := {|
  t_root := [x01];
  t_names fh name :=
    if bool_decide (fh = [x01] /\ name = bstr "docs") then inr [x02]
    else if bool_decide (fh = [x02] /\ name = bstr "a") then inr [x03]
    else inl NFS4ERR_NOENT;
  t_attrs fh := project StandardMask (demo_attrs fh);
  t_dir fh :=
    if bool_decide (fh = [x02]) then
      [demo_entry 1 dot dir_attrs; demo_entry 2 dotdot dir_attrs; demo_entry 7 (bstr "a") reg_attrs]
    else [];
  t_verf _ := demo_verf
|}.

Definition tree_serve : Server unit := fun s minor ops =>
  (match ops with
   | [APutfh fh; ALookup name; AGetfh] =>
       match t_names demo_tree (pf_FH fh) (lk_Name name) with
       | inr fh' => (NFS4_OK, [(OpPutfh, PVoid); (OpLookup, PVoid); (OpGetfh, PGetfh fh')])
       | inl st => (st, [(OpPutfh, PVoid); (OpLookup, PFail st)])
       end
   | [APutfh fh; AGetattr _] =>
       (NFS4_OK, [(OpPutfh, PVoid); (OpGetattr, PGetattr StandardMask (fattr_vals StandardMask (demo_attrs (pf_FH fh))))])
   | [APutfh fh; AReaddir a] =>
       let left := from_cookie (rdd_Cookie a) (t_dir demo_tree (pf_FH fh)) in
       (NFS4_OK, [(OpPutfh, PVoid); (OpReaddir, PReaddir demo_verf (take 1 left) (bool_decide (length left <= 1)%nat))])
   | [APutfh _; AOpen _; AGetfh] => opened demo_stateid (mkChangeInfo true 1 2) 0 [] DelegNone [x03]
   | [APutfh _; ASetattr a] => (NFS4_OK, [(OpPutfh, PVoid); (OpSetattr, PSetattr NFS4_OK (take 3 (sa_AttrMask a)))])
   | _ => (NFS4ERR_NOTSUPP, [])
   end, s).

Lemma demo_attrs_decode fh :
  attr_Decode StandardMask (fattr_vals StandardMask (demo_attrs fh)) = inr (project StandardMask (demo_attrs fh)).
Proof.
  apply attr_decode_vals; [vm_compute; discriminate|apply StandardMask_supported|].
  unfold demo_attrs. case_bool_decide; split; cbn; try done; try (split; [lia|reflexivity]); split; cbn; lia.
Qed.

#[global] Instance tree_server minor : NfsTree tree_serve minor demo_tree.
Proof.
  split.
  - intros s fh name. split; [unfold tree_serve; cbn [pf_FH lk_Name]; by destruct (t_names demo_tree fh name)|].
    cbn [t_names demo_tree]. intros st. repeat case_bool_decide; by intros [= <-].
  - intros s fh. eexists _, _. split; [reflexivity|]. apply demo_attrs_decode.
  - intros fh. cbn [t_dir demo_tree]. case_bool_decide; (split; [apply (bool_decide_unpack _); vm_compute; exact I|]);
      repeat constructor; done.
  - intros s fh a _. eexists _, _. split; [reflexivity|]. cbn [pf_FH]. split.
    + exists (drop 1 (from_cookie (rdd_Cookie a) (t_dir demo_tree fh))). split; [by rewrite take_drop|].
      intros E%bool_decide_eq_true. by apply drop_ge.
    + by destruct (from_cookie (rdd_Cookie a) (t_dir demo_tree fh)).
Qed.

(** ** Connections to them *)

Definition demo_conn (minor : Z) : Conn := set_rootFH (Some [x01]) (NewConn baseCaller (demo_cfg minor)).

Lemma demo_connected {S} minor (s : S) : connected P40 minor (mkSt s [] (demo_conn minor)).
Proof. split; [|done]. eexists. split; [reflexivity|]. vm_compute. discriminate. Qed.

Lemma demo_rooted {S} minor (s : S) : rooted P40 minor demo_tree (mkSt s [] (demo_conn minor)).
Proof. split; [apply demo_connected|done]. Qed.

(** A connection over v4.1, with a session of two slots, to the file server. *)
Definition file_st (c : bytes) : St bytes :=
  mkSt c [installed (replicate 16 x07) 2]
    (set_session (retryCaller (sessionCaller baseCaller 0) (withDefaults (mkRetryConfig 0 0 0 None))) 0 (demo_conn 1)).

Lemma file_connected c : connected P41 1 (file_st c).
Proof.
  split; [|done]. exists 0%nat, (withDefaults (mkRetryConfig 0 0 0 None)), (installed (replicate 16 x07) 2).
  split_and!; [done|vm_compute; discriminate|done|apply installed_idle].
Qed.

Definition open_handle (flag offset : Z) : File :=
  mkFileHandle (Ctx 0) (bstr "docs/a") (Some the_file) demo_stateid flag (shareFor flag) offset false.
