(* ===== verification/ClientCorrect.v ===== *)
(** * The client end to end: theorems

    Mounting an export, and instances of the theorems about files and trees on
    connections to the servers of DemoServer: the tree over v4.0, the file
    through a v4.1 session. *)

From S2P Require Import Prelude GoError Nfs4Const GoIO Xdr XdrSpec Rpc RpcClient.
From S2P Require Import Attr AttrCorrect Nfs4Types Nfs4Args Nfs4Res Compound Nfs4Spec Nfs4ResSpec CompoundCorrect.
From S2P Require Import Session Caller CallerCorrect Conn ConnSpec ConnCorrect MountCorrect DialCorrect GoPath Fs.
From S2P Require Import FsSpec FsCorrect DirCorrect File FileSpec FileCorrect FileOpenCorrect ReadAllCorrect Client ClientSpec DemoServer.

(** ** Mounting an export *)

Definition export_elements (export : bytes) : list bytes :=
  if bool_decide (export = []) || bool_decide (export = [slash]) then [] else strings_Split (strings_Trim export).

(** Dialling over v4.0: the handshake, and a connection that owns its client. *)
Lemma dial40_run {S : Type} (serve : Server S) (ctx : Context) (server : bytes) (cred : OpaqueAuth) (st : St S)
    (Hserve : mounts_properly40 serve MinorV40) :
  let '(out, s') := handshake40 serve MinorV40 (client_name (config_of 0)) (st_world st) in
  exists st', @Dial S (served serve) ctx server cred (config_of 0) st = Some ((fun _ => tt) <$> out, st')
    /\ st_world st' = s' /\ (forall id c root, out = inr (id, c, root) ->
         P40 st' /\ MinorVersion (st_conn st') = MinorV40 /\ RootFH (st_conn st') = Some root
         /\ c_session (st_conn st') = None).
Proof.
  set (st0 := mkSt (st_world st) (st_sessions st) (NewConn baseCaller (config_of 0))).
  assert (P40 st0) as HP by (eexists; split; [reflexivity|]; apply withDefaults_attempts).
  pose proof (mount40_run serve ctx st0 eq_refl HP Hserve) as Hm. cbn [st0 st_conn st_world] in Hm.
  change (MinorVersion (NewConn baseCaller (config_of 0))) with MinorV40 in Hm.
  change (client_name (c_cfg (NewConn baseCaller (config_of 0)))) with (client_name (config_of 0)) in Hm.
  destruct (handshake40 serve MinorV40 (client_name (config_of 0)) (st_world st)) as [out s'].
  destruct Hm as (st1 & E1 & Hw1 & HP1 & Hc1).
  unfold Dial. destruct st as [w ss cn]. erewrite M_bind_Some by reflexivity. cbn iota.
  erewrite M_bind_Some by reflexivity. erewrite M_bind_Some by exact E1. destruct out as [err|[[id c] root]].
  - exists st1. by destruct st1.
  - exists (mkSt (st_world st1) (st_sessions st1) (set_rpc true (st_conn st1))). split_and!; try done.
    intros ? ? ? [= <- <- <-]. cbn [st_conn]. rewrite (Hc1 _ _ _ eq_refl). split; [|done].
    eexists. split; [reflexivity|]. apply withDefaults_attempts.
Qed.

(** Closing a v4.0 connection does not fail and sends nothing. *)
Lemma close40_run {S : Type} (serve : Server S) (st : St S) : c_session (st_conn st) = None ->
  exists st', @Conn_Close S (served serve) st = Some (None, st') /\ st_world st' = st_world st
    /\ RootFH (st_conn st') = RootFH (st_conn st).
Proof.
  intros Hs. unfold Conn_Close, teardownSession.
  erewrite M_bind_Some by (erewrite M_bind_Some by apply get_run; rewrite Hs; reflexivity).
  erewrite M_bind_Some by apply get_run. destruct st as [w ss cn]. cbn [st_conn].
  exists (mkSt w ss cn). by destruct (c_rpc cn).
Qed.

(** The mount, and the connection that it leaves: without an error, the root
    handle is the one the handshake gave. *)
Lemma client_mount_run {S : Type} (serve : Server S) (ns : S -> bytes -> bytes -> Z + bytes) (ctx : Context)
    (server export : bytes) (cred : OpaqueAuth) (st : St S)
    (Hserve : mounts_properly40 serve MinorV40) (Hns : resolves serve MinorV40 ns) :
  let '(out, s') := handshake40 serve MinorV40 (client_name (config_of 0)) (st_world st) in
  exists st', @Client_Mount S (served serve) ctx server export cred [] st
    = Some (match out with
            | inl err => inl err
            | inr (_, _, root) =>
                match walk (ns s') root (export_elements export) with
                | inl status => inl (StatusError status)
                | inr _ => inr tt
                end
            end, st')
    /\ st_world st' = s'
    /\ forall id confirm root, out = inr (id, confirm, root) ->
         @p_RootFH (St S) (@conn_protocol S (served serve)) st' = Some root.
Proof.
  pose proof (dial40_run serve ctx server cred st Hserve) as Hd.
  destruct (handshake40 serve MinorV40 (client_name (config_of 0)) (st_world st)) as [out s'].
  destruct Hd as (st2 & E2 & Hw2 & H2). unfold Client_Mount. cbn [fold_left mc_auto mc_minorVersion].
  rewrite (M_bind_Some _ _ _ _ _ E2). destruct out as [err|[[id c] root]]; [by exists st2|].
  destruct (H2 _ _ _ eq_refl) as (HP2 & Hv2 & Hr2 & Hs2). cbn [fmap result_fmap].
  rewrite <- negb_orb. unfold export_elements. destruct (_ || _); cbn [negb].
  - exists st2. split_and!; try done. intros ? ? ? [= <- <- <-]. exact Hr2.
  - set (path := strings_Split (strings_Trim export)).
    destruct (@LookupPath_loop_run S S (served serve) serve P40 st_world (transport40 serve) ns ctx
      path root st2) as (st3 & E3 & HP3 & Hw3 & Hc3); [by rewrite Hv2|done|].
    assert (@LookupPath S (served serve) ctx path st2
      = Some (match walk (ns s') root path with
              | inr fh => inr (Some fh) | inl s => inl (StatusError s) end, st3)) as E.
    { unfold LookupPath. erewrite M_bind_Some by apply get_run. rewrite Hr2. rewrite <- Hw2. exact E3. }
    rewrite (M_bind_Some _ _ _ _ _ E). clear E E3.
    destruct (walk (ns s') root path) as [status|fh].
    + destruct (close40_run serve st3) as (st4 & E4 & Hw4 & Hr4); [by rewrite Hc3|].
      exists st4. erewrite M_bind_Some by exact E4. split_and!; [done|congruence|].
      intros ? ? ? [= <- <- <-]. change (RootFH (st_conn st4) = Some root). by rewrite Hr4, Hc3.
    + exists st3. split_and!; [done|congruence|].
      intros ? ? ? [= <- <- <-]. change (RootFH (st_conn st3) = Some root). by rewrite Hc3.
Qed.

(** C27.  Mounting an export.  Over v4.0, to a server that keeps to the
    protocol, [Mount] performs the handshake and then resolves the export from
    the root it obtained, element by element: an error of either is returned,
    with the server's status; otherwise the client is mounted.  The server is
    left as the handshake left it. *)
Theorem client_mount {S : Type} (serve : Server S) (ns : S -> bytes -> bytes -> Z + bytes) (ctx : Context)
    (server export : bytes) (cred : OpaqueAuth) (st : St S)
    (Hserve : mounts_properly40 serve MinorV40) (Hns : resolves serve MinorV40 ns) :
  let '(out, s') := handshake40 serve MinorV40 (client_name (config_of 0)) (st_world st) in
  exists st', @Client_Mount S (served serve) ctx server export cred [] st
    = Some (match out with
            | inl err => inl err
            | inr (_, _, root) =>
                match walk (ns s') root (export_elements export) with
                | inl status => inl (StatusError status)
                | inr _ => inr tt
                end
            end, st')
    /\ st_world st' = s'.
Proof.
  pose proof (client_mount_run serve ns ctx server export cred st Hserve Hns) as Hrun.
  destruct (handshake40 serve MinorV40 (client_name (config_of 0)) (st_world st)) as [out s'].
  destruct Hrun as (st' & E & Hw & _). by exists st'.
Qed.

(** The handle of the export is dropped: whatever the export, the file systems
    of the client start at the root that the handshake gave. *)
Lemma mounted_root {S : Type} (serve : Server S) (ns : S -> bytes -> bytes -> Z + bytes) (ctx : Context)
    (server export : bytes) (cred : OpaqueAuth) (st : St S) :
  mounts_properly40 serve MinorV40 -> resolves serve MinorV40 ns ->
  let '(out, s') := handshake40 serve MinorV40 (client_name (config_of 0)) (st_world st) in
  forall id confirm root, out = inr (id, confirm, root) ->
  exists r st', @Client_Mount S (served serve) ctx server export cred [] st = Some (r, st')
    /\ @p_RootFH (St S) (@conn_protocol S (served serve)) st' = Some root.
Proof.
  intros Hserve Hns. pose proof (client_mount_run serve ns ctx server export cred st Hserve Hns) as Hrun.
  destruct (handshake40 serve MinorV40 (client_name (config_of 0)) (st_world st)) as [out s'].
  intros id confirm root ->. destruct Hrun as (st' & E & _ & Hr). eexists _, st'. split; [exact E|]. by eapply Hr.
Qed.

Lemma client_mount_witness :
  exists st', @Client_Mount nat (served demo_serve) (Ctx 0) (bstr "server:2049") (bstr "/a/b/") AuthNull []
      (mkSt 0%nat [] (NewConn baseCaller (demo_cfg 0))) = Some (inr tt, st').
Proof.
  pose proof (@client_mount nat demo_serve (fun _ => demo_ns) (Ctx 0) (bstr "server:2049") (bstr "/a/b/") AuthNull
    (mkSt 0%nat [] (NewConn baseCaller (demo_cfg 0)))
    ltac:(split_and!; intros; intros s; cbn; split_and!; done) (demo_resolves _)) as (st' & E & _).
  exists st'. exact E.
Defined.

(** ** Files, through a session

    [file_serve] reads at most two bytes and writes at most three at a time. *)

#[local] Instance file_world : World bytes := served (with_session file_serve).
#[local] Instance file_store : FileStore (connected P41 1) (conn_content st_world file_content) any_request :=
  @conn_store bytes bytes file_world file_serve P41 st_world 1 file_content (transport41 file_serve) (file_server 1).

Lemma file_read_at_witness :
  exists err x', ReadAt (open_handle O_RDONLY 0) (bstr "......") 1 (file_st (bstr "hello"))
    = Some ((4, err, bstr "ello.."), x').
Proof.
  destruct (file_read_at _ _ (open_handle O_RDONLY 0) the_file (bstr "......") 1 (file_st (bstr "hello"))
    eq_refl eq_refl (file_connected _) ltac:(lia) ltac:(vm_compute; reflexivity) I)
    as (n & err & p' & x' & E & _).
  exists err, x'. rewrite E. vm_compute in E. injection E as <- <- <- <-. reflexivity.
Defined.


Lemma file_reads_witness :
  exists outs x', File_reads (open_handle O_RDONLY 1) [bstr "..."; bstr "."; bstr "...."] (file_st (bstr "hello"))
    = Some ((outs, open_handle O_RDONLY 5), x') /\ concat (map delivered outs) = bstr "ello".
Proof.
  destruct (file_reads _ _ (open_handle O_RDONLY 1) the_file [bstr "..."; bstr "."; bstr "...."] (file_st (bstr "hello"))
    eq_refl eq_refl (file_connected _) ltac:(done) ltac:(vm_compute; reflexivity)
    ltac:(repeat constructor; vm_compute; reflexivity) I)
    as (outs & x' & E & _).
  exists outs, x'. rewrite E. vm_compute in E. injection E as <- _ <-. split; reflexivity.
Defined.

Lemma file_write_at_witness :
  exists x', WriteAt (open_handle O_RDWR 0) (bstr "XYZXYZXY") 7 (file_st (bstr "hello")) = Some ((8, None), x')
    /\ st_world x' = bstr "hello" ++ [x00; x00] ++ bstr "XYZXYZXY".
Proof.
  destruct (file_write_at _ _ (open_handle O_RDWR 0) the_file (bstr "XYZXYZXY") 7 (file_st (bstr "hello"))
    eq_refl eq_refl (file_connected _) ltac:(lia) ltac:(vm_compute; reflexivity) I)
    as (n & err & x' & m & E & _).
  exists x'. rewrite E. vm_compute in E. injection E as <- <- <-. split; reflexivity.
Defined.


(** [O_TRUNC] without write access: the file is opened and keeps its content. *)
Lemma truncate_read_only :
  exists f x', OpenFile (Ctx 0) (bstr "a") (Z.lor O_RDONLY O_TRUNC) 0 (file_st (bstr "hello")) = Some (inr f, x')
    /\ st_world x' = bstr "hello".
Proof. eexists _, _. split; vm_compute; reflexivity. Qed.



Lemma file_closed_witness :
  exists f' x, file_steps [CallRead (bstr "..."); CallWrite (bstr "abc"); CallClose; CallSync; CallClose] (open_handle O_RDWR 2)
      (file_st (bstr "hello"))
    = Some (([None; None; None; Some (PathError "sync" (bstr "docs/a") ErrClosed);
              Some (PathError "close" (bstr "docs/a") ErrClosed)], f'), x).
Proof.
  destruct (file_steps [CallRead (bstr "..."); CallWrite (bstr "abc")] (open_handle O_RDWR 2) (file_st (bstr "hello")))
    as [[[errs f1] x1]|] eqn:E; [|vm_compute in E; discriminate].
  destruct (p_CloseFile (Ctx 0) (Some the_file) demo_stateid x1) as [[r x2]|] eqn:Ec;
    [|vm_compute in E; injection E as <- <- <-; vm_compute in Ec; discriminate].
  pose proof (file_closed [CallRead (bstr "..."); CallWrite (bstr "abc")] [CallSync; CallClose] (open_handle O_RDWR 2) f1
    errs r (file_st (bstr "hello")) x1 x2 eq_refl eq_refl E Ec) as H.
  exists (set_closed f1), x2. etransitivity; [exact H|].
  vm_compute in E. injection E as <- <- <-. vm_compute in Ec. injection Ec as <- <-. reflexivity.
Defined.

(** ** A tree, over v4.0

    The root of [demo_tree] has the directory docs, which has the file a;
    [tree_serve] lists one entry a page. *)

Section tree_witnesses.
#[local] Instance tree_world : World unit := served tree_serve.
#[local] Instance tree_store : TreeStore (rooted P40 0 demo_tree) demo_tree anything anything :=
  @conn_tree unit unit tree_world tree_serve P40 st_world 0 demo_tree (transport40 tree_serve) (tree_server 0).

Definition tree_st : St unit := mkSt tt [] (demo_conn 0).

Lemma all_sayable l : Forall anything l.
Proof. by apply Forall_forall. Qed.

Lemma fs_stat_open_witness :
  (exists x, FS_Stat New (bstr "docs/a") tree_st
    = Some (inr (FileInfo (project StandardMask reg_attrs) (bstr "a")), x)) /\
  (exists x, FS_Open New (bstr "docs/b") tree_st = Some (inl (PathError "open" (bstr "docs/b") ErrNotExist), x)).
Proof.
  pose proof (demo_rooted 0 tt : rooted P40 0 demo_tree tree_st) as Hr. split.
  - destruct (fs_stat_open _ demo_tree New (bstr "docs/a") tree_st Hr (all_sayable _)) as (x1 & _ & E & _). exists x1. exact E.
  - destruct (fs_stat_open _ demo_tree New (bstr "docs/b") tree_st Hr (all_sayable _)) as (_ & x2 & _ & _ & E & _). exists x2. exact E.
Defined.

Lemma fs_readdir_witness :
  exists x, FS_ReadDir 4 New (bstr "docs") tree_st
    = Some (inr [FileInfo (project StandardMask reg_attrs) (bstr "a")], x).
Proof.
  destruct (fs_readdir _ demo_tree New (bstr "docs") [x02] 4 tree_st (demo_rooted 0 tt) eq_refl (all_sayable _) eq_refl
    ltac:(vm_compute; lia)) as (x & E & _).
  exists x. rewrite E. reflexivity.
Defined.

Lemma dir_chunks_witness :
  exists d' x', dirFile_reads 4 [1; 1; 0] (mkDirFile New (Some [x02]) (bstr "docs") dir_attrs [] false 0) tree_st
    = Some (([inr [FileInfo (project StandardMask reg_attrs) (bstr "a")]; inl EOF; inr []], d'), x').
Proof.
  destruct (dir_chunks _ demo_tree New [x02] (bstr "docs") dir_attrs 4 [1; 1; 0] tree_st (demo_rooted 0 tt)
    I ltac:(vm_compute; lia) ltac:(repeat constructor)) as (rs & d' & x' & E & H).
  exists d', x'. assert (infos (t_dir demo_tree [x02]) = inr [FileInfo (project StandardMask reg_attrs) (bstr "a")]) as Ei
    by (vm_compute; reflexivity).
  rewrite Ei in H. destruct H as [-> _]. exact E.
Defined.

Lemma file_open_witness :
  exists x, OpenFile (Ctx 0) (bstr "docs/a") (Z.lor O_RDWR O_TRUNC) 420 tree_st
    = Some (inr (mkFileHandle (Ctx 0) (bstr "docs/a") (Some [x03]) demo_stateid 514 OpenShareAccessBoth 0 false), x).
Proof.
  destruct (file_open _ demo_tree (Ctx 0) (bstr "docs/a") (Z.lor O_RDWR O_TRUNC) 420 tree_st (demo_rooted 0 tt) eq_refl (all_sayable _)
    (fun _ => eq_refl)) as (x1 & _ & El & H). vm_compute in El. injection El as <-.
  pose proof (H _ _ eq_refl _ _ eq_refl) as E. eexists. exact E.
Defined.
End tree_witnesses.
