(* ===== verification/SharedDemo.v ===== *)
(** * Goroutines on the file of DemoServer

    Interleavings of calls on one open file, through a v4.1 session with a
    server that reads at most two bytes and writes at most three at a time. *)

From S2P Require Import Prelude GoError Nfs4Const GoIO Xdr XdrSpec Rpc RpcClient.
From S2P Require Import Attr AttrCorrect Nfs4Types Nfs4Args Nfs4Res Compound Nfs4Spec Nfs4ResSpec CompoundCorrect.
From S2P Require Import Session Caller CallerCorrect Conn ConnSpec ConnCorrect GoPath Fs File FileSpec FileCorrect.
From S2P Require Import FileOpenCorrect FileShared FileSharedCorrect FileCloseCorrect FileParallelCorrect Client ClientSpec DemoServer.

#[local] Instance file_world : World bytes := served (with_session file_serve).
#[local] Instance file_store : FileStore (connected P41 1) (conn_content st_world file_content) any_request :=
  @conn_store bytes bytes file_world file_serve P41 st_world 1 file_content (transport41 file_serve) (file_server 1).

(** Where an interleaving leads. *)
Definition demo_run (acts : list file_action) (s : sharing (St bytes)) : sharing (St bytes) := default s (run_file acts s).

(** A [Write] of two requests has the lock first; a [Read] waits for it; another
    finds the file closed while the CLOSE is still to be sent. *)
Definition serial_acts : list file_action :=
  [ActCall (CallRead (bstr "..")); ActCall (CallWrite (bstr "abcd")); ActLock 1; ActRequest 0; ActCall CallClose;
   ActRequest 0; ActReturn 0; ActLock 0; ActRequest 1; ActReturn 1; ActLock 0; ActCall (CallRead (bstr "."));
   ActLock 0; ActReturn 3; ActRequest 2; ActReturn 2].

Lemma file_serialised_witness :
  exists x', whole_calls [CallWrite (bstr "abcd"); CallRead (bstr ".."); CallClose; CallRead (bstr ".")]
      (open_handle O_RDWR 0) (file_st (bstr "hello"))
    = Some (([AnsWrite 4 None; AnsRead 1 None (bstr "o."); AnsDone (inr tt);
              AnsRead 0 (Some (PathError "read" (bstr "docs/a") ErrClosed)) (bstr ".")],
             set_closed (open_handle O_RDWR 5)), x').
Proof.
  set (s := demo_run serial_acts (sharing_of (open_handle O_RDWR 0) (file_st (bstr "hello")))).
  exists (sh_world s).
  assert (calls_entered s = [CallWrite (bstr "abcd"); CallRead (bstr ".."); CallClose; CallRead (bstr ".")]) as Hc
    by (vm_compute; reflexivity).
  assert (sh_file s = set_closed (open_handle O_RDWR 5)) as Hf by (vm_compute; reflexivity).
  rewrite <- Hc, <- Hf. apply (file_serialised (open_handle O_RDWR 0) (file_st (bstr "hello")) serial_acts s);
    vm_compute; reflexivity.
Defined.

(** Three goroutines share the reading of a file. *)
Definition reading_acts : list file_action :=
  [ActCall (CallRead (bstr "...")); ActCall (CallRead (bstr "..")); ActLock 1; ActRequest 0; ActCall (CallRead (bstr "..."));
   ActReturn 0; ActLock 1; ActRequest 1; ActReturn 1; ActLock 0; ActRequest 2; ActReturn 2].

Lemma shared_reads_witness :
  let s := demo_run reading_acts (sharing_of (open_handle O_RDONLY 0) (file_st (bstr "hello"))) in
  bstr "hello" = slice 0 5 (bstr "hello") /\ sh_file s = open_handle O_RDONLY 5.
Proof.
  intros s. destruct (shared_reads _ _ (open_handle O_RDONLY 0) the_file [bstr ".."; bstr "..."; bstr "..."]
    [AnsRead 2 None (bstr "he"); AnsRead 2 None (bstr "ll."); AnsRead 1 None (bstr "o..")]
    (file_st (bstr "hello")) reading_acts s eq_refl eq_refl (file_connected _) ltac:(done) ltac:(vm_compute; reflexivity)
    ltac:(repeat constructor; vm_compute; reflexivity) I ltac:(vm_compute; reflexivity) ltac:(vm_compute; reflexivity)
    ltac:(vm_compute; reflexivity)) as (E & Ef & _).
  split; [exact E|exact Ef].
Defined.

(** A [WriteAt] that looked at [closed] before a [Close] and writes after it. *)
Definition late_acts : list file_action :=
  [ActCall (CallWriteAt (bstr "XYZ") 0); ActCall CallClose; ActLock 0; ActLock 0; ActRequest 1; ActReturn 1;
   ActRequest 0; ActReturn 0].

Lemma file_close_once_witness :
  let s := demo_run late_acts (sharing_of (open_handle O_RDWR 0) (file_st (bstr "hello"))) in
  map (fun r => (r.1, is_close_request r.2)) (sh_trace s) = [(1%nat, true); (0%nat, false)]
  /\ Forall (fun r => on_handle (handle (open_handle O_RDWR 0)) r.2) (sh_trace s).
Proof.
  intros s. split; [vm_compute; reflexivity|].
  assert (run_file late_acts (sharing_of (open_handle O_RDWR 0) (file_st (bstr "hello"))) = Some s) as Hrun
    by (vm_compute; reflexivity).
  destruct (file_close_once (open_handle O_RDWR 0) (file_st (bstr "hello")) late_acts s eq_refl Hrun) as [Ht _].
  exact Ht.
Defined.

(** Two writers and a reader whose requests alternate. *)
Definition parallel_acts : list file_action :=
  [ActCall (CallWriteAt (bstr "ABCD") 0); ActCall (CallWriteAt (bstr "uvwx") 6); ActCall (CallReadAt (bstr "..") 4);
   ActLock 0; ActLock 0; ActLock 0; ActRequest 0; ActRequest 1; ActRequest 2; ActRequest 1; ActRequest 0; ActReturn 1;
   ActReturn 0; ActReturn 2].

Lemma file_parallel_at_witness :
  let s := demo_run parallel_acts (sharing_of (open_handle O_RDWR 0) (file_st (bstr "hello"))) in
  slice 0 4 (conn_content st_world file_content (sh_world s) the_file) = bstr "ABCD".
Proof.
  intros s. destruct (file_parallel_at _ _ (open_handle O_RDWR 0) the_file (file_st (bstr "hello")) parallel_acts s
    eq_refl eq_refl (file_connected _)) as (H & _).
  - change (calls_entered s) with [CallWriteAt (bstr "ABCD") 0; CallWriteAt (bstr "uvwx") 6; CallReadAt (bstr "..") 4].
    repeat constructor; done.
  - vm_compute; reflexivity.
  - destruct (H 0%nat (CallWriteAt (bstr "ABCD") 0) (Returned (AnsWrite 4 None)) ltac:(vm_compute; reflexivity)) as [_ Ha].
    refine (proj2 (proj2 (Ha _)) eq_refl).
    change (calls_entered s) with [CallWriteAt (bstr "ABCD") 0; CallWriteAt (bstr "uvwx") 6; CallReadAt (bstr "..") 4].
    intros [|[|[|j]]] c' Hj E; try done; injection E as <-; [left; vm_compute; discriminate|done].
Defined.
