(* ===== verification/WireStoreCorrect.v ===== *)
(** * The client on bytes: instances

    The servers of DemoServer behind a byte stream: their answers have a wire
    form, so the theorems of WireCorrect and WireStore apply to them, and files
    are read and written and directories listed by records. *)

From S2P Require Import Prelude GoError Nfs4Const GoIO Xdr XdrSpec Rpc RpcClient.
From S2P Require Import Attr AttrCorrect Nfs4Types Nfs4Args Nfs4Res Compound Nfs4Spec Nfs4ResSpec CompoundCorrect.
From S2P Require Import Session Caller CallerCorrect Conn ConnSpec ConnCorrect MountCorrect DialCorrect GoPath Fs.
From S2P Require Import FsSpec FsCorrect DirCorrect File FileSpec FileCorrect FileOpenCorrect ReadAllCorrect Client ClientSpec DemoServer ClientCorrect.
From S2P Require Import Rpc RpcCorrect Wire WireCorrect WireStore.

(** ** The file server on bytes *)

Lemma file_serve_sees : sees_the_wire file_serve.
Proof.
  intros s minor ops. destruct ops as [|a1 ops]; [done|].
  destruct a1; try reflexivity; (destruct ops as [|a2 ops]; [done|]); destruct a2; try reflexivity;
    (destruct ops as [|a3 ops]; [done|]); destruct a3; try reflexivity; by destruct ops.
Qed.

Definition wire_client : Client := mkClient (mkNetConn [] (mkWriter [] None)) (mkClientOptions AuthNull AuthNull) 7.

(** The connection of [file_st], its RPC client on a byte stream to the file server. *)
Definition wire_st (c : bytes) : St (bytes * Client) :=
  mkSt (c, wire_client) (st_sessions (file_st c)) (st_conn (file_st c)).

Definition read_compound : Compound :=
  mkCompound [] 1 [APutfh (mkPutfhArgs the_file); ARead (mkReadArgs AnonStateid 1 4)].

Lemma wire_client_usable : usable wire_client.
Proof. split; [by exists []|]. split; decide_wf. Qed.

Lemma read_compound_carried :
  carried wire_client (with_sequence (installed (replicate 16 x07) 2) read_compound)
    [RSequence zeroSequenceRes; RStatus zeroStatusRes; RRead zeroReadRes]
    (sequenced (installed (replicate 16 x07) 2) (NFS4_OK, [(OpPutfh, PVoid); (OpRead, PRead false (bstr "el"))])).
Proof.
  split.
  - split; [vm_compute; discriminate|]. split; [decide_wf|]. split; [reflexivity|]. unfold with_sequence, sequence_for. cbn [cp_ops read_compound]. closed_ok.
  - vm_compute. discriminate.
  - decide_wf.
  - exists [RSequence zeroSequenceRes; RStatus zeroStatusRes; RRead zeroReadRes], []. split; [reflexivity|].
    repeat constructor; try decide_wf; by right.
  - reflexivity.
  - vm_compute. discriminate.
Qed.

Lemma wire_stack_witness :
  exists st', @CallCompound (bytes * Client) (wired (with_session file_serve)) (c_caller (st_conn (wire_st [])))
      (Ctx 0) read_compound [RStatus zeroStatusRes; RRead zeroReadRes] (wire_st (bstr "hello"))
    = Some ((answer [] (NFS4_OK, [(OpPutfh, PVoid); (OpRead, PRead false (bstr "el"))]),
             [RStatus (mkStatusRes NFS4_OK); RRead (mkReadRes NFS4_OK false (bstr "el"))]), st').
Proof.
  destruct (wire_stack file_serve 0 (installed (replicate 16 x07) 2) (withDefaults (mkRetryConfig 0 0 0 None)) (Ctx 0)
    read_compound [RStatus zeroStatusRes; RRead zeroReadRes] (wire_st (bstr "hello")) (bstr "hello") (bstr "hello")
    wire_client (NFS4_OK, [(OpPutfh, PVoid); (OpRead, PRead false (bstr "el"))]) file_serve_sees eq_refl
    wire_client_usable eq_refl (installed_idle _ _) ltac:(vm_compute; discriminate) eq_refl ltac:(vm_compute; reflexivity)
    eq_refl read_compound_carried) as (cl' & E & _).
  eexists. exact E.
Defined.

(** An open file, run on bytes: each WRITE and READ goes out as a record and is
    served from its bytes. *)
Lemma wire_file :
  let P : RWProtocol (St (bytes * Client)) := @conn_rwprotocol _ (wired (with_session file_serve)) in
  match @WriteAt _ P (open_handle O_RDWR 0) (bstr "abcdefg") 3 (wire_st (bstr "hello")) with
  | Some ((7, None), x1) =>
      (st_world x1).1 = bstr "helabcdefg" /\
      match @ReadAt _ P (open_handle O_RDWR 0) (bstr ".....") 2 x1 with
      | Some ((5, None, got), _) => got = bstr "labcd"
      | _ => False
      end
  | _ => False
  end.
Proof. vm_compute. split; reflexivity. Qed.

(** The answers of the file server have a wire form. *)

Lemma blen_the_slice off n c : blen (slice off (Z.min n 2) c) <= 2.
Proof. unfold slice, btake, blen. rewrite length_take. lia. Qed.

Lemma serve_read_ok s fh a : arg_ok (ARead a) -> answer_ok [APutfh fh; ARead a] (serve_read s (pf_FH fh) a).
Proof.
  intros Ha. unfold serve_read. set (data := slice _ _ _). assert (blen data <= 2) by apply blen_the_slice.
  apply two_resops_ok; [done|apply putfh_ok| |].
  - split; cbn; try done; [by right|unfold fits; lia].
  - cbn [snd wire_resop]. wire_size. sizes. lia.
Qed.

Lemma serve_write_ok s fh a : answer_ok [APutfh fh; AWrite a] (serve_write s (pf_FH fh) a).1.
Proof.
  unfold serve_write. destruct (_ && _); cbn [fst].
  - assert (blen (btake 3 (wr_Data a)) <= 3) by (unfold btake, blen; rewrite length_take; lia).
    pose proof (blen_nonneg (btake 3 (wr_Data a))).
    apply two_resops_ok; [done|apply putfh_ok| |].
    + split; try (cbn; done); [by right|]. cbn [reply_valid snd]. split; [split; lia|]. split; [done|]. by vm_compute.
    + cbn [snd wire_resop]. wire_size.
      change (blen demo_verf) with 8 in *. sizes. lia.
  - apply two_resops_ok; [done|apply putfh_ok|split; try done; by right|vm_compute; discriminate].
Qed.

Lemma serve_size_ok s fh a : answer_ok [APutfh fh; AGetattr a] (serve_size s (pf_FH fh)).
Proof.
  unfold serve_size. destruct (_ <? _).
  - set (n := blen _). assert (fattr_vals [16] (sized_attrs n) = wire_u64 n) as -> by reflexivity. clearbody n.
    apply two_resops_ok; [done|apply putfh_ok| |].
    + split; try (cbn; done); [by right|]. cbn [reply_valid snd]. split; [split; [done|by repeat constructor]|]. unfold fits. rewrite blen_wire_u64. lia.
    + cbn [snd wire_resop]. change (wire_bitmap [16]) with (wire_u32 1 ++ wire_u32 16 ++ []). wire_size.
      rewrite ?blen_nil, ?blen_wire_u64 in *. sizes. lia.
  - apply two_resops_ok; [done|apply putfh_ok|split; try done; by right|vm_compute; discriminate].
Qed.

Lemma serve_open_ok fh a : answer_ok [APutfh fh; AOpen a; AGetfh]
  (opened demo_stateid (mkChangeInfo true 1 2) 0 [] DelegNone the_file).
Proof.
  split; [done| |vm_compute; discriminate].
  exists [RStatus zeroStatusRes; ROpen zeroOpenRes; RGetfh zeroGetfhRes], []. split; [done|].
  constructor; [apply (putfh_ok fh)|]. constructor; [|constructor; [|done]].
  - split; [done|done|by right| |done]. cbn [reply_valid snd]. split_and!; try done; decide_wf.
  - split; [done|done|by right|by vm_compute|done].
Qed.

#[local] Instance wire_file_server : WireServer file_serve.
Proof.
  split; [apply file_serve_sees|]. intros s minor ops Hops.
  assert (forall ops, answer_ok ops (NFS4ERR_NOTSUPP, [])) as Hno by (intros; by apply refused_ok).
  destruct ops as [|a1 ops]; [apply Hno|]. destruct a1; try (apply Hno); (destruct ops as [|a2 ops]; [apply Hno|]);
    destruct a2; try (apply Hno); destruct ops as [|a3 ops]; try (apply Hno).
  - apply two_resops_ok; [done|split; try done; by left|split; try done; by right|vm_compute; discriminate].
  - apply serve_size_ok.
  - apply serve_read_ok. by apply Forall_cons in Hops as [_ [? _]%Forall_cons].
  - destruct a3; try (apply Hno); destruct ops; try (apply Hno). apply serve_open_ok.
  - apply serve_write_ok.
  - apply two_resops_ok; [done|apply putfh_ok| |vm_compute; discriminate].
    split; [done|done|by right|decide_wf|done].
Qed.

Lemma wire_connected c : connected P41w 1 (wire_st c).
Proof.
  split; [|done]. exists 0%nat, (withDefaults (mkRetryConfig 0 0 0 None)), (installed (replicate 16 x07) 2).
  split; [done|]. split; [vm_compute; discriminate|]. split; [done|]. split; [apply installed_idle|].
  split; [split_and!; decide_wf|]. split; [apply wire_client_usable|split; vm_compute; discriminate].
Qed.

Lemma wire_files_witness :
  let P : RWProtocol (St (bytes * Client)) := @conn_rwprotocol _ (wired (with_session file_serve)) in
  exists data eof x1, @p_Read _ rw_Protocol (Ctx 0) (Some the_file) 1 4 (wire_st (bstr "hello")) = Some (inr (data, eof), x1)
    /\ (st_world x1).1 = bstr "hello" /\ data = slice 1 (blen data) (bstr "hello") /\ data = bstr "el".
Proof.
  intros P. pose proof (proj2 (wire_files file_serve 1 file_content ltac:(done))) as Hstore.
  destruct (@store_read _ P _ _ _ Hstore (Ctx 0) the_file demo_stateid 1 4 (wire_st (bstr "hello")) (wire_connected _)
    ltac:(split; [vm_compute; discriminate|split; [decide_wf|vm_compute; split; discriminate]]) ltac:(done) ltac:(done))
    as (res & x1 & E & _ & Hc & Hres).
  destruct res as [e|[data eof]]; [vm_compute in E; discriminate|]. exists data, eof, x1. split; [exact E|].
  split; [exact (f_equal (fun c => c the_file) Hc)|]. split; [exact (proj1 Hres)|].
  vm_compute in E. injection E as <- _ _. reflexivity.
Defined.

(** ** The tree on bytes *)

Lemma tree_serve_sees : sees_the_wire tree_serve.
Proof.
  intros s minor ops. destruct ops as [|a1 ops]; [done|].
  destruct a1; try reflexivity; (destruct ops as [|a2 ops]; [done|]); destruct a2; try reflexivity;
    (destruct ops as [|a3 ops]; [done|]); destruct a3; try reflexivity; by destruct ops.
Qed.

Lemma demo_names_status fh name st : t_names demo_tree fh name = inl st -> st = NFS4ERR_NOENT.
Proof. cbn [t_names demo_tree]. repeat case_bool_decide; by intros [= <-]. Qed.

Lemma demo_names_small fh name fh' : t_names demo_tree fh name = inr fh' -> blen fh' = 1.
Proof. cbn [t_names demo_tree]. repeat case_bool_decide; by intros [= <-]. Qed.

Definition small_entry (e : DirEntry) : Prop := entry_ok e /\ blen (wire_entry e) <= 1024.

Lemma demo_listing_small fh : Forall small_entry (t_dir demo_tree fh).
Proof.
  cbn [t_dir demo_tree]. case_bool_decide; [|done].
  repeat constructor; try (by vm_compute); try apply StandardMask_ok; vm_compute; discriminate.
Qed.

Lemma Forall_from_cookie (Q : DirEntry -> Prop) cookie l : Forall Q l -> Forall Q (from_cookie cookie l).
Proof.
  intros Hl. unfold from_cookie. case_match; [done|]. induction Hl as [|e l He Hl IH]; cbn [after_cookie]; [done|].
  by case_match.
Qed.

Lemma tree_page_ok fh a : answer_ok [APutfh fh; AReaddir a]
  (let left := from_cookie (rdd_Cookie a) (t_dir demo_tree (pf_FH fh)) in
   (NFS4_OK, [(OpPutfh, PVoid); (OpReaddir, PReaddir demo_verf (take 1 left) (bool_decide (length left <= 1)%nat))])).
Proof.
  pose proof (Forall_from_cookie _ (rdd_Cookie a) _ (demo_listing_small (pf_FH fh))) as Hl. cbn zeta.
  set (left := from_cookie _ _) in *. set (eof := bool_decide _). clearbody left eof.
  apply two_resops_ok; [done|apply putfh_ok| |].
  - split; [done|done|by right| |done]. cbn [reply_valid snd]. split; [done|].
    destruct Hl as [|e l [He _] _]; [done|]. by constructor.
  - cbn [snd wire_resop]. unfold wire_dirlist. wire_size. change (blen demo_verf) with 8 in *.
    destruct Hl as [|e l [_ He] _]; rewrite ?firstn_cons, ?firstn_nil, ?take_0; cbn [map concat]; repeat rewrite blen_app;
      rewrite ?blen_wire_bool, ?blen_nil; sizes; lia.
Qed.

Lemma tree_lookup_ok fh name : answer_ok [APutfh fh; ALookup name; AGetfh]
  match t_names demo_tree (pf_FH fh) (lk_Name name) with
  | inr fh' => (NFS4_OK, [(OpPutfh, PVoid); (OpLookup, PVoid); (OpGetfh, PGetfh fh')])
  | inl st => (st, [(OpPutfh, PVoid); (OpLookup, PFail st)])
  end.
Proof.
  destruct (t_names demo_tree (pf_FH fh) (lk_Name name)) as [st|fh'] eqn:E.
  - apply demo_names_status in E as ->. apply some_resops_ok; [done| |vm_compute; discriminate]. cbn [length take map res_for].
    constructor; [apply (putfh_ok fh)|]. constructor; [|done]. split; try done. by left.
  - pose proof (demo_names_small _ _ _ E) as Hs. apply some_resops_ok; [done| |].
    + cbn [length take map res_for]. constructor; [apply (putfh_ok fh)|]. constructor; [split; try done; by left|]. constructor; [|done].
      split; try done; [by right|]. cbn. unfold fits. lia.
    + unfold wire_compound_res, wire_resops. cbn [map concat]. cbn [snd wire_resop]. wire_size. rewrite ?blen_nil in *. sizes. lia.
Qed.

Lemma tree_getattr_ok fh a : answer_ok [APutfh fh; AGetattr a]
  (NFS4_OK, [(OpPutfh, PVoid); (OpGetattr, PGetattr StandardMask (fattr_vals StandardMask (demo_attrs (pf_FH fh))))]).
Proof.
  assert (blen (fattr_vals StandardMask (demo_attrs (pf_FH fh))) <= 1024) as Hv
    by (unfold demo_attrs; case_bool_decide; vm_compute; discriminate).
  pose proof blen_wire_mask. apply two_resops_ok; [done|apply putfh_ok| |].
  - split; try done; [by right|]. split; [apply StandardMask_ok|unfold fits; lia].
  - cbn [snd wire_resop]. wire_size. sizes. lia.
Qed.

Lemma tree_setattr_ok fh a : arg_ok (ASetattr a) -> answer_ok [APutfh fh; ASetattr a]
  (NFS4_OK, [(OpPutfh, PVoid); (OpSetattr, PSetattr NFS4_OK (take 3 (sa_AttrMask a)))]).
Proof.
  intros (_ & [Hn Hw] & _). assert (bitmap_ok (take 3 (sa_AttrMask a))) as Hm.
  { split; [unfold blen in *; rewrite length_take; lia|by apply Forall_take]. }
  apply two_resops_ok; [done|apply putfh_ok| |].
  - by split; [|..|right|split|].
  - cbn [snd wire_resop]. unfold wire_bitmap. wire_size.
    assert (blen (concat (map wire_u32 (take 3 (sa_AttrMask a)))) <= 12); [|sizes; lia].
    destruct (sa_AttrMask a) as [|x [|y [|z l]]]; cbn [take map concat]; repeat rewrite blen_app;
      rewrite ?take_0; cbn [map concat]; rewrite ?blen_wire_u32, ?blen_nil; lia.
Qed.

#[local] Instance wire_tree_server : WireServer tree_serve.
Proof.
  split; [apply tree_serve_sees|]. intros s minor ops Hops. unfold tree_serve. cbn [fst].
  assert (forall ops, answer_ok ops (NFS4ERR_NOTSUPP, [])) as Hno by (intros; by apply refused_ok).
  destruct ops as [|[] ops]; try apply Hno.
  destruct ops as [|[] [|[] ops]]; try apply Hno; try (destruct ops; [|apply Hno]).
  - apply tree_lookup_ok.
  - apply tree_getattr_ok.
  - apply tree_page_ok.
  - apply serve_open_ok.
  - apply tree_setattr_ok. by apply Forall_cons in Hops as [_ [Ha _]%Forall_cons].
Qed.

Lemma demo_tree_small : small_tree demo_tree.
Proof.
  split; [vm_compute; discriminate| |done]. intros fh name fh' E. unfold small_handle. rewrite (demo_names_small _ _ _ E). lia.
Qed.

Definition wire_tree_st : St (unit * Client) :=
  mkSt (tt, wire_client) (st_sessions (wire_st [])) (st_conn (wire_st [])).

Lemma wire_rooted : rooted P41w 1 demo_tree wire_tree_st.
Proof. split; [|done]. exact (conj (proj1 (wire_connected [])) eq_refl). Qed.

(** A listing of three pages, each from the bytes of a reply. *)
Lemma wire_trees_witness :
  let P : Protocol (St (unit * Client)) := @conn_protocol _ (wired (with_session tree_serve)) in
  exists x, @readDirAll _ P 4 New (Some [x02]) wire_tree_st
    = Some (inr [FileInfo (project StandardMask reg_attrs) (bstr "a")], x).
Proof.
  intros P. pose proof (proj2 (wire_trees tree_serve 1 demo_tree ltac:(done) demo_tree_small)) as Hstore.
  destruct (@readDirAll_run _ P _ _ _ _ Hstore New [x02] 4 wire_tree_st ltac:(vm_compute; lia) wire_rooted
    ltac:(vm_compute; discriminate)) as (x & E & _).
  exists x. rewrite E. vm_compute. reflexivity.
Defined.
